(** * NOFX trader engine: a shallow embedding of the Go sources

    The development follows the layout of the repository:

    - [storage]       : [backend/pkg/storage/trade.go] (the [trades] table);
    - [positionlogic] : the position-logic store (table [position_logic]);
    - [logger]        : the decision-log records ([DecisionAction],
                        [TradeRecord], [DecisionRecord]);
    - [decision]      : the LLM decision record and the trading context,
                        and the validation of [backend/pkg/decision/engine.go];
    - [trader]        : [backend/pkg/trader/auto_trader.go],
                        [margin_safety_check.go] and [constants.go].

    Conventions.
    - Go [float64] prices, quantities and percentages are rationals ([Q]);
      a comparison [a < b] of the source is the boolean test [Qltb a b].
      Arithmetic is exact, except in the two percentages of the account
      risk check (drawdown and daily loss), whose tests at the limit depend
      on the rounding: there every operation is followed by the binary64
      rounding [fl].  A division by zero gives 0 in [Q] and an infinity or a
      NaN in Go: the divisions of the modelled code are either guarded by the
      source itself ([dailyStartEquity > 0], [peakEquity > 0],
      [marginUsed > 0]) or taken at a non-zero divisor in the statements
      below.
    - [time.Time] is an integer number of milliseconds since the epoch;
      durations are milliseconds.  The zero [time.Time] is [0].
    - Go maps are [gmap]s, the set of keys of the lock table a [gset];
      SQL tables are lists of rows in insertion order.
    - A Go [error] is an [option string]: [None] is [nil].
    - Calls that leave the process (exchange, market data, clock) are not
      modelled by an implementation: every function receives the answers of
      its external calls as an explicit argument, one field per call site.
    - The storage adapter and its trade, decision and position-logic stores
      are present (the [!= nil] tests of the source succeed); log output is
      not modelled. *)

From Stdlib Require Import ZArith QArith Qabs Qround Qpower Lqa Lia List Ascii String Bool Sorted.
From stdpp Require Import gmap strings pretty.
Import ListNotations.

Local Open Scope string_scope.
Local Open Scope list_scope.

(** ** Numeric helpers *)

Definition Qltb (x y : Q) : bool := negb (Qle_bool y x).
Definition Qleb (x y : Q) : bool := Qle_bool x y.
Definition Qgtb (x y : Q) : bool := Qltb y x.
Definition Qgeb (x y : Q) : bool := Qleb y x.
Definition Qeqb (x y : Q) : bool := Qeq_bool x y.

(** [float64(n)] for an [int] [n]. *)
Definition float64 (n : Z) : Q := inject_Z n.

(** IEEE 754 binary64 rounding of a rational: the nearest number of the form
    [m * 2^q] with [|m| < 2^53] and [q >= -1074], ties going to the even
    [m].  The exponent is not bounded above (no overflow to infinity): the
    amounts handled are far below [2^1024]. *)
Definition roundHalfEven (q : Q) : Z :=
  let f := Qfloor q in
  match ((q - inject_Z f) * 2 ?= 1)%Q with
  | Lt => f
  | Gt => (f + 1)%Z
  | Eq => if Z.even f then f else (f + 1)%Z
  end.

(** The exponent [e] with [2^e <= |x| < 2^(e+1)], for [x] other than 0. *)
Definition ilog2 (x : Q) : Z :=
  let m := Qabs x in
  if Qle_bool 1 m then Z.log2 (Qfloor m)
  else (- Z.log2_up (Qceiling (/ m)))%Z.

Definition fl (x : Q) : Q :=
  if Qeq_bool x 0 then 0%Q
  else
    let q := Z.max (ilog2 x - 52) (-1074) in
    (inject_Z (roundHalfEven (x / Qpower 2 q)) * Qpower 2 q)%Q.

(** Go's [error]. *)
Definition error := option string.

Definition strNonEmpty (s : string) : bool := negb (String.eqb s "").

(** Durations, in milliseconds. *)
Definition Second : Z := 1000.
Definition Minute : Z := 60 * Second.
Definition Hour : Z := 60 * Minute.

(** ** storage/trade.go: the [trades] table *)

Module storage.

(** The TEXT columns of the table that [CreateTrade] leaves unset.  They
    have no [NOT NULL] and no [DEFAULT] in [initTable], so they are [NULL]
    until an [UPDATE] writes them. *)
Inductive TextColumn :=
| close_reason | forced_reason | duration | error_text
| update_sl_logic | update_tp_logic | close_logic | forced_close_logic.

(** [storage.TradeRecord]; [CloseTime] is a [*time.Time], [None] is [nil]
    (SQL [NULL]).  [Duration] is kept as a number of milliseconds (the source
    stores its textual rendering).

    The record doubles as the row of the table.  [NullColumns] belongs to
    the row only: it lists the TEXT columns of the row that are [NULL] (the
    string field of such a column is kept empty).  The Go struct has no such
    field: the functions below never read it from their [trade] argument,
    and every record returned by a query has an empty list. *)
Record TradeRecord := mkTradeRecord {
  TradeID : string;
  Symbol : string;
  Side : string;
  OpenTime : Z;
  OpenPrice : Q;
  OpenQuantity : Q;
  OpenLeverage : Z;
  OpenOrderID : Z;
  OpenReason : string;
  OpenCycleNum : Z;
  CloseTime : option Z;
  ClosePrice : Q;
  CloseQuantity : Q;
  CloseOrderID : Z;
  CloseReason : string;
  CloseCycleNum : Z;
  IsForced : bool;
  ForcedReason : string;
  Duration : Z;
  PositionValue : Q;
  MarginUsed : Q;
  PnL : Q;
  PnLPct : Q;
  WasStopLoss : bool;
  Success : bool;
  Error : string;
  EntryLogic : string;
  ExitLogic : string;
  UpdateSLLogic : string;
  UpdateTPLogic : string;
  CloseLogic : string;
  ForcedCloseLogic : string;
  NullColumns : list TextColumn
}.

(** The table: rows in insertion (rowid) order. *)
Definition table := list TradeRecord.

(** [trade_id TEXT PRIMARY KEY] and [UNIQUE(symbol, open_time)] of
    [initTable]: an [INSERT] of [t] is refused when a row [r] has the same
    trade id or the same (symbol, open_time). *)
Definition sameKey (symbol : string) (openTime : Z) (r : TradeRecord) : bool :=
  String.eqb (Symbol r) symbol && Z.eqb (OpenTime r) openTime.

Definition conflicts (t r : TradeRecord) : bool :=
  String.eqb (TradeID r) (TradeID t) || sameKey (Symbol t) (OpenTime t) r.

Definition insertRow (tbl : table) (row : TradeRecord) : error * table :=
  if existsb (conflicts row) tbl
  then (Some "constraint failed", tbl)
  else (None, tbl ++ [row]).

(** [LogTrade]: one [INSERT] of every column of [trade]: no TEXT column of
    the new row is [NULL]. *)
Definition fullRow (trade : TradeRecord) : TradeRecord :=
  {| TradeID := TradeID trade; Symbol := Symbol trade; Side := Side trade;
     OpenTime := OpenTime trade; OpenPrice := OpenPrice trade;
     OpenQuantity := OpenQuantity trade; OpenLeverage := OpenLeverage trade;
     OpenOrderID := OpenOrderID trade; OpenReason := OpenReason trade;
     OpenCycleNum := OpenCycleNum trade;
     CloseTime := CloseTime trade; ClosePrice := ClosePrice trade;
     CloseQuantity := CloseQuantity trade; CloseOrderID := CloseOrderID trade;
     CloseReason := CloseReason trade; CloseCycleNum := CloseCycleNum trade;
     IsForced := IsForced trade; ForcedReason := ForcedReason trade;
     Duration := Duration trade;
     PositionValue := PositionValue trade; MarginUsed := MarginUsed trade;
     PnL := PnL trade; PnLPct := PnLPct trade; WasStopLoss := WasStopLoss trade;
     Success := Success trade; Error := Error trade;
     EntryLogic := EntryLogic trade; ExitLogic := ExitLogic trade;
     UpdateSLLogic := UpdateSLLogic trade; UpdateTPLogic := UpdateTPLogic trade;
     CloseLogic := CloseLogic trade; ForcedCloseLogic := ForcedCloseLogic trade;
     NullColumns := [] |}.

Definition LogTrade (tbl : table) (trade : TradeRecord) : error * table :=
  insertRow tbl (fullRow trade).

(** [CreateTrade]: [INSERT] of the open-side columns only; the other columns
    take the defaults of the schema: [close_time] is [NULL], the numeric
    columns are 0, and the eight TEXT columns that the statement does not
    name are [NULL]. *)
Definition unsetColumns : list TextColumn :=
  [close_reason; forced_reason; duration; error_text;
   update_sl_logic; update_tp_logic; close_logic; forced_close_logic].

Definition openSideRow (trade : TradeRecord) : TradeRecord :=
  {| TradeID := TradeID trade; Symbol := Symbol trade; Side := Side trade;
     OpenTime := OpenTime trade; OpenPrice := OpenPrice trade;
     OpenQuantity := OpenQuantity trade; OpenLeverage := OpenLeverage trade;
     OpenOrderID := OpenOrderID trade; OpenReason := OpenReason trade;
     OpenCycleNum := OpenCycleNum trade;
     CloseTime := None; ClosePrice := 0; CloseQuantity := 0; CloseOrderID := 0;
     CloseReason := ""; CloseCycleNum := 0; IsForced := false;
     ForcedReason := ""; Duration := 0;
     PositionValue := PositionValue trade; MarginUsed := MarginUsed trade;
     PnL := 0; PnLPct := 0; WasStopLoss := false; Success := false; Error := "";
     EntryLogic := EntryLogic trade; ExitLogic := ExitLogic trade;
     UpdateSLLogic := ""; UpdateTPLogic := ""; CloseLogic := "";
     ForcedCloseLogic := ""; NullColumns := unsetColumns |}.

Definition CreateTrade (tbl : table) (trade : TradeRecord) : error * table :=
  insertRow tbl (openSideRow trade).

(** [UpdateTrade]: the [SET] list is built from the non-empty logic fields of
    [trade]; when [trade.CloseTime != nil] the close columns are written too,
    and of [close_logic] / [forced_close_logic] only the one selected by
    [trade.IsForced]. *)
Definition hasUpdates (trade : TradeRecord) : bool :=
  strNonEmpty (UpdateSLLogic trade) || strNonEmpty (UpdateTPLogic trade)
  || match CloseTime trade with Some _ => true | None => false end.

Definition pick (cond : bool) (new old : string) : string :=
  if cond then new else old.

(** The TEXT columns named in the [SET] list built from [trade]. *)
Definition writes (trade : TradeRecord) (c : TextColumn) : bool :=
  let closing := match CloseTime trade with Some _ => true | None => false end in
  match c with
  | update_sl_logic => strNonEmpty (UpdateSLLogic trade)
  | update_tp_logic => strNonEmpty (UpdateTPLogic trade)
  | forced_close_logic =>
      closing && IsForced trade && strNonEmpty (ForcedCloseLogic trade)
  | close_logic => closing && negb (IsForced trade) && strNonEmpty (CloseLogic trade)
  | close_reason | forced_reason | duration | error_text => closing
  end.

Definition applyUpdate (trade r : TradeRecord) : TradeRecord :=
  let closing := match CloseTime trade with Some _ => true | None => false end in
  let sel {A} (new old : A) : A := if closing then new else old in
  {| TradeID := TradeID r; Symbol := Symbol r; Side := Side r;
     OpenTime := OpenTime r; OpenPrice := OpenPrice r;
     OpenQuantity := OpenQuantity r; OpenLeverage := OpenLeverage r;
     OpenOrderID := OpenOrderID r; OpenReason := OpenReason r;
     OpenCycleNum := OpenCycleNum r;
     CloseTime := sel (CloseTime trade) (CloseTime r);
     ClosePrice := sel (ClosePrice trade) (ClosePrice r);
     CloseQuantity := sel (CloseQuantity trade) (CloseQuantity r);
     CloseOrderID := sel (CloseOrderID trade) (CloseOrderID r);
     CloseReason := sel (CloseReason trade) (CloseReason r);
     CloseCycleNum := sel (CloseCycleNum trade) (CloseCycleNum r);
     IsForced := sel (IsForced trade) (IsForced r);
     ForcedReason := sel (ForcedReason trade) (ForcedReason r);
     Duration := sel (Duration trade) (Duration r);
     PositionValue := PositionValue r; MarginUsed := MarginUsed r;
     PnL := sel (PnL trade) (PnL r);
     PnLPct := sel (PnLPct trade) (PnLPct r);
     WasStopLoss := sel (WasStopLoss trade) (WasStopLoss r);
     Success := sel (Success trade) (Success r);
     Error := sel (Error trade) (Error r);
     EntryLogic := EntryLogic r; ExitLogic := ExitLogic r;
     UpdateSLLogic :=
       pick (strNonEmpty (UpdateSLLogic trade)) (UpdateSLLogic trade) (UpdateSLLogic r);
     UpdateTPLogic :=
       pick (strNonEmpty (UpdateTPLogic trade)) (UpdateTPLogic trade) (UpdateTPLogic r);
     CloseLogic :=
       pick (closing && negb (IsForced trade) && strNonEmpty (CloseLogic trade))
            (CloseLogic trade) (CloseLogic r);
     ForcedCloseLogic :=
       pick (closing && IsForced trade && strNonEmpty (ForcedCloseLogic trade))
            (ForcedCloseLogic trade) (ForcedCloseLogic r);
     NullColumns := List.filter (fun c => negb (writes trade c)) (NullColumns r) |}.

Definition UpdateTrade (tbl : table) (trade : TradeRecord) : error * table :=
  if negb (hasUpdates trade) then (None, tbl)
  else (None,
        map (fun r => if sameKey (Symbol trade) (OpenTime trade) r
                      then applyUpdate trade r else r) tbl).

(** [CreateOrUpdateTrade]: update when a row with the same
    (symbol, open_time) exists, create otherwise. *)
Definition CreateOrUpdateTrade (tbl : table) (trade : TradeRecord) : error * table :=
  if existsb (sameKey (Symbol trade) (OpenTime trade)) tbl
  then UpdateTrade tbl trade
  else CreateTrade tbl trade.

(** [scanTrade] and [scanTradeRow]: [Scan] reads the TEXT columns into
    plain [string] fields and fails on a [NULL]; [close_time] is read through
    [sql.NullTime].  [None] is the scan error. *)
Definition scanTrade (row : TradeRecord) : option TradeRecord :=
  match NullColumns row with
  | [] => Some row
  | _ :: _ => None
  end.

(** [scanTrades]: a row whose scan fails is logged and skipped. *)
Definition scanTrades (rows : list TradeRecord) : list TradeRecord :=
  omap scanTrade rows.

(** The answer of a query for one row, as the pair the source returns:
    [(None, None)] is [nil, nil] (no row), [(None, Some _)] the scan error. *)
Definition scanOne (selected : option TradeRecord) : option TradeRecord * error :=
  match selected with
  | None => (None, None)
  | Some row =>
      match scanTrade row with
      | Some trade => (Some trade, None)
      | None => (None, Some "scan failed")
      end
  end.

(** [GetOpenTradeByTime]: rows of [symbol] whose [open_time] lies within ten
    seconds of [openTime], ordered by the absolute distance to [openTime],
    [LIMIT 1].  The [WHERE] clause has no condition on [side].  Among rows at
    the same distance the earliest inserted one is taken here (SQL leaves the
    choice open; no statement below depends on it). *)
Definition inWindow (symbol : string) (openTime : Z) (r : TradeRecord) : bool :=
  String.eqb (Symbol r) symbol
  && (openTime - 10 * Second <=? OpenTime r)%Z
  && (OpenTime r <=? openTime + 10 * Second)%Z.

Definition distance (openTime : Z) (r : TradeRecord) : Z :=
  Z.abs (OpenTime r - openTime).

Fixpoint closest (openTime : Z) (best : option TradeRecord) (rows : list TradeRecord)
  : option TradeRecord :=
  match rows with
  | [] => best
  | r :: rows' =>
      match best with
      | None => closest openTime (Some r) rows'
      | Some b =>
          if (distance openTime r <? distance openTime b)%Z
          then closest openTime (Some r) rows'
          else closest openTime (Some b) rows'
      end
  end.

Definition GetOpenTradeByTime (tbl : table) (symbol : string) (openTime : Z)
  : option TradeRecord * error :=
  scanOne (closest openTime None (List.filter (inWindow symbol openTime) tbl)).

(** [GetLatestTrades n]: closed rows, [ORDER BY close_time DESC LIMIT n],
    scanned by [scanTrades], then reversed by the loop at the end of the
    function. *)
Definition closeTimeOf (r : TradeRecord) : Z :=
  match CloseTime r with Some t => t | None => 0%Z end.

Fixpoint insertDesc (r : TradeRecord) (l : list TradeRecord) : list TradeRecord :=
  match l with
  | [] => [r]
  | x :: l' =>
      if (closeTimeOf x <? closeTimeOf r)%Z then r :: x :: l'
      else x :: insertDesc r l'
  end.

Definition isClosed (r : TradeRecord) : bool :=
  match CloseTime r with Some _ => true | None => false end.

Definition GetLatestTrades (tbl : table) (n : nat) : list TradeRecord :=
  rev (scanTrades (firstn n (fold_right insertDesc [] (List.filter isClosed tbl)))).


(** [GetOpenTrade]: rows of (symbol, side) with [close_time IS NULL],
    [ORDER BY open_time DESC LIMIT 1].  Rows of one symbol have distinct open
    times ([UNIQUE(symbol, open_time)]), so the order leaves no tie among the
    rows the query selects. *)
Definition isOpenOf (symbol side : string) (r : TradeRecord) : bool :=
  String.eqb (Symbol r) symbol && String.eqb (Side r) side && negb (isClosed r).

Fixpoint latest (best : option TradeRecord) (rows : list TradeRecord)
  : option TradeRecord :=
  match rows with
  | [] => best
  | r :: rows' =>
      match best with
      | None => latest (Some r) rows'
      | Some b =>
          if (OpenTime b <? OpenTime r)%Z
          then latest (Some r) rows' else latest (Some b) rows'
      end
  end.

Definition GetOpenTrade (tbl : table) (symbol side : string)
  : option TradeRecord * error :=
  scanOne (latest None (List.filter (isOpenOf symbol side) tbl)).

End storage.

(** ** The position-logic store (table [position_logic], keyed by symbol and side)

    [PositionLogicWrapper] keeps a cache in front of the table and refreshes
    it on every read and write; the cache mirrors the table and is not
    modelled separately. *)

Module positionlogic.

Record PositionLogic := mkPositionLogic {
  EntryLogic : option string;
  ExitLogic : option string;
  StopLoss : Q;
  TakeProfit : Q;
  FirstSeenTime : Z
}.

Definition empty : PositionLogic :=
  {| EntryLogic := None; ExitLogic := None; StopLoss := 0; TakeProfit := 0;
     FirstSeenTime := 0 |}.

Definition posKey (symbol side : string) : string := symbol +:+ "_" +:+ side.

Definition GetLogic (tbl : gmap string PositionLogic) (symbol side : string)
  : option PositionLogic := tbl !! posKey symbol side.

Definition orEmpty (o : option PositionLogic) : PositionLogic :=
  match o with Some l => l | None => empty end.

(** [SaveStopLossAndTakeProfit]: a price that is not [> 0] keeps the stored
    one; the other columns of the row are preserved by the upsert. *)
Definition SaveStopLossAndTakeProfit (tbl : gmap string PositionLogic)
    (symbol side : string) (stopLoss takeProfit : Q) : gmap string PositionLogic :=
  let logic := orEmpty (GetLogic tbl symbol side) in
  <[posKey symbol side :=
      {| EntryLogic := EntryLogic logic; ExitLogic := ExitLogic logic;
         StopLoss := if Qgtb stopLoss 0 then stopLoss else StopLoss logic;
         TakeProfit := if Qgtb takeProfit 0 then takeProfit else TakeProfit logic;
         FirstSeenTime := FirstSeenTime logic |}]> tbl.

Definition SaveEntryLogic (tbl : gmap string PositionLogic)
    (symbol side : string) (entry : string) : gmap string PositionLogic :=
  let logic := orEmpty (GetLogic tbl symbol side) in
  <[posKey symbol side :=
      {| EntryLogic := Some entry; ExitLogic := ExitLogic logic;
         StopLoss := StopLoss logic; TakeProfit := TakeProfit logic;
         FirstSeenTime := FirstSeenTime logic |}]> tbl.

Definition SaveExitLogic (tbl : gmap string PositionLogic)
    (symbol side : string) (exit : string) : gmap string PositionLogic :=
  let logic := orEmpty (GetLogic tbl symbol side) in
  <[posKey symbol side :=
      {| EntryLogic := EntryLogic logic; ExitLogic := Some exit;
         StopLoss := StopLoss logic; TakeProfit := TakeProfit logic;
         FirstSeenTime := FirstSeenTime logic |}]> tbl.

Definition SaveFirstSeenTime (tbl : gmap string PositionLogic)
    (symbol side : string) (firstSeen : Z) : gmap string PositionLogic :=
  let logic := orEmpty (GetLogic tbl symbol side) in
  <[posKey symbol side :=
      {| EntryLogic := EntryLogic logic; ExitLogic := ExitLogic logic;
         StopLoss := StopLoss logic; TakeProfit := TakeProfit logic;
         FirstSeenTime := firstSeen |}]> tbl.

Definition DeleteLogic (tbl : gmap string PositionLogic) (symbol side : string)
  : gmap string PositionLogic := delete (posKey symbol side) tbl.

(** [GetFirstSeenTime]: the stored time and [true] when a row exists and its
    time is above 0, otherwise [(0, false)]. *)
Definition GetFirstSeenTime (tbl : gmap string PositionLogic) (symbol side : string)
  : Z * bool :=
  match GetLogic tbl symbol side with
  | None => (0%Z, false)
  | Some dbLogic =>
      if (0 <? FirstSeenTime dbLogic)%Z then (FirstSeenTime dbLogic, true)
      else (0%Z, false)
  end.

End positionlogic.

(** ** logger: records of the decision log *)

Module logger.

Record DecisionAction := mkDecisionAction {
  Action : string;
  Symbol : string;
  Quantity : Q;
  Leverage : Z;
  Price : Q;
  OrderID : Z;
  Timestamp : Z;
  Success : bool;
  Error : string;
  IsForced : bool;
  ForcedReason : string
}.

(** [logger.TradeRecord], the value built by [buildTradeRecord]. *)
Record TradeRecord := mkTradeRecord {
  TradeID : string;
  TSymbol : string;
  Side : string;
  OpenTime : Z;
  OpenPrice : Q;
  OpenQuantity : Q;
  OpenLeverage : Z;
  OpenOrderID : Z;
  OpenReason : string;
  OpenCycleNum : Z;
  CloseTime : Z;
  ClosePrice : Q;
  CloseQuantity : Q;
  CloseOrderID : Z;
  CloseReason : string;
  CloseCycleNum : Z;
  TIsForced : bool;
  TForcedReason : string;
  Duration : Z;
  PositionValue : Q;
  MarginUsed : Q;
  PnL : Q;
  PnLPct : Q;
  WasStopLoss : bool;
  TSuccess : bool;
  TError : string
}.

(** A row of the [decisions] table as the recorder reads it back:
    [Decisions] is [None] when [json.Unmarshal] of the column fails. *)
Record DecisionRecord := mkDecisionRecord {
  RTimestamp : Z;
  CycleNumber : Z;
  Decisions : option (list DecisionAction)
}.

End logger.

(** ** decision: the LLM decision *)

Module decision.

Record Decision := mkDecision {
  Symbol : string;
  Action : string;
  Leverage : Z;
  PositionSizeUSD : Q;
  StopLoss : Q;
  TakeProfit : Q;
  Reasoning : string;
  ExitReasoning : string
}.

(** What [json.Unmarshal] into a [decision.Decision] gives for an element of
    the [decisions] column, which was marshalled from a
    [logger.DecisionAction]: the keys [symbol], [action] and [leverage] are
    shared, every other field keeps its zero value. *)
Definition ofAction (a : logger.DecisionAction) : Decision :=
  {| Symbol := logger.Symbol a; Action := logger.Action a;
     Leverage := logger.Leverage a; PositionSizeUSD := 0;
     StopLoss := 0; TakeProfit := 0; Reasoning := ""; ExitReasoning := "" |}.

(** [decision.PositionInfo] and [decision.AccountInfo], the parts read by the
    trader. *)
Record PositionInfo := mkPositionInfo {
  PSymbol : string;
  PSide : string
}.

Record AccountInfo := mkAccountInfo {
  TotalEquity : Q;
  AvailableBalance : Q;
  MarginUsed : Q;
  PositionCount : Z
}.

Record Context := mkContext {
  Account : AccountInfo;
  Positions : list PositionInfo
}.


(** *** engine.go: validation of the decisions of the LLM *)

Inductive ValidationError :=
| InvalidAction
| LeverageOutOfRange
| SizeNotPositive
| MarginTooHigh
| PositionTooLarge
| StopOrTargetMissing
| StopTargetWrongOrder
| PriceUnavailable
| PriceOutsideStopAndTarget
| TakeProfitMissing
| StopLossMissing
| SymbolMissing.

Definition validAction (action : string) : bool :=
  String.eqb action "open_long" || String.eqb action "open_short"
  || String.eqb action "close_long" || String.eqb action "close_short"
  || String.eqb action "update_tp" || String.eqb action "update_sl"
  || String.eqb action "hold" || String.eqb action "wait".

(** [getCurrentMarketPrice]: the answer of [market.Get], refused when the
    price is not positive. *)
Definition getCurrentMarketPrice (market : option Q) : option Q :=
  match market with
  | None => None
  | Some price => if Qleb price 0 then None else Some price
  end.

Definition isOpen (action : string) : bool :=
  String.eqb action "open_long" || String.eqb action "open_short".

Definition isMajor (symbol : string) : bool :=
  String.eqb symbol "BTCUSDT" || String.eqb symbol "ETHUSDT".

Definition validateDecisionWithMarketData (d : Decision) (accountEquity : Q)
    (btcEthLeverage altcoinLeverage : Z) (market : string -> option Q)
  : option ValidationError :=
  if negb (validAction (Action d)) then Some InvalidAction
  else
    let afterOpen :=
      if isOpen (Action d)
      then
        let maxLeverage := if isMajor (Symbol d) then btcEthLeverage else altcoinLeverage in
        let maxPositionValue :=
          if isMajor (Symbol d)
          then (accountEquity * float64 btcEthLeverage * 0.9)%Q
          else (accountEquity * float64 altcoinLeverage * 0.9)%Q in
        if (Leverage d <=? 0)%Z || (maxLeverage <? Leverage d)%Z
        then Some LeverageOutOfRange
        else if Qleb (PositionSizeUSD d) 0 then Some SizeNotPositive
        else
          let marginRequired := (PositionSizeUSD d / float64 (Leverage d))%Q in
          let maxMarginUsedPct := 50%Q in
          let maxMarginAllowed := (accountEquity * (maxMarginUsedPct / 100))%Q in
          let tolerance_margin := (maxMarginAllowed * 0.01)%Q in
          if Qgtb marginRequired (maxMarginAllowed + tolerance_margin)
          then Some MarginTooHigh
          else
            let tolerance := (maxPositionValue * 0.01)%Q in
            if Qgtb (PositionSizeUSD d) (maxPositionValue + tolerance)
            then Some PositionTooLarge
            else if Qleb (StopLoss d) 0 || Qleb (TakeProfit d) 0
            then Some StopOrTargetMissing
            else if (if String.eqb (Action d) "open_long"
                     then Qgeb (StopLoss d) (TakeProfit d)
                     else Qleb (StopLoss d) (TakeProfit d))
            then Some StopTargetWrongOrder
            else match getCurrentMarketPrice (market (Symbol d)) with
                 | None => Some PriceUnavailable
                 | Some currentPrice =>
                     let entryPriceValid :=
                       if String.eqb (Action d) "open_long"
                       then Qgtb currentPrice (StopLoss d) && Qltb currentPrice (TakeProfit d)
                       else Qgtb currentPrice (TakeProfit d) && Qltb currentPrice (StopLoss d) in
                     if negb entryPriceValid then Some PriceOutsideStopAndTarget else None
                 end
      else None in
    match afterOpen with
    | Some e => Some e
    | None =>
        if String.eqb (Action d) "update_tp" && Qleb (TakeProfit d) 0
        then Some TakeProfitMissing
        else if String.eqb (Action d) "update_tp" && String.eqb (Symbol d) ""
        then Some SymbolMissing
        else if String.eqb (Action d) "update_sl" && Qleb (StopLoss d) 0
        then Some StopLossMissing
        else if String.eqb (Action d) "update_sl" && String.eqb (Symbol d) ""
        then Some SymbolMissing
        else None
    end.

(** [validateDecisionsWithMarketData]: the number (from 1) and the error of
    the first decision that fails, [None] when all pass.  [market i] is what
    [market.Get] answers while the decision at index [i] is validated. *)
Fixpoint validateFrom (i : nat) (decisions : list Decision) (accountEquity : Q)
    (btcEthLeverage altcoinLeverage : Z) (market : nat -> string -> option Q)
  : option (nat * ValidationError) :=
  match decisions with
  | [] => None
  | d :: rest =>
      match validateDecisionWithMarketData d accountEquity btcEthLeverage
              altcoinLeverage (market i) with
      | Some e => Some (S i, e)
      | None => validateFrom (S i) rest accountEquity btcEthLeverage altcoinLeverage market
      end
  end.

Definition validateDecisionsWithMarketData := validateFrom 0.

(** *** engine.go: findMatchingBracket

    The string is a sequence of bytes; [start] is an index that is not
    negative (the caller passes the result of [strings.Index] after testing
    it against -1); the result -1 is [None]. *)

(** The loop from index [i] on, [rest] being [s[i:]]. *)
Fixpoint scanBrackets (rest : list ascii) (i : nat) (depth : Z) : option nat :=
  match rest with
  | [] => None
  | c :: rest' =>
      if Ascii.eqb c "["%char then scanBrackets rest' (S i) (depth + 1)
      else if Ascii.eqb c "]"%char
      then if Z.eqb (depth - 1) 0 then Some i
           else scanBrackets rest' (S i) (depth - 1)
      else scanBrackets rest' (S i) depth
  end.

Definition findMatchingBracket (s : list ascii) (start : nat) : option nat :=
  match nth_error s start with
  | None => None
  | Some c =>
      if Ascii.eqb c "["%char then scanBrackets (skipn start s) start 0 else None
  end.
End decision.

(** ** trader: constants.go, the [AutoTrader] state *)

Module trader.

(** constants.go *)
Definition MaxMarginUsagePct : Q := 90.
Definition MaxMarginUsagePctSingleSymbol : Q := 80.
Definition MinReserveBalancePct : Q := 5.
Definition MinSafeDistancePct : Q := 3.
Definition MaintenanceMarginRate : Q := 0.01.
Definition PositionStopLossRetryTimeout : Z := 5 * Minute.
Definition MinPositionSizeUSD : Q := 0.001.

Record AutoTraderConfig := mkConfig {
  BTCETHLeverage : Z;
  AltcoinLeverage : Z;
  MaxDailyLoss : Q;
  MaxDrawdown : Q;
  PositionStopLossPct : Q;
  PositionTakeProfitPct : Q;
  StopTradingTime : Z
}.

(** The fields of [AutoTrader] that the modelled functions read or write.
    [closingPositions] is the set of keys of the lock table (the mutexes
    themselves carry no data); [positionLogic] and [trades] are the two
    tables behind [positionLogicManager] and [storageAdapter]. *)
Record AutoTrader := mkAutoTrader {
  config : AutoTraderConfig;
  initialBalance : Q;
  dailyPnL : Q;
  dailyStartEquity : Q;
  lastResetTime : Z;
  stopUntil : Z;
  isRunning : bool;
  callCount : Z;
  positionFirstSeenTime : gmap string Z;
  peakEquity : Q;
  forcedClosedPositions : gmap string Z;
  closingPositions : gset string;
  positionLogic : gmap string positionlogic.PositionLogic;
  trades : storage.table
}.

Definition setRisk (a : AutoTrader) (pnl start peak : Q) : AutoTrader :=
  {| config := config a; initialBalance := initialBalance a;
     dailyPnL := pnl; dailyStartEquity := start;
     lastResetTime := lastResetTime a; stopUntil := stopUntil a;
     isRunning := isRunning a; callCount := callCount a;
     positionFirstSeenTime := positionFirstSeenTime a; peakEquity := peak;
     forcedClosedPositions := forcedClosedPositions a;
     closingPositions := closingPositions a;
     positionLogic := positionLogic a; trades := trades a |}.

Definition setLastResetTime (a : AutoTrader) (t : Z) : AutoTrader :=
  {| config := config a; initialBalance := initialBalance a;
     dailyPnL := dailyPnL a; dailyStartEquity := dailyStartEquity a;
     lastResetTime := t; stopUntil := stopUntil a;
     isRunning := isRunning a; callCount := callCount a;
     positionFirstSeenTime := positionFirstSeenTime a; peakEquity := peakEquity a;
     forcedClosedPositions := forcedClosedPositions a;
     closingPositions := closingPositions a;
     positionLogic := positionLogic a; trades := trades a |}.

Definition setStopUntil (a : AutoTrader) (t : Z) : AutoTrader :=
  {| config := config a; initialBalance := initialBalance a;
     dailyPnL := dailyPnL a; dailyStartEquity := dailyStartEquity a;
     lastResetTime := lastResetTime a; stopUntil := t;
     isRunning := isRunning a; callCount := callCount a;
     positionFirstSeenTime := positionFirstSeenTime a; peakEquity := peakEquity a;
     forcedClosedPositions := forcedClosedPositions a;
     closingPositions := closingPositions a;
     positionLogic := positionLogic a; trades := trades a |}.

Definition setCallCount (a : AutoTrader) (n : Z) : AutoTrader :=
  {| config := config a; initialBalance := initialBalance a;
     dailyPnL := dailyPnL a; dailyStartEquity := dailyStartEquity a;
     lastResetTime := lastResetTime a; stopUntil := stopUntil a;
     isRunning := isRunning a; callCount := n;
     positionFirstSeenTime := positionFirstSeenTime a; peakEquity := peakEquity a;
     forcedClosedPositions := forcedClosedPositions a;
     closingPositions := closingPositions a;
     positionLogic := positionLogic a; trades := trades a |}.

Definition setFirstSeen (a : AutoTrader) (m : gmap string Z) : AutoTrader :=
  {| config := config a; initialBalance := initialBalance a;
     dailyPnL := dailyPnL a; dailyStartEquity := dailyStartEquity a;
     lastResetTime := lastResetTime a; stopUntil := stopUntil a;
     isRunning := isRunning a; callCount := callCount a;
     positionFirstSeenTime := m; peakEquity := peakEquity a;
     forcedClosedPositions := forcedClosedPositions a;
     closingPositions := closingPositions a;
     positionLogic := positionLogic a; trades := trades a |}.

Definition setForcedClosed (a : AutoTrader) (m : gmap string Z) : AutoTrader :=
  {| config := config a; initialBalance := initialBalance a;
     dailyPnL := dailyPnL a; dailyStartEquity := dailyStartEquity a;
     lastResetTime := lastResetTime a; stopUntil := stopUntil a;
     isRunning := isRunning a; callCount := callCount a;
     positionFirstSeenTime := positionFirstSeenTime a; peakEquity := peakEquity a;
     forcedClosedPositions := m;
     closingPositions := closingPositions a;
     positionLogic := positionLogic a; trades := trades a |}.

Definition setClosing (a : AutoTrader) (s : gset string) : AutoTrader :=
  {| config := config a; initialBalance := initialBalance a;
     dailyPnL := dailyPnL a; dailyStartEquity := dailyStartEquity a;
     lastResetTime := lastResetTime a; stopUntil := stopUntil a;
     isRunning := isRunning a; callCount := callCount a;
     positionFirstSeenTime := positionFirstSeenTime a; peakEquity := peakEquity a;
     forcedClosedPositions := forcedClosedPositions a;
     closingPositions := s;
     positionLogic := positionLogic a; trades := trades a |}.

Definition setPositionLogic (a : AutoTrader)
    (m : gmap string positionlogic.PositionLogic) : AutoTrader :=
  {| config := config a; initialBalance := initialBalance a;
     dailyPnL := dailyPnL a; dailyStartEquity := dailyStartEquity a;
     lastResetTime := lastResetTime a; stopUntil := stopUntil a;
     isRunning := isRunning a; callCount := callCount a;
     positionFirstSeenTime := positionFirstSeenTime a; peakEquity := peakEquity a;
     forcedClosedPositions := forcedClosedPositions a;
     closingPositions := closingPositions a;
     positionLogic := m; trades := trades a |}.

Definition setTrades (a : AutoTrader) (t : storage.table) : AutoTrader :=
  {| config := config a; initialBalance := initialBalance a;
     dailyPnL := dailyPnL a; dailyStartEquity := dailyStartEquity a;
     lastResetTime := lastResetTime a; stopUntil := stopUntil a;
     isRunning := isRunning a; callCount := callCount a;
     positionFirstSeenTime := positionFirstSeenTime a; peakEquity := peakEquity a;
     forcedClosedPositions := forcedClosedPositions a;
     closingPositions := closingPositions a;
     positionLogic := positionLogic a; trades := t |}.

(** A position as the exchange client returns it
    ([map[string]interface{}]); [leverage] is read with a checked type
    assertion, so it may be absent. *)
Record Position := mkPosition {
  symbol : string;
  side : string;
  entryPrice : Q;
  markPrice : Q;
  positionAmt : Q;
  leverage : option Q
}.

Definition posKey (sym sd : string) : string := sym +:+ "_" +:+ sd.

(** [int(x)] for a [float64] [x]: truncation toward zero. *)
Definition truncQ (q : Q) : Z := Z.quot (Qnum q) (Zpos (Qden q)).

(** [time.Time.Unix()]: whole seconds. *)
Definition Unix (t : Z) : Z := (t / 1000)%Z.

(** *** buildTradeRecord *)

Definition buildTradeRecord (sym sd : string)
    (openAction closeAction : logger.DecisionAction)
    (openCycleNum closeCycleNum : Z) (isForced : bool)
    (forcedReason openReason closeReason : string) : logger.TradeRecord :=
  let pnl :=
    if String.eqb sd "long"
    then (logger.Quantity openAction
          * (logger.Price closeAction - logger.Price openAction))%Q
    else (logger.Quantity openAction
          * (logger.Price openAction - logger.Price closeAction))%Q in
  let positionValue := (logger.Quantity openAction * logger.Price openAction)%Q in
  let marginUsed := (positionValue / float64 (logger.Leverage openAction))%Q in
  let pnlPct := if Qgtb marginUsed 0 then (pnl / marginUsed * 100)%Q else 0%Q in
  {| logger.TradeID :=
       sym +:+ "_" +:+ sd +:+ "_" +:+ pretty (Unix (logger.Timestamp openAction));
     logger.TSymbol := sym;
     logger.Side := sd;
     logger.OpenTime := logger.Timestamp openAction;
     logger.OpenPrice := logger.Price openAction;
     logger.OpenQuantity := logger.Quantity openAction;
     logger.OpenLeverage := logger.Leverage openAction;
     logger.OpenOrderID := logger.OrderID openAction;
     logger.OpenReason := openReason;
     logger.OpenCycleNum := openCycleNum;
     logger.CloseTime := logger.Timestamp closeAction;
     logger.ClosePrice := logger.Price closeAction;
     logger.CloseQuantity := logger.Quantity closeAction;
     logger.CloseOrderID := logger.OrderID closeAction;
     logger.CloseReason := closeReason;
     logger.CloseCycleNum := closeCycleNum;
     logger.TIsForced := isForced;
     logger.TForcedReason := forcedReason;
     logger.Duration := (logger.Timestamp closeAction - logger.Timestamp openAction)%Z;
     logger.PositionValue := positionValue;
     logger.MarginUsed := marginUsed;
     logger.PnL := pnl;
     logger.PnLPct := pnlPct;
     logger.WasStopLoss := isForced && Qltb pnl 0;
     logger.TSuccess := logger.Success openAction && logger.Success closeAction;
     logger.TError := logger.Error closeAction |}.

(** The conversion [logger.TradeRecord] to [storage.TradeRecord] written out
    at every call site of [LogTrade]: the logic columns stay empty and the
    close time is always supplied. *)
Definition dbTrade (t : logger.TradeRecord) : storage.TradeRecord :=
  {| storage.TradeID := logger.TradeID t; storage.Symbol := logger.TSymbol t;
     storage.Side := logger.Side t; storage.OpenTime := logger.OpenTime t;
     storage.OpenPrice := logger.OpenPrice t;
     storage.OpenQuantity := logger.OpenQuantity t;
     storage.OpenLeverage := logger.OpenLeverage t;
     storage.OpenOrderID := logger.OpenOrderID t;
     storage.OpenReason := logger.OpenReason t;
     storage.OpenCycleNum := logger.OpenCycleNum t;
     storage.CloseTime := Some (logger.CloseTime t);
     storage.ClosePrice := logger.ClosePrice t;
     storage.CloseQuantity := logger.CloseQuantity t;
     storage.CloseOrderID := logger.CloseOrderID t;
     storage.CloseReason := logger.CloseReason t;
     storage.CloseCycleNum := logger.CloseCycleNum t;
     storage.IsForced := logger.TIsForced t;
     storage.ForcedReason := logger.TForcedReason t;
     storage.Duration := logger.Duration t;
     storage.PositionValue := logger.PositionValue t;
     storage.MarginUsed := logger.MarginUsed t;
     storage.PnL := logger.PnL t; storage.PnLPct := logger.PnLPct t;
     storage.WasStopLoss := logger.WasStopLoss t;
     storage.Success := logger.TSuccess t; storage.Error := logger.TError t;
     storage.EntryLogic := ""; storage.ExitLogic := "";
     storage.UpdateSLLogic := ""; storage.UpdateTPLogic := "";
     storage.CloseLogic := ""; storage.ForcedCloseLogic := "";
     storage.NullColumns := [] |}.

(** [tradeStorage.LogTrade(dbTrade)]; a failed insert is only logged. *)
Definition saveTrade (a : AutoTrader) (t : logger.TradeRecord) : AutoTrader :=
  setTrades a (snd (storage.LogTrade (trades a) (dbTrade t))).

(** *** recordTradeHistoryFromPosition, recordTradeHistory *)

(** The answers of the calls made by the recorder. *)
Record RecorderEnv := mkRecorderEnv {
  (** [decisionStorage.GetLatestRecords(at.id, 1000)], newest first;
      [None] is an error *)
  latestRecords : option (list logger.DecisionRecord);
  (** [at.trader.GetPositions()] *)
  positionsNow : option (list Position);
  (** the two [GetLatestRecords(at.id, 100)] of the fallback *)
  recordsForTime : option (list logger.DecisionRecord);
  recordsForPrice : option (list logger.DecisionRecord)
}.

Definition isOpenDecision (sym sd : string) (d : decision.Decision) : bool :=
  (String.eqb (decision.Action d) "open_long"
     && String.eqb (decision.Symbol d) sym && String.eqb sd "long")
  || (String.eqb (decision.Action d) "open_short"
     && String.eqb (decision.Symbol d) sym && String.eqb sd "short").

Definition firstOpenDecision (sym sd : string) (r : logger.DecisionRecord)
  : option decision.Decision :=
  match logger.Decisions r with
  | Some acts => List.find (isOpenDecision sym sd) (List.map decision.ofAction acts)
  | None => None
  end.

(** Local variables of [recordTradeHistoryFromPosition]. *)
Record OpenInfo := mkOpenInfo {
  oiEntryPrice : Q;
  oiQuantity : Q;
  oiLeverage : Q;
  oiOpenTime : Z;
  oiHasOpenTime : bool
}.

Definition absQ (q : Q) : Q := if Qltb q 0 then (- q)%Q else q.

(** First loop: price, quantity and leverage of the live position. *)
Definition fromPositions (sym sd : string) (ps : option (list Position))
    (oi : OpenInfo) : OpenInfo :=
  match ps with
  | None => oi
  | Some l =>
      match List.find (fun p => String.eqb (symbol p) sym && String.eqb (side p) sd) l with
      | None => oi
      | Some p =>
          {| oiEntryPrice := entryPrice p;
             oiQuantity := absQ (positionAmt p);
             oiLeverage := match leverage p with Some lev => lev | None => oiLeverage oi end;
             oiOpenTime := oiOpenTime oi; oiHasOpenTime := oiHasOpenTime oi |}
      end
  end.

(** Second loop (only when no open time is known): the records are walked
    from the last index to the first. *)
Definition fromRecordsTime (sym sd : string)
    (rs : option (list logger.DecisionRecord)) (oi : OpenInfo) : OpenInfo :=
  if oiHasOpenTime oi then oi
  else match rs with
       | None => oi
       | Some l =>
           match List.find (fun r => match firstOpenDecision sym sd r with
                                     | Some _ => true | None => false end) (rev l) with
           | Some r =>
               {| oiEntryPrice := oiEntryPrice oi; oiQuantity := oiQuantity oi;
                  oiLeverage := oiLeverage oi;
                  oiOpenTime := logger.RTimestamp r; oiHasOpenTime := true |}
           | None => oi
           end
       end.

(** Third loop (only when the entry price is still 0): one iteration. *)
Definition priceStep (sym sd : string) (closeAction : logger.DecisionAction)
    (oi : OpenInfo) (r : logger.DecisionRecord) : OpenInfo :=
  if negb (Qeqb (oiEntryPrice oi) 0) then oi
  else match firstOpenDecision sym sd r with
       | None => oi
       | Some d =>
           let estimate := Qgtb (decision.PositionSizeUSD d) 0 in
           {| oiEntryPrice := logger.Price closeAction;
              oiQuantity := if estimate then oiQuantity oi
                            else logger.Quantity closeAction;
              oiLeverage := if estimate then oiLeverage oi
                            else float64 (logger.Leverage closeAction);
              oiOpenTime := if oiHasOpenTime oi then oiOpenTime oi
                            else logger.RTimestamp r;
              oiHasOpenTime := true |}
       end.

Definition fromRecordsPrice (sym sd : string) (closeAction : logger.DecisionAction)
    (rs : option (list logger.DecisionRecord)) (oi : OpenInfo) : OpenInfo :=
  if negb (Qeqb (oiEntryPrice oi) 0) then oi
  else match rs with
       | None => oi
       | Some l => fold_left (priceStep sym sd closeAction) (rev l) oi
       end.

(** Defaults applied once an entry price is known.  The open reason
    "external open" stands for the constant of the source. *)
Definition withDefaults (closeAction : logger.DecisionAction) (oi : OpenInfo) : OpenInfo :=
  {| oiEntryPrice := oiEntryPrice oi;
     oiQuantity :=
       if Qeqb (oiQuantity oi) 0
       then (if negb (Qeqb (logger.Quantity closeAction) 0)
             then logger.Quantity closeAction else 1%Q)
       else oiQuantity oi;
     oiLeverage :=
       if Qeqb (oiLeverage oi) 0
       then (if negb (Z.eqb (logger.Leverage closeAction) 0)
             then float64 (logger.Leverage closeAction) else 10%Q)
       else oiLeverage oi;
     oiOpenTime := if oiHasOpenTime oi then oiOpenTime oi
                   else (logger.Timestamp closeAction - 1 * Hour)%Z;
     oiHasOpenTime := oiHasOpenTime oi |}.

Definition gatherOpenInfo (a : AutoTrader) (env : RecorderEnv) (sd sym : string)
    (closeAction : logger.DecisionAction) : OpenInfo :=
  let oi0 :=
    match positionFirstSeenTime a !! posKey sym sd with
    | Some ts => {| oiEntryPrice := 0; oiQuantity := 0; oiLeverage := 0;
                    oiOpenTime := ts; oiHasOpenTime := true |}
    | None => {| oiEntryPrice := 0; oiQuantity := 0; oiLeverage := 0;
                 oiOpenTime := 0; oiHasOpenTime := false |}
    end in
  let oi1 := fromPositions sym sd (positionsNow env) oi0 in
  let oi2 := fromRecordsTime sym sd (recordsForTime env) oi1 in
  fromRecordsPrice sym sd closeAction (recordsForPrice env) oi2.

Definition recordTradeHistoryFromPosition (a : AutoTrader) (env : RecorderEnv)
    (sd sym : string) (closeAction : logger.DecisionAction)
    (isForced : bool) (forcedReason : string) : AutoTrader :=
  let oi := gatherOpenInfo a env sd sym closeAction in
  if Qeqb (oiEntryPrice oi) 0 then a
  else
    let oi' := withDefaults closeAction oi in
    let openAction :=
      {| logger.Action := "open_" +:+ sd; logger.Symbol := sym;
         logger.Quantity := oiQuantity oi';
         logger.Leverage := truncQ (oiLeverage oi');
         logger.Price := oiEntryPrice oi'; logger.OrderID := 0;
         logger.Timestamp := oiOpenTime oi'; logger.Success := true;
         logger.Error := ""; logger.IsForced := false;
         logger.ForcedReason := "" |} in
    saveTrade a
      (buildTradeRecord sym sd openAction closeAction 0 (callCount a)
         isForced forcedReason "external open" "").

Definition recordTradeHistoryFromAction (a : AutoTrader) (env : RecorderEnv)
    (sym sd : string) (closeAction : logger.DecisionAction)
    (isForced : bool) (forcedReason : string) : AutoTrader :=
  recordTradeHistoryFromPosition a env sd sym closeAction isForced forcedReason.

(** [recordTradeHistory]: the search for the open action in the decision
    log. *)
Definition actionSide (action : string) : string :=
  if String.eqb action "open_long" || String.eqb action "close_long" then "long"
  else if String.eqb action "open_short" || String.eqb action "close_short" then "short"
  else "".

Definition isOpenAction (action : string) : bool :=
  String.eqb action "open_long" || String.eqb action "open_short".

(** [hasBeenClosed]: a successful close of the same symbol and side strictly
    before [closeTime] in [records[i:]]. *)
Definition closesBefore (sym sd : string) (closeTime : Z)
    (la : logger.DecisionAction) : bool :=
  logger.Success la && String.eqb (logger.Symbol la) sym
  && ((String.eqb sd "long" && String.eqb (logger.Action la) "close_long")
      || (String.eqb sd "short" && String.eqb (logger.Action la) "close_short"))
  && (logger.Timestamp la <? closeTime)%Z.

Definition hasBeenClosed (sym sd : string) (closeTime : Z)
    (later : list logger.DecisionRecord) : bool :=
  existsb (fun r => match logger.Decisions r with
                    | Some acts => existsb (closesBefore sym sd closeTime) acts
                    | None => false
                    end) later.

Definition matchesOpen (sym sd : string) (closeTime : Z)
    (later : list logger.DecisionRecord) (action : logger.DecisionAction) : bool :=
  logger.Success action
  && String.eqb (logger.Symbol action) sym
  && String.eqb (actionSide (logger.Action action)) sd
  && isOpenAction (logger.Action action)
  && negb (closeTime <? logger.Timestamp action)%Z
  && negb (hasBeenClosed sym sd closeTime later).

(** The outer loop [for i := len(records)-1; i >= 0; i--]; [n] is [i+1]. *)
Fixpoint findOpenAction (sym sd : string) (closeTime : Z)
    (records : list logger.DecisionRecord) (n : nat)
  : option (logger.DecisionAction * Z) :=
  match n with
  | O => None
  | S i =>
      let here :=
        match nth_error records i with
        | Some r =>
            match logger.Decisions r with
            | Some acts =>
                match List.find (matchesOpen sym sd closeTime (skipn i records)) acts with
                | Some act => Some (act, logger.CycleNumber r)
                | None => None
                end
            | None => None
            end
        | None => None
        end in
      match here with
      | Some found => Some found
      | None => findOpenAction sym sd closeTime records i
      end
  end.

Definition recordTradeHistory (a : AutoTrader) (env : RecorderEnv) (sd : string)
    (dec : decision.Decision) (closeAction : logger.DecisionAction)
    (isForced : bool) (forcedReason : string) : AutoTrader :=
  match latestRecords env with
  | None =>
      recordTradeHistoryFromPosition a env sd (decision.Symbol dec) closeAction
        isForced forcedReason
  | Some records =>
      match findOpenAction (decision.Symbol dec) sd (logger.Timestamp closeAction)
              records (length records) with
      | None =>
          recordTradeHistoryFromPosition a env sd (decision.Symbol dec) closeAction
            isForced forcedReason
      | Some (openAction, openCycleNum) =>
          saveTrade a
            (buildTradeRecord (decision.Symbol dec) sd openAction closeAction
               openCycleNum (callCount a) isForced forcedReason
               (decision.Reasoning dec) (decision.Reasoning dec))
      end
  end.

(** *** The close-lock table and the forced-close registry *)

(** [getOrCreateClosingLock]: the key is in the table afterwards. *)
Definition getOrCreateClosingLock (a : AutoTrader) (key : string) : AutoTrader :=
  setClosing a ({[ key ]} ∪ closingPositions a).

(** [cleanupClosingLock]: [delete(at.closingPositions, posKey)]. *)
Definition cleanupClosingLock (a : AutoTrader) (key : string) : AutoTrader :=
  setClosing a (closingPositions a ∖ {[ key ]}).

(** The test made on a registry entry by [forceClosePosition] and by the
    execution loop of [runCycle]: an entry older than the retry timeout is
    deleted and the caller goes on; a younger one makes the caller stop.
    The result is [None] when the caller must stop. *)
Definition passRegistry (a : AutoTrader) (key : string) (now : Z) : option AutoTrader :=
  match forcedClosedPositions a !! key with
  | None => Some a
  | Some markTime =>
      if (PositionStopLossRetryTimeout <? now - markTime)%Z
      then Some (setForcedClosed a (delete key (forcedClosedPositions a)))
      else None
  end.

Definition markForced (a : AutoTrader) (key : string) (now : Z) : AutoTrader :=
  setForcedClosed a (<[ key := now ]> (forcedClosedPositions a)).

Definition emptyAction : logger.DecisionAction :=
  {| logger.Action := ""; logger.Symbol := ""; logger.Quantity := 0;
     logger.Leverage := 0; logger.Price := 0; logger.OrderID := 0;
     logger.Timestamp := 0; logger.Success := false; logger.Error := "";
     logger.IsForced := false; logger.ForcedReason := "" |}.

(** *** forceClosePosition *)

Record ForceCloseEnv := mkForceCloseEnv {
  fcNowFirst : Z;            (** clock at the first registry test *)
  fcNowSecond : Z;           (** clock at the test made under the lock *)
  fcNowAction : Z;           (** [Timestamp] of the action record *)
  fcMarket : option Q;       (** [market.Get(symbol)]: current price, or an error *)
  fcOrder : option Z;        (** [CloseLong] / [CloseShort]: order id, or an error *)
  fcNowMark : Z;             (** clock when the registry is marked *)
  fcRecorder : RecorderEnv
}.

(** Body of [forceClosePosition] once the lock is held, up to its [return];
    the deferred [cleanupClosingLock] is applied by [forceClosePosition]. *)
Definition forceCloseLocked (a : AutoTrader) (env : ForceCloseEnv)
    (sym sd reason : string) : logger.DecisionAction * error * AutoTrader :=
  let key := posKey sym sd in
  match passRegistry a key (fcNowSecond env) with
  | None => (emptyAction, Some "already marked as force-closed", a)
  | Some a1 =>
      let record (action : string) (price : Q) (oid : Z) (ok : bool) (err : string) :=
        {| logger.Action := action; logger.Symbol := sym; logger.Quantity := 0;
           logger.Leverage := 0; logger.Price := price; logger.OrderID := oid;
           logger.Timestamp := fcNowAction env; logger.Success := ok;
           logger.Error := err; logger.IsForced := true;
           logger.ForcedReason := reason |} in
      match fcMarket env with
      | None => (record "" 0%Q 0%Z false "market data failed",
                 Some "market data failed", a1)
      | Some price =>
          let action := if String.eqb sd "long" then "close_long" else "close_short" in
          match fcOrder env with
          | None =>
              (record action price 0%Z false "close order failed",
               Some "close order failed", markForced a1 key (fcNowMark env))
          | Some oid =>
              let rec := record action price oid true "" in
              let a2 := markForced a1 key (fcNowMark env) in
              let a3 := setPositionLogic a2
                          (positionlogic.DeleteLogic (positionLogic a2) sym sd) in
              (rec, None,
               recordTradeHistoryFromAction a3 (fcRecorder env) sym sd rec true reason)
          end
      end
  end.

Definition forceClosePosition (a : AutoTrader) (env : ForceCloseEnv)
    (sym sd reason : string) : logger.DecisionAction * error * AutoTrader :=
  let key := posKey sym sd in
  match passRegistry a key (fcNowFirst env) with
  | None => (emptyAction, Some "already marked as force-closed", a)
  | Some a1 =>
      let a2 := getOrCreateClosingLock a1 key in
      let '(rec, err, a3) := forceCloseLocked a2 env sym sd reason in
      (* defer at.cleanupClosingLock(posKey) *)
      (rec, err, cleanupClosingLock a3 key)
  end.

(** [forceCloseAllPositions]: failures are skipped, successes are marked
    once more in the registry. *)
Fixpoint forceCloseAllPositions (a : AutoTrader) (env : string -> ForceCloseEnv)
    (reason : string) (ps : list decision.PositionInfo)
  : list logger.DecisionAction * AutoTrader :=
  match ps with
  | [] => ([], a)
  | p :: ps' =>
      let key := posKey (decision.PSymbol p) (decision.PSide p) in
      let '(rec, err, a1) :=
        forceClosePosition a (env key) (decision.PSymbol p) (decision.PSide p) reason in
      match err with
      | Some _ => forceCloseAllPositions a1 env reason ps'
      | None =>
          let a2 := markForced a1 key (fcNowMark (env key)) in
          let '(acts, a3) := forceCloseAllPositions a2 env reason ps' in
          (rec :: acts, a3)
      end
  end.

(** *** executeCloseLongWithRecord, executeCloseShortWithRecord

    The two functions of the source differ in the side only. *)

Record CloseEnv := mkCloseEnv {
  ceMarket : option Q;                     (** [market.Get]: price or error *)
  ceOrder : option Z;                      (** [CloseLong]/[CloseShort] *)
  cePositionsAfter : option (list Position); (** [GetPositions] after 500 ms *)
  ceMarketExit : option Q;                 (** second [market.Get] *)
  ceRecorder : RecorderEnv
}.

Definition withPrice (r : logger.DecisionAction) (p : Q) : logger.DecisionAction :=
  {| logger.Action := logger.Action r; logger.Symbol := logger.Symbol r;
     logger.Quantity := logger.Quantity r; logger.Leverage := logger.Leverage r;
     logger.Price := p; logger.OrderID := logger.OrderID r;
     logger.Timestamp := logger.Timestamp r; logger.Success := logger.Success r;
     logger.Error := logger.Error r; logger.IsForced := logger.IsForced r;
     logger.ForcedReason := logger.ForcedReason r |}.

Definition withQuantity (r : logger.DecisionAction) (q : Q) : logger.DecisionAction :=
  {| logger.Action := logger.Action r; logger.Symbol := logger.Symbol r;
     logger.Quantity := q; logger.Leverage := logger.Leverage r;
     logger.Price := logger.Price r; logger.OrderID := logger.OrderID r;
     logger.Timestamp := logger.Timestamp r; logger.Success := logger.Success r;
     logger.Error := logger.Error r; logger.IsForced := logger.IsForced r;
     logger.ForcedReason := logger.ForcedReason r |}.

Definition withOrderID (r : logger.DecisionAction) (oid : Z) : logger.DecisionAction :=
  {| logger.Action := logger.Action r; logger.Symbol := logger.Symbol r;
     logger.Quantity := logger.Quantity r; logger.Leverage := logger.Leverage r;
     logger.Price := logger.Price r; logger.OrderID := oid;
     logger.Timestamp := logger.Timestamp r; logger.Success := logger.Success r;
     logger.Error := logger.Error r; logger.IsForced := logger.IsForced r;
     logger.ForcedReason := logger.ForcedReason r |}.

Definition withError (r : logger.DecisionAction) (e : string) : logger.DecisionAction :=
  {| logger.Action := logger.Action r; logger.Symbol := logger.Symbol r;
     logger.Quantity := logger.Quantity r; logger.Leverage := logger.Leverage r;
     logger.Price := logger.Price r; logger.OrderID := logger.OrderID r;
     logger.Timestamp := logger.Timestamp r; logger.Success := logger.Success r;
     logger.Error := e; logger.IsForced := logger.IsForced r;
     logger.ForcedReason := logger.ForcedReason r |}.

(** The position is still reported with a quantity above 0.0001. *)
Definition stillOpen (sym sd : string) (ps : option (list Position)) : bool :=
  match ps with
  | None => false
  | Some l =>
      existsb (fun p => String.eqb (symbol p) sym && String.eqb (side p) sd
                        && Qgtb (absQ (positionAmt p)) 0.0001) l
  end.

Definition executeCloseWithRecord (sd : string) (a : AutoTrader) (env : CloseEnv)
    (dec : decision.Decision) (actionRecord : logger.DecisionAction)
  : error * logger.DecisionAction * AutoTrader :=
  let sym := decision.Symbol dec in
  let key := posKey sym sd in
  match forcedClosedPositions a !! key with
  | Some _ => (Some "already force-closed", actionRecord, a)
  | None =>
      let a1 := getOrCreateClosingLock a key in
      (* the second look at the registry reads the same map *)
      match ceMarket env with
      | None => (Some "market data failed", actionRecord, a1)
      | Some price =>
          let rec1 := withPrice actionRecord price in
          match ceOrder env with
          | None => (Some "close order failed", rec1, a1)
          | Some oid =>
              let rec2 := if stillOpen sym sd (cePositionsAfter env)
                          then withError rec1 "position still open after close"
                          else rec1 in
              let a2 := cleanupClosingLock a1 key in
              let rec3 := withOrderID rec2 oid in
              let a3 := setFirstSeen a2 (delete key (positionFirstSeenTime a2)) in
              let logic1 :=
                if strNonEmpty (decision.Reasoning dec)
                then match ceMarketExit env with
                     | Some _ => positionlogic.SaveExitLogic (positionLogic a3) sym sd
                                   (decision.Reasoning dec)
                     | None => positionLogic a3
                     end
                else positionLogic a3 in
              let a4 := setPositionLogic a3 (positionlogic.DeleteLogic logic1 sym sd) in
              (None, rec3,
               recordTradeHistory a4 (ceRecorder env) sd dec rec3 false "")
          end
      end
  end.

Definition executeCloseLongWithRecord := executeCloseWithRecord "long".
Definition executeCloseShortWithRecord := executeCloseWithRecord "short".

(** *** buildTradingContext

    The function reads the balance and the positions from the exchange and
    the candidate coins from the coin pool; on its way it restores into
    [positionFirstSeenTime] the stored first-seen time of every position it
    finds, and drops the entries of the positions that are gone.  The
    market data, the performance analysis and the logic-validity check only
    fill fields of the context that the modelled callers do not read. *)

(** The three entries of the balance map that are read, each by a checked
    type assertion. *)
Record Balance := mkBalance {
  totalWalletBalance : option Q;
  totalUnrealizedProfit : option Q;
  availableBalance : option Q
}.

Record ContextEnv := mkContextEnv {
  tcBalance : option Balance;             (** [GetBalance] *)
  tcPositions : option (list Position);   (** [GetPositions] *)
  tcPool : bool                           (** [GetMergedCoinPool] succeeds *)
}.

Definition orZero (o : option Q) : Q := match o with Some q => q | None => 0%Q end.

(** [leverage := 10], replaced by [int(lev)] when the exchange reports one. *)
Definition positionLeverage (p : Position) : Z :=
  match leverage p with Some lev => truncQ lev | None => 10%Z end.

(** [findPositionOpenTimeFromLogs]: the time in memory, else the stored one
    (which is then put in memory), else an error. *)
Definition findPositionOpenTimeFromLogs (a : AutoTrader) (sym sd : string)
  : option Z * AutoTrader :=
  let key := posKey sym sd in
  match positionFirstSeenTime a !! key with
  | Some timeVal => (Some timeVal, a)
  | None =>
      let '(dbTime, found) := positionlogic.GetFirstSeenTime (positionLogic a) sym sd in
      if found && (0 <? dbTime)%Z
      then (Some dbTime, setFirstSeen a (<[ key := dbTime ]> (positionFirstSeenTime a)))
      else (None, a)
  end.

(** The first-seen part of the loop body, for one position. *)
Definition restoreFirstSeenTime (a : AutoTrader) (p : Position) : AutoTrader :=
  let key := posKey (symbol p) (side p) in
  match positionFirstSeenTime a !! key with
  | Some _ => a
  | None =>
      let '(dbTime, found) :=
        positionlogic.GetFirstSeenTime (positionLogic a) (symbol p) (side p) in
      if found && (0 <? dbTime)%Z
      then setFirstSeen a (<[ key := dbTime ]> (positionFirstSeenTime a))
      else
        match findPositionOpenTimeFromLogs a (symbol p) (side p) with
        | (Some foundTime, a1) =>
            let a2 := setFirstSeen a1 (<[ key := foundTime ]> (positionFirstSeenTime a1)) in
            setPositionLogic a2
              (positionlogic.SaveFirstSeenTime (positionLogic a2) (symbol p) (side p)
                 foundTime)
        | (None, a1) => a1
        end
  end.

(** [marginUsed := (quantity * markPrice) / float64(leverage)], the quantity
    taken positive. *)
Definition positionMargin (p : Position) : Q :=
  (absQ (positionAmt p) * markPrice p / float64 (positionLeverage p))%Q.

Definition positionInfo (p : Position) : decision.PositionInfo :=
  {| decision.PSymbol := symbol p; decision.PSide := side p |}.

Definition buildTradingContext (a : AutoTrader) (env : ContextEnv)
  : option decision.Context * AutoTrader :=
  match tcBalance env with
  | None => (None, a)
  | Some balance =>
      let totalEquity :=
        (orZero (totalWalletBalance balance) + orZero (totalUnrealizedProfit balance))%Q in
      match tcPositions env with
      | None => (None, a)
      | Some positions =>
          let a1 := fold_left restoreFirstSeenTime positions a in
          let totalMarginUsed :=
            fold_left (fun acc p => (acc + positionMargin p)%Q) positions 0%Q in
          let currentPositionKeys : gset string :=
            list_to_set (List.map (fun p => posKey (symbol p) (side p)) positions) in
          let a2 :=
            setFirstSeen a1
              (filter (fun kv => fst kv ∈ currentPositionKeys)
                      (positionFirstSeenTime a1)) in
          if tcPool env
          then (Some {| decision.Account :=
                          {| decision.TotalEquity := totalEquity;
                             decision.AvailableBalance :=
                               orZero (availableBalance balance);
                             decision.MarginUsed := totalMarginUsed;
                             decision.PositionCount := Z.of_nat (length positions) |};
                        decision.Positions := List.map positionInfo positions |},
                a2)
          else (None, a2)
      end
  end.

(** *** checkPositionStopLossOnly (the ten-second watchdog) *)

(** The threshold used by the watchdog: a configured 0 is replaced by 10. *)
Definition effectiveStopLossPct (cfg : AutoTraderConfig) : Q :=
  if Qeqb (PositionStopLossPct cfg) 0 then 10%Q else PositionStopLossPct cfg.

(** Leveraged profit and loss of a position, in percent. *)
Definition positionPnLPct (p : Position) : Q :=
  if String.eqb (side p) "long"
  then ((markPrice p - entryPrice p) / entryPrice p
        * float64 (positionLeverage p) * 100)%Q
  else ((entryPrice p - markPrice p) / entryPrice p
        * float64 (positionLeverage p) * 100)%Q.

Inductive Trigger := StopLossTrigger (lossPct : Q) | TakeProfitTrigger (profitPct : Q).

(** The two tests of the loop body, in the order of the source. *)
Definition watchdogTrigger (cfg : AutoTraderConfig) (p : Position) : option Trigger :=
  let pnlPct := positionPnLPct p in
  if Qltb pnlPct 0 && Qgeb (- pnlPct) (effectiveStopLossPct cfg)
  then Some (StopLossTrigger (- pnlPct)%Q)
  else if Qgtb (PositionTakeProfitPct cfg) 0 && Qgtb pnlPct 0
          && Qgeb pnlPct (PositionTakeProfitPct cfg)
       then Some (TakeProfitTrigger pnlPct)
       else None.

Definition triggerReason (t : Trigger) : string :=
  match t with
  | StopLossTrigger _ => "position loss over the stop-loss threshold"
  | TakeProfitTrigger _ => "position profit reached the take-profit target"
  end.

Fixpoint watchdogLoop (a : AutoTrader) (env : string -> ForceCloseEnv)
    (ps : list Position) : list logger.DecisionAction * AutoTrader :=
  match ps with
  | [] => ([], a)
  | p :: ps' =>
      match watchdogTrigger (config a) p with
      | None => watchdogLoop a env ps'
      | Some t =>
          let key := posKey (symbol p) (side p) in
          let '(rec, err, a1) :=
            forceClosePosition a (env key) (symbol p) (side p) (triggerReason t) in
          let a2 := match err with
                    | Some _ => a1
                    | None => setFirstSeen a1 (delete key (positionFirstSeenTime a1))
                    end in
          let '(acts, a3) := watchdogLoop a2 env ps' in
          (rec :: acts, a3)
      end
  end.

(** [positions] is the answer of [GetPositions]; the returned actions are
    the ones written to the decision log with cycle number 0. *)
Definition checkPositionStopLossOnly (a : AutoTrader) (positions : option (list Position))
    (env : string -> ForceCloseEnv) : list logger.DecisionAction * AutoTrader :=
  if negb (isRunning a) then ([], a)
  else match positions with
       | None => ([], a)
       | Some ps => watchdogLoop a env ps
       end.

(** *** checkAndExecuteForcedStopLoss (account-level risk control) *)

Inductive Halt := DrawdownHalt | DailyLossHalt.

Definition haltReason (h : Halt) : string :=
  match h with
  | DrawdownHalt => "account drawdown limit"
  | DailyLossHalt => "account daily loss limit"
  end.

(** The update made under [riskMu] at the start of the check.  The daily
    profit and loss is the rounded difference. *)
Definition updatePeakAndDailyPnL (a : AutoTrader) (now : Z) (totalEquity : Q) : AutoTrader :=
  let peak := if Qgtb totalEquity (peakEquity a) then totalEquity else peakEquity a in
  let pnl := if (now - lastResetTime a <? 24 * Hour)%Z
             then fl (totalEquity - dailyStartEquity a) else dailyPnL a in
  setRisk a pnl (dailyStartEquity a) peak.

(** [currentDrawdown := ((currentPeakEquity - TotalEquity) / currentPeakEquity) * 100],
    the difference, the quotient and the product each rounded to binary64. *)
Definition currentDrawdown (a : AutoTrader) (totalEquity : Q) : Q :=
  fl (fl (fl (peakEquity a - totalEquity) / peakEquity a) * 100).

Definition drawdownBreached (a : AutoTrader) (totalEquity : Q) : bool :=
  Qgtb (MaxDrawdown (config a)) 0 && Qgtb (peakEquity a) 0
  && Qgtb (currentDrawdown a totalEquity) (MaxDrawdown (config a)).

(** [dailyLossPct := (currentDailyPnL / currentDailyStartEquity) * 100], the
    quotient and the product each rounded to binary64. *)
Definition dailyLossPct (a : AutoTrader) : Q :=
  fl (fl (dailyPnL a / dailyStartEquity a) * 100).

Definition dailyLossBreached (a : AutoTrader) : bool :=
  Qgtb (MaxDailyLoss (config a)) 0 && Qgtb (dailyStartEquity a) 0
  && Qltb (dailyLossPct a) (- MaxDailyLoss (config a)).

(** Which account-level limit, if any, the check finds breached. *)
Definition accountHalt (a : AutoTrader) (totalEquity : Q) : option Halt :=
  if drawdownBreached a totalEquity then Some DrawdownHalt
  else if dailyLossBreached a then Some DailyLossHalt
  else None.

Record RiskEnv := mkRiskEnv {
  rkNow : Z;                          (** clock of [time.Since(lastResetTime)] *)
  rkNowStop : Z;                      (** clock when [stopUntil] is set *)
  rkForce : string -> ForceCloseEnv
}.

Definition checkAndExecuteForcedStopLoss (a : AutoTrader) (env : RiskEnv)
    (ctx : decision.Context) : list logger.DecisionAction * AutoTrader :=
  let equity := decision.TotalEquity (decision.Account ctx) in
  let a1 := updatePeakAndDailyPnL a (rkNow env) equity in
  match accountHalt a1 equity with
  | Some h =>
      let a2 := setStopUntil a1 (rkNowStop env + StopTradingTime (config a1))%Z in
      forceCloseAllPositions a2 (rkForce env) (haltReason h) (decision.Positions ctx)
  | None => ([], a1)
  end.

(** *** runCycle, up to the forced stop-loss check

    Steps 1 to 4 of the source.  The rest of the cycle (the LLM call and the
    execution of its decisions) does not write [peakEquity], [dailyPnL],
    [dailyStartEquity], [lastResetTime] or [stopUntil]; the reconciler call
    of step 2.6 writes the trade table only and is modelled on its own
    below.  A cycle calls [buildTradingContext] once before step 3, in the
    pause branch or after it; [cyContext] holds the answers to that call. *)

Record CycleEnv := mkCycleEnv {
  cyNow : Z;                               (** clock at the start of the cycle *)
  cyContext : ContextEnv;                  (** answers to [buildTradingContext] *)
  cyNowReset : Z;                          (** clock when [lastResetTime] is set *)
  cyRisk : RiskEnv
}.

Inductive CycleOutcome := Paused | ContextFailed | Continued (forced : list logger.DecisionAction).

(** Step 3: entries of the registry whose position is gone and whose mark is
    older than the retry timeout are removed. *)
Definition cleanRegistry (a : AutoTrader) (now : Z) (ctx : decision.Context) : AutoTrader :=
  let live (key : string) : bool :=
    existsb (fun p => String.eqb (posKey (decision.PSymbol p) (decision.PSide p)) key)
            (decision.Positions ctx) in
  setForcedClosed a
    (filter (fun kv => ~ (live (fst kv) = false
                          /\ (PositionStopLossRetryTimeout < now - snd kv)%Z))
            (forcedClosedPositions a)).

Definition runCycle (a : AutoTrader) (env : CycleEnv) : CycleOutcome * AutoTrader :=
  let a0 := setCallCount a (callCount a + 1)%Z in
  if negb (Z.eqb (stopUntil a0) 0) && (cyNow env <? stopUntil a0)%Z
  then
    (* the context is built for the account snapshot of the decision record *)
    (Paused, snd (buildTradingContext a0 (cyContext env)))
  else
    let needResetDailyPnL := (24 * Hour <? cyNow env - lastResetTime a0)%Z in
    let '(built, ab) := buildTradingContext a0 (cyContext env) in
    match built with
    | None =>
        if needResetDailyPnL
        then (ContextFailed,
              setLastResetTime
                (setRisk ab 0%Q (initialBalance ab) (initialBalance ab))
                (cyNowReset env))
        else (ContextFailed, ab)
    | Some ctx =>
        let equity := decision.TotalEquity (decision.Account ctx) in
        let a1 :=
          if needResetDailyPnL
          then setLastResetTime
                 (setRisk ab 0%Q equity
                    (if Qgtb equity (peakEquity ab) then equity else peakEquity ab))
                 (cyNowReset env)
          else ab in
        let a2 := cleanRegistry a1 (cyNow env) ctx in
        let '(forced, a3) := checkAndExecuteForcedStopLoss a2 (cyRisk env) ctx in
        (* the first-seen entry of every forced close is deleted *)
        let a4 :=
          fold_left
            (fun s act =>
               setFirstSeen s
                 (delete (posKey (logger.Symbol act)
                            (if String.eqb (logger.Action act) "close_long" then "long"
                             else if String.eqb (logger.Action act) "close_short"
                                  then "short" else logger.Action act))
                         (positionFirstSeenTime s)))
            forced a3 in
        (Continued forced, a4)
    end.

(** *** margin_safety_check.go: checkMarginAndBalanceSafety *)

Inductive MarginError :=
| MarketDataFailed
| InvalidPrice
| MarginUsageExceeded
| InsufficientBalance
| LiquidationTooClose
| StopLossWrongSide
| StopLossBeyondLiquidation.

(** Estimated liquidation price and its distance from the entry price, in
    percent (step 6 of the source). *)
Definition marginRate (lev : Z) : Q := (1 / float64 lev + MaintenanceMarginRate)%Q.

Definition estimatedLiquidationPrice (action : string) (price : Q) (lev : Z) : Q :=
  if String.eqb action "open_long"
  then (price * (1 - marginRate lev))%Q
  else (price * (1 + marginRate lev))%Q.

Definition priceDistancePct (action : string) (price : Q) (lev : Z) : Q :=
  if String.eqb action "open_long"
  then ((price - estimatedLiquidationPrice action price lev) / price * 100)%Q
  else ((estimatedLiquidationPrice action price lev - price) / price * 100)%Q.

(** Step 3.5: all current positions and the new one share one symbol. *)
Definition isSingleSymbol (ctx : decision.Context) (sym : string) : bool :=
  if Z.eqb (decision.PositionCount (decision.Account ctx)) 0 then true
  else
    let symbolSet : gset string :=
      list_to_set (List.map decision.PSymbol (decision.Positions ctx)) in
    bool_decide (size symbolSet = 1%nat) && bool_decide (sym ∈ symbolSet).

Definition checkMarginAndBalanceSafety (ctx : decision.Context)
    (dec : decision.Decision) (market : option Q) : option MarginError :=
  match market with
  | None => Some MarketDataFailed
  | Some price =>
      if Qleb price 0 then Some InvalidPrice
      else
        let acct := decision.Account ctx in
        let marginRequired :=
          (decision.PositionSizeUSD dec / float64 (decision.Leverage dec))%Q in
        let totalMarginAfterOpen := (decision.MarginUsed acct + marginRequired)%Q in
        let totalMarginUsedPct :=
          if Qgtb (decision.TotalEquity acct) 0
          then (totalMarginAfterOpen / decision.TotalEquity acct * 100)%Q else 0%Q in
        let maxMarginUsagePct :=
          if isSingleSymbol ctx (decision.Symbol dec)
          then MaxMarginUsagePctSingleSymbol else MaxMarginUsagePct in
        if Qgtb totalMarginUsedPct maxMarginUsagePct then Some MarginUsageExceeded
        else
          let minReserveBalance :=
            (decision.TotalEquity acct * (MinReserveBalancePct / 100))%Q in
          if Qltb (decision.AvailableBalance acct - marginRequired) minReserveBalance
          then Some InsufficientBalance
          else
            let action := decision.Action dec in
            let liq := estimatedLiquidationPrice action price (decision.Leverage dec) in
            if Qltb (priceDistancePct action price (decision.Leverage dec))
                    MinSafeDistancePct
            then Some LiquidationTooClose
            else if Qgtb (decision.StopLoss dec) 0
            then
              if String.eqb action "open_long"
              then if Qgeb (decision.StopLoss dec) price then Some StopLossWrongSide
                   else if Qleb (decision.StopLoss dec) liq
                        then Some StopLossBeyondLiquidation else None
              else if Qleb (decision.StopLoss dec) price then Some StopLossWrongSide
                   else if Qgeb (decision.StopLoss dec) liq
                        then Some StopLossBeyondLiquidation else None
            else None
  end.

(** *** executeOpenLongWithRecord, executeOpenShortWithRecord

    The two functions of the source differ in the side only.  The writes to
    the position-logic store are taken to succeed (the source only logs a
    failure), the answers of [SetStopLoss] and [SetTakeProfit] are only
    logged, and the entry and exit logic extracted from the reasoning are
    represented by the reasoning texts themselves. *)

Record OpenEnv := mkOpenEnv {
  oePositionsBefore : option (list Position);   (** first [GetPositions] *)
  oeContext : ContextEnv;                       (** answers to [buildTradingContext] *)
  oeMarketCheck : option Q;                     (** [market.Get] of the margin check *)
  oePositionsRecheck : option (list Position);  (** second [GetPositions] *)
  oeMarket : option Q;                          (** [market.Get] of the executor *)
  oeFormatQuantity : Q -> option Q;             (** [FormatQuantity] then [ParseFloat] *)
  oeOrder : option Z;                           (** [OpenLong] / [OpenShort] *)
  oeNow : Z                                     (** [time.Now().UnixMilli()] *)
}.

Definition hasPosition (sym sd : string) (ps : option (list Position)) : bool :=
  match ps with
  | None => false
  | Some l => existsb (fun p => String.eqb (symbol p) sym && String.eqb (side p) sd) l
  end.

Definition executeOpenWithRecord (sd : string) (a : AutoTrader) (env : OpenEnv)
    (dec : decision.Decision) (actionRecord : logger.DecisionAction)
  : error * logger.DecisionAction * AutoTrader :=
  let sym := decision.Symbol dec in
  if hasPosition sym sd (oePositionsBefore env)
  then (Some "position already open", actionRecord, a)
  else
  let '(built, a0) := buildTradingContext a (oeContext env) in
  match built with
  | None => (Some "building the trading context failed", actionRecord, a0)
  | Some ctx =>
  match checkMarginAndBalanceSafety ctx dec (oeMarketCheck env) with
  | Some _ => (Some "margin check failed", actionRecord, a0)
  | None =>
  if hasPosition sym sd (oePositionsRecheck env)
  then (Some "position appeared while opening", actionRecord, a0)
  else match oeMarket env with
  | None => (Some "market data failed", actionRecord, a0)
  | Some price =>
  if Qleb price 0 then (Some "invalid price", actionRecord, a0)
  else
    let quantity := (decision.PositionSizeUSD dec / price)%Q in
    match oeFormatQuantity env quantity with
    | None => (Some "formatting the quantity failed", actionRecord, a0)
    | Some formattedQuantity =>
    if Qltb formattedQuantity (MinPositionSizeUSD / price)
    then (Some "quantity too small", actionRecord, a0)
    else
      let rec1 := withPrice (withQuantity actionRecord formattedQuantity) price in
      match oeOrder env with
      | None => (Some "open order failed", rec1, a0)
      | Some oid =>
          let rec2 := withOrderID rec1 oid in
          let key := posKey sym sd in
          let a1 := setFirstSeen a0 (<[ key := oeNow env ]> (positionFirstSeenTime a0)) in
          let l1 := positionlogic.SaveFirstSeenTime (positionLogic a1) sym sd (oeNow env) in
          let l2 :=
            if Qgtb (decision.StopLoss dec) 0 || Qgtb (decision.TakeProfit dec) 0
            then positionlogic.SaveStopLossAndTakeProfit l1 sym sd
                   (decision.StopLoss dec) (decision.TakeProfit dec)
            else l1 in
          let l3 :=
            if strNonEmpty (decision.Reasoning dec)
            then
              let l := positionlogic.SaveEntryLogic l2 sym sd (decision.Reasoning dec) in
              if strNonEmpty (decision.ExitReasoning dec)
              then positionlogic.SaveExitLogic l sym sd (decision.ExitReasoning dec)
              else l
            else l2 in
          (None, rec2, setPositionLogic a1 l3)
      end
    end
  end end end.

Definition executeOpenLongWithRecord := executeOpenWithRecord "long".
Definition executeOpenShortWithRecord := executeOpenWithRecord "short".

(** *** executeUpdateStopLoss *)

Inductive CancelResult := CancelOK | CancelNoOrders | CancelFailed.

Record UpdateEnv := mkUpdateEnv {
  uePositions : option (list Position);  (** [GetPositions] of [findPositionBySymbol] *)
  ueMarket : option Q;                   (** [market.Get]: price; [None]: error or nil *)
  ueCancel : CancelResult;               (** [CancelAllOrders] *)
  ueSetStopLoss : bool;                  (** [SetStopLoss] succeeded *)
  ueSetTakeProfit : bool;                (** [SetTakeProfit] succeeded *)
  ueRollback : bool;                     (** [rollbackOrders] succeeded *)
  ueSave : bool                          (** the write to the logic table succeeded *)
}.

(** [findPositionBySymbol]: the first position of the symbol with a non-zero
    amount, whatever its side. *)
Definition findPositionBySymbol (ps : option (list Position)) (sym : string)
  : option Position :=
  match ps with
  | None => None
  | Some l =>
      List.find (fun p => String.eqb (symbol p) sym && Qgtb (absQ (positionAmt p)) 0) l
  end.

Definition storedStop (o : option positionlogic.PositionLogic) : option Q :=
  match o with
  | Some l => if Qgtb (positionlogic.StopLoss l) 0
              then Some (positionlogic.StopLoss l) else None
  | None => None
  end.

(** Step 3: a change below 0.5 % of the stored stop is a no-op. *)
Definition isNoOp (old : option positionlogic.PositionLogic) (newStop : Q) : bool :=
  match storedStop old with
  | Some s0 => Qltb (absQ ((newStop - s0) / s0)) 0.005
  | None => false
  end.

(** The trailing rule of step 5: the stop may only move in the favourable
    direction. *)
Definition checkTrailing (sd : string) (old : option positionlogic.PositionLogic)
    (newStop : Q) : error :=
  match storedStop old with
  | Some s0 =>
      if String.eqb sd "long"
      then if Qltb newStop s0
           then Some "long: the stop may only move up" else None
      else if Qgtb newStop s0
           then Some "short: the stop may only move down" else None
  | None => None
  end.

(** The checks against the current price and the take-profit. *)
Definition checkStopAgainstPrice (sd : string) (newStop price : Q) : error :=
  if String.eqb sd "long"
  then if Qgeb newStop price then Some "long: stop must be below the price" else None
  else if Qleb newStop price then Some "short: stop must be above the price" else None.

Definition checkStopAgainstTakeProfit (sd : string) (newStop tp price : Q) : error :=
  if Qgtb tp 0
  then if String.eqb sd "long"
       then if Qgeb newStop tp then Some "long: stop must be below take-profit"
            else if Qgeb newStop price || Qleb tp price
                 then Some "long: price must lie between stop and take-profit"
                 else None
       else if Qleb newStop tp then Some "short: stop must be above take-profit"
            else if Qgeb tp price || Qleb newStop price
                 then Some "short: price must lie between take-profit and stop"
                 else None
  else None.

(** The test [quantity <= 0] of step 4 is left out: [findPositionBySymbol]
    returns a position of non-zero amount only, so it never succeeds.  The
    texts of the errors are shortened. *)
Definition executeUpdateStopLoss (a : AutoTrader) (env : UpdateEnv)
    (dec : decision.Decision) (actionRecord : logger.DecisionAction)
  : error * logger.DecisionAction * AutoTrader :=
  let sym := decision.Symbol dec in
  let newStop := decision.StopLoss dec in
  if Qleb newStop 0 then (Some "stop must be positive", actionRecord, a)
  else match findPositionBySymbol (uePositions env) sym with
  | None => (Some "no position for the symbol", actionRecord, a)
  | Some pos =>
  let sd := side pos in
  let quantity := absQ (positionAmt pos) in
  let old := positionlogic.GetLogic (positionLogic a) sym sd in
  if isNoOp old newStop
  then
    let s0 := match storedStop old with Some s => s | None => 0%Q end in
    (None, withError (withQuantity (withPrice actionRecord s0) quantity)
             "SKIPPED: change below 0.5%", a)
  else match ueMarket env with
  | None => (Some "market data failed", actionRecord, a)
  | Some price =>
  if Qleb price 0 then (Some "invalid price", actionRecord, a)
  else
    let rec1 := withQuantity (withPrice actionRecord price) quantity in
    match checkStopAgainstPrice sd newStop price with
    | Some e => (Some e, rec1, a)
    | None =>
    match checkTrailing sd old newStop with
    | Some e => (Some e, rec1, a)
    | None =>
    match checkStopAgainstTakeProfit sd newStop (decision.TakeProfit dec) price with
    | Some e => (Some e, rec1, a)
    | None =>
      let oldTP := match old with Some l => positionlogic.TakeProfit l | None => 0%Q end in
      let preserveTakeProfit :=
        if Qleb (decision.TakeProfit dec) 0 && Qgtb oldTP 0
        then oldTP else decision.TakeProfit dec in
      match ueCancel env with
      | CancelFailed => (Some "cancelling the old orders failed", rec1, a)
      | _ =>
        if negb (ueSetStopLoss env)
        then (Some (if ueRollback env then "new stop failed, old orders restored"
                    else "new stop failed and rollback failed"), rec1, a)
        else if Qgtb preserveTakeProfit 0 && negb (ueSetTakeProfit env)
        then (Some (if ueRollback env then "take-profit failed, old orders restored"
                    else "take-profit failed and rollback failed"), rec1, a)
        else
          let saveTakeProfit :=
            if Qleb (decision.TakeProfit dec) 0 && Qgtb preserveTakeProfit 0
            then preserveTakeProfit else decision.TakeProfit dec in
          (None, rec1,
           if ueSave env
           then setPositionLogic a
                  (positionlogic.SaveStopLossAndTakeProfit (positionLogic a) sym sd
                     newStop saveTakeProfit)
           else a)
      end
    end end end
  end end.

(** *** sortDecisionsByPriority, deduplicateDecisions *)

Definition getActionPriority (action : string) : Z :=
  if String.eqb action "close_long" || String.eqb action "close_short" then 1
  else if String.eqb action "open_long" || String.eqb action "open_short" then 2
  else if String.eqb action "hold" || String.eqb action "wait" then 3
  else 999.

Definition priority (d : decision.Decision) : Z := getActionPriority (decision.Action d).

(** The body of the inner loop: [sorted[i]] and [sorted[j]] are exchanged
    when the first has the greater priority number. *)
Definition swapIfGreater (sorted : list decision.Decision) (i j : nat)
  : list decision.Decision :=
  match sorted !! i, sorted !! j with
  | Some x, Some y =>
      if (priority y <? priority x)%Z then <[ j := x ]> (<[ i := y ]> sorted) else sorted
  | _, _ => sorted
  end.

(** [for j := ...; j < len(sorted); j++], with [steps] iterations left. *)
Fixpoint innerLoop (sorted : list decision.Decision) (i j steps : nat)
  : list decision.Decision :=
  match steps with
  | O => sorted
  | S k => innerLoop (swapIfGreater sorted i j) i (S j) k
  end.

(** [for i := 0; i < len(sorted)-1; i++], with [steps] iterations left. *)
Fixpoint outerLoop (sorted : list decision.Decision) (i steps : nat)
  : list decision.Decision :=
  match steps with
  | O => sorted
  | S k => outerLoop (innerLoop sorted i (S i) (length sorted - S i)) (S i) k
  end.

Definition sortDecisionsByPriority (decisions : list decision.Decision)
  : list decision.Decision :=
  if (length decisions <=? 1)%nat then decisions
  else outerLoop decisions 0 (length decisions - 1).

Definition dedupAction (action : string) : bool :=
  String.eqb action "update_sl" || String.eqb action "update_tp".

Definition dedupKey (d : decision.Decision) : string :=
  decision.Symbol d +:+ "_" +:+ decision.Action d.

Definition indexed {A} (l : list A) : list (nat * A) := combine (seq 0 (length l)) l.

(** First pass: the last index of every (symbol, action) key. *)
Definition lastIndexMap (decisions : list decision.Decision) : gmap string nat :=
  fold_left
    (fun m '(i, d) => if dedupAction (decision.Action d) then <[ dedupKey d := i ]> m else m)
    (indexed decisions) ∅.

(** Second pass: an update is kept only at the recorded index. *)
Definition deduplicateDecisions (decisions : list decision.Decision)
  : list decision.Decision :=
  if (length decisions <=? 1)%nat then decisions
  else
    let m := lastIndexMap decisions in
    List.map snd
      (List.filter
         (fun '(i, d) =>
            if dedupAction (decision.Action d)
            then bool_decide (m !! dedupKey d = Some i)
            else true)
         (indexed decisions)).

(** Steps 7 and 7.5 of [runCycle]. *)
Definition sortAndDeduplicate (decisions : list decision.Decision)
  : list decision.Decision :=
  deduplicateDecisions (sortDecisionsByPriority decisions).

(** *** SyncManualTradesFromExchange (the exchange-trade reconciler) *)

(** One fill of [GetAccountTrades].  A field read with a checked type
    assertion or parsed from text is an [option]; [fRealizedPnl] is 0 when
    the text is missing or does not parse, [fSide] is empty when missing. *)
Record Fill := mkFill {
  fSymbol : option string;
  fOrderId : option Q;
  fSide : string;
  fTime : option Q;
  fPrice : option Q;
  fQty : option Q;
  fRealizedPnl : Q
}.

Record aggregatedTrade := mkAggregatedTrade {
  orderId : Z;
  aSymbol : string;
  aSide : string;
  tradeSide : string;
  totalQty : Q;
  totalPnL : Q;
  weightedPrice : Q;
  firstTime : Z;
  lastTime : Z;
  totalRealizedPnl : Q
}.

(** A timestamp below 1e12 is in seconds, otherwise in milliseconds. *)
Definition fillTime (timeMs : Q) : Z :=
  if Qltb timeMs 1000000000000 then (1000 * truncQ timeMs)%Z else truncQ timeMs.

Definition upperChar (c : ascii) : ascii :=
  let n := nat_of_ascii c in
  if ((97 <=? n) && (n <=? 122))%nat then ascii_of_nat (n - 32) else c.

Fixpoint ToUpper (s : string) : string :=
  match s with
  | EmptyString => EmptyString
  | String c s' => String (upperChar c) (ToUpper s')
  end.

Definition closedSide (fillSide : string) : option string :=
  if String.eqb (ToUpper fillSide) "SELL" then Some "long"
  else if String.eqb (ToUpper fillSide) "BUY" then Some "short"
  else None.

(** [orderMap], kept in the order in which the order ids first appear. *)
Fixpoint upsertAgg (oid : Z) (fresh : aggregatedTrade)
    (merge : aggregatedTrade -> aggregatedTrade)
    (m : list (Z * aggregatedTrade)) : list (Z * aggregatedTrade) :=
  match m with
  | [] => [(oid, fresh)]
  | (k, agg) :: m' =>
      if Z.eqb k oid then (k, merge agg) :: m'
      else (k, agg) :: upsertAgg oid fresh merge m'
  end.

Definition mergeFill (price qty pnl : Q) (t : Z) (agg : aggregatedTrade) : aggregatedTrade :=
  let newTotalValue := (weightedPrice agg * totalQty agg + price * qty)%Q in
  let newQty := (totalQty agg + qty)%Q in
  {| orderId := orderId agg; aSymbol := aSymbol agg; aSide := aSide agg;
     tradeSide := tradeSide agg;
     totalQty := newQty;
     totalPnL := (totalPnL agg + pnl)%Q;
     weightedPrice := (newTotalValue / newQty)%Q;
     firstTime := if (t <? firstTime agg)%Z then t else firstTime agg;
     lastTime := if (lastTime agg <? t)%Z then t else lastTime agg;
     totalRealizedPnl := (totalRealizedPnl agg + pnl)%Q |}.

(** One iteration of the aggregation loop; [known] tells whether an order id
    is the close order of a local trade. *)
Definition addFill (known : Z -> bool) (m : list (Z * aggregatedTrade)) (f : Fill)
  : list (Z * aggregatedTrade) :=
  match fSymbol f, fOrderId f with
  | Some sym, Some oidq =>
      if String.eqb sym "" || Qeqb oidq 0 || known (truncQ oidq) then m
      else
        match fTime f, fPrice f, fQty f with
        | Some timeMs, Some price, Some qty =>
            if Qeqb (fRealizedPnl f) 0 then m
            else match closedSide (fSide f) with
                 | None => m
                 | Some ts =>
                     let t := fillTime timeMs in
                     upsertAgg (truncQ oidq)
                       {| orderId := truncQ oidq; aSymbol := sym; aSide := fSide f;
                          tradeSide := ts; totalQty := qty;
                          totalPnL := fRealizedPnl f; weightedPrice := price;
                          firstTime := t; lastTime := t;
                          totalRealizedPnl := fRealizedPnl f |}
                       (mergeFill price qty (fRealizedPnl f) t) m
                 end
        | _, _, _ => m
        end
  | _, _ => m
  end.

(** The opening fill of a close group: same symbol, opposite side, no
    realized profit, strictly before the last fill of the group; the latest
    such fill wins. *)
Definition isOpenFillOf (agg : aggregatedTrade) (f : Fill) : option Z :=
  match fSymbol f, fTime f with
  | Some sym, Some timeMs =>
      let t := fillTime timeMs in
      let opposite :=
        (String.eqb (tradeSide agg) "long" && String.eqb (ToUpper (fSide f)) "BUY")
        || (String.eqb (tradeSide agg) "short" && String.eqb (ToUpper (fSide f)) "SELL") in
      if String.eqb sym (aSymbol agg) && opposite && Qeqb (fRealizedPnl f) 0
         && (t <? lastTime agg)%Z
      then Some t else None
  | _, _ => None
  end.

Fixpoint bestOpenFill (agg : aggregatedTrade) (best : option (Fill * Z))
    (fills : list Fill) : option (Fill * Z) :=
  match fills with
  | [] => best
  | f :: fills' =>
      let best' :=
        match isOpenFillOf agg f with
        | Some t =>
            match best with
            | None => Some (f, t)
            | Some (_, bt) => if (bt <? t)%Z then Some (f, t) else best
            end
        | None => best
        end in
      bestOpenFill agg best' fills'
  end.

(** The leverage of the opening: the live position, else a recent local
    trade, else the configured leverage of the symbol class. *)
Definition recoverLeverage (cfg : AutoTraderConfig) (agg : aggregatedTrade)
    (positions : option (list Position)) (localTrades : list storage.TradeRecord) : Z :=
  let fromPosition :=
    match positions with
    | None => 0%Z
    | Some l =>
        match List.find (fun p => String.eqb (symbol p) (aSymbol agg)
                                  && String.eqb (side p) (tradeSide agg)
                                  && match leverage p with Some _ => true | None => false end) l with
        | Some p => positionLeverage p
        | None => 0%Z
        end
    end in
  let fromLocal :=
    if Z.eqb fromPosition 0
    then match List.find (fun t => String.eqb (storage.Symbol t) (aSymbol agg)
                                   && String.eqb (storage.Side t) (tradeSide agg)
                                   && (storage.OpenTime t <? lastTime agg)%Z
                                   && (lastTime agg - 24 * Hour <? storage.OpenTime t)%Z)
                         localTrades with
         | Some t => storage.OpenLeverage t
         | None => 0%Z
         end
    else fromPosition in
  if Z.eqb fromLocal 0
  then (if String.eqb (aSymbol agg) "BTCUSDT" || String.eqb (aSymbol agg) "ETHUSDT"
        then BTCETHLeverage cfg else AltcoinLeverage cfg)
  else fromLocal.

(** The latest local trade of the symbol and side opened before the close. *)
Fixpoint bestLocalTrade (agg : aggregatedTrade) (best : option storage.TradeRecord)
    (l : list storage.TradeRecord) : option storage.TradeRecord :=
  match l with
  | [] => best
  | t :: l' =>
      let ok := String.eqb (storage.Symbol t) (aSymbol agg)
                && String.eqb (storage.Side t) (tradeSide agg)
                && (storage.OpenTime t <? lastTime agg)%Z in
      let best' :=
        if ok
        then match best with
             | None => Some t
             | Some b => if (storage.OpenTime b <? storage.OpenTime t)%Z then Some t else best
             end
        else best in
      bestLocalTrade agg best' l'
  end.

Record OpenSide := mkOpenSide {
  osPrice : Q;
  osQuantity : Q;
  osLeverage : Z;
  osOrderID : Z;
  osTime : Z
}.

Definition reconstructOpen (cfg : AutoTraderConfig) (agg : aggregatedTrade)
    (fills : list Fill) (positions : option (list Position))
    (local500 : list storage.TradeRecord) : OpenSide :=
  let fromExchange :=
    match bestOpenFill agg None fills with
    | Some (f, t) =>
        {| osPrice := orZero (fPrice f); osQuantity := orZero (fQty f);
           osLeverage := recoverLeverage cfg agg positions local500;
           osOrderID := match fOrderId f with Some q => truncQ q | None => 0%Z end;
           osTime := t |}
    | None =>
        {| osPrice := 0; osQuantity := 0; osLeverage := 0; osOrderID := 0; osTime := 0 |}
    end in
  if Qeqb (osPrice fromExchange) 0
  then match bestLocalTrade agg None local500 with
       | Some t =>
           {| osPrice := storage.OpenPrice t; osQuantity := storage.OpenQuantity t;
              osLeverage := storage.OpenLeverage t; osOrderID := storage.OpenOrderID t;
              osTime := storage.OpenTime t |}
       | None => fromExchange
       end
  else fromExchange.

(** The row built for one close group; [None] when no opening is found.
    The reasons "external open" and "manual close" stand for the constants
    of the source. *)
Definition missingTrade (cfg : AutoTraderConfig) (cycle : Z) (agg : aggregatedTrade)
    (fills : list Fill) (positions : option (list Position))
    (local500 : list storage.TradeRecord) : option storage.TradeRecord :=
  let o := reconstructOpen cfg agg fills positions local500 in
  if Qeqb (osPrice o) 0 then None
  else
    let calculatedPnL := totalRealizedPnl agg in
    let positionValue := (osQuantity o * osPrice o)%Q in
    let marginUsed := (positionValue / float64 (osLeverage o))%Q in
    let pnlPct := if Qgtb marginUsed 0 then (calculatedPnL / marginUsed * 100)%Q else 0%Q in
    Some {| storage.TradeID :=
              aSymbol agg +:+ "_" +:+ tradeSide agg +:+ "_" +:+ pretty (orderId agg);
            storage.Symbol := aSymbol agg; storage.Side := tradeSide agg;
            storage.OpenTime := osTime o; storage.OpenPrice := osPrice o;
            storage.OpenQuantity := osQuantity o; storage.OpenLeverage := osLeverage o;
            storage.OpenOrderID := osOrderID o; storage.OpenReason := "external open";
            storage.OpenCycleNum := 0;
            storage.CloseTime := Some (lastTime agg);
            storage.ClosePrice := weightedPrice agg;
            storage.CloseQuantity := totalQty agg;
            storage.CloseOrderID := orderId agg;
            storage.CloseReason := "manual close";
            storage.CloseCycleNum := cycle;
            storage.IsForced := false; storage.ForcedReason := "";
            storage.Duration := (lastTime agg - osTime o)%Z;
            storage.PositionValue := positionValue; storage.MarginUsed := marginUsed;
            storage.PnL := calculatedPnL; storage.PnLPct := pnlPct;
            storage.WasStopLoss := false; storage.Success := true; storage.Error := "";
            storage.EntryLogic := ""; storage.ExitLogic := "";
            storage.UpdateSLLogic := ""; storage.UpdateTPLogic := "";
            storage.CloseLogic := ""; storage.ForcedCloseLogic := "";
            storage.NullColumns := [] |}.

Record SyncEnv := mkSyncEnv {
  syFills : option (list Fill);            (** [GetAccountTrades], last 7 days *)
  syPositions : option (list Position)     (** [GetPositions] *)
}.

(** The rows the reconciler tries to insert, in the order of [orderMap]. *)
Definition missingTrades (a : AutoTrader) (env : SyncEnv) : list storage.TradeRecord :=
  match syFills env with
  | None | Some [] => []
  | Some fills =>
      let local1000 := storage.GetLatestTrades (trades a) 1000 in
      let known (oid : Z) : bool :=
        existsb (fun t => (0 <? storage.CloseOrderID t)%Z
                          && Z.eqb (storage.CloseOrderID t) oid) local1000 in
      let orderMap := fold_left (addFill known) fills [] in
      let local500 := storage.GetLatestTrades (trades a) 500 in
      omap (fun '(_, agg) =>
              missingTrade (config a) (callCount a) agg fills (syPositions env) local500)
           orderMap
  end.

Definition SyncManualTradesFromExchange (a : AutoTrader) (env : SyncEnv) : AutoTrader :=
  setTrades a
    (fold_left (fun tbl t => snd (storage.LogTrade tbl t)) (missingTrades a env) (trades a)).

(** *** executeUpdateTakeProfit

    The mirror of [executeUpdateStopLoss]: the take-profit order is placed
    first, then the stop-loss that is kept or given.  There is no trailing
    rule on this path.  As there, the test [quantity <= 0] of step 4 never
    succeeds and is left out, and the texts of the errors are shortened. *)

Definition storedTakeProfit (o : option positionlogic.PositionLogic) : option Q :=
  match o with
  | Some l => if Qgtb (positionlogic.TakeProfit l) 0
              then Some (positionlogic.TakeProfit l) else None
  | None => None
  end.

(** Step 3: a change below 0.5 % of the stored take-profit is a no-op. *)
Definition isNoOpTakeProfit (old : option positionlogic.PositionLogic)
    (newTP : Q) : bool :=
  match storedTakeProfit old with
  | Some t0 => Qltb (absQ ((newTP - t0) / t0)) 0.005
  | None => false
  end.

(** Step 5: the take-profit against the current price, then against the
    stop-loss of the decision when it carries one. *)
Definition checkTakeProfitAgainstPrice (sd : string) (newTP price : Q) : error :=
  if String.eqb sd "long"
  then if Qleb newTP price then Some "long: take-profit must be above the price" else None
  else if Qgeb newTP price then Some "short: take-profit must be below the price" else None.

Definition checkTakeProfitAgainstStop (sd : string) (stop newTP price : Q) : error :=
  if Qgtb stop 0
  then if String.eqb sd "long"
       then if Qgeb stop newTP then Some "long: stop must be below take-profit"
            else if Qgeb stop price || Qleb newTP price
                 then Some "long: price must lie between stop and take-profit"
                 else None
       else if Qleb stop newTP then Some "short: stop must be above take-profit"
            else if Qgeb newTP price || Qleb stop price
                 then Some "short: price must lie between take-profit and stop"
                 else None
  else None.

Definition executeUpdateTakeProfit (a : AutoTrader) (env : UpdateEnv)
    (dec : decision.Decision) (actionRecord : logger.DecisionAction)
  : error * logger.DecisionAction * AutoTrader :=
  let sym := decision.Symbol dec in
  let newTP := decision.TakeProfit dec in
  if Qleb newTP 0 then (Some "take-profit must be positive", actionRecord, a)
  else match findPositionBySymbol (uePositions env) sym with
  | None => (Some "no position for the symbol", actionRecord, a)
  | Some pos =>
  let sd := side pos in
  let quantity := absQ (positionAmt pos) in
  let old := positionlogic.GetLogic (positionLogic a) sym sd in
  if isNoOpTakeProfit old newTP
  then
    let t0 := match storedTakeProfit old with Some t => t | None => 0%Q end in
    (None, withError (withQuantity (withPrice actionRecord t0) quantity)
             "SKIPPED: change below 0.5%", a)
  else match ueMarket env with
  | None => (Some "market data failed", actionRecord, a)
  | Some price =>
  if Qleb price 0 then (Some "invalid price", actionRecord, a)
  else
    let rec1 := withQuantity (withPrice actionRecord price) quantity in
    match checkTakeProfitAgainstPrice sd newTP price with
    | Some e => (Some e, rec1, a)
    | None =>
    match checkTakeProfitAgainstStop sd (decision.StopLoss dec) newTP price with
    | Some e => (Some e, rec1, a)
    | None =>
      let oldSL := match old with Some l => positionlogic.StopLoss l | None => 0%Q end in
      let preserveStopLoss :=
        if Qleb (decision.StopLoss dec) 0 && Qgtb oldSL 0
        then oldSL else decision.StopLoss dec in
      match ueCancel env with
      | CancelFailed => (Some "cancelling the old orders failed", rec1, a)
      | _ =>
        if negb (ueSetTakeProfit env)
        then (Some (if ueRollback env then "new take-profit failed, old orders restored"
                    else "new take-profit failed and rollback failed"), rec1, a)
        else if Qgtb preserveStopLoss 0 && negb (ueSetStopLoss env)
        then (Some (if ueRollback env then "stop-loss failed, old orders restored"
                    else "stop-loss failed and rollback failed"), rec1, a)
        else
          let saveStopLoss :=
            if Qleb (decision.StopLoss dec) 0 && Qgtb preserveStopLoss 0
            then preserveStopLoss else decision.StopLoss dec in
          (None, rec1,
           if ueSave env
           then setPositionLogic a
                  (positionlogic.SaveStopLossAndTakeProfit (positionLogic a) sym sd
                     saveStopLoss newTP)
           else a)
      end
    end end
  end end.

(** *** executeDecisionWithRecord and the execution loop of runCycle *)

Record ExecEnv := mkExecEnv {
  exNow : Z;                 (** clock at the registry test of the loop *)
  exStamp : Z;               (** [Timestamp] of the action record *)
  exOpen : OpenEnv;
  exClose : CloseEnv;
  exUpdate : UpdateEnv
}.

Definition executeDecisionWithRecord (a : AutoTrader) (env : ExecEnv)
    (dec : decision.Decision) (actionRecord : logger.DecisionAction)
  : error * logger.DecisionAction * AutoTrader :=
  let action := decision.Action dec in
  if String.eqb action "open_long"
  then executeOpenLongWithRecord a (exOpen env) dec actionRecord
  else if String.eqb action "open_short"
  then executeOpenShortWithRecord a (exOpen env) dec actionRecord
  else if String.eqb action "close_long"
  then executeCloseLongWithRecord a (exClose env) dec actionRecord
  else if String.eqb action "close_short"
  then executeCloseShortWithRecord a (exClose env) dec actionRecord
  else if String.eqb action "update_tp"
  then executeUpdateTakeProfit a (exUpdate env) dec actionRecord
  else if String.eqb action "update_sl"
  then executeUpdateStopLoss a (exUpdate env) dec actionRecord
  else if String.eqb action "hold" || String.eqb action "wait"
  then (None, actionRecord, a)
  else (Some "unknown action", actionRecord, a).

(** [strings.TrimPrefix] and [strings.ToLower]; the latter on the letters
    A to Z, every other character is left as it is. *)
Fixpoint dropPrefix (prefix s : string) : option string :=
  match prefix, s with
  | EmptyString, _ => Some s
  | String p prefix', String c s' =>
      if Ascii.eqb p c then dropPrefix prefix' s' else None
  | String _ _, EmptyString => None
  end.

Definition TrimPrefix (s prefix : string) : string :=
  match dropPrefix prefix s with
  | Some rest => rest
  | None => s
  end.

Definition lowerChar (c : ascii) : ascii :=
  let n := nat_of_ascii c in
  if ((65 <=? n) && (n <=? 90))%nat then ascii_of_nat (n + 32) else c.

Fixpoint ToLower (s : string) : string :=
  match s with
  | EmptyString => EmptyString
  | String c s' => String (lowerChar c) (ToLower s')
  end.

(** The registry key the loop looks a decision up under. *)
Definition executionKey (d : decision.Decision) : string :=
  decision.Symbol d +:+ "_" +:+ ToLower (TrimPrefix (decision.Action d) "close_").

Definition withSuccess (r : logger.DecisionAction) (ok : bool) : logger.DecisionAction :=
  {| logger.Action := logger.Action r; logger.Symbol := logger.Symbol r;
     logger.Quantity := logger.Quantity r; logger.Leverage := logger.Leverage r;
     logger.Price := logger.Price r; logger.OrderID := logger.OrderID r;
     logger.Timestamp := logger.Timestamp r; logger.Success := ok;
     logger.Error := logger.Error r; logger.IsForced := logger.IsForced r;
     logger.ForcedReason := logger.ForcedReason r |}.

Definition pendingAction (d : decision.Decision) (now : Z) : logger.DecisionAction :=
  {| logger.Action := decision.Action d; logger.Symbol := decision.Symbol d;
     logger.Quantity := 0; logger.Leverage := decision.Leverage d;
     logger.Price := 0; logger.OrderID := 0; logger.Timestamp := now;
     logger.Success := false; logger.Error := ""; logger.IsForced := false;
     logger.ForcedReason := "" |}.

(** [for _, d := range deduplicatedDecisions]: [i] is the index of the head
    of [ds] in the list of the cycle, [env i] the answers of the outside
    world during iteration [i].  The result holds the records the loop appends
    to [record.Decisions]. *)
Fixpoint executeDecisions (a : AutoTrader) (env : nat -> ExecEnv) (i : nat)
    (ds : list decision.Decision) : list logger.DecisionAction * AutoTrader :=
  match ds with
  | [] => ([], a)
  | d :: ds' =>
      match passRegistry a (executionKey d) (exNow (env i)) with
      | None => executeDecisions a env (S i) ds'
      | Some a1 =>
          let '(err, rec1, a2) :=
            executeDecisionWithRecord a1 (env i) d (pendingAction d (exStamp (env i))) in
          let rec2 := match err with
                      | Some e => withError rec1 e
                      | None => withSuccess rec1 true
                      end in
          let '(recs, a3) := executeDecisions a2 env (S i) ds' in
          (rec2 :: recs, a3)
      end
  end.

(** *** getEntryInfoFromHistory, getLatestClosePrice *)

(** The first trade of the symbol and side among the rows returned by
    [GetLatestTrades(100)]; three zeros when there is none. *)
Definition getEntryInfoFromHistory (a : AutoTrader) (sym sd : string) : Q * Q * Z :=
  match List.find (fun t => String.eqb (storage.Symbol t) sym
                            && String.eqb (storage.Side t) sd)
                  (storage.GetLatestTrades (trades a) 100) with
  | Some t => (storage.OpenPrice t, storage.OpenQuantity t, storage.OpenLeverage t)
  | None => (0%Q, 0%Q, 0%Z)
  end.

(** A fill that closes a position of side [sd]: a SELL for a long, a BUY for
    a short, with a realized profit that is not zero. *)
Definition isClosingFill (sd : string) (f : Fill) : bool :=
  (String.eqb sd "long" && String.eqb (ToUpper (fSide f)) "SELL"
   && negb (Qeqb (fRealizedPnl f) 0))
  || (String.eqb sd "short" && String.eqb (ToUpper (fSide f)) "BUY"
      && negb (Qeqb (fRealizedPnl f) 0)).

(** [closingTrades]: price and timestamp of the closing fills of the symbol
    whose price parses and whose time is present. *)
Definition closingTrades (sym sd : string) (fills : list Fill) : list (Q * Z) :=
  omap (fun f =>
          match fSymbol f with
          | Some s =>
              if String.eqb s sym && isClosingFill sd f
              then match fPrice f, fTime f with
                   | Some price, Some timeMs => Some (price, truncQ timeMs)
                   | _, _ => None
                   end
              else None
          | None => None
          end) fills.

(** The last loop: [latestTrade] starts as the zero value and is replaced by
    every element with a strictly greater timestamp. *)
Definition latestOf (cts : list (Q * Z)) : Q * Z :=
  fold_left (fun latest ct => if (snd latest <? snd ct)%Z then ct else latest)
            cts (0%Q, 0%Z).

(** [accountTrades] is the answer of [GetAccountTrades] over the last 24
    hours, [None] when the exchange client has no such call or the call
    fails. *)
Definition getLatestClosePrice (accountTrades : option (list Fill)) (sym sd : string)
  : option Q :=
  match accountTrades with
  | None => None
  | Some fills =>
      match closingTrades sym sd fills with
      | [] => None
      | cts => Some (fst (latestOf cts))
      end
  end.

End trader.

(** ** Concrete inputs used by the examples below *)

Module examples.

Definition cfg : trader.AutoTraderConfig :=
  {| trader.BTCETHLeverage := 10; trader.AltcoinLeverage := 5;
     trader.MaxDailyLoss := 5; trader.MaxDrawdown := 0;
     trader.PositionStopLossPct := 0; trader.PositionTakeProfitPct := 0;
     trader.StopTradingTime := 30 * Minute |}.

(** A trader freshly created with an initial balance of 10000. *)
Definition fresh : trader.AutoTrader :=
  {| trader.config := cfg; trader.initialBalance := 10000;
     trader.dailyPnL := 0; trader.dailyStartEquity := 10000;
     trader.lastResetTime := 0; trader.stopUntil := 0;
     trader.isRunning := true; trader.callCount := 7;
     trader.positionFirstSeenTime := ∅; trader.peakEquity := 10000;
     trader.forcedClosedPositions := ∅; trader.closingPositions := ∅;
     trader.positionLogic := ∅; trader.trades := [] |}.

Definition action (act sym : string) (qty price : Q) (lev ts : Z) : logger.DecisionAction :=
  {| logger.Action := act; logger.Symbol := sym; logger.Quantity := qty;
     logger.Leverage := lev; logger.Price := price; logger.OrderID := 0;
     logger.Timestamp := ts; logger.Success := true; logger.Error := "";
     logger.IsForced := false; logger.ForcedReason := "" |}.

Definition dec (sym act : string) (lev : Z) (size stop take : Q) (why exit : string)
  : decision.Decision :=
  {| decision.Symbol := sym; decision.Action := act; decision.Leverage := lev;
     decision.PositionSizeUSD := size; decision.StopLoss := stop;
     decision.TakeProfit := take; decision.Reasoning := why;
     decision.ExitReasoning := exit |}.

(** *** A close recorded while an open row exists

    The table holds the row of a long BTCUSDT position opened at second
    1000, inserted by [LogTrade] with no close time; the decision log holds
    the successful [open_long], stamped three seconds later; the position is
    closed at second 2000. *)

Definition openRow : storage.TradeRecord :=
    {| storage.TradeID := "BTCUSDT_long_1000"; storage.Symbol := "BTCUSDT";
       storage.Side := "long"; storage.OpenTime := 1000000;
       storage.OpenPrice := 60000; storage.OpenQuantity := 0.033;
       storage.OpenLeverage := 10; storage.OpenOrderID := 1;
       storage.OpenReason := "r"; storage.OpenCycleNum := 7;
       storage.CloseTime := None; storage.ClosePrice := 0;
       storage.CloseQuantity := 0; storage.CloseOrderID := 0;
       storage.CloseReason := ""; storage.CloseCycleNum := 0;
       storage.IsForced := false; storage.ForcedReason := "";
       storage.Duration := 0; storage.PositionValue := 1980;
       storage.MarginUsed := 198; storage.PnL := 0; storage.PnLPct := 0;
       storage.WasStopLoss := false; storage.Success := false;
       storage.Error := ""; storage.EntryLogic := "r"; storage.ExitLogic := "e";
       storage.UpdateSLLogic := ""; storage.UpdateTPLogic := "";
       storage.CloseLogic := ""; storage.ForcedCloseLogic := "";
       storage.NullColumns := [] |}.

Definition withOpenRow : trader.AutoTrader :=
  trader.setTrades fresh (snd (storage.LogTrade [] openRow)).

Definition loggedOpen : logger.DecisionAction :=
  action "open_long" "BTCUSDT" 0.033 60000 10 1003000.

Definition closeAction : logger.DecisionAction :=
  action "close_long" "BTCUSDT" 0 61000 10 2000000.

Definition closeDecision : decision.Decision :=
  dec "BTCUSDT" "close_long" 0 0 0 0 "target reached" "".

Definition recorderEnv : trader.RecorderEnv :=
  {| trader.latestRecords :=
       Some [ {| logger.RTimestamp := 1003000; logger.CycleNumber := 7;
                 logger.Decisions := Some [loggedOpen] |} ];
     trader.positionsNow := Some [];
     trader.recordsForTime := Some [];
     trader.recordsForPrice := Some [] |}.


End examples.

Module examples_risk.

Definition noRecords : trader.RecorderEnv :=
  {| trader.latestRecords := Some []; trader.positionsNow := Some [];
     trader.recordsForTime := Some []; trader.recordsForPrice := Some [] |}.

(** Answers of a force-close whose exchange order is accepted ([closeOK])
    or refused. *)
Definition forceEnv (now : Z) (closeOK : bool) : trader.ForceCloseEnv :=
  {| trader.fcNowFirst := now; trader.fcNowSecond := now; trader.fcNowAction := now;
     trader.fcMarket := Some 58900%Q;
     trader.fcOrder := if closeOK then Some 42%Z else None;
     trader.fcNowMark := now; trader.fcRecorder := noRecords |}.

Definition riskEnv (now : Z) : trader.RiskEnv :=
  {| trader.rkNow := now; trader.rkNowStop := now;
     trader.rkForce := fun _ => forceEnv now true |}.

Definition account (equity : Q) : decision.Context :=
  {| decision.Account :=
       {| decision.TotalEquity := equity; decision.AvailableBalance := equity;
          decision.MarginUsed := 0; decision.PositionCount := 0 |};
     decision.Positions := [] |}.

(** The trader of [examples.fresh] one hour after its start, daily loss
    limit 5 %, drawdown limit switched off. *)
Definition oneHour : Z := 1 * Hour.

(** A trader whose equity once reached 12000 (initial balance 10000), more
    than 24 hours after the last daily reset. *)
Definition afterGains : trader.AutoTrader :=
  trader.setRisk examples.fresh 0 10000 12000.

Definition nextDay : Z := 25 * Hour.

(** An exchange that reports the wallet balance [equity], all of it
    available, and no position: [buildTradingContext] answers
    [account equity]. *)
Definition exchange (equity : Q) : trader.ContextEnv :=
  {| trader.tcBalance :=
       Some {| trader.totalWalletBalance := Some equity;
               trader.totalUnrealizedProfit := Some 0%Q;
               trader.availableBalance := Some equity |};
     trader.tcPositions := Some []; trader.tcPool := true |}.

(** An exchange whose balance request fails. *)
Definition unreachable : trader.ContextEnv :=
  {| trader.tcBalance := None; trader.tcPositions := None; trader.tcPool := true |}.

Definition failingCycle : trader.CycleEnv :=
  {| trader.cyNow := nextDay; trader.cyContext := unreachable;
     trader.cyNowReset := nextDay; trader.cyRisk := riskEnv nextDay |}.

Definition workingCycle (equity : Q) : trader.CycleEnv :=
  {| trader.cyNow := nextDay; trader.cyContext := exchange equity;
     trader.cyNowReset := nextDay; trader.cyRisk := riskEnv nextDay |}.

End examples_risk.

Module examples_watchdog.

(** BTCUSDT long, entry 60000, mark 58900, leverage 10: a loss of 18.33 %. *)
Definition losing : trader.Position :=
  {| trader.symbol := "BTCUSDT"; trader.side := "long";
     trader.entryPrice := 60000; trader.markPrice := 58900;
     trader.positionAmt := 0.033; trader.leverage := Some 10%Q |}.

(** The same position with the mark at 63000: a profit of 50 %. *)
Definition winning : trader.Position :=
  {| trader.symbol := "BTCUSDT"; trader.side := "long";
     trader.entryPrice := 60000; trader.markPrice := 63000;
     trader.positionAmt := 0.033; trader.leverage := Some 10%Q |}.

End examples_watchdog.

Module examples_open.

(** Lot rounding to three decimals, as the exchange client does for
    BTCUSDT. *)
Definition threeDecimals (q : Q) : option Q :=
  Some (inject_Z (Qfloor (q * 1000)) / 1000)%Q.

(** The happy-path open of the specification: BTCUSDT at 60000, leverage 10,
    2000 USDT, stop 58000, take-profit 62000. *)
Definition openLong : decision.Decision :=
  examples.dec "BTCUSDT" "open_long" 10 2000 58000 62000 "r" "e".

(** The same decision with the stop at 59900. *)
Definition openLongTightStop : decision.Decision :=
  examples.dec "BTCUSDT" "open_long" 10 2000 59900 62000 "r" "e".

Definition pending : logger.DecisionAction :=
  {| logger.Action := "open_long"; logger.Symbol := "BTCUSDT"; logger.Quantity := 0;
     logger.Leverage := 10; logger.Price := 0; logger.OrderID := 0;
     logger.Timestamp := 1000000; logger.Success := false; logger.Error := "";
     logger.IsForced := false; logger.ForcedReason := "" |}.

(** Equity 10000, all of it available, no position. *)
Definition flat : decision.Context := examples_risk.account 10000.

Definition env : trader.OpenEnv :=
  {| trader.oePositionsBefore := Some [];
     trader.oeContext := examples_risk.exchange 10000;
     trader.oeMarketCheck := Some 60000%Q; trader.oePositionsRecheck := Some [];
     trader.oeMarket := Some 60000%Q; trader.oeFormatQuantity := threeDecimals;
     trader.oeOrder := Some 1%Z; trader.oeNow := 1000000 |}.

End examples_open.

(** ** Vocabulary of the properties *)

(** Every (symbol, open_time) occurs at most once. *)
Definition tradeKey (r : storage.TradeRecord) : string * Z :=
  (storage.Symbol r, storage.OpenTime r).

Definition uniqueKeys (tbl : storage.table) : Prop :=
  NoDup (List.map tradeKey tbl).

(** A row assembled by [buildTradeRecord] for the close [ca]. *)
Definition builtRow (sym sd : string) (ca : logger.DecisionAction)
    (row : storage.TradeRecord) : Prop :=
  exists oa n m f fr r1 r2,
    row = trader.dbTrade (trader.buildTradeRecord sym sd oa ca n m f fr r1 r2).

(** What a recorder call does to the table: nothing, or one appended row. *)
Definition appendsAtMost (sym sd : string) (ca : logger.DecisionAction)
    (old new : storage.table) : Prop :=
  new = old \/ exists row, new = old ++ [row] /\ builtRow sym sd ca row.

(** The fields no close path writes. *)
Definition riskView (a : trader.AutoTrader) :=
  (trader.config a, trader.initialBalance a, trader.dailyPnL a,
   trader.dailyStartEquity a, trader.lastResetTime a, trader.stopUntil a,
   trader.peakEquity a, trader.isRunning a, trader.callCount a).

(** The figures of the specification, computed from the row itself. *)
Definition priceBasedPnL (row : storage.TradeRecord) : Q :=
  if String.eqb (storage.Side row) "long"
  then (storage.OpenQuantity row * (storage.ClosePrice row - storage.OpenPrice row))%Q
  else (storage.OpenQuantity row * (storage.OpenPrice row - storage.ClosePrice row))%Q.

Definition marginOf (row : storage.TradeRecord) : Q :=
  (storage.OpenQuantity row * storage.OpenPrice row
   / float64 (storage.OpenLeverage row))%Q.

Definition pctOfMargin (pnl margin : Q) : Q :=
  if Qgtb margin 0 then (pnl / margin * 100)%Q else 0%Q.

(** The pipeline: an update is a decision the deduplication looks at. *)
Definition isUpdate (d : decision.Decision) : bool :=
  trader.dedupAction (decision.Action d).

Definition byPriority (x y : decision.Decision) : Prop :=
  (trader.priority x <= trader.priority y)%Z.

(** [d] stands at index [i] of [l] and no later update of [l] has its key. *)
Definition lastUpdateAt (l : list decision.Decision) (i : nat)
    (d : decision.Decision) : Prop :=
  l !! i = Some d /\ isUpdate d = true
  /\ forall j d', (i < j)%nat -> l !! j = Some d' -> isUpdate d' = true ->
                  trader.dedupKey d' <> trader.dedupKey d.

Module examples_update.

(** A long BTCUSDT position whose stored stop is 58000 and take-profit
    62000. *)
Definition long : trader.Position :=
  {| trader.symbol := "BTCUSDT"; trader.side := "long";
     trader.entryPrice := 60000; trader.markPrice := 60100;
     trader.positionAmt := 0.033; trader.leverage := Some 10%Q |}.

Definition holding : trader.AutoTrader :=
  trader.setPositionLogic examples.fresh
    (positionlogic.SaveStopLossAndTakeProfit ∅ "BTCUSDT" "long" 58000 62000).

Definition env : trader.UpdateEnv :=
  {| trader.uePositions := Some [long]; trader.ueMarket := Some 60100%Q;
     trader.ueCancel := trader.CancelOK; trader.ueSetStopLoss := true;
     trader.ueSetTakeProfit := true; trader.ueRollback := true;
     trader.ueSave := true |}.

Definition update (stop : Q) : decision.Decision :=
  examples.dec "BTCUSDT" "update_sl" 0 0 stop 0 "trail" "".

Definition pending : logger.DecisionAction :=
  {| logger.Action := "update_sl"; logger.Symbol := "BTCUSDT"; logger.Quantity := 0;
     logger.Leverage := 0; logger.Price := 0; logger.OrderID := 0;
     logger.Timestamp := 3000000; logger.Success := false; logger.Error := "";
     logger.IsForced := false; logger.ForcedReason := "" |}.

End examples_update.

Module examples_pipeline.

(** Two stop updates for BTCUSDT, then a hold: the order in which the LLM
    gave them. *)
Definition firstUpdate : decision.Decision := examples_update.update 58500.
Definition secondUpdate : decision.Decision := examples_update.update 59000.
Definition hold : decision.Decision := examples.dec "ETHUSDT" "hold" 0 0 0 0 "wait" "".

Definition llmDecisions : list decision.Decision := [firstUpdate; secondUpdate; hold].

End examples_pipeline.

Module examples_sync.

(** The manual close of the specification: ETHUSDT bought under order 100
    (3 at 1950), sold under order 111 in two fills (1 at 2000, 2 at 2010)
    with a realized profit of 12.34 in total. *)
Definition fill (oid : Z) (sd : string) (t : Z) (price qty pnl : Q) : trader.Fill :=
  {| trader.fSymbol := Some "ETHUSDT"; trader.fOrderId := Some (inject_Z oid);
     trader.fSide := sd; trader.fTime := Some (inject_Z t);
     trader.fPrice := Some price; trader.fQty := Some qty;
     trader.fRealizedPnl := pnl |}.

Definition fills : list trader.Fill :=
  [ fill 100 "BUY" 1700000000000 1950 3 0;
    fill 111 "SELL" 1700000600000 2000 1 4.11;
    fill 111 "SELL" 1700000601000 2010 2 8.23 ].

Definition env : trader.SyncEnv :=
  {| trader.syFills := Some fills; trader.syPositions := Some [] |}.

End examples_sync.

(** ** Vocabulary of the further properties *)

(** Order of [ORDER BY close_time DESC]. *)
Definition newestFirst (x y : storage.TradeRecord) : Prop :=
  (storage.closeTimeOf y <= storage.closeTimeOf x)%Z.

(** What an executor may not change on the action record it is given. *)
Definition sameHeader (r r' : logger.DecisionAction) : Prop :=
  logger.Action r' = logger.Action r /\ logger.Symbol r' = logger.Symbol r
  /\ logger.Leverage r' = logger.Leverage r /\ logger.IsForced r' = logger.IsForced r
  /\ logger.ForcedReason r' = logger.ForcedReason r
  /\ logger.Timestamp r' = logger.Timestamp r /\ logger.Success r' = logger.Success r.

Definition isCloseDecision (d : decision.Decision) : bool :=
  String.eqb (decision.Action d) "close_long"
  || String.eqb (decision.Action d) "close_short".

(** Opening minus closing square brackets of a sequence of bytes. *)
Fixpoint bracketDepth (l : list ascii) : Z :=
  match l with
  | [] => 0
  | c :: l' =>
      ((if Ascii.eqb c "["%char then 1
        else if Ascii.eqb c "]"%char then -1 else 0) + bracketDepth l')%Z
  end.

(** The bytes of [s] from index [i] to index [j], both included. *)
Definition slice (s : list ascii) (i j : nat) : list ascii :=
  firstn (S j - i) (skipn i s).

(** A group of the reconciler's [orderMap]: filed under its own order id,
    which is not the close order of a local trade, and closing a long or a
    short. *)
Definition goodGroup (known : Z -> bool) (p : Z * trader.aggregatedTrade) : Prop :=
  trader.orderId (snd p) = fst p /\ known (fst p) = false
  /\ (trader.tradeSide (snd p) = "long" \/ trader.tradeSide (snd p) = "short").

(** The table [new] is the table [old] followed by further rows, and keeps
    (symbol, open_time) a key if it was one. *)
Definition extendsTable (old new : storage.table) : Prop :=
  (exists rows, new = old ++ rows) /\ (uniqueKeys old -> uniqueKeys new).

(** The first-seen time that the position-logic store holds under [key],
    when it is above 0. *)
Definition storedFirstSeen (a : trader.AutoTrader) (key : string) : option Z :=
  match trader.positionLogic a !! key with
  | Some l =>
      if (0 <? positionlogic.FirstSeenTime l)%Z
      then Some (positionlogic.FirstSeenTime l) else None
  | None => None
  end.

(** The first-seen time of [key] once the trading context has been built
    from [positions]: none for a position that is gone; for a position that
    is there, the time in memory, else the stored one. *)
Definition firstSeenAfterContext (a : trader.AutoTrader)
    (positions : list trader.Position) (key : string) : option Z :=
  if existsb (fun p => String.eqb (trader.posKey (trader.symbol p) (trader.side p)) key)
             positions
  then match trader.positionFirstSeenTime a !! key with
       | Some t => Some t
       | None => storedFirstSeen a key
       end
  else None.

(** A row that [scanTrade] can read: none of its TEXT columns is [NULL]. *)
Definition readable (r : storage.TradeRecord) : bool :=
  match storage.NullColumns r with [] => true | _ :: _ => false end.

Module examples_store.

(** The close of the row of [examples.openRow], as an update record: closed
    at second 2000 at 61000, not forced, with a close logic. *)
Definition closeUpdate : storage.TradeRecord :=
  {| storage.TradeID := ""; storage.Symbol := "BTCUSDT";
     storage.Side := "long"; storage.OpenTime := 1000000;
     storage.OpenPrice := 0; storage.OpenQuantity := 0;
     storage.OpenLeverage := 0; storage.OpenOrderID := 0;
     storage.OpenReason := ""; storage.OpenCycleNum := 0;
     storage.CloseTime := Some 2000000%Z; storage.ClosePrice := 61000;
     storage.CloseQuantity := 0.033; storage.CloseOrderID := 9;
     storage.CloseReason := "target"; storage.CloseCycleNum := 9;
     storage.IsForced := false; storage.ForcedReason := "";
     storage.Duration := 1000000; storage.PositionValue := 0;
     storage.MarginUsed := 0; storage.PnL := 33; storage.PnLPct := 16 + 2 / 3;
     storage.WasStopLoss := false; storage.Success := true;
     storage.Error := ""; storage.EntryLogic := ""; storage.ExitLogic := "";
     storage.UpdateSLLogic := ""; storage.UpdateTPLogic := "";
     storage.CloseLogic := "target reached"; storage.ForcedCloseLogic := "forced";
     storage.NullColumns := [] |}.

End examples_store.

(** * Properties *)

(** ** Boolean comparisons on [Q] *)

Lemma Qleb_le (x y : Q) : Qleb x y = true <-> (x <= y)%Q.
Proof. unfold Qleb. apply Qle_bool_iff. Qed.

Lemma Qltb_lt (x y : Q) : Qltb x y = true <-> (x < y)%Q.
Proof.
  unfold Qltb. rewrite negb_true_iff. split.
  - intros H. apply Qnot_le_lt. intros Hle.
    apply Qle_bool_iff in Hle. congruence.
  - intros H. destruct (Qle_bool y x) eqn:E; [|reflexivity].
    apply Qle_bool_iff in E. lra.
Qed.

Lemma Qltb_ge (x y : Q) : Qltb x y = false <-> (y <= x)%Q.
Proof.
  unfold Qltb. rewrite negb_false_iff. apply Qle_bool_iff.
Qed.

Lemma Qleb_gt (x y : Q) : Qleb x y = false <-> (y < x)%Q.
Proof.
  split.
  - intros H. apply Qnot_le_lt. intros Hle. apply Qleb_le in Hle. congruence.
  - intros H. destruct (Qleb x y) eqn:E; [|reflexivity].
    apply Qleb_le in E. lra.
Qed.

Lemma Qgtb_gt (x y : Q) : Qgtb x y = true <-> (y < x)%Q.
Proof. unfold Qgtb. apply Qltb_lt. Qed.

Lemma Qgtb_le (x y : Q) : Qgtb x y = false <-> (x <= y)%Q.
Proof. unfold Qgtb. apply Qltb_ge. Qed.

Lemma Qgeb_ge (x y : Q) : Qgeb x y = true <-> (y <= x)%Q.
Proof. unfold Qgeb. apply Qleb_le. Qed.

Lemma Qgeb_lt (x y : Q) : Qgeb x y = false <-> (x < y)%Q.
Proof. unfold Qgeb. apply Qleb_gt. Qed.

Lemma Qeqb_eq (x y : Q) : Qeqb x y = true <-> (x == y)%Q.
Proof. unfold Qeqb. apply Qeq_bool_iff. Qed.

Lemma Qeqb_neq (x y : Q) : Qeqb x y = false <-> ~ (x == y)%Q.
Proof.
  split.
  - intros H E. apply Qeqb_eq in E. congruence.
  - intros H. destruct (Qeqb x y) eqn:E; [|reflexivity].
    apply Qeqb_eq in E. contradiction.
Qed.

(** Turns the boolean tests of the embedding found in the hypotheses into
    order facts on [Q]. *)
Ltac qprop :=
  repeat match goal with
  | H : Qltb _ _ = true |- _ => apply Qltb_lt in H
  | H : Qltb _ _ = false |- _ => apply Qltb_ge in H
  | H : Qleb _ _ = true |- _ => apply Qleb_le in H
  | H : Qleb _ _ = false |- _ => apply Qleb_gt in H
  | H : Qgtb _ _ = true |- _ => apply Qgtb_gt in H
  | H : Qgtb _ _ = false |- _ => apply Qgtb_le in H
  | H : Qgeb _ _ = true |- _ => apply Qgeb_ge in H
  | H : Qgeb _ _ = false |- _ => apply Qgeb_lt in H
  | H : Qeqb _ _ = true |- _ => apply Qeqb_eq in H
  | H : Qeqb _ _ = false |- _ => apply Qeqb_neq in H
  end.

Lemma absQ_nonneg (q : Q) : (0 <= trader.absQ q)%Q.
Proof.
  unfold trader.absQ. destruct (Qltb q 0) eqn:E; qprop; lra.
Qed.

Lemma absQ_lt (q e : Q) : (trader.absQ q < e)%Q <-> (- e < q /\ q < e)%Q.
Proof.
  unfold trader.absQ. destruct (Qltb q 0) eqn:E; qprop; split; intros; lra.
Qed.

(** ** Binary64 rounding *)

(** [fl] depends on the value of its argument only, not on the fraction that
    represents it. *)
Lemma roundHalfEven_comp (x y : Q) : (x == y)%Q -> roundHalfEven x = roundHalfEven y.
Proof.
  intros H. unfold roundHalfEven. cbv zeta.
  rewrite (Qfloor_comp x y H).
  assert (E : ((x - inject_Z (Qfloor y)) * 2 ?= 1)%Q
              = ((y - inject_Z (Qfloor y)) * 2 ?= 1)%Q).
  { apply Qcompare_comp; [|reflexivity].
    apply Qmult_comp; [|reflexivity]. apply Qplus_comp; [exact H | reflexivity]. }
  rewrite E. reflexivity.
Qed.

Lemma ilog2_comp (x y : Q) : (x == y)%Q -> ilog2 x = ilog2 y.
Proof.
  intros H. unfold ilog2. cbv zeta.
  assert (E : (Qabs x == Qabs y)%Q) by (apply Qabs_wd; exact H).
  rewrite (Qleb_comp 1%Q 1%Q (Qeq_refl 1%Q) _ _ E).
  rewrite (Qfloor_comp _ _ E).
  rewrite (Qceiling_comp (/ Qabs x) (/ Qabs y)); [reflexivity|].
  apply Qinv_comp. exact E.
Qed.

Lemma fl_comp (x y : Q) : (x == y)%Q -> (fl x == fl y)%Q.
Proof.
  intros H. unfold fl. cbv zeta.
  assert (E : Qeq_bool x 0 = Qeq_bool y 0).
  { destruct (Qeq_bool x 0) eqn:Ex; destruct (Qeq_bool y 0) eqn:Ey; try reflexivity.
    - apply Qeq_bool_iff in Ex. apply Qeq_bool_neq in Ey. exfalso. apply Ey.
      rewrite <- H. exact Ex.
    - apply Qeq_bool_iff in Ey. apply Qeq_bool_neq in Ex. exfalso. apply Ex.
      rewrite H. exact Ey. }
  rewrite E. destruct (Qeq_bool y 0); [reflexivity|].
  rewrite (ilog2_comp x y H).
  set (q := Z.max (ilog2 y - 52) (-1074)).
  rewrite (roundHalfEven_comp (x / Qpower 2 q) (y / Qpower 2 q)); [reflexivity|].
  apply Qdiv_comp; [exact H | reflexivity].
Qed.

(** Rounding keeps the sign: what is not above 0 stays not above 0. *)
Lemma roundHalfEven_nonpos (y : Q) : (y <= 0)%Q -> (roundHalfEven y <= 0)%Z.
Proof.
  intros Hy. unfold roundHalfEven. cbv zeta.
  assert (Hf : (Qfloor y <= 0)%Z).
  { change 0%Z with (Qfloor 0). apply Qfloor_resp_le. exact Hy. }
  destruct (Z.eq_dec (Qfloor y) 0%Z) as [E|E].
  - rewrite E.
    assert (H0 : (0 <= y)%Q).
    { pose proof (Qfloor_le y) as H. rewrite E in H. exact H. }
    assert (Hc : ((y - inject_Z 0) * 2 ?= 1)%Q = Lt).
    { apply (proj1 (Qlt_alt _ _)). change (inject_Z 0) with 0%Q. lra. }
    rewrite Hc. lia.
  - destruct ((y - inject_Z (Qfloor y)) * 2 ?= 1)%Q; [destruct (Z.even _)| |]; lia.
Qed.

Lemma fl_nonpos (x : Q) : (x <= 0)%Q -> (fl x <= 0)%Q.
Proof.
  intros Hx. unfold fl. destruct (Qeq_bool x 0); [lra|]. cbv zeta.
  set (q := Z.max (ilog2 x - 52) (-1074)).
  assert (Hp : (0 < Qpower 2 q)%Q) by (apply Qpower_0_lt; reflexivity).
  assert (Hy : (x / Qpower 2 q <= 0)%Q).
  { apply Qle_shift_div_r; [exact Hp | lra]. }
  apply roundHalfEven_nonpos in Hy.
  assert (Hz : (inject_Z (roundHalfEven (x / Qpower 2 q)) <= 0)%Q).
  { change 0%Q with (inject_Z 0). rewrite <- Zle_Qle. exact Hy. }
  set (m := inject_Z (roundHalfEven (x / Qpower 2 q))) in *.
  nra.
Qed.

(** Known values: 0.1 and 1/3 round to the binary64 numbers
    3602879701896397 / 2^55 and 6004799503160661 / 2^54; integers below 2^53
    are exact; 2^53 + 1 is a tie and goes to the even neighbour 2^53, and
    2^53 + 3 to 2^53 + 4; half the smallest subnormal goes to 0. *)
Lemma fl_known_values :
  (fl 0.1 == 3602879701896397 # 36028797018963968)%Q
  /\ (fl (1 # 3) == 6004799503160661 # 18014398509481984)%Q
  /\ (fl (- (1 # 3)) == - (6004799503160661 # 18014398509481984))%Q
  /\ (fl 9500 == 9500)%Q /\ (fl (-70) == -70)%Q /\ (fl 0 == 0)%Q
  /\ (fl 9007199254740993 == 9007199254740992)%Q
  /\ (fl 9007199254740995 == 9007199254740996)%Q
  /\ (fl (Qpower 2 (-1075)) == 0)%Q
  /\ (fl (3 * Qpower 2 (-1075)) == Qpower 2 (-1073))%Q.
Proof. vm_compute. repeat split; reflexivity. Qed.

(** ** The trade table *)


Lemma sameKey_true (sym : string) (t : Z) (r : storage.TradeRecord) :
  storage.sameKey sym t r = true <-> tradeKey r = (sym, t).
Proof.
  unfold storage.sameKey, tradeKey. rewrite andb_true_iff, String.eqb_eq, Z.eqb_eq.
  split; [intros [-> ->]; reflexivity | intros H; inversion H; auto].
Qed.

Lemma insertRow_shape (tbl : storage.table) (row : storage.TradeRecord) :
  (existsb (storage.conflicts row) tbl = true
   /\ storage.insertRow tbl row = (Some "constraint failed", tbl))
  \/ (existsb (storage.conflicts row) tbl = false
      /\ storage.insertRow tbl row = (None, tbl ++ [row])).
Proof.
  unfold storage.insertRow. destruct (existsb _ tbl); [left | right]; auto.
Qed.

Lemma insertRow_unique (tbl : storage.table) (row : storage.TradeRecord) :
  uniqueKeys tbl -> uniqueKeys (snd (storage.insertRow tbl row)).
Proof.
  intros Hu. destruct (insertRow_shape tbl row) as [[_ ->] | [Hno ->]]; simpl; [exact Hu|].
  unfold uniqueKeys. rewrite List.map_app. apply NoDup_app. split; [exact Hu|].
  split; [|simpl; apply NoDup_singleton].
  intros k Hk Hin. apply list_elem_of_singleton in Hin. subst k.
  apply list_elem_of_In, in_map_iff in Hk. destruct Hk as [r [Hr Hin]].
  assert (Hc : storage.conflicts row r = true).
  { unfold storage.conflicts. apply orb_true_iff. right.
    apply sameKey_true. exact Hr. }
  assert (He : existsb (storage.conflicts row) tbl = true).
  { apply existsb_exists. exists r. split; assumption. }
  congruence.
Qed.

Lemma applyUpdate_key (trade r : storage.TradeRecord) :
  tradeKey (storage.applyUpdate trade r) = tradeKey r.
Proof. reflexivity. Qed.

Lemma UpdateTrade_keys (tbl : storage.table) (trade : storage.TradeRecord) :
  List.map tradeKey (snd (storage.UpdateTrade tbl trade)) = List.map tradeKey tbl.
Proof.
  unfold storage.UpdateTrade. destruct (negb (storage.hasUpdates trade)); [reflexivity|].
  simpl. rewrite List.map_map. apply List.map_ext. intros r.
  destruct (storage.sameKey _ _ r); [apply applyUpdate_key | reflexivity].
Qed.

Lemma LogTrade_unique (tbl : storage.table) (t : storage.TradeRecord) :
  uniqueKeys tbl -> uniqueKeys (snd (storage.LogTrade tbl t)).
Proof. apply insertRow_unique. Qed.

(** The row written by [LogTrade] is the record itself. *)
Lemma fullRow_id (t : storage.TradeRecord) :
  storage.NullColumns t = [] -> storage.fullRow t = t.
Proof. destruct t. simpl. intros ->. reflexivity. Qed.

Lemma CreateTrade_unique (tbl : storage.table) (t : storage.TradeRecord) :
  uniqueKeys tbl -> uniqueKeys (snd (storage.CreateTrade tbl t)).
Proof. apply insertRow_unique. Qed.

Lemma UpdateTrade_unique (tbl : storage.table) (t : storage.TradeRecord) :
  uniqueKeys tbl -> uniqueKeys (snd (storage.UpdateTrade tbl t)).
Proof. unfold uniqueKeys. rewrite UpdateTrade_keys. auto. Qed.

Lemma CreateOrUpdateTrade_unique (tbl : storage.table) (t : storage.TradeRecord) :
  uniqueKeys tbl -> uniqueKeys (snd (storage.CreateOrUpdateTrade tbl t)).
Proof.
  unfold storage.CreateOrUpdateTrade. destruct (existsb _ tbl);
    [apply UpdateTrade_unique | apply CreateTrade_unique].
Qed.

(** [closest] returns a row of its input (or the running best) at minimal
    distance. *)
Lemma closest_spec (t : Z) (rows : list storage.TradeRecord) :
  forall best r,
    storage.closest t best rows = Some r ->
    (best = Some r \/ In r rows)
    /\ (forall b, best = Some b -> (storage.distance t r <= storage.distance t b)%Z)
    /\ (forall r', In r' rows -> (storage.distance t r <= storage.distance t r')%Z).
Proof.
  induction rows as [|x rows IH]; intros best r H; simpl in H.
  - subst best. split; [left; reflexivity|]. split.
    + intros b Hb. inversion Hb. lia.
    + intros r' [].
  - destruct best as [b|].
    + destruct (storage.distance t x <? storage.distance t b)%Z eqn:E.
      * apply Z.ltb_lt in E. apply IH in H. destruct H as [Hin [Hb Hall]].
        split; [destruct Hin as [Hin|Hin]; [inversion Hin; subst; right; left; reflexivity
                                           | right; right; exact Hin]|].
        split.
        -- intros b' Hb'. inversion Hb'; subst. specialize (Hb x eq_refl). lia.
        -- intros r' [<-|Hr']; [apply Hb; reflexivity | apply Hall; exact Hr'].
      * apply Z.ltb_ge in E. apply IH in H. destruct H as [Hin [Hb Hall]].
        split; [destruct Hin as [Hin|Hin]; [left; exact Hin | right; right; exact Hin]|].
        split; [exact Hb|].
        intros r' [<-|Hr']; [specialize (Hb b eq_refl); lia | apply Hall; exact Hr'].
    + apply IH in H. destruct H as [Hin [Hb Hall]].
      split; [destruct Hin as [Hin|Hin]; [inversion Hin; subst; right; left; reflexivity
                                         | right; right; exact Hin]|].
      split; [intros b Hb'; discriminate|].
      intros r' [<-|Hr']; [apply Hb; reflexivity | apply Hall; exact Hr'].
Qed.

Lemma closest_none (t : Z) (rows : list storage.TradeRecord) :
  storage.closest t None rows = None -> rows = [].
Proof.
  destruct rows as [|x rows]; [reflexivity|]. simpl. intros H. exfalso.
  assert (G : forall l b, storage.closest t (Some b) l <> None).
  { induction l as [|y l IH]; intros b; simpl; [discriminate|].
    destruct (_ <? _)%Z; apply IH. }
  exact (G rows x H).
Qed.

Lemma inWindow_true (sym : string) (t : Z) (r : storage.TradeRecord) :
  storage.inWindow sym t r = true
  <-> storage.Symbol r = sym /\ (storage.distance t r <= 10 * Second)%Z.
Proof.
  unfold storage.inWindow, storage.distance.
  rewrite !andb_true_iff, String.eqb_eq, !Z.leb_le. split.
  - intros [[Hs H1] H2]. split; [exact Hs | lia].
  - intros [Hs H]. repeat split; [exact Hs | lia | lia].
Qed.

(** The three answers of a query for one row. *)
Lemma scanOne_found (sel : option storage.TradeRecord) (r : storage.TradeRecord)
    (e : error) :
  storage.scanOne sel = (Some r, e) ->
  e = None /\ sel = Some r /\ storage.NullColumns r = [].
Proof.
  unfold storage.scanOne, storage.scanTrade. destruct sel as [row|]; [|discriminate].
  destruct (storage.NullColumns row) eqn:En; [|discriminate].
  intros H. inversion H. subst. auto.
Qed.

Lemma scanOne_nothing (sel : option storage.TradeRecord) :
  storage.scanOne sel = (None, None) -> sel = None.
Proof.
  unfold storage.scanOne, storage.scanTrade. destruct sel as [row|]; [|reflexivity].
  destruct (storage.NullColumns row); discriminate.
Qed.

Lemma scanOne_failed (sel : option storage.TradeRecord) (msg : string) :
  storage.scanOne sel = (None, Some msg) ->
  exists row, sel = Some row /\ storage.NullColumns row <> [].
Proof.
  unfold storage.scanOne, storage.scanTrade. destruct sel as [row|]; [|discriminate].
  destruct (storage.NullColumns row) eqn:En; [discriminate|].
  intros _. exists row. split; [reflexivity|]. rewrite En. discriminate.
Qed.


(** ** The trade-history recorder *)

Lemma setTrades_id (a : trader.AutoTrader) : trader.setTrades a (trader.trades a) = a.
Proof. destruct a; reflexivity. Qed.


Lemma saveTrade_shape (a : trader.AutoTrader) (sym sd : string)
    (oa ca : logger.DecisionAction) (n m : Z) (f : bool) (fr r1 r2 : string) :
  exists tbl,
    trader.saveTrade a (trader.buildTradeRecord sym sd oa ca n m f fr r1 r2)
      = trader.setTrades a tbl
    /\ appendsAtMost sym sd ca (trader.trades a) tbl.
Proof.
  unfold trader.saveTrade, storage.LogTrade.
  eexists. split; [reflexivity|].
  destruct (insertRow_shape (trader.trades a)
              (storage.fullRow
                 (trader.dbTrade (trader.buildTradeRecord sym sd oa ca n m f fr r1 r2))))
    as [[_ ->] | [_ ->]]; simpl.
  - left. reflexivity.
  - right. eexists. split; [reflexivity|]. repeat eexists.
Qed.

Lemma recordTradeHistoryFromPosition_shape (a : trader.AutoTrader)
    (env : trader.RecorderEnv) (sd sym : string) (ca : logger.DecisionAction)
    (f : bool) (fr : string) :
  exists tbl,
    trader.recordTradeHistoryFromPosition a env sd sym ca f fr = trader.setTrades a tbl
    /\ appendsAtMost sym sd ca (trader.trades a) tbl.
Proof.
  unfold trader.recordTradeHistoryFromPosition.
  destruct (Qeqb _ 0).
  - exists (trader.trades a). split; [symmetry; apply setTrades_id | left; reflexivity].
  - apply saveTrade_shape.
Qed.

Lemma recordTradeHistory_shape (a : trader.AutoTrader) (env : trader.RecorderEnv)
    (sd : string) (dec : decision.Decision) (ca : logger.DecisionAction)
    (f : bool) (fr : string) :
  exists tbl,
    trader.recordTradeHistory a env sd dec ca f fr = trader.setTrades a tbl
    /\ appendsAtMost (decision.Symbol dec) sd ca (trader.trades a) tbl.
Proof.
  unfold trader.recordTradeHistory.
  destruct (trader.latestRecords env) as [records|];
    [|apply recordTradeHistoryFromPosition_shape].
  destruct (trader.findOpenAction _ _ _ _ _) as [[oa n]|];
    [apply saveTrade_shape | apply recordTradeHistoryFromPosition_shape].
Qed.


Lemma appendsAtMost_unique (sym sd : string) (ca : logger.DecisionAction)
    (a : trader.AutoTrader) (oa : logger.DecisionAction) (n m : Z) (f : bool)
    (fr r1 r2 : string) :
  uniqueKeys (trader.trades a) ->
  uniqueKeys (trader.trades
    (trader.saveTrade a (trader.buildTradeRecord sym sd oa ca n m f fr r1 r2))).
Proof. intros H. unfold trader.saveTrade. simpl. apply LogTrade_unique. exact H. Qed.

Lemma recordTradeHistoryFromPosition_unique (a : trader.AutoTrader)
    (env : trader.RecorderEnv) (sd sym : string) (ca : logger.DecisionAction)
    (f : bool) (fr : string) :
  uniqueKeys (trader.trades a) ->
  uniqueKeys (trader.trades (trader.recordTradeHistoryFromPosition a env sd sym ca f fr)).
Proof.
  intros H. unfold trader.recordTradeHistoryFromPosition.
  destruct (Qeqb _ 0); [exact H | apply appendsAtMost_unique; exact H].
Qed.

Lemma recordTradeHistory_unique (a : trader.AutoTrader) (env : trader.RecorderEnv)
    (sd : string) (dec : decision.Decision) (ca : logger.DecisionAction)
    (f : bool) (fr : string) :
  uniqueKeys (trader.trades a) ->
  uniqueKeys (trader.trades (trader.recordTradeHistory a env sd dec ca f fr)).
Proof.
  intros H. unfold trader.recordTradeHistory.
  destruct (trader.latestRecords env) as [records|];
    [|apply recordTradeHistoryFromPosition_unique; exact H].
  destruct (trader.findOpenAction _ _ _ _ _) as [[oa n]|];
    [apply appendsAtMost_unique | apply recordTradeHistoryFromPosition_unique]; exact H.
Qed.




(** ** The trading context *)

Lemma findPositionOpenTimeFromLogs_fails (a : trader.AutoTrader) (sym sd : string) :
  trader.positionFirstSeenTime a !! trader.posKey sym sd = None ->
  (let '(dbTime, found) :=
     positionlogic.GetFirstSeenTime (trader.positionLogic a) sym sd in
   found && (0 <? dbTime)%Z) = false ->
  trader.findPositionOpenTimeFromLogs a sym sd = (None, a).
Proof.
  intros Hm Hdb. unfold trader.findPositionOpenTimeFromLogs. rewrite Hm.
  destruct (positionlogic.GetFirstSeenTime _ _ _) as [dbTime found].
  rewrite Hdb. reflexivity.
Qed.

Lemma GetFirstSeenTime_stored (a : trader.AutoTrader) (sym sd : string) :
  (let '(dbTime, found) :=
     positionlogic.GetFirstSeenTime (trader.positionLogic a) sym sd in
   if found && (0 <? dbTime)%Z then Some dbTime else None)
  = storedFirstSeen a (trader.posKey sym sd).
Proof.
  unfold positionlogic.GetFirstSeenTime, storedFirstSeen, positionlogic.GetLogic.
  change (positionlogic.posKey sym sd) with (trader.posKey sym sd).
  destruct (trader.positionLogic a !! trader.posKey sym sd) as [l|]; [|reflexivity].
  destruct (0 <? positionlogic.FirstSeenTime l)%Z eqn:E; simpl; [rewrite E|]; reflexivity.
Qed.

(** One position: an entry is added when memory has none and the store has
    one; nothing else changes. *)
Lemma restoreFirstSeenTime_spec (a : trader.AutoTrader) (p : trader.Position) :
  let key := trader.posKey (trader.symbol p) (trader.side p) in
  trader.restoreFirstSeenTime a p
  = match trader.positionFirstSeenTime a !! key, storedFirstSeen a key with
    | None, Some t => trader.setFirstSeen a (<[ key := t ]> (trader.positionFirstSeenTime a))
    | _, _ => a
    end.
Proof.
  intros key. unfold trader.restoreFirstSeenTime. fold key.
  destruct (trader.positionFirstSeenTime a !! key) eqn:Hm; [reflexivity|].
  pose proof (GetFirstSeenTime_stored a (trader.symbol p) (trader.side p)) as Hs.
  fold key in Hs. rewrite <- Hs.
  pose proof (findPositionOpenTimeFromLogs_fails a (trader.symbol p) (trader.side p) Hm) as Hf.
  destruct (positionlogic.GetFirstSeenTime _ _ _) as [dbTime found].
  destruct (found && (0 <? dbTime)%Z); [reflexivity|].
  rewrite (Hf eq_refl). reflexivity.
Qed.

Lemma restoreFirstSeenTime_logic (a : trader.AutoTrader) (p : trader.Position) :
  trader.restoreFirstSeenTime a p
  = trader.setFirstSeen a (trader.positionFirstSeenTime (trader.restoreFirstSeenTime a p)).
Proof.
  rewrite restoreFirstSeenTime_spec.
  destruct (trader.positionFirstSeenTime a !! _); [destruct a; reflexivity|].
  destruct (storedFirstSeen a _); [reflexivity | destruct a; reflexivity].
Qed.

Lemma setFirstSeen_twice (a : trader.AutoTrader) (m m' : gmap string Z) :
  trader.setFirstSeen (trader.setFirstSeen a m) m' = trader.setFirstSeen a m'.
Proof. reflexivity. Qed.

Lemma fold_restoreFirstSeenTime_frame (ps : list trader.Position) :
  forall a,
    fold_left trader.restoreFirstSeenTime ps a
    = trader.setFirstSeen a
        (trader.positionFirstSeenTime (fold_left trader.restoreFirstSeenTime ps a)).
Proof.
  induction ps as [|p ps IH]; intros a; simpl; [destruct a; reflexivity|].
  rewrite IH at 1. rewrite (restoreFirstSeenTime_logic a p) at 1.
  rewrite setFirstSeen_twice. reflexivity.
Qed.

(** [buildTradingContext] writes the first-seen times and nothing else. *)
Lemma buildTradingContext_frame (a : trader.AutoTrader) (env : trader.ContextEnv) :
  snd (trader.buildTradingContext a env)
  = trader.setFirstSeen a
      (trader.positionFirstSeenTime (snd (trader.buildTradingContext a env))).
Proof.
  unfold trader.buildTradingContext.
  destruct (trader.tcBalance env) as [b|]; [|destruct a; reflexivity].
  destruct (trader.tcPositions env) as [ps|]; [|destruct a; reflexivity].
  destruct (trader.tcPool env); simpl;
    rewrite (fold_restoreFirstSeenTime_frame ps a) at 1; reflexivity.
Qed.

Lemma storedFirstSeen_setFirstSeen (a : trader.AutoTrader) (m : gmap string Z) (key : string) :
  storedFirstSeen (trader.setFirstSeen a m) key = storedFirstSeen a key.
Proof. reflexivity. Qed.

Lemma fold_restoreFirstSeenTime_lookup (ps : list trader.Position) (key : string) :
  forall a,
    trader.positionFirstSeenTime (fold_left trader.restoreFirstSeenTime ps a) !! key
    = match trader.positionFirstSeenTime a !! key with
      | Some t => Some t
      | None =>
          if existsb (fun p => String.eqb (trader.posKey (trader.symbol p) (trader.side p)) key)
                     ps
          then storedFirstSeen a key else None
      end.
Proof.
  induction ps as [|p ps IH]; intros a; simpl.
  { destruct (_ !! key); reflexivity. }
  rewrite IH. rewrite restoreFirstSeenTime_spec.
  set (k := trader.posKey (trader.symbol p) (trader.side p)).
  destruct (String.eqb k key) eqn:Ek.
  - apply String.eqb_eq in Ek. subst key. simpl.
    destruct (trader.positionFirstSeenTime a !! k) eqn:Hm; [rewrite Hm; reflexivity|].
    destruct (storedFirstSeen a k) eqn:Hs.
    + simpl. rewrite lookup_insert_eq. reflexivity.
    + rewrite Hm, Hs. destruct (existsb _ ps); reflexivity.
  - apply String.eqb_neq in Ek. simpl.
    destruct (trader.positionFirstSeenTime a !! k) eqn:Hm; [reflexivity|].
    destruct (storedFirstSeen a k) eqn:Hs; [|reflexivity].
    simpl. rewrite lookup_insert_ne by exact Ek.
    rewrite storedFirstSeen_setFirstSeen. reflexivity.
Qed.

(** The first-seen times once the positions have been read. *)
Lemma buildTradingContext_firstSeen (a : trader.AutoTrader) (env : trader.ContextEnv)
    (b : trader.Balance) (ps : list trader.Position) (key : string) :
  trader.tcBalance env = Some b -> trader.tcPositions env = Some ps ->
  trader.positionFirstSeenTime (snd (trader.buildTradingContext a env)) !! key
  = firstSeenAfterContext a ps key.
Proof.
  intros Hb Hp. unfold trader.buildTradingContext. rewrite Hb, Hp.
  assert (E : trader.positionFirstSeenTime
                (trader.setFirstSeen (fold_left trader.restoreFirstSeenTime ps a)
                   (filter (fun kv : string * Z =>
                              fst kv ∈ (list_to_set
                                 (List.map (fun p => trader.posKey (trader.symbol p)
                                                       (trader.side p)) ps) : gset string))
                           (trader.positionFirstSeenTime
                              (fold_left trader.restoreFirstSeenTime ps a)))) !! key
              = firstSeenAfterContext a ps key).
  { simpl. rewrite map_lookup_filter. rewrite fold_restoreFirstSeenTime_lookup.
    unfold firstSeenAfterContext.
    destruct (existsb _ ps) eqn:Ex.
    - assert (Hin : key ∈ (list_to_set
                 (List.map (fun p => trader.posKey (trader.symbol p) (trader.side p)) ps)
                 : gset string)).
      { apply elem_of_list_to_set. apply existsb_exists in Ex.
        destruct Ex as [p [Hp' He]]. apply String.eqb_eq in He. subst key.
        apply list_elem_of_In. apply in_map_iff. exists p. auto. }
      destruct (trader.positionFirstSeenTime a !! key) as [t|]; simpl.
      + rewrite option_guard_True by exact Hin. reflexivity.
      + destruct (storedFirstSeen a key); simpl; [|reflexivity].
        rewrite option_guard_True by exact Hin. reflexivity.
    - assert (Hout : key ∉ (list_to_set
                 (List.map (fun p => trader.posKey (trader.symbol p) (trader.side p)) ps)
                 : gset string)).
      { intros Hin. apply elem_of_list_to_set, list_elem_of_In, in_map_iff in Hin.
        destruct Hin as [p [He Hp']].
        assert (Ht : existsb (fun p => String.eqb (trader.posKey (trader.symbol p)
                                                      (trader.side p)) key) ps = true).
        { apply existsb_exists. exists p. split; [exact Hp'|]. apply String.eqb_eq. exact He. }
        congruence. }
      destruct (trader.positionFirstSeenTime a !! key) as [t|]; simpl; [|reflexivity].
      rewrite option_guard_False by exact Hout. reflexivity. }
  destruct (trader.tcPool env); exact E.
Qed.

(** Without the balance or the positions nothing is written at all. *)
Lemma buildTradingContext_unread (a : trader.AutoTrader) (env : trader.ContextEnv) :
  trader.tcBalance env = None \/ trader.tcPositions env = None ->
  trader.buildTradingContext a env = (None, a).
Proof.
  unfold trader.buildTradingContext. intros [H|H].
  - rewrite H. reflexivity.
  - rewrite H. destruct (trader.tcBalance env); reflexivity.
Qed.

(** ** The risk governor *)


Lemma riskView_fields (a b : trader.AutoTrader) :
  riskView a = riskView b ->
  trader.config a = trader.config b
  /\ trader.dailyPnL a = trader.dailyPnL b
  /\ trader.dailyStartEquity a = trader.dailyStartEquity b
  /\ trader.lastResetTime a = trader.lastResetTime b
  /\ trader.stopUntil a = trader.stopUntil b
  /\ trader.peakEquity a = trader.peakEquity b.
Proof. unfold riskView. intros H. repeat split; congruence. Qed.

Lemma passRegistry_riskView (a a1 : trader.AutoTrader) (key : string) (now : Z) :
  trader.passRegistry a key now = Some a1 -> riskView a1 = riskView a.
Proof.
  unfold trader.passRegistry. destruct (_ !! key) as [m|].
  - destruct (_ <? _)%Z; [|discriminate]. intros H. inversion H. reflexivity.
  - intros H. inversion H. reflexivity.
Qed.

Lemma recordTradeHistoryFromPosition_riskView (a : trader.AutoTrader)
    (env : trader.RecorderEnv) (sd sym : string) (ca : logger.DecisionAction)
    (f : bool) (fr : string) :
  riskView (trader.recordTradeHistoryFromPosition a env sd sym ca f fr) = riskView a.
Proof.
  destruct (recordTradeHistoryFromPosition_shape a env sd sym ca f fr) as [tbl [-> _]].
  reflexivity.
Qed.

Lemma forceCloseLocked_riskView (a : trader.AutoTrader) (env : trader.ForceCloseEnv)
    (sym sd reason : string) :
  riskView (snd (trader.forceCloseLocked a env sym sd reason)) = riskView a.
Proof.
  unfold trader.forceCloseLocked.
  destruct (trader.passRegistry a _ _) as [a1|] eqn:E; [|reflexivity].
  apply passRegistry_riskView in E. rewrite <- E.
  destruct (trader.fcMarket env); [|reflexivity].
  destruct (trader.fcOrder env); [|reflexivity].
  simpl. unfold trader.recordTradeHistoryFromAction.
  rewrite recordTradeHistoryFromPosition_riskView. reflexivity.
Qed.

Lemma forceClosePosition_riskView (a : trader.AutoTrader) (env : trader.ForceCloseEnv)
    (sym sd reason : string) :
  riskView (snd (trader.forceClosePosition a env sym sd reason)) = riskView a.
Proof.
  unfold trader.forceClosePosition.
  destruct (trader.passRegistry a _ _) as [a1|] eqn:E; [|reflexivity].
  apply passRegistry_riskView in E. rewrite <- E.
  pose proof (forceCloseLocked_riskView
                (trader.getOrCreateClosingLock a1 (trader.posKey sym sd))
                env sym sd reason) as H.
  destruct (trader.forceCloseLocked _ env sym sd reason) as [[rec err] a3].
  simpl in *. exact H.
Qed.

Lemma forceCloseAllPositions_riskView (env : string -> trader.ForceCloseEnv)
    (reason : string) (ps : list decision.PositionInfo) :
  forall a, riskView (snd (trader.forceCloseAllPositions a env reason ps)) = riskView a.
Proof.
  induction ps as [|p ps IH]; intros a; simpl; [reflexivity|].
  pose proof (forceClosePosition_riskView a
                (env (trader.posKey (decision.PSymbol p) (decision.PSide p)))
                (decision.PSymbol p) (decision.PSide p) reason) as H.
  destruct (trader.forceClosePosition a _ _ _ reason) as [[rec err] a1].
  simpl in H. destruct err as [e|].
  - rewrite IH. exact H.
  - specialize (IH (trader.markForced a1
                      (trader.posKey (decision.PSymbol p) (decision.PSide p))
                      (trader.fcNowMark
                         (env (trader.posKey (decision.PSymbol p) (decision.PSide p)))))).
    destruct (trader.forceCloseAllPositions _ env reason ps) as [acts a3].
    simpl in *. rewrite IH. exact H.
Qed.

Lemma updatePeak_peak_monotone (a : trader.AutoTrader) (now : Z) (e : Q) :
  (trader.peakEquity a <= trader.peakEquity (trader.updatePeakAndDailyPnL a now e))%Q.
Proof.
  unfold trader.updatePeakAndDailyPnL. simpl.
  destruct (Qgtb e (trader.peakEquity a)) eqn:E; qprop; lra.
Qed.

(** The account-level check never lowers the peak: it raises it to the
    current equity when that is higher, and a halt leaves it as it is. *)
Lemma checkAndExecuteForcedStopLoss_peak (a : trader.AutoTrader)
    (env : trader.RiskEnv) (ctx : decision.Context) :
  trader.peakEquity (snd (trader.checkAndExecuteForcedStopLoss a env ctx))
  = trader.peakEquity
      (trader.updatePeakAndDailyPnL a (trader.rkNow env)
         (decision.TotalEquity (decision.Account ctx))).
Proof.
  unfold trader.checkAndExecuteForcedStopLoss.
  destruct (trader.accountHalt _ _) as [h|]; [|reflexivity].
  match goal with
  | |- context [trader.forceCloseAllPositions ?s ?e ?r ?p] =>
      pose proof (forceCloseAllPositions_riskView e r p s) as H
  end.
  apply riskView_fields in H. destruct H as (_ & _ & _ & _ & _ & ->). reflexivity.
Qed.

Lemma checkAndExecuteForcedStopLoss_stopUntil (a : trader.AutoTrader)
    (env : trader.RiskEnv) (ctx : decision.Context) :
  let e := decision.TotalEquity (decision.Account ctx) in
  trader.stopUntil (snd (trader.checkAndExecuteForcedStopLoss a env ctx))
  = match trader.accountHalt (trader.updatePeakAndDailyPnL a (trader.rkNow env) e) e with
    | Some _ => (trader.rkNowStop env + trader.StopTradingTime (trader.config a))%Z
    | None => trader.stopUntil a
    end.
Proof.
  intros e. unfold trader.checkAndExecuteForcedStopLoss. fold e.
  destruct (trader.accountHalt _ _) as [h|]; [|reflexivity].
  match goal with
  | |- context [trader.forceCloseAllPositions ?s ?e ?r ?p] =>
      pose proof (forceCloseAllPositions_riskView e r p s) as H
  end.
  apply riskView_fields in H. destruct H as (_ & _ & _ & _ & -> & _). reflexivity.
Qed.
(** The percentage the daily-loss test compares, from the equity and the
    daily start equity: three binary64 operations. *)
Lemma dailyLossPct_after_update (a : trader.AutoTrader) (now : Z) (e : Q) :
  (now - trader.lastResetTime a < 24 * Hour)%Z ->
  trader.dailyLossPct (trader.updatePeakAndDailyPnL a now e)
  = fl (fl (fl (e - trader.dailyStartEquity a) / trader.dailyStartEquity a) * 100).
Proof.
  intros Ht. unfold trader.dailyLossPct, trader.updatePeakAndDailyPnL. simpl.
  apply Z.ltb_lt in Ht. rewrite Ht. reflexivity.
Qed.

Lemma dailyLossBreached_after_update (a : trader.AutoTrader) (now : Z) (e : Q) :
  (0 < trader.MaxDailyLoss (trader.config a))%Q ->
  (0 < trader.dailyStartEquity a)%Q ->
  (now - trader.lastResetTime a < 24 * Hour)%Z ->
  trader.dailyLossBreached (trader.updatePeakAndDailyPnL a now e)
  = Qltb (fl (fl (fl (e - trader.dailyStartEquity a) / trader.dailyStartEquity a) * 100))
         (- trader.MaxDailyLoss (trader.config a)).
Proof.
  intros Hm Hs Ht. unfold trader.dailyLossBreached.
  rewrite (dailyLossPct_after_update a now e Ht).
  unfold trader.updatePeakAndDailyPnL. simpl.
  apply Qgtb_gt in Hm. apply Qgtb_gt in Hs. rewrite Hm, Hs. reflexivity.
Qed.

Lemma dailyLossPct_comp (e e' s s' : Q) :
  (e == e')%Q -> (s == s')%Q ->
  (fl (fl (fl (e - s) / s) * 100) == fl (fl (fl (e' - s') / s') * 100))%Q.
Proof.
  intros He Hs. apply fl_comp. apply Qmult_comp; [|reflexivity].
  apply fl_comp. apply Qdiv_comp; [|exact Hs].
  apply fl_comp. apply Qplus_comp; [exact He|]. apply Qopp_comp. exact Hs.
Qed.

(** C4, counterexample to the claim as stated.  Daily start equity 10000,
    limit 5 %, drawdown limit off, one hour after the daily reset: at equity
    9499.99 (the binary64 number written so) the check halts trading
    ([stopUntil] is set), at equity 9500 it does not. *)
Lemma C4_boundary_is_the_other_way_round :
  let a := examples.fresh in
  let env := examples_risk.riskEnv examples_risk.oneHour in
  let after e := snd (trader.checkAndExecuteForcedStopLoss a env (examples_risk.account e)) in
  let low := fl 9499.99 in
  trader.accountHalt (trader.updatePeakAndDailyPnL a examples_risk.oneHour low) low
    = Some trader.DailyLossHalt
  /\ trader.stopUntil (after low) = (examples_risk.oneHour + 30 * Minute)%Z
  /\ trader.accountHalt (trader.updatePeakAndDailyPnL a examples_risk.oneHour 9500) 9500
     = None
  /\ trader.stopUntil (after 9500%Q) = trader.stopUntil a.
Proof. vm_compute. repeat split; reflexivity. Qed.

(** C4, amended claim.  With a positive daily-loss limit and a positive
    daily start equity, within 24 hours of the daily reset and when the
    drawdown limit is not breached, the account check halts for daily loss
    exactly when the computed percentage -- daily_pnl = equity - daily start
    equity, divided by the daily start equity, times 100, each operation
    rounded to binary64 -- is strictly below minus the limit; a halt sets
    [stopUntil], no halt leaves it.  With daily start equity 10000 and a
    limit of 5 %, equity 9499.99 triggers the halt and equity 9500 does not
    (the computed percentage is exactly -5).  The test is strict on the
    computed value, not on the exact loss: with daily start equity 1000 and a
    limit of 7 %, equity 930 (an exact loss of 7 %) gives the computed
    percentage -7.000000000000001 (-7881299347898369 / 2^50) and triggers the
    halt. *)
Theorem C4_daily_loss_halt_is_strict
    (a : trader.AutoTrader) (env : trader.RiskEnv) (ctx : decision.Context) :
  let e := decision.TotalEquity (decision.Account ctx) in
  let a1 := trader.updatePeakAndDailyPnL a (trader.rkNow env) e in
  let a' := snd (trader.checkAndExecuteForcedStopLoss a env ctx) in
  let computedPct :=
    fl (fl (fl (e - trader.dailyStartEquity a) / trader.dailyStartEquity a) * 100) in
  (0 < trader.MaxDailyLoss (trader.config a))%Q ->
  (0 < trader.dailyStartEquity a)%Q ->
  (trader.rkNow env - trader.lastResetTime a < 24 * Hour)%Z ->
  trader.drawdownBreached a1 e = false ->
  trader.dailyLossPct a1 = computedPct
  /\ (trader.accountHalt a1 e = Some trader.DailyLossHalt
      <-> (computedPct < - trader.MaxDailyLoss (trader.config a))%Q)
  /\ (trader.accountHalt a1 e = Some trader.DailyLossHalt ->
      trader.stopUntil a'
      = (trader.rkNowStop env + trader.StopTradingTime (trader.config a))%Z)
  /\ (trader.accountHalt a1 e <> Some trader.DailyLossHalt ->
      trader.stopUntil a' = trader.stopUntil a)
  /\ (trader.dailyStartEquity a == 10000 ->
      trader.MaxDailyLoss (trader.config a) == 5 ->
      (e == 9499.99 \/ e == fl 9499.99 ->
       trader.accountHalt a1 e = Some trader.DailyLossHalt)
      /\ (e == 9500 -> computedPct == -5 /\ trader.accountHalt a1 e = None))%Q
  /\ (trader.dailyStartEquity a == 1000 ->
      trader.MaxDailyLoss (trader.config a) == 7 ->
      e == 930 ->
      computedPct == -7881299347898369 # 1125899906842624
      /\ trader.accountHalt a1 e = Some trader.DailyLossHalt)%Q.
Proof.
  intros e a1 a' pct Hm Hs Ht Hd.
  assert (Hhalt : trader.accountHalt a1 e
                  = if Qltb pct (- trader.MaxDailyLoss (trader.config a))
                    then Some trader.DailyLossHalt else None).
  { unfold trader.accountHalt. rewrite Hd. subst a1.
    rewrite (dailyLossBreached_after_update a (trader.rkNow env) e Hm Hs Ht).
    reflexivity. }
  pose proof (checkAndExecuteForcedStopLoss_stopUntil a env ctx) as Hstop.
  simpl in Hstop. fold e in Hstop. fold a1 in Hstop. fold a' in Hstop.
  assert (Hat : forall e0 s0 m0 : Q,
            (e == e0)%Q -> (trader.dailyStartEquity a == s0)%Q ->
            (trader.MaxDailyLoss (trader.config a) == m0)%Q ->
            Qltb pct (- trader.MaxDailyLoss (trader.config a))
            = Qltb (fl (fl (fl (e0 - s0) / s0) * 100)) (- m0)).
  { intros e0 s0 m0 He0 Hs0 Hm0. subst pct.
    pose proof (dailyLossPct_comp e e0 _ s0 He0 Hs0) as Hp.
    destruct (Qltb (fl (fl (fl (e0 - s0) / s0) * 100)) (- m0)) eqn:E.
    - apply Qltb_lt. apply Qltb_lt in E. rewrite Hp, Hm0. exact E.
    - apply Qltb_ge. apply Qltb_ge in E. rewrite Hp, Hm0. exact E. }
  split; [subst a1; apply dailyLossPct_after_update; exact Ht|].
  split; [|split; [|split; [|split]]].
  - rewrite Hhalt. destruct (Qltb _ _) eqn:E.
    + apply Qltb_lt in E. split; [intros _; exact E | reflexivity].
    + apply Qltb_ge in E. split; [discriminate | intros H; lra].
  - intros H. rewrite Hstop, H. reflexivity.
  - intros H. rewrite Hstop. rewrite Hhalt in *.
    destruct (Qltb _ _); [contradiction H; reflexivity | reflexivity].
  - intros Hs10 Hm5. split.
    + intros [He|He]; rewrite Hhalt, (Hat _ _ _ He Hs10 Hm5); reflexivity.
    + intros He. split.
      * subst pct. rewrite (dailyLossPct_comp e 9500 _ 10000 He Hs10). reflexivity.
      * rewrite Hhalt, (Hat _ _ _ He Hs10 Hm5). reflexivity.
  - intros Hs1 Hm7 He. split.
    + subst pct. rewrite (dailyLossPct_comp e 930 _ 1000 He Hs1). reflexivity.
    + rewrite Hhalt, (Hat _ _ _ He Hs1 Hm7). reflexivity.
Qed.

Lemma C4_witness :
  let a := examples.fresh in
  let env := examples_risk.riskEnv examples_risk.oneHour in
  let ctx := examples_risk.account (fl 9499.99) in
  trader.stopUntil (snd (trader.checkAndExecuteForcedStopLoss a env ctx))
  = (trader.rkNowStop env + trader.StopTradingTime (trader.config a))%Z.
Proof.
  intros a env ctx.
  assert (Hm : (0 < trader.MaxDailyLoss (trader.config a))%Q) by reflexivity.
  assert (Hs : (0 < trader.dailyStartEquity a)%Q) by reflexivity.
  assert (Ht : (trader.rkNow env - trader.lastResetTime a < 24 * Hour)%Z) by reflexivity.
  assert (Hd : trader.drawdownBreached
                 (trader.updatePeakAndDailyPnL a (trader.rkNow env)
                    (decision.TotalEquity (decision.Account ctx)))
                 (decision.TotalEquity (decision.Account ctx)) = false) by reflexivity.
  pose proof (C4_daily_loss_halt_is_strict a env ctx Hm Hs Ht Hd) as H.
  apply (proj1 (proj2 (proj2 H))). vm_compute. reflexivity.
Defined.

(** The peak is kept or raised by a cycle whose context is built. *)
Lemma fold_setFirstSeen_peak (acts : list logger.DecisionAction)
    (key : logger.DecisionAction -> string) :
  forall s,
    trader.peakEquity
      (fold_left (fun s act => trader.setFirstSeen s
                                 (delete (key act) (trader.positionFirstSeenTime s)))
                 acts s)
    = trader.peakEquity s.
Proof. induction acts as [|x acts IH]; intros s; simpl; [reflexivity|]. rewrite IH. reflexivity. Qed.

Lemma buildTradingContext_peak (a : trader.AutoTrader) (env : trader.ContextEnv) :
  trader.peakEquity (snd (trader.buildTradingContext a env)) = trader.peakEquity a.
Proof. rewrite buildTradingContext_frame. reflexivity. Qed.

Lemma runCycle_peak_monotone_with_context (a : trader.AutoTrader) (env : trader.CycleEnv) :
  fst (trader.buildTradingContext (trader.setCallCount a (trader.callCount a + 1))
         (trader.cyContext env)) <> None ->
  (trader.peakEquity a <= trader.peakEquity (snd (trader.runCycle a env)))%Q.
Proof.
  intros Hc. unfold trader.runCycle.
  pose proof (buildTradingContext_peak (trader.setCallCount a (trader.callCount a + 1))
                (trader.cyContext env)) as Hb.
  destruct (negb _ && _); [simpl snd; rewrite Hb; simpl; lra|].
  destruct (trader.buildTradingContext _ (trader.cyContext env)) as [built ab].
  simpl in Hc, Hb. destruct built as [ctx|]; [|contradiction Hc; reflexivity].
  match goal with
  | |- context [trader.checkAndExecuteForcedStopLoss (trader.cleanRegistry ?s1 ?n ?c) ?e ?c] =>
      set (a1 := s1);
      assert (H1 : (trader.peakEquity a <= trader.peakEquity a1)%Q);
      [ subst a1; destruct (_ <? _)%Z; simpl;
        [ destruct (Qgtb _ _) eqn:E; simpl in E; qprop; rewrite Hb in *; simpl; lra
        | rewrite Hb; lra ] |];
      pose proof (checkAndExecuteForcedStopLoss_peak (trader.cleanRegistry a1 n c) e c) as Hp;
      pose proof (updatePeak_peak_monotone (trader.cleanRegistry a1 n c) (trader.rkNow e)
                    (decision.TotalEquity (decision.Account c))) as Hm;
      destruct (trader.checkAndExecuteForcedStopLoss (trader.cleanRegistry a1 n c) e c)
        as [forced a3]
  end.
  simpl snd in Hp. simpl snd. rewrite fold_setFirstSeen_peak, Hp.
  eapply Qle_trans; [exact H1 | exact Hm].
Qed.

(** Every cycle keeps or raises the peak, except the one whose daily reset is
    due while the trading context cannot be built: that one sets the peak to
    the initial balance. *)
Lemma runCycle_peak_cases (a : trader.AutoTrader) (env : trader.CycleEnv) :
  (trader.peakEquity a <= trader.peakEquity (snd (trader.runCycle a env)))%Q
  \/ (fst (trader.buildTradingContext (trader.setCallCount a (trader.callCount a + 1))
             (trader.cyContext env)) = None
      /\ (24 * Hour < trader.cyNow env - trader.lastResetTime a)%Z
      /\ fst (trader.runCycle a env) = trader.ContextFailed
      /\ trader.peakEquity (snd (trader.runCycle a env)) = trader.initialBalance a).
Proof.
  destruct (fst (trader.buildTradingContext
                   (trader.setCallCount a (trader.callCount a + 1))
                   (trader.cyContext env))) as [ctx|] eqn:Hc.
  - left. apply runCycle_peak_monotone_with_context. rewrite Hc. discriminate.
  - unfold trader.runCycle.
    pose proof (buildTradingContext_frame
                  (trader.setCallCount a (trader.callCount a + 1))
                  (trader.cyContext env)) as Hb.
    destruct (negb _ && _); [left; simpl snd; rewrite Hb; simpl; lra|].
    destruct (trader.buildTradingContext _ (trader.cyContext env)) as [built ab].
    simpl in Hc, Hb. subst built.
    destruct (_ <? _)%Z eqn:E; [|left; simpl; rewrite Hb; simpl; lra].
    right. apply Z.ltb_lt in E. simpl in E. simpl.
    repeat split; [exact E | rewrite Hb; reflexivity].
Qed.

(** C5.  The cycle at the failing input: the peak stood at 12000 (initial
    balance 10000), the daily reset is due and building the trading context
    fails.  The cycle ends with the peak back at 10000, below its value
    before the cycle; with the context built at the same instant the peak
    stays at 12000. *)
Theorem C5_peak_reset_when_context_fails :
  let a := examples_risk.afterGains in
  let failed := trader.runCycle a examples_risk.failingCycle in
  let worked := trader.runCycle a (examples_risk.workingCycle 11000) in
  fst failed = trader.ContextFailed
  /\ (trader.peakEquity a == 12000)%Q
  /\ (trader.peakEquity (snd failed) == 10000)%Q
  /\ (trader.peakEquity (snd failed) < trader.peakEquity a)%Q
  /\ (trader.peakEquity (snd worked) == 12000)%Q.
Proof. vm_compute. repeat split; reflexivity || discriminate. Qed.

(** ** The close-lock table *)

Lemma passRegistry_closing (a a1 : trader.AutoTrader) (key : string) (now : Z) :
  trader.passRegistry a key now = Some a1 ->
  trader.closingPositions a1 = trader.closingPositions a.
Proof.
  unfold trader.passRegistry. destruct (_ !! key) as [m|].
  - destruct (_ <? _)%Z; [|discriminate]. intros H. inversion H. reflexivity.
  - intros H. inversion H. reflexivity.
Qed.

Lemma recordTradeHistoryFromPosition_closing (a : trader.AutoTrader)
    (env : trader.RecorderEnv) (sd sym : string) (ca : logger.DecisionAction)
    (f : bool) (fr : string) :
  trader.closingPositions (trader.recordTradeHistoryFromPosition a env sd sym ca f fr)
  = trader.closingPositions a.
Proof.
  destruct (recordTradeHistoryFromPosition_shape a env sd sym ca f fr) as [tbl [-> _]].
  reflexivity.
Qed.

Lemma recordTradeHistory_closing (a : trader.AutoTrader) (env : trader.RecorderEnv)
    (sd : string) (dec : decision.Decision) (ca : logger.DecisionAction)
    (f : bool) (fr : string) :
  trader.closingPositions (trader.recordTradeHistory a env sd dec ca f fr)
  = trader.closingPositions a.
Proof.
  destruct (recordTradeHistory_shape a env sd dec ca f fr) as [tbl [-> _]].
  reflexivity.
Qed.

Lemma forceCloseLocked_closing (a : trader.AutoTrader) (env : trader.ForceCloseEnv)
    (sym sd reason : string) :
  trader.closingPositions (snd (trader.forceCloseLocked a env sym sd reason))
  = trader.closingPositions a.
Proof.
  unfold trader.forceCloseLocked.
  destruct (trader.passRegistry a _ _) as [a1|] eqn:E; [|reflexivity].
  apply passRegistry_closing in E. rewrite <- E.
  destruct (trader.fcMarket env); [|reflexivity].
  destruct (trader.fcOrder env); [|reflexivity].
  simpl. unfold trader.recordTradeHistoryFromAction.
  rewrite recordTradeHistoryFromPosition_closing. reflexivity.
Qed.

(** Whatever its outcome, a force-close that got past the registry leaves
    the table without the entry of its position, and every other entry as it
    was. *)
Lemma forceClosePosition_closing (a : trader.AutoTrader) (env : trader.ForceCloseEnv)
    (sym sd reason : string) :
  let key := trader.posKey sym sd in
  let r := trader.forceClosePosition a env sym sd reason in
  match trader.passRegistry a key (trader.fcNowFirst env) with
  | None => snd r = a /\ snd (fst r) <> None
  | Some _ => trader.closingPositions (snd r) = trader.closingPositions a ∖ {[ key ]}
  end.
Proof.
  intros key r. subst r. unfold trader.forceClosePosition. fold key.
  destruct (trader.passRegistry a key _) as [a1|] eqn:E; [|split; [reflexivity|discriminate]].
  apply passRegistry_closing in E.
  pose proof (forceCloseLocked_closing (trader.getOrCreateClosingLock a1 key)
                env sym sd reason) as H.
  destruct (trader.forceCloseLocked _ env sym sd reason) as [[rec err] a3].
  simpl in *. rewrite H, E. set_solver.
Qed.

Lemma forceClosePosition_closing_subseteq (a : trader.AutoTrader)
    (env : trader.ForceCloseEnv) (sym sd reason : string) :
  trader.closingPositions (snd (trader.forceClosePosition a env sym sd reason))
  ⊆ trader.closingPositions a.
Proof.
  pose proof (forceClosePosition_closing a env sym sd reason) as H. simpl in H.
  destruct (trader.passRegistry a _ _).
  - rewrite H. set_solver.
  - destruct H as [-> _]. set_solver.
Qed.

(** The account-level force-close of all positions and the watchdog leave no
    entry behind, whether the closes succeed or fail. *)
Lemma forceCloseAllPositions_closing (env : string -> trader.ForceCloseEnv)
    (reason : string) (ps : list decision.PositionInfo) :
  forall a,
    trader.closingPositions (snd (trader.forceCloseAllPositions a env reason ps))
    ⊆ trader.closingPositions a.
Proof.
  induction ps as [|p ps IH]; intros a; simpl; [set_solver|].
  pose proof (forceClosePosition_closing_subseteq a
                (env (trader.posKey (decision.PSymbol p) (decision.PSide p)))
                (decision.PSymbol p) (decision.PSide p) reason) as H.
  destruct (trader.forceClosePosition a _ _ _ reason) as [[rec err] a1].
  simpl in H. destruct err as [e|].
  - etrans; [apply IH | exact H].
  - match goal with
    | |- context [trader.forceCloseAllPositions ?s env reason ps] =>
        specialize (IH s); destruct (trader.forceCloseAllPositions s env reason ps)
          as [acts a3]
    end.
    simpl in *. etrans; [exact IH | exact H].
Qed.

Lemma watchdogLoop_closing (env : string -> trader.ForceCloseEnv)
    (ps : list trader.Position) :
  forall a,
    trader.closingPositions (snd (trader.watchdogLoop a env ps))
    ⊆ trader.closingPositions a.
Proof.
  induction ps as [|p ps IH]; intros a; simpl; [set_solver|].
  destruct (trader.watchdogTrigger _ p) as [t|]; [|apply IH].
  pose proof (forceClosePosition_closing_subseteq a
                (env (trader.posKey (trader.symbol p) (trader.side p)))
                (trader.symbol p) (trader.side p) (trader.triggerReason t)) as H.
  destruct (trader.forceClosePosition a _ _ _ _) as [[rec err] a1].
  simpl in H.
  match goal with
  | |- context [trader.watchdogLoop ?s env ps] =>
      specialize (IH s); destruct (trader.watchdogLoop s env ps) as [acts a3]
  end.
  simpl in *. etrans; [exact IH|]. destruct err; simpl; exact H.
Qed.

(** The AI-driven close: the entry is created, deleted after a successful
    order and left in the table by every failure that follows the creation. *)
Lemma executeCloseWithRecord_closing (sd : string) (a : trader.AutoTrader)
    (env : trader.CloseEnv) (dec : decision.Decision) (rec : logger.DecisionAction) :
  let key := trader.posKey (decision.Symbol dec) sd in
  let r := trader.executeCloseWithRecord sd a env dec rec in
  match trader.forcedClosedPositions a !! key with
  | Some _ => snd r = a /\ fst (fst r) <> None
  | None =>
      match fst (fst r) with
      | None => trader.closingPositions (snd r) = trader.closingPositions a ∖ {[ key ]}
      | Some _ => trader.closingPositions (snd r) = {[ key ]} ∪ trader.closingPositions a
      end
  end.
Proof.
  intros key r. subst r. unfold trader.executeCloseWithRecord. fold key.
  destruct (trader.forcedClosedPositions a !! key); [split; [reflexivity|discriminate]|].
  destruct (trader.ceMarket env); [|reflexivity].
  destruct (trader.ceOrder env); [|reflexivity].
  simpl. rewrite recordTradeHistory_closing. simpl. set_solver.
Qed.

(** C9, counterexample to the claim as stated.  The table holds the entry of
    BTCUSDT long; the watchdog force-closes that position and the exchange
    refuses the order.  The force-close returns an error and the entry is
    gone from the table.  The account-level path, which force-closes every
    position of the context, behaves the same. *)
Lemma C9_failed_force_close_deletes_the_entry :
  let key := trader.posKey "BTCUSDT" "long" in
  let a := trader.setClosing examples.fresh {[ key ]} in
  let refused := examples_risk.forceEnv 1000 false in
  let r := trader.forceClosePosition a refused "BTCUSDT" "long" "watchdog" in
  let all := trader.forceCloseAllPositions a (fun _ => refused) "account"
               [ {| decision.PSymbol := "BTCUSDT"; decision.PSide := "long" |} ] in
  snd (fst r) = Some "close order failed"
  /\ trader.closingPositions a = {[ key ]}
  /\ trader.closingPositions (snd r) = ∅
  /\ fst all = []
  /\ trader.closingPositions (snd all) = ∅.
Proof. vm_compute. repeat split; reflexivity. Qed.

(** C9, amended claim.  On the AI-driven close path the entry of
    (symbol, side) is deleted only when the close order succeeds and is kept
    in the table when the close fails after the lock was taken.  On the
    force-close path, used by the watchdog and by the account-level halt, the
    entry is deleted whenever the call returns after taking the lock, on
    failure as on success: neither force-close path leaves an entry in the
    table that was not there before. *)
Theorem C9_lock_entry_kept_only_by_failed_ai_close
    (a : trader.AutoTrader) (sd : string) (cenv : trader.CloseEnv)
    (dec : decision.Decision) (rec : logger.DecisionAction)
    (fenv : trader.ForceCloseEnv) (sym fsd reason : string) :
  let key := trader.posKey (decision.Symbol dec) sd in
  let r := trader.executeCloseWithRecord sd a cenv dec rec in
  let fkey := trader.posKey sym fsd in
  let fr := trader.forceClosePosition a fenv sym fsd reason in
  (trader.forcedClosedPositions a !! key = None ->
     (fst (fst r) = None -> key ∉ trader.closingPositions (snd r))
     /\ (fst (fst r) <> None -> key ∈ trader.closingPositions (snd r)))
  /\ (trader.passRegistry a fkey (trader.fcNowFirst fenv) <> None ->
      fkey ∉ trader.closingPositions (snd fr))
  /\ (forall env why ps,
        trader.closingPositions (snd (trader.forceCloseAllPositions a env why ps))
        ⊆ trader.closingPositions a)
  /\ (forall positions env,
        trader.closingPositions (snd (trader.checkPositionStopLossOnly a positions env))
        ⊆ trader.closingPositions a).
Proof.
  intros key r fkey fr. split; [|split; [|split]].
  - intros Hreg.
    pose proof (executeCloseWithRecord_closing sd a cenv dec rec) as H.
    simpl in H. fold key in H. fold r in H. rewrite Hreg in H.
    destruct (fst (fst r)) as [e|]; split; intros Hr; try congruence; rewrite H; set_solver.
  - intros Hpass.
    pose proof (forceClosePosition_closing a fenv sym fsd reason) as H.
    simpl in H. fold fkey in H. fold fr in H.
    destruct (trader.passRegistry a fkey _); [|congruence]. rewrite H. set_solver.
  - intros env why ps. apply forceCloseAllPositions_closing.
  - intros positions env. unfold trader.checkPositionStopLossOnly.
    destruct (negb _); [set_solver|].
    destruct positions as [ps|]; [apply watchdogLoop_closing | set_solver].
Qed.

Lemma C9_witness :
  let key := trader.posKey "BTCUSDT" "long" in
  trader.forcedClosedPositions examples.fresh !! key = None
  /\ key ∈ trader.closingPositions
       (snd (trader.executeCloseWithRecord "long" examples.fresh
               {| trader.ceMarket := Some 61000%Q; trader.ceOrder := None;
                  trader.cePositionsAfter := None; trader.ceMarketExit := None;
                  trader.ceRecorder := examples_risk.noRecords |}
               examples.closeDecision examples.closeAction)).
Proof.
  intros key. split; [reflexivity|].
  refine (proj2 (proj1 (C9_lock_entry_kept_only_by_failed_ai_close
            examples.fresh "long" _ examples.closeDecision examples.closeAction
            (examples_risk.forceEnv 0 true) "BTCUSDT" "long" "x") _) _).
  - reflexivity.
  - vm_compute. discriminate.
Defined.

(** ** forceClosePosition past the registry *)

Lemma passRegistry_cases (a : trader.AutoTrader) (key : string) (now : Z) :
  (exists t, trader.forcedClosedPositions a !! key = Some t
             /\ (now - t <= trader.PositionStopLossRetryTimeout)%Z
             /\ trader.passRegistry a key now = None)
  \/ (exists a1, trader.passRegistry a key now = Some a1
                 /\ trader.forcedClosedPositions a1 !! key = None
                 /\ a1 = trader.setForcedClosed a (delete key (trader.forcedClosedPositions a))
                 /\ (trader.forcedClosedPositions a !! key = None
                     \/ exists t, trader.forcedClosedPositions a !! key = Some t
                                  /\ (trader.PositionStopLossRetryTimeout < now - t)%Z)).
Proof.
  unfold trader.passRegistry. destruct (_ !! key) as [t|] eqn:E.
  - destruct (_ <? _)%Z eqn:Et.
    + right. eexists. split; [reflexivity|]. simpl. split; [apply lookup_delete_eq|].
      split; [reflexivity|]. right. exists t. split; [reflexivity|]. apply Z.ltb_lt, Et.
    + left. exists t. split; [reflexivity|]. split; [apply Z.ltb_ge, Et | reflexivity].
  - right. exists a. split; [reflexivity|]. split; [exact E|]. split; [|left; reflexivity].
    rewrite delete_id by exact E. destruct a; reflexivity.
Qed.

Lemma passRegistry_unmarked (a : trader.AutoTrader) (key : string) (now : Z) :
  trader.forcedClosedPositions a !! key = None -> trader.passRegistry a key now = Some a.
Proof. intros H. unfold trader.passRegistry. rewrite H. reflexivity. Qed.

(** What a call that gets past the registry does. *)
Lemma forceClosePosition_past_registry (a a1 : trader.AutoTrader)
    (env : trader.ForceCloseEnv) (sym sd reason : string) :
  let key := trader.posKey sym sd in
  let r := trader.forceClosePosition a env sym sd reason in
  let rec := fst (fst r) in
  let err := snd (fst r) in
  let a' := snd r in
  trader.passRegistry a key (trader.fcNowFirst env) = Some a1 ->
  trader.forcedClosedPositions a1 !! key = None ->
  logger.IsForced rec = true /\ logger.ForcedReason rec = reason
  /\ logger.Symbol rec = sym
  /\ match trader.fcMarket env with
     | None =>
         err <> None /\ logger.Success rec = false
         /\ trader.forcedClosedPositions a' = trader.forcedClosedPositions a1
         /\ trader.positionLogic a' = trader.positionLogic a
         /\ trader.trades a' = trader.trades a
     | Some price =>
         trader.forcedClosedPositions a'
         = <[ key := trader.fcNowMark env ]> (trader.forcedClosedPositions a1)
         /\ logger.Price rec = price
         /\ logger.Action rec = (if String.eqb sd "long" then "close_long" else "close_short")
         /\ match trader.fcOrder env with
            | None =>
                err <> None /\ logger.Success rec = false
                /\ trader.positionLogic a' = trader.positionLogic a
                /\ trader.trades a' = trader.trades a
            | Some oid =>
                err = None /\ logger.Success rec = true /\ logger.OrderID rec = oid
                /\ trader.positionLogic a'
                   = positionlogic.DeleteLogic (trader.positionLogic a) sym sd
                /\ appendsAtMost sym sd rec (trader.trades a) (trader.trades a')
            end
     end.
Proof.
  intros key r rec err a' Hp Hnone. subst r rec err a'.
  unfold trader.forceClosePosition. fold key. rewrite Hp.
  unfold trader.forceCloseLocked. fold key.
  rewrite passRegistry_unmarked by (simpl; exact Hnone).
  assert (Ha1 : trader.positionLogic a1 = trader.positionLogic a
                /\ trader.trades a1 = trader.trades a).
  { destruct (passRegistry_cases a key (trader.fcNowFirst env))
      as [(t & _ & _ & H)|(x & H & _ & Hx & _)]; [congruence|].
    assert (E : a1 = trader.setForcedClosed a
                       (delete key (trader.forcedClosedPositions a))) by congruence.
    rewrite E. split; reflexivity. }
  destruct Ha1 as [Hl Ht].
  destruct (trader.fcMarket env) as [price|]; simpl.
  - destruct (trader.fcOrder env) as [oid|]; simpl.
    + unfold trader.recordTradeHistoryFromAction.
      match goal with
      | |- context [trader.recordTradeHistoryFromPosition ?s ?e ?d ?y ?c ?f ?fr] =>
          destruct (recordTradeHistoryFromPosition_shape s e d y c f fr) as (tbl & -> & Happ)
      end.
      simpl in *. rewrite Hl, Ht in *. repeat split; auto.
    + rewrite Hl, Ht. repeat split; auto; intros H; discriminate H.
  - rewrite Hl, Ht. repeat split; auto; intros H; discriminate H.
Qed.


(** ** The stop-loss watchdog *)

Lemma effectiveStopLossPct_zero (cfg : trader.AutoTraderConfig) :
  (trader.PositionStopLossPct cfg == 0)%Q -> trader.effectiveStopLossPct cfg = 10%Q.
Proof.
  intros H. unfold trader.effectiveStopLossPct.
  apply Qeqb_eq in H. rewrite H. reflexivity.
Qed.

Lemma watchdogTrigger_stop_loss (cfg : trader.AutoTraderConfig) (p : trader.Position) :
  (trader.positionPnLPct p < 0)%Q ->
  (trader.effectiveStopLossPct cfg <= - trader.positionPnLPct p)%Q ->
  trader.watchdogTrigger cfg p
  = Some (trader.StopLossTrigger (- trader.positionPnLPct p)).
Proof.
  intros Hneg Hloss. unfold trader.watchdogTrigger.
  apply Qltb_lt in Hneg. apply Qgeb_ge in Hloss. rewrite Hneg, Hloss. reflexivity.
Qed.

Lemma watchdogTrigger_no_take_profit (cfg : trader.AutoTraderConfig) (p : trader.Position)
    (profit : Q) :
  (trader.PositionTakeProfitPct cfg <= 0)%Q ->
  trader.watchdogTrigger cfg p <> Some (trader.TakeProfitTrigger profit).
Proof.
  intros Htp. unfold trader.watchdogTrigger.
  destruct (_ && _); [discriminate|].
  apply Qgtb_le in Htp. rewrite Htp. discriminate.
Qed.

Lemma watchdogTrigger_take_profit (cfg : trader.AutoTraderConfig) (p : trader.Position) :
  (0 < trader.PositionTakeProfitPct cfg)%Q ->
  (trader.PositionTakeProfitPct cfg <= trader.positionPnLPct p)%Q ->
  trader.watchdogTrigger cfg p = Some (trader.TakeProfitTrigger (trader.positionPnLPct p)).
Proof.
  intros Htp Hp. unfold trader.watchdogTrigger.
  assert (Hpos : (0 < trader.positionPnLPct p)%Q) by lra.
  assert (E : Qltb (trader.positionPnLPct p) 0 = false) by (apply Qltb_ge; lra).
  rewrite E. simpl.
  apply Qgtb_gt in Htp. apply Qgtb_gt in Hpos. apply Qgeb_ge in Hp.
  rewrite Htp, Hpos, Hp. reflexivity.
Qed.

(** C10.  With [position_stop_loss_pct = 0] the watchdog uses a threshold of
    10 %: a position whose leveraged loss is 10 % or more triggers the
    stop-loss, and a running watchdog answers with the force-close of that
    position.  Unless the position carries a registry mark younger than five
    minutes, and once the price is known and the exchange takes the order,
    that force-close is carried out: the one action logged is a successful,
    forced close_long or close_short of the position at that price, with the
    order id of the exchange, and afterwards the position is marked in the
    forced-close registry, its logic and its first-seen time are deleted and
    its close lock is released.  With [position_take_profit_pct <= 0] no
    position ever triggers the forced take-profit, which a positive setting
    does trigger. *)
Theorem C10_zero_stop_loss_defaults_to_ten_percent
    (a : trader.AutoTrader) (p : trader.Position) (env : string -> trader.ForceCloseEnv) :
  let cfg := trader.config a in
  let key := trader.posKey (trader.symbol p) (trader.side p) in
  let loss := trader.StopLossTrigger (- trader.positionPnLPct p) in
  let r := trader.checkPositionStopLossOnly a (Some [p]) env in
  ((trader.PositionStopLossPct cfg == 0)%Q ->
     trader.effectiveStopLossPct cfg = 10%Q
     /\ ((trader.positionPnLPct p <= - 10)%Q ->
         trader.watchdogTrigger cfg p = Some loss
         /\ (trader.isRunning a = true ->
             fst r
             = [ fst (fst (trader.forceClosePosition a (env key)
                             (trader.symbol p) (trader.side p)
                             (trader.triggerReason loss))) ]
             /\ forall price oid,
                  trader.passRegistry a key (trader.fcNowFirst (env key)) <> None ->
                  trader.fcMarket (env key) = Some price ->
                  trader.fcOrder (env key) = Some oid ->
                  exists rec,
                    fst r = [rec]
                    /\ logger.Action rec
                       = (if String.eqb (trader.side p) "long"
                          then "close_long" else "close_short")
                    /\ logger.Symbol rec = trader.symbol p
                    /\ logger.Price rec = price /\ logger.OrderID rec = oid
                    /\ logger.Success rec = true /\ logger.IsForced rec = true
                    /\ logger.ForcedReason rec = trader.triggerReason loss
                    /\ trader.forcedClosedPositions (snd r) !! key
                       = Some (trader.fcNowMark (env key))
                    /\ positionlogic.GetLogic (trader.positionLogic (snd r))
                         (trader.symbol p) (trader.side p) = None
                    /\ trader.positionFirstSeenTime (snd r) !! key = None
                    /\ key ∉ trader.closingPositions (snd r))))
  /\ ((trader.PositionTakeProfitPct cfg <= 0)%Q ->
      forall q profit,
        trader.watchdogTrigger cfg q <> Some (trader.TakeProfitTrigger profit))
  /\ ((0 < trader.PositionTakeProfitPct cfg)%Q ->
      (trader.PositionTakeProfitPct cfg <= trader.positionPnLPct p)%Q ->
      trader.watchdogTrigger cfg p
      = Some (trader.TakeProfitTrigger (trader.positionPnLPct p))).
Proof.
  intros cfg key loss r. split; [|split].
  - intros Hz. pose proof (effectiveStopLossPct_zero cfg Hz) as He.
    split; [exact He|]. intros Hloss.
    assert (Ht : trader.watchdogTrigger cfg p = Some loss).
    { apply watchdogTrigger_stop_loss; [lra | rewrite He; lra]. }
    split; [exact Ht|]. intros Hrun.
    pose proof (forceClosePosition_closing a (env key) (trader.symbol p) (trader.side p)
                  (trader.triggerReason loss)) as Hlock.
    simpl in Hlock. fold key in Hlock.
    assert (Hr : r = let '(rec, err, a1) :=
                       trader.forceClosePosition a (env key) (trader.symbol p)
                         (trader.side p) (trader.triggerReason loss) in
                     ([rec],
                      match err with
                      | Some _ => a1
                      | None => trader.setFirstSeen a1
                                  (delete key (trader.positionFirstSeenTime a1))
                      end)).
    { subst r. unfold trader.checkPositionStopLossOnly. rewrite Hrun. simpl.
      fold cfg. rewrite Ht. fold key.
      destruct (trader.forceClosePosition a (env key) _ _ _) as [[rec err] a1].
      reflexivity. }
    split.
    { rewrite Hr.
      destruct (trader.forceClosePosition a (env key) _ _ _) as [[rec err] a1].
      reflexivity. }
    intros price oid Hpass Hmarket Horder.
    destruct (trader.passRegistry a key (trader.fcNowFirst (env key))) as [a1|] eqn:Hp;
      [|contradiction Hpass; reflexivity].
    assert (Hnone : trader.forcedClosedPositions a1 !! key = None).
    { destruct (passRegistry_cases a key (trader.fcNowFirst (env key)))
        as [(t & _ & _ & H)|(x & H & Hx & _)]; congruence. }
    pose proof (forceClosePosition_past_registry a a1 (env key) (trader.symbol p)
                  (trader.side p) (trader.triggerReason loss) Hp Hnone) as H.
    simpl in H. fold key in H. rewrite Hmarket, Horder in H.
    destruct (trader.forceClosePosition a (env key) _ _ _) as [[rec err] a2].
    simpl in H, Hlock.
    destruct H as (Hf & Hreason & Hsym & Hmark & Hprice & Hact & Herr & Hok & Hoid & Hlogic & _).
    subst err. exists rec. rewrite Hr. simpl.
    split; [reflexivity|]. split; [exact Hact|]. split; [exact Hsym|].
    split; [exact Hprice|]. split; [exact Hoid|]. split; [exact Hok|].
    split; [exact Hf|]. split; [exact Hreason|].
    split; [rewrite Hmark; apply lookup_insert_eq|].
    split; [rewrite Hlogic; apply lookup_delete_eq|].
    split; [apply lookup_delete_eq|].
    rewrite Hlock. set_solver.
  - intros Htp q profit. apply watchdogTrigger_no_take_profit. exact Htp.
  - apply watchdogTrigger_take_profit.
Qed.

Lemma C10_witness :
  let a := examples.fresh in
  let p := examples_watchdog.losing in
  let r := trader.checkPositionStopLossOnly a (Some [p])
             (fun _ => examples_risk.forceEnv 0 true) in
  (trader.PositionStopLossPct (trader.config a) == 0)%Q
  /\ (trader.positionPnLPct p <= - 10)%Q
  /\ trader.watchdogTrigger (trader.config a) p
     = Some (trader.StopLossTrigger (- trader.positionPnLPct p))
  /\ exists rec,
       fst r = [rec]
       /\ logger.Action rec = "close_long" /\ logger.Symbol rec = "BTCUSDT"
       /\ logger.Price rec = 58900%Q /\ logger.OrderID rec = 42%Z
       /\ logger.Success rec = true /\ logger.IsForced rec = true
       /\ trader.forcedClosedPositions (snd r) !! "BTCUSDT_long" = Some 0%Z
       /\ positionlogic.GetLogic (trader.positionLogic (snd r)) "BTCUSDT" "long" = None
       /\ trader.positionFirstSeenTime (snd r) !! "BTCUSDT_long" = None.
Proof.
  intros a p r.
  assert (Hz : (trader.PositionStopLossPct (trader.config a) == 0)%Q) by reflexivity.
  assert (Hl : (trader.positionPnLPct p <= - 10)%Q) by (vm_compute; discriminate).
  assert (Hrun : trader.isRunning a = true) by reflexivity.
  assert (Hpass : trader.passRegistry a (trader.posKey (trader.symbol p) (trader.side p))
                    (trader.fcNowFirst (examples_risk.forceEnv 0 true)) <> None)
    by (vm_compute; discriminate).
  destruct (proj2 (proj1 (C10_zero_stop_loss_defaults_to_ten_percent
                            a p (fun _ => examples_risk.forceEnv 0 true)) Hz) Hl)
    as [Ht Hclose].
  split; [exact Hz|]. split; [exact Hl|]. split; [exact Ht|].
  destruct (proj2 (Hclose Hrun) 58900%Q 42%Z Hpass eq_refl eq_refl)
    as (rec & H1 & H2 & H3 & H4 & H5 & H6 & H7 & _ & H9 & H10 & H11 & _).
  exists rec. repeat split; assumption.
Defined.

(** ** The open executor and the margin check *)

Lemma GetLogic_SaveFirstSeenTime (tbl : gmap string positionlogic.PositionLogic)
    (sym sd : string) (t : Z) :
  positionlogic.GetLogic (positionlogic.SaveFirstSeenTime tbl sym sd t) sym sd
  = Some {| positionlogic.EntryLogic :=
              positionlogic.EntryLogic (positionlogic.orEmpty (positionlogic.GetLogic tbl sym sd));
            positionlogic.ExitLogic :=
              positionlogic.ExitLogic (positionlogic.orEmpty (positionlogic.GetLogic tbl sym sd));
            positionlogic.StopLoss :=
              positionlogic.StopLoss (positionlogic.orEmpty (positionlogic.GetLogic tbl sym sd));
            positionlogic.TakeProfit :=
              positionlogic.TakeProfit (positionlogic.orEmpty (positionlogic.GetLogic tbl sym sd));
            positionlogic.FirstSeenTime := t |}.
Proof. unfold positionlogic.SaveFirstSeenTime, positionlogic.GetLogic. apply lookup_insert_eq. Qed.

Lemma GetLogic_SaveStopLossAndTakeProfit (tbl : gmap string positionlogic.PositionLogic)
    (sym sd : string) (sl tp : Q) :
  positionlogic.GetLogic (positionlogic.SaveStopLossAndTakeProfit tbl sym sd sl tp) sym sd
  = let l := positionlogic.orEmpty (positionlogic.GetLogic tbl sym sd) in
    Some {| positionlogic.EntryLogic := positionlogic.EntryLogic l;
            positionlogic.ExitLogic := positionlogic.ExitLogic l;
            positionlogic.StopLoss := if Qgtb sl 0 then sl else positionlogic.StopLoss l;
            positionlogic.TakeProfit := if Qgtb tp 0 then tp else positionlogic.TakeProfit l;
            positionlogic.FirstSeenTime := positionlogic.FirstSeenTime l |}.
Proof.
  unfold positionlogic.SaveStopLossAndTakeProfit, positionlogic.GetLogic.
  apply lookup_insert_eq.
Qed.

Lemma GetLogic_SaveEntryLogic (tbl : gmap string positionlogic.PositionLogic)
    (sym sd entry : string) :
  positionlogic.GetLogic (positionlogic.SaveEntryLogic tbl sym sd entry) sym sd
  = let l := positionlogic.orEmpty (positionlogic.GetLogic tbl sym sd) in
    Some {| positionlogic.EntryLogic := Some entry;
            positionlogic.ExitLogic := positionlogic.ExitLogic l;
            positionlogic.StopLoss := positionlogic.StopLoss l;
            positionlogic.TakeProfit := positionlogic.TakeProfit l;
            positionlogic.FirstSeenTime := positionlogic.FirstSeenTime l |}.
Proof. unfold positionlogic.SaveEntryLogic, positionlogic.GetLogic. apply lookup_insert_eq. Qed.

Lemma GetLogic_SaveExitLogic (tbl : gmap string positionlogic.PositionLogic)
    (sym sd exit : string) :
  positionlogic.GetLogic (positionlogic.SaveExitLogic tbl sym sd exit) sym sd
  = let l := positionlogic.orEmpty (positionlogic.GetLogic tbl sym sd) in
    Some {| positionlogic.EntryLogic := positionlogic.EntryLogic l;
            positionlogic.ExitLogic := Some exit;
            positionlogic.StopLoss := positionlogic.StopLoss l;
            positionlogic.TakeProfit := positionlogic.TakeProfit l;
            positionlogic.FirstSeenTime := positionlogic.FirstSeenTime l |}.
Proof. unfold positionlogic.SaveExitLogic, positionlogic.GetLogic. apply lookup_insert_eq. Qed.

(** An open, accepted or not, leaves the trade table as it is. *)
Lemma executeOpenWithRecord_trades (sd : string) (a : trader.AutoTrader)
    (env : trader.OpenEnv) (dec : decision.Decision) (rec : logger.DecisionAction) :
  trader.trades (snd (trader.executeOpenWithRecord sd a env dec rec)) = trader.trades a.
Proof.
  unfold trader.executeOpenWithRecord.
  destruct (trader.hasPosition _ sd (trader.oePositionsBefore env)); [reflexivity|].
  pose proof (buildTradingContext_frame a (trader.oeContext env)) as Hb.
  destruct (trader.buildTradingContext a (trader.oeContext env)) as [built a0].
  simpl in Hb.
  assert (Ht : trader.trades a0 = trader.trades a) by (rewrite Hb; reflexivity).
  repeat match goal with
         | |- context [match ?x with _ => _ end] => destruct x
         end; exact Ht.
Qed.

(** What an accepted open has done. *)
Lemma executeOpenWithRecord_accepted (sd : string) (a : trader.AutoTrader)
    (env : trader.OpenEnv) (dec : decision.Decision) (rec : logger.DecisionAction) :
  let r := trader.executeOpenWithRecord sd a env dec rec in
  let rec' := snd (fst r) in
  let a' := snd r in
  let sym := decision.Symbol dec in
  fst (fst r) = None ->
  exists price q oid l,
    trader.oeMarket env = Some price /\ (0 < price)%Q
    /\ trader.oeFormatQuantity env (decision.PositionSizeUSD dec / price)%Q = Some q
    /\ trader.oeOrder env = Some oid
    /\ logger.Price rec' = price /\ logger.Quantity rec' = q /\ logger.OrderID rec' = oid
    /\ trader.positionFirstSeenTime a' !! trader.posKey sym sd = Some (trader.oeNow env)
    /\ positionlogic.GetLogic (trader.positionLogic a') sym sd = Some l
    /\ positionlogic.FirstSeenTime l = trader.oeNow env
    /\ ((0 < decision.StopLoss dec)%Q -> positionlogic.StopLoss l = decision.StopLoss dec)
    /\ ((0 < decision.TakeProfit dec)%Q -> positionlogic.TakeProfit l = decision.TakeProfit dec)
    /\ (decision.Reasoning dec <> "" ->
        positionlogic.EntryLogic l = Some (decision.Reasoning dec)
        /\ (decision.ExitReasoning dec <> "" ->
            positionlogic.ExitLogic l = Some (decision.ExitReasoning dec))).
Proof.
  intros r rec' a' sym. subst r rec' a'. unfold trader.executeOpenWithRecord. fold sym.
  destruct (trader.hasPosition sym sd (trader.oePositionsBefore env)); [discriminate|].
  destruct (trader.buildTradingContext a (trader.oeContext env)) as [built a0].
  destruct built as [ctx|]; [|discriminate].
  destruct (trader.checkMarginAndBalanceSafety _ _ _); [discriminate|].
  destruct (trader.hasPosition sym sd (trader.oePositionsRecheck env)); [discriminate|].
  destruct (trader.oeMarket env) as [price|]; [|discriminate].
  destruct (Qleb price 0) eqn:Hp; [discriminate|].
  destruct (trader.oeFormatQuantity env _) as [q|] eqn:Hq; [|discriminate].
  destruct (Qltb q _); [discriminate|].
  destruct (trader.oeOrder env) as [oid|]; [|discriminate].
  intros _. simpl. apply Qleb_gt in Hp.
  set (l1 := positionlogic.SaveFirstSeenTime (trader.positionLogic a0) sym sd (trader.oeNow env)).
  assert (H1 : exists x, positionlogic.GetLogic l1 sym sd = Some x
                         /\ positionlogic.FirstSeenTime x = trader.oeNow env).
  { eexists. split; [apply GetLogic_SaveFirstSeenTime | reflexivity]. }
  set (l2 := if Qgtb (decision.StopLoss dec) 0 || Qgtb (decision.TakeProfit dec) 0
             then positionlogic.SaveStopLossAndTakeProfit l1 sym sd
                    (decision.StopLoss dec) (decision.TakeProfit dec)
             else l1).
  assert (H2 : exists x, positionlogic.GetLogic l2 sym sd = Some x
                 /\ positionlogic.FirstSeenTime x = trader.oeNow env
                 /\ ((0 < decision.StopLoss dec)%Q ->
                     positionlogic.StopLoss x = decision.StopLoss dec)
                 /\ ((0 < decision.TakeProfit dec)%Q ->
                     positionlogic.TakeProfit x = decision.TakeProfit dec)).
  { destruct H1 as [x [Hx Hf]]. subst l2.
    destruct (Qgtb (decision.StopLoss dec) 0) eqn:Es;
      destruct (Qgtb (decision.TakeProfit dec) 0) eqn:Et; simpl;
      try (rewrite GetLogic_SaveStopLossAndTakeProfit, Hx; simpl; rewrite Es, Et;
           eexists; split; [reflexivity|]; simpl; split; [exact Hf|];
           split; intros H; try reflexivity; qprop; lra).
    exists x. split; [exact Hx|]. split; [exact Hf|]. split; intros H; qprop; lra. }
  destruct H2 as [x2 [Hx2 [Hf2 [Hs2 Ht2]]]].
  exists price, q, oid.
  unfold strNonEmpty.
  destruct (String.eqb (decision.Reasoning dec) "") eqn:Er; simpl.
  - apply String.eqb_eq in Er. exists x2.
    repeat split; auto; try apply lookup_insert_eq; congruence.
  - destruct (String.eqb (decision.ExitReasoning dec) "") eqn:Ee; simpl.
    + apply String.eqb_eq in Ee.
      eexists. rewrite GetLogic_SaveEntryLogic, Hx2. simpl.
      repeat split; auto; try apply lookup_insert_eq; congruence.
    + eexists. rewrite GetLogic_SaveExitLogic, GetLogic_SaveEntryLogic, Hx2. simpl.
      repeat split; auto; apply lookup_insert_eq.
Qed.

(** C2, counterexample to the claim as stated.  The happy-path open of the
    specification (BTCUSDT long at 60000, 2000 USDT, lot-rounded quantity
    0.033) is accepted, and the trade table is as empty after it as it was
    before: no row with open_price = 60000 exists. *)
Lemma C2_accepted_open_creates_no_trade_row :
  let r := trader.executeOpenLongWithRecord examples.fresh examples_open.env
             examples_open.openLong examples_open.pending in
  fst (fst r) = None
  /\ (logger.Price (snd (fst r)) == 60000)%Q
  /\ (logger.Quantity (snd (fst r)) == 0.033)%Q
  /\ trader.trades examples.fresh = []
  /\ trader.trades (snd r) = [].
Proof. vm_compute. repeat split; reflexivity. Qed.

(** C2, amended claim.  An open execution (long or short), accepted or not,
    leaves the trade table unchanged: no row is created at open time.  An
    accepted open at current price P with size S has put P and the
    lot-rounded S/P on its action record, has recorded the first-seen time in
    memory and in the position-logic store, and has stored there the stop,
    the take-profit and the entry and exit logic that the decision
    carries. *)
Theorem C2_open_records_action_and_logic_only
    (sd : string) (a : trader.AutoTrader) (env : trader.OpenEnv)
    (dec : decision.Decision) (rec : logger.DecisionAction) :
  let r := trader.executeOpenWithRecord sd a env dec rec in
  let rec' := snd (fst r) in
  let a' := snd r in
  let sym := decision.Symbol dec in
  trader.trades a' = trader.trades a
  /\ (fst (fst r) = None ->
      exists price q oid l,
        trader.oeMarket env = Some price /\ (0 < price)%Q
        /\ trader.oeFormatQuantity env (decision.PositionSizeUSD dec / price)%Q = Some q
        /\ trader.oeOrder env = Some oid
        /\ logger.Price rec' = price /\ logger.Quantity rec' = q
        /\ logger.OrderID rec' = oid
        /\ trader.positionFirstSeenTime a' !! trader.posKey sym sd = Some (trader.oeNow env)
        /\ positionlogic.GetLogic (trader.positionLogic a') sym sd = Some l
        /\ positionlogic.FirstSeenTime l = trader.oeNow env
        /\ ((0 < decision.StopLoss dec)%Q ->
            positionlogic.StopLoss l = decision.StopLoss dec)
        /\ ((0 < decision.TakeProfit dec)%Q ->
            positionlogic.TakeProfit l = decision.TakeProfit dec)
        /\ (decision.Reasoning dec <> "" ->
            positionlogic.EntryLogic l = Some (decision.Reasoning dec)
            /\ (decision.ExitReasoning dec <> "" ->
                positionlogic.ExitLogic l = Some (decision.ExitReasoning dec)))).
Proof.
  intros r rec' a' sym. split.
  - apply executeOpenWithRecord_trades.
  - apply executeOpenWithRecord_accepted.
Qed.

Lemma C2_witness :
  let r := trader.executeOpenWithRecord "long" examples.fresh examples_open.env
             examples_open.openLong examples_open.pending in
  fst (fst r) = None
  /\ exists price q oid l,
       trader.oeMarket examples_open.env = Some price /\ (0 < price)%Q
       /\ trader.oeFormatQuantity examples_open.env
            (decision.PositionSizeUSD examples_open.openLong / price)%Q = Some q
       /\ trader.oeOrder examples_open.env = Some oid
       /\ logger.Price (snd (fst r)) = price /\ logger.Quantity (snd (fst r)) = q
       /\ logger.OrderID (snd (fst r)) = oid
       /\ trader.positionFirstSeenTime (snd r) !! trader.posKey "BTCUSDT" "long"
          = Some (trader.oeNow examples_open.env)
       /\ positionlogic.GetLogic (trader.positionLogic (snd r)) "BTCUSDT" "long" = Some l
       /\ positionlogic.FirstSeenTime l = trader.oeNow examples_open.env
       /\ ((0 < 58000)%Q -> positionlogic.StopLoss l = 58000%Q)
       /\ ((0 < 62000)%Q -> positionlogic.TakeProfit l = 62000%Q)
       /\ ("r" <> "" ->
           positionlogic.EntryLogic l = Some "r"
           /\ ("e" <> "" -> positionlogic.ExitLogic l = Some "e")).
Proof.
  intros r.
  assert (H : fst (fst r) = None) by (vm_compute; reflexivity).
  split; [exact H|].
  exact (proj2 (C2_open_records_action_and_logic_only "long" examples.fresh
                  examples_open.env examples_open.openLong examples_open.pending) H).
Defined.

(** The estimated liquidation distance depends on the leverage only: it is
    (1/L + 0.01) * 100 percent of the price, on either side. *)
Lemma priceDistancePct_value (action : string) (price : Q) (lev : Z) :
  ~ (price == 0)%Q ->
  (trader.priceDistancePct action price lev == (1 / float64 lev + 0.01) * 100)%Q.
Proof.
  intros Hp. unfold trader.priceDistancePct, trader.estimatedLiquidationPrice,
    trader.marginRate, trader.MaintenanceMarginRate.
  generalize (1 / float64 lev)%Q. intros m.
  destruct (String.eqb action "open_long"); field; exact Hp.
Qed.

Lemma liquidation_long_10x :
  (trader.estimatedLiquidationPrice "open_long" 60000 10 == 53400)%Q
  /\ (trader.priceDistancePct "open_long" 60000 10 == 11)%Q.
Proof. split; reflexivity. Qed.

(** C3, counterexample to the claim as stated.  Equity 10000, no position;
    open_long BTCUSDT, leverage 10, 2000 USDT, stop 59900, price 60000.  The
    safety check returns no error and the open is executed. *)
Lemma C3_safety_check_accepts_the_open :
  trader.checkMarginAndBalanceSafety examples_open.flat
    examples_open.openLongTightStop (Some 60000%Q) = None
  /\ fst (fst (trader.executeOpenLongWithRecord examples.fresh examples_open.env
                 examples_open.openLongTightStop examples_open.pending)) = None
  /\ (trader.priceDistancePct "open_long" 60000 10 == 11)%Q
  /\ ~ (trader.priceDistancePct "open_long" 60000 10 < trader.MinSafeDistancePct)%Q.
Proof. vm_compute. repeat split; try reflexivity. discriminate. Qed.

(** C3, amended claim.  For an open_long decision with leverage 10, current
    price 60000 and stop-loss 59900, the estimated liquidation price
    P * (1 - 1/L - 0.01) is 53400, at 11 % of the current price, which is not
    below the 3 % minimum: the check does not reject on the liquidation
    distance, nor on the stop-loss (59900 lies between 53400 and 60000); it
    passes unless the margin-usage or the reserve-balance limit is exceeded.
    No trade row is created by the open. *)
Theorem C3_tight_stop_passes_the_liquidation_test
    (ctx : decision.Context) (dec : decision.Decision) :
  decision.Action dec = "open_long" ->
  decision.Leverage dec = 10%Z ->
  (decision.StopLoss dec == 59900)%Q ->
  let r := trader.checkMarginAndBalanceSafety ctx dec (Some 60000%Q) in
  (trader.estimatedLiquidationPrice "open_long" 60000 10 == 53400)%Q
  /\ (trader.priceDistancePct "open_long" 60000 10 == 11)%Q
  /\ ~ (trader.priceDistancePct "open_long" 60000 10 < trader.MinSafeDistancePct)%Q
  /\ (r = None \/ r = Some trader.MarginUsageExceeded
      \/ r = Some trader.InsufficientBalance)
  /\ (forall a env rec,
        trader.trades (snd (trader.executeOpenLongWithRecord a env dec rec))
        = trader.trades a).
Proof.
  intros Ha Hl Hs r.
  destruct liquidation_long_10x as [Hliq Hdist].
  split; [exact Hliq|]. split; [exact Hdist|].
  split; [rewrite Hdist; unfold trader.MinSafeDistancePct; lra|].
  split; [|intros a env rec; apply executeOpenWithRecord_trades].
  subst r. unfold trader.checkMarginAndBalanceSafety.
  replace (Qleb 60000 0) with false by reflexivity.
  destruct (Qgtb _ (if trader.isSingleSymbol ctx (decision.Symbol dec)
                    then trader.MaxMarginUsagePctSingleSymbol
                    else trader.MaxMarginUsagePct)); [right; left; reflexivity|].
  destruct (Qltb (decision.AvailableBalance (decision.Account ctx) - _) _);
    [right; right; reflexivity|].
  left. rewrite Ha, Hl.
  replace (Qltb (trader.priceDistancePct "open_long" 60000 10) trader.MinSafeDistancePct)
    with false by reflexivity.
  destruct (Qgtb (decision.StopLoss dec) 0); [|reflexivity].
  replace (String.eqb "open_long" "open_long") with true by reflexivity.
  destruct (Qgeb (decision.StopLoss dec) 60000) eqn:E1; [qprop; lra|].
  destruct (Qleb (decision.StopLoss dec) _) eqn:E2; [|reflexivity].
  qprop. rewrite Hliq in E2. lra.
Qed.

Lemma C3_witness :
  let dec := examples_open.openLongTightStop in
  let r := trader.checkMarginAndBalanceSafety examples_open.flat dec (Some 60000%Q) in
  decision.Action dec = "open_long" /\ decision.Leverage dec = 10%Z
  /\ (decision.StopLoss dec == 59900)%Q
  /\ (r = None \/ r = Some trader.MarginUsageExceeded
      \/ r = Some trader.InsufficientBalance).
Proof.
  intros dec r.
  assert (Ha : decision.Action dec = "open_long") by reflexivity.
  assert (Hl : decision.Leverage dec = 10%Z) by reflexivity.
  assert (Hs : (decision.StopLoss dec == 59900)%Q) by reflexivity.
  split; [exact Ha|]. split; [exact Hl|]. split; [exact Hs|].
  exact (proj1 (proj2 (proj2 (proj2
           (C3_tight_stop_passes_the_liquidation_test examples_open.flat dec Ha Hl Hs))))).
Defined.

(** ** executeUpdateStopLoss *)

(** The trailing rule rejects exactly the moves in the unfavourable
    direction. *)
Lemma checkTrailing_long (old : option positionlogic.PositionLogic) (s0 newStop : Q) :
  trader.storedStop old = Some s0 ->
  (trader.checkTrailing "long" old newStop <> None <-> (newStop < s0)%Q).
Proof.
  intros H. unfold trader.checkTrailing. rewrite H. simpl.
  destruct (Qltb newStop s0) eqn:E; qprop; split; intros; try congruence; try lra; try discriminate.
Qed.

Lemma checkTrailing_short (old : option positionlogic.PositionLogic) (s0 newStop : Q) :
  trader.storedStop old = Some s0 ->
  (trader.checkTrailing "short" old newStop <> None <-> (s0 < newStop)%Q).
Proof.
  intros H. unfold trader.checkTrailing. rewrite H. simpl.
  destruct (Qgtb newStop s0) eqn:E; qprop; split; intros; try congruence; try lra; try discriminate.
Qed.

Lemma storedStop_after_save (tbl : gmap string positionlogic.PositionLogic)
    (sym sd : string) (sl tp : Q) :
  (0 < sl)%Q ->
  trader.storedStop
    (positionlogic.GetLogic (positionlogic.SaveStopLossAndTakeProfit tbl sym sd sl tp) sym sd)
  = Some sl.
Proof.
  intros H. rewrite GetLogic_SaveStopLossAndTakeProfit. simpl.
  apply Qgtb_gt in H. unfold trader.storedStop. simpl. rewrite H, H. reflexivity.
Qed.

(** Outcome of [executeUpdateStopLoss] on a position with a stored stop. *)
Lemma executeUpdateStopLoss_cases (a : trader.AutoTrader) (env : trader.UpdateEnv)
    (dec : decision.Decision) (rec : logger.DecisionAction)
    (pos : trader.Position) (s0 : Q) :
  let sym := decision.Symbol dec in
  let new := decision.StopLoss dec in
  let old := positionlogic.GetLogic (trader.positionLogic a) sym (trader.side pos) in
  let r := trader.executeUpdateStopLoss a env dec rec in
  trader.findPositionBySymbol (trader.uePositions env) sym = Some pos ->
  trader.storedStop old = Some s0 ->
  (* rejected: an error, nothing written *)
  (fst (fst r) <> None /\ snd r = a)
  (* skipped as a no-op: no error, nothing written *)
  \/ (fst (fst r) = None /\ snd r = a)
  (* executed: no error, the new stop passed the trailing rule and is saved *)
  \/ (fst (fst r) = None /\ trader.isNoOp old new = false
      /\ (0 < new)%Q
      /\ trader.checkTrailing (trader.side pos) old new = None
      /\ exists tp,
           snd r = trader.setPositionLogic a
                     (positionlogic.SaveStopLossAndTakeProfit (trader.positionLogic a)
                        sym (trader.side pos) new tp)).
Proof.
  intros sym new old r Hfind Hold. subst r. unfold trader.executeUpdateStopLoss.
  fold sym. fold new. rewrite Hfind. fold old.
  destruct (Qleb new 0) eqn:Hpos; [left; split; [discriminate|reflexivity]|].
  apply Qleb_gt in Hpos.
  destruct (trader.isNoOp old new) eqn:Hnoop; [right; left; split; reflexivity|].
  destruct (trader.ueMarket env) as [price|]; [|left; split; [discriminate|reflexivity]].
  destruct (Qleb price 0); [left; split; [discriminate|reflexivity]|].
  destruct (trader.checkStopAgainstPrice _ _ _);
    [left; split; [discriminate|reflexivity]|].
  destruct (trader.checkTrailing _ _ _) eqn:Htrail;
    [left; split; [discriminate|reflexivity]|].
  destruct (trader.checkStopAgainstTakeProfit _ _ _ _);
    [left; split; [discriminate|reflexivity]|].
  destruct (trader.ueCancel env);
    try (left; split; [discriminate|reflexivity]);
    (destruct (negb (trader.ueSetStopLoss env));
       [left; split; [discriminate|reflexivity]|];
     destruct (_ && negb (trader.ueSetTakeProfit env));
       [left; split; [discriminate|reflexivity]|];
     destruct (trader.ueSave env);
       [right; right; repeat split; auto; eexists; reflexivity
       | right; left; split; reflexivity]).
Qed.

(** C6, counterexample to the claim as stated.  Stored stop 58000 on a long
    position; the request asks for 57900, a move in the unfavourable
    direction of less than 0.5 %.  The request is not rejected with an error:
    it is skipped as a no-op, returns no error and leaves 58000 stored. *)
Lemma C6_small_unfavourable_move_is_skipped_not_rejected :
  let r := trader.executeUpdateStopLoss examples_update.holding examples_update.env
             (examples_update.update 57900) examples_update.pending in
  (decision.StopLoss (examples_update.update 57900) < 58000)%Q
  /\ fst (fst r) = None
  /\ logger.Error (snd (fst r)) = "SKIPPED: change below 0.5%"
  /\ option_map positionlogic.StopLoss
       (positionlogic.GetLogic (trader.positionLogic (snd r)) "BTCUSDT" "long")
     = Some 58000%Q.
Proof. vm_compute. repeat split; reflexivity. Qed.

(** C6, amended claim.  For every update_sl request accepted (executed, or
    skipped as a no-op) on a long position whose stored stop is s0, the stop
    stored after the operation is at least s0; on a short position it is at
    most s0.  The trailing rule rejects with an error exactly the stops that
    move in the unfavourable direction; a request with such a stop ends with
    an error and writes nothing, unless the stop is within 0.5 % of the
    stored one, in which case the request is skipped as a no-op. *)
Theorem C6_accepted_update_never_loosens_the_stop
    (a : trader.AutoTrader) (env : trader.UpdateEnv)
    (dec : decision.Decision) (rec : logger.DecisionAction)
    (pos : trader.Position) (s0 : Q) :
  let sym := decision.Symbol dec in
  let new := decision.StopLoss dec in
  let sd := trader.side pos in
  let old := positionlogic.GetLogic (trader.positionLogic a) sym sd in
  let r := trader.executeUpdateStopLoss a env dec rec in
  let after := trader.storedStop
                 (positionlogic.GetLogic (trader.positionLogic (snd r)) sym sd) in
  trader.findPositionBySymbol (trader.uePositions env) sym = Some pos ->
  trader.storedStop old = Some s0 ->
  (fst (fst r) = None ->
     exists s1, after = Some s1
                /\ (sd = "long" -> (s0 <= s1)%Q)
                /\ (sd = "short" -> (s1 <= s0)%Q))
  /\ (sd = "long" -> (trader.checkTrailing sd old new <> None <-> (new < s0)%Q))
  /\ (sd = "short" -> (trader.checkTrailing sd old new <> None <-> (s0 < new)%Q))
  /\ ((sd = "long" /\ (new < s0)%Q) \/ (sd = "short" /\ (s0 < new)%Q) ->
      trader.isNoOp old new = false ->
      fst (fst r) <> None /\ snd r = a).
Proof.
  intros sym new sd old r after Hfind Hold.
  pose proof (executeUpdateStopLoss_cases a env dec rec pos s0 Hfind Hold) as Hc.
  simpl in Hc. fold sym new sd old r in Hc.
  split; [|split; [|split]].
  - intros Hok. destruct Hc as [[Herr _] | [[_ Hsame] | Hexec]]; [contradiction| |].
    + exists s0. subst after. rewrite Hsame. fold old. split; [exact Hold|].
      split; intros _; lra.
    + destruct Hexec as (_ & _ & Hpos & Htrail & tp & Hsave).
      exists new. subst after. rewrite Hsave. simpl.
      split; [apply storedStop_after_save; exact Hpos|].
      split; intros Hsd; rewrite Hsd in Htrail.
      * destruct (Qlt_le_dec new s0) as [Hlt|Hle]; [|exact Hle].
        apply (checkTrailing_long old s0 new Hold) in Hlt. contradiction.
      * destruct (Qlt_le_dec s0 new) as [Hlt|Hle]; [|exact Hle].
        apply (checkTrailing_short old s0 new Hold) in Hlt. contradiction.
  - intros ->. apply checkTrailing_long. exact Hold.
  - intros ->. apply checkTrailing_short. exact Hold.
  - intros Hunf Hnoop.
    destruct Hc as [Hrej | [[Hok Hsame] | Hexec]]; [exact Hrej | |].
    + (* accepted without a write and not a no-op: the save failed, after the
         trailing rule had passed *)
      exfalso. subst r. unfold trader.executeUpdateStopLoss in Hok.
      fold sym new in Hok. rewrite Hfind in Hok. fold sd old in Hok.
      rewrite Hnoop in Hok.
      destruct (Qleb new 0); [discriminate|].
      destruct (trader.ueMarket env) as [price|]; [|discriminate].
      destruct (Qleb price 0); [discriminate|].
      destruct (trader.checkStopAgainstPrice sd new price); [discriminate|].
      destruct (trader.checkTrailing sd old new) eqn:Htrail; [discriminate|].
      destruct Hunf as [[Hsd Hlt] | [Hsd Hlt]]; rewrite Hsd in Htrail.
      * apply (checkTrailing_long old s0 new Hold) in Hlt. contradiction.
      * apply (checkTrailing_short old s0 new Hold) in Hlt. contradiction.
    + exfalso. destruct Hexec as (_ & _ & _ & Htrail & _).
      destruct Hunf as [[Hsd Hlt] | [Hsd Hlt]]; fold sd in Htrail; rewrite Hsd in Htrail.
      * apply (checkTrailing_long old s0 new Hold) in Hlt. contradiction.
      * apply (checkTrailing_short old s0 new Hold) in Hlt. contradiction.
Qed.

(** The scenario of the specification: stored stop 58000 on a long; a
    request for 57500 is rejected, a request for 58500 at price 60100 is
    executed and 58500 is stored. *)
Lemma update_stop_scenario :
  let run stop := trader.executeUpdateStopLoss examples_update.holding examples_update.env
                    (examples_update.update stop) examples_update.pending in
  let stored r := option_map positionlogic.StopLoss
                    (positionlogic.GetLogic (trader.positionLogic (snd r)) "BTCUSDT" "long") in
  fst (fst (run 57500%Q)) = Some "long: the stop may only move up"
  /\ stored (run 57500%Q) = Some 58000%Q
  /\ fst (fst (run 58500%Q)) = None
  /\ stored (run 58500%Q) = Some 58500%Q.
Proof. vm_compute. repeat split; reflexivity. Qed.

Lemma C6_witness :
  let a := examples_update.holding in
  let dec := examples_update.update 58500 in
  let r := trader.executeUpdateStopLoss a examples_update.env dec examples_update.pending in
  trader.findPositionBySymbol (trader.uePositions examples_update.env)
    (decision.Symbol dec) = Some examples_update.long
  /\ trader.storedStop
       (positionlogic.GetLogic (trader.positionLogic a) "BTCUSDT" "long") = Some 58000%Q
  /\ fst (fst r) = None
  /\ exists s1,
       trader.storedStop
         (positionlogic.GetLogic (trader.positionLogic (snd r)) "BTCUSDT" "long") = Some s1
       /\ ("long" = "long" -> (58000 <= s1)%Q)
       /\ ("long" = "short" -> (s1 <= 58000)%Q).
Proof.
  intros a dec r.
  assert (Hf : trader.findPositionBySymbol (trader.uePositions examples_update.env)
                 (decision.Symbol dec) = Some examples_update.long) by reflexivity.
  assert (Hs : trader.storedStop
                 (positionlogic.GetLogic (trader.positionLogic a) (decision.Symbol dec)
                    (trader.side examples_update.long)) = Some 58000%Q)
    by (vm_compute; reflexivity).
  assert (Hok : fst (fst r) = None) by (vm_compute; reflexivity).
  split; [exact Hf|]. split; [exact Hs|]. split; [exact Hok|].
  exact (proj1 (C6_accepted_update_never_loosens_the_stop a examples_update.env dec
                  examples_update.pending examples_update.long 58000%Q Hf Hs) Hok).
Defined.
(** ** The sort and deduplication pipeline: general properties *)

(** *** The exchange sort *)

Lemma swap_head_Permutation (l : list decision.Decision) (j : nat)
    (x y : decision.Decision) :
  l !! j = Some y -> y :: <[ j := x ]> l ≡ₚ x :: l.
Proof.
  revert j. induction l as [|z l IH]; intros [|j] H; simpl in *; try discriminate.
  - inversion H; subst. apply Permutation_swap.
  - etrans; [apply Permutation_swap|].
    etrans; [apply Permutation_skip, IH, H | apply Permutation_swap].
Qed.

Lemma insert_insert_Permutation (l : list decision.Decision) (i j : nat)
    (x y : decision.Decision) :
  i <> j -> l !! i = Some x -> l !! j = Some y ->
  <[ j := x ]> (<[ i := y ]> l) ≡ₚ l.
Proof.
  revert i j. induction l as [|z l IH]; intros [|i] [|j] Hne Hi Hj;
    simpl in *; try discriminate; try congruence.
  - inversion Hi; subst. apply swap_head_Permutation, Hj.
  - inversion Hj; subst. apply swap_head_Permutation, Hi.
  - apply Permutation_skip, IH; [congruence | exact Hi | exact Hj].
Qed.

Lemma swapIfGreater_Permutation (l : list decision.Decision) (i j : nat) :
  trader.swapIfGreater l i j ≡ₚ l.
Proof.
  unfold trader.swapIfGreater.
  destruct (l !! i) as [x|] eqn:Hi; [|reflexivity].
  destruct (l !! j) as [y|] eqn:Hj; [|reflexivity].
  destruct (_ <? _)%Z eqn:E; [|reflexivity].
  apply insert_insert_Permutation; [|exact Hi|exact Hj].
  intros ->. rewrite Hi in Hj. inversion Hj; subst. apply Z.ltb_lt in E. lia.
Qed.

Lemma swapIfGreater_length (l : list decision.Decision) (i j : nat) :
  length (trader.swapIfGreater l i j) = length l.
Proof.
  unfold trader.swapIfGreater.
  destruct (l !! i); [|reflexivity]. destruct (l !! j); [|reflexivity].
  destruct (_ <? _)%Z; [|reflexivity]. rewrite !length_insert. reflexivity.
Qed.

Lemma swapIfGreater_lookup_ne (l : list decision.Decision) (i j k : nat) :
  k <> i -> k <> j -> trader.swapIfGreater l i j !! k = l !! k.
Proof.
  intros Hi Hj. unfold trader.swapIfGreater.
  destruct (l !! i); [|reflexivity]. destruct (l !! j); [|reflexivity].
  destruct (_ <? _)%Z; [|reflexivity].
  rewrite !list_lookup_insert_ne by auto. reflexivity.
Qed.

(** What the exchange leaves at [i] and [j]. *)
Lemma swapIfGreater_cases (l : list decision.Decision) (i j : nat)
    (x y : decision.Decision) :
  i <> j -> l !! i = Some x -> l !! j = Some y ->
  (trader.swapIfGreater l i j !! i = Some y
   /\ trader.swapIfGreater l i j !! j = Some x
   /\ (trader.priority y < trader.priority x)%Z)
  \/ (trader.swapIfGreater l i j = l
      /\ (trader.priority x <= trader.priority y)%Z).
Proof.
  intros Hne Hi Hj. unfold trader.swapIfGreater. rewrite Hi, Hj.
  destruct (_ <? _)%Z eqn:E.
  - left. apply Z.ltb_lt in E. split; [|split; [|exact E]].
    + rewrite list_lookup_insert_ne by auto.
      apply list_lookup_insert_eq. eapply lookup_lt_Some, Hi.
    + apply list_lookup_insert_eq. rewrite length_insert.
      eapply lookup_lt_Some, Hj.
  - right. apply Z.ltb_ge in E. split; [reflexivity | exact E].
Qed.

Lemma swapIfGreater_is_Some (l : list decision.Decision) (i j k : nat)
    (z : decision.Decision) :
  trader.swapIfGreater l i j !! k = Some z -> exists z', l !! k = Some z'.
Proof.
  intros H. apply lookup_lt_Some in H. rewrite swapIfGreater_length in H.
  apply lookup_lt_is_Some_2 in H. destruct H as [z' H]. exists z'. exact H.
Qed.

Lemma swapIfGreater_ordered (l : list decision.Decision) (i j : nat)
    (x y : decision.Decision) :
  i <> j ->
  trader.swapIfGreater l i j !! i = Some x ->
  trader.swapIfGreater l i j !! j = Some y ->
  (trader.priority x <= trader.priority y)%Z.
Proof.
  intros Hne Hx Hy.
  destruct (swapIfGreater_is_Some _ _ _ _ _ Hx) as [x0 Hx0].
  destruct (swapIfGreater_is_Some _ _ _ _ _ Hy) as [y0 Hy0].
  destruct (swapIfGreater_cases l i j x0 y0 Hne Hx0 Hy0) as [(H1 & H2 & H3)|[H1 H2]].
  - rewrite H1 in Hx. rewrite H2 in Hy. inversion Hx; inversion Hy; subst. lia.
  - rewrite H1 in Hx, Hy. congruence.
Qed.

Lemma swapIfGreater_head (l : list decision.Decision) (i j : nat)
    (x x0 : decision.Decision) :
  i <> j -> l !! i = Some x0 -> trader.swapIfGreater l i j !! i = Some x ->
  (trader.priority x <= trader.priority x0)%Z.
Proof.
  intros Hne Hx0 Hx.
  destruct (l !! j) as [y0|] eqn:Hy0.
  - destruct (swapIfGreater_cases l i j x0 y0 Hne Hx0 Hy0) as [(H1 & H2 & H3)|[H1 H2]].
    + rewrite H1 in Hx. inversion Hx; subst. lia.
    + rewrite H1 in Hx. assert (x = x0) by congruence. subst. lia.
  - unfold trader.swapIfGreater in Hx. rewrite Hx0, Hy0 in Hx.
    assert (x = x0) by congruence. subst. lia.
Qed.

Lemma swapIfGreater_from (l : list decision.Decision) (i j k : nat)
    (z : decision.Decision) :
  (i < j)%nat -> (i <= k)%nat -> trader.swapIfGreater l i j !! k = Some z ->
  exists k', (i <= k')%nat /\ l !! k' = Some z.
Proof.
  intros Hij Hik Hz.
  destruct (decide (k = i)) as [->|Hki]; [|destruct (decide (k = j)) as [->|Hkj]].
  - destruct (swapIfGreater_is_Some _ _ _ _ _ Hz) as [x0 Hx0].
    destruct (l !! j) as [y0|] eqn:Hy0.
    + destruct (swapIfGreater_cases l i j x0 y0 ltac:(lia) Hx0 Hy0)
        as [(H1 & H2 & H3)|[H1 H2]].
      * exists j. split; [lia|]. congruence.
      * exists i. split; [lia|]. congruence.
    + unfold trader.swapIfGreater in Hz. rewrite Hx0, Hy0 in Hz.
      exists i. split; [lia | exact Hz].
  - destruct (swapIfGreater_is_Some _ _ _ _ _ Hz) as [y0 Hy0].
    destruct (l !! i) as [x0|] eqn:Hx0.
    + destruct (swapIfGreater_cases l i j x0 y0 ltac:(lia) Hx0 Hy0)
        as [(H1 & H2 & H3)|[H1 H2]].
      * exists i. split; [lia|]. congruence.
      * exists j. split; [lia|]. congruence.
    + unfold trader.swapIfGreater in Hz. rewrite Hx0 in Hz.
      exists j. split; [lia | exact Hz].
  - rewrite swapIfGreater_lookup_ne in Hz by auto. exists k. split; [lia | exact Hz].
Qed.

Lemma innerLoop_length (steps : nat) :
  forall (l : list decision.Decision) (i j : nat),
    length (trader.innerLoop l i j steps) = length l.
Proof.
  induction steps as [|n IH]; intros l i j; simpl; [reflexivity|].
  rewrite IH. apply swapIfGreater_length.
Qed.

Lemma innerLoop_Permutation (steps : nat) :
  forall (l : list decision.Decision) (i j : nat),
    trader.innerLoop l i j steps ≡ₚ l.
Proof.
  induction steps as [|n IH]; intros l i j; simpl; [reflexivity|].
  rewrite IH. apply swapIfGreater_Permutation.
Qed.

Lemma innerLoop_prefix (steps : nat) :
  forall (l : list decision.Decision) (i j k : nat),
    (k < i)%nat -> (i < j)%nat -> trader.innerLoop l i j steps !! k = l !! k.
Proof.
  induction steps as [|n IH]; intros l i j k Hk Hij; simpl; [reflexivity|].
  rewrite IH by lia. apply swapIfGreater_lookup_ne; lia.
Qed.

Lemma innerLoop_from (steps : nat) :
  forall (l : list decision.Decision) (i j k : nat) (z : decision.Decision),
    (i < j)%nat -> (i <= k)%nat -> trader.innerLoop l i j steps !! k = Some z ->
    exists k', (i <= k')%nat /\ l !! k' = Some z.
Proof.
  induction steps as [|n IH]; intros l i j k z Hij Hik H; simpl in H.
  - exists k. split; [lia | exact H].
  - apply IH in H; [|lia|lia]. destruct H as (k1 & Hk1 & H).
    apply swapIfGreater_from in H; [exact H | lia | lia].
Qed.

(** After the inner loop has reached [j], the element at [i] has the least
    priority number of the indices in between. *)
Lemma innerLoop_min (steps : nat) :
  forall (l : list decision.Decision) (i j : nat),
    (i < j)%nat ->
    (forall k x y, (i < k < j)%nat -> l !! i = Some x -> l !! k = Some y ->
                   byPriority x y) ->
    forall k x y, (i < k < j + steps)%nat ->
                  trader.innerLoop l i j steps !! i = Some x ->
                  trader.innerLoop l i j steps !! k = Some y ->
                  byPriority x y.
Proof.
  induction steps as [|n IH]; intros l i j Hij Inv k x y Hk Hx Hy; simpl in *.
  - apply (Inv k); [lia | exact Hx | exact Hy].
  - apply (IH (trader.swapIfGreater l i j) i (S j)) with (k := k);
      [lia | | lia | exact Hx | exact Hy].
    clear k x y Hk Hx Hy. intros k x y Hk Hx Hy.
    destruct (decide (k = j)) as [->|Hkj].
    + apply (swapIfGreater_ordered l i j); [lia | exact Hx | exact Hy].
    + destruct (swapIfGreater_is_Some _ _ _ _ _ Hx) as [x0 Hx0].
      pose proof (swapIfGreater_head l i j x x0 ltac:(lia) Hx0 Hx) as H1.
      rewrite swapIfGreater_lookup_ne in Hy by lia.
      pose proof (Inv k x0 y ltac:(lia) Hx0 Hy) as H2.
      unfold byPriority in *. lia.
Qed.

Lemma outerLoop_length (steps : nat) :
  forall (l : list decision.Decision) (i : nat),
    length (trader.outerLoop l i steps) = length l.
Proof.
  induction steps as [|n IH]; intros l i; simpl; [reflexivity|].
  rewrite IH. apply innerLoop_length.
Qed.

Lemma outerLoop_Permutation (steps : nat) :
  forall (l : list decision.Decision) (i : nat), trader.outerLoop l i steps ≡ₚ l.
Proof.
  induction steps as [|n IH]; intros l i; simpl; [reflexivity|].
  rewrite IH. apply innerLoop_Permutation.
Qed.

(** After the outer loop has reached [i], every element before [i] has a
    priority number at most that of every element after it. *)
Lemma outerLoop_sorted (steps : nat) :
  forall (l : list decision.Decision) (i : nat),
    (forall a b x y, (a < i)%nat -> (a < b)%nat ->
                     l !! a = Some x -> l !! b = Some y -> byPriority x y) ->
    forall a b x y, (a < i + steps)%nat -> (a < b)%nat ->
                    trader.outerLoop l i steps !! a = Some x ->
                    trader.outerLoop l i steps !! b = Some y -> byPriority x y.
Proof.
  induction steps as [|n IH]; intros l i Inv a b x y Ha Hab Hx Hy; simpl in *.
  - apply (Inv a b); [lia | exact Hab | exact Hx | exact Hy].
  - apply (IH (trader.innerLoop l i (S i) (length l - S i)) (S i)) with (a := a) (b := b);
      [ | lia | exact Hab | exact Hx | exact Hy].
    clear a b x y Ha Hab Hx Hy. intros a b x y Ha Hab Hx Hy.
    destruct (decide (a = i)) as [->|Hai].
    + apply (innerLoop_min (length l - S i) l i (S i)) with (k := b);
        [lia | intros; lia | | exact Hx | exact Hy].
      apply lookup_lt_Some in Hy. rewrite innerLoop_length in Hy. lia.
    + rewrite innerLoop_prefix in Hx by lia.
      destruct (decide (b < i)%nat) as [Hbi|Hbi].
      * rewrite innerLoop_prefix in Hy by lia.
        apply (Inv a b); [lia | exact Hab | exact Hx | exact Hy].
      * apply innerLoop_from in Hy; [|lia|lia]. destruct Hy as (b' & Hb' & Hy).
        apply (Inv a b'); [lia | lia | exact Hx | exact Hy].
Qed.

Lemma sortDecisionsByPriority_Permutation (l : list decision.Decision) :
  trader.sortDecisionsByPriority l ≡ₚ l.
Proof.
  unfold trader.sortDecisionsByPriority. destruct (_ <=? _)%nat; [reflexivity|].
  apply outerLoop_Permutation.
Qed.

Lemma sortDecisionsByPriority_lookup (l : list decision.Decision) (a b : nat)
    (x y : decision.Decision) :
  (a < b)%nat ->
  trader.sortDecisionsByPriority l !! a = Some x ->
  trader.sortDecisionsByPriority l !! b = Some y ->
  byPriority x y.
Proof.
  unfold trader.sortDecisionsByPriority. intros Hab Hx Hy.
  destruct (_ <=? _)%nat eqn:E.
  - apply Nat.leb_le in E. apply lookup_lt_Some in Hy. lia.
  - apply (outerLoop_sorted (length l - 1) l 0) with (a := a) (b := b);
      [intros; lia | | exact Hab | exact Hx | exact Hy].
    apply lookup_lt_Some in Hy. rewrite outerLoop_length in Hy. lia.
Qed.

Lemma StronglySorted_of_lookup (l : list decision.Decision) :
  (forall a b x y, (a < b)%nat -> l !! a = Some x -> l !! b = Some y -> byPriority x y) ->
  StronglySorted byPriority l.
Proof.
  induction l as [|z l IH]; intros H; constructor.
  - apply IH. intros a b x y Hab Hx Hy. apply (H (S a) (S b)); [lia | exact Hx | exact Hy].
  - apply Forall_lookup. intros i x Hx. apply (H 0%nat (S i)); [lia | reflexivity | exact Hx].
Qed.

Lemma StronglySorted_lookup_lt (l : list decision.Decision) :
  StronglySorted byPriority l ->
  forall a b x y, (a < b)%nat -> l !! a = Some x -> l !! b = Some y -> byPriority x y.
Proof.
  induction 1 as [|z l Hs IH Hf]; intros a b x y Hab Hx Hy; [discriminate|].
  destruct b as [|b]; [lia|]. simpl in Hy. destruct a as [|a]; simpl in Hx.
  - inversion Hx; subst. rewrite Forall_lookup in Hf. apply (Hf b), Hy.
  - apply (IH a b); [lia | exact Hx | exact Hy].
Qed.

Lemma StronglySorted_sublist (l1 l2 : list decision.Decision) :
  sublist l1 l2 -> StronglySorted byPriority l2 -> StronglySorted byPriority l1.
Proof.
  induction 1 as [|x l1 l2 Hsub IH|x l1 l2 Hsub IH]; intros Hs.
  - constructor.
  - apply StronglySorted_inv in Hs. destruct Hs as [Hs Hf]. constructor; [auto|].
    rewrite Forall_forall in *. intros y Hy. apply Hf.
    eapply elem_of_sublist; [exact Hy | exact Hsub].
  - apply StronglySorted_inv in Hs. destruct Hs as [Hs _]. auto.
Qed.

Lemma sortDecisionsByPriority_sorted (l : list decision.Decision) :
  StronglySorted byPriority (trader.sortDecisionsByPriority l).
Proof. apply StronglySorted_of_lookup, sortDecisionsByPriority_lookup. Qed.

(** *** The deduplication *)

Lemma combine_snoc {A B} (s : list A) (l : list B) (a : A) (b : B) :
  length s = length l -> combine (s ++ [a]) (l ++ [b]) = combine s l ++ [(a, b)].
Proof.
  revert l. induction s as [|x s IH]; intros [|y l] H; simpl in *;
    try discriminate; [reflexivity|].
  f_equal. apply IH. lia.
Qed.

Lemma indexed_snoc {A} (l : list A) (d : A) :
  trader.indexed (l ++ [d]) = trader.indexed l ++ [(length l, d)].
Proof.
  unfold trader.indexed. rewrite length_app. simpl. rewrite Nat.add_1_r, seq_S.
  simpl. apply combine_snoc. apply length_seq.
Qed.

Lemma In_indexed_from {A} (l : list A) :
  forall (n i : nat) (d : A),
    In (i, d) (combine (seq n (length l)) l)
    <-> exists k, i = (n + k)%nat /\ l !! k = Some d.
Proof.
  induction l as [|a l IH]; intros n i d; simpl.
  - split; [intros [] | intros (k & _ & H); discriminate].
  - rewrite IH. split.
    + intros [H|(k & -> & H)].
      * inversion H; subst. exists 0%nat. split; [lia | reflexivity].
      * exists (S k). split; [lia | exact H].
    + intros (k & -> & H). destruct k as [|k]; simpl in H.
      * left. inversion H; subst. f_equal. lia.
      * right. exists k. split; [lia | exact H].
Qed.

Lemma In_indexed {A} (l : list A) (i : nat) (d : A) :
  In (i, d) (trader.indexed l) <-> l !! i = Some d.
Proof.
  unfold trader.indexed. rewrite In_indexed_from. split.
  - intros (k & -> & H). exact H.
  - intros H. exists i. split; [reflexivity | exact H].
Qed.

Lemma NoDup_indexed {A} (l : list A) : NoDup (trader.indexed l).
Proof.
  unfold trader.indexed. generalize 0%nat.
  induction l as [|a l IH]; intros n; simpl; constructor.
  - intros H. apply list_elem_of_In, In_indexed_from in H.
    destruct H as (k & Hk & _). lia.
  - apply IH.
Qed.

Lemma NoDup_List_filter {A} (f : A -> bool) (l : list A) :
  NoDup l -> NoDup (List.filter f l).
Proof.
  induction 1 as [|x l Hx Hl IH]; simpl; [constructor|].
  destruct (f x); [|exact IH]. constructor; [|exact IH].
  intros H. apply Hx. apply list_elem_of_In in H. apply filter_In in H.
  apply list_elem_of_In, H.
Qed.

Lemma NoDup_List_map {A B} (f : A -> B) (l : list A) :
  (forall x y, In x l -> In y l -> f x = f y -> x = y) ->
  NoDup l -> NoDup (List.map f l).
Proof.
  intros Hinj Hl. induction Hl as [|x l Hx Hl IH]; simpl; [constructor|].
  constructor.
  - intros H. apply list_elem_of_In, in_map_iff in H. destruct H as (y & Hy & Hin).
    apply Hx. rewrite <- (Hinj y x); [apply list_elem_of_In, Hin | right; exact Hin
                                      | left; reflexivity | exact Hy].
  - apply IH. intros a b Ha Hb. apply Hinj; right; assumption.
Qed.

Lemma lastIndexMap_snoc (l : list decision.Decision) (d : decision.Decision) :
  trader.lastIndexMap (l ++ [d])
  = if isUpdate d
    then <[ trader.dedupKey d := length l ]> (trader.lastIndexMap l)
    else trader.lastIndexMap l.
Proof.
  unfold trader.lastIndexMap. rewrite indexed_snoc, fold_left_app. reflexivity.
Qed.

Lemma lastUpdateAt_snoc_update (l : list decision.Decision)
    (d d0 : decision.Decision) (i : nat) :
  isUpdate d = true -> trader.dedupKey d0 = trader.dedupKey d ->
  lastUpdateAt (l ++ [d]) i d0 <-> i = length l /\ d0 = d.
Proof.
  intros Hu Hk. split.
  - intros (H1 & H2 & H3). apply lookup_snoc_Some in H1.
    destruct H1 as [[Hi H1]|[-> ->]]; [|split; reflexivity].
    exfalso. apply (H3 (length l) d Hi); [|exact Hu|congruence].
    apply list_lookup_middle. reflexivity.
  - intros [-> ->]. split; [apply list_lookup_middle; reflexivity|].
    split; [exact Hu|]. intros j d' Hj Hd'. apply lookup_lt_Some in Hd'.
    rewrite length_app in Hd'. simpl in Hd'. lia.
Qed.

Lemma lastUpdateAt_snoc_other (l : list decision.Decision)
    (d d0 : decision.Decision) (i : nat) :
  isUpdate d = false \/ trader.dedupKey d <> trader.dedupKey d0 ->
  lastUpdateAt (l ++ [d]) i d0 <-> lastUpdateAt l i d0.
Proof.
  intros Hd. split.
  - intros (H1 & H2 & H3). apply lookup_snoc_Some in H1.
    destruct H1 as [[Hi H1]|[-> ->]].
    + split; [exact H1|]. split; [exact H2|]. intros j d' Hj Hd'.
      apply (H3 j d' Hj). apply lookup_app_l_Some. exact Hd'.
    + destruct Hd as [Hd|Hd]; congruence.
  - intros (H1 & H2 & H3). split; [apply lookup_app_l_Some; exact H1|].
    split; [exact H2|]. intros j d' Hj Hd' Hu'. apply lookup_snoc_Some in Hd'.
    destruct Hd' as [[_ Hd']|[_ <-]]; [apply (H3 j d' Hj Hd' Hu')|].
    destruct Hd as [Hd|Hd]; congruence.
Qed.

(** The first pass records, for every key, the index of its last update. *)
Lemma lastIndexMap_spec (l : list decision.Decision) :
  forall (k : string) (i : nat),
    trader.lastIndexMap l !! k = Some i
    <-> exists d, lastUpdateAt l i d /\ trader.dedupKey d = k.
Proof.
  induction l as [|x l IH] using rev_ind; intros k i.
  - unfold trader.lastIndexMap. simpl. rewrite lookup_empty.
    split; [discriminate | intros (d & (H & _) & _); discriminate].
  - rewrite lastIndexMap_snoc. destruct (isUpdate x) eqn:Hu.
    + destruct (decide (trader.dedupKey x = k)) as [<-|Hk].
      * rewrite lookup_insert_eq. split.
        -- intros [= <-]. exists x. split; [|reflexivity].
           apply lastUpdateAt_snoc_update; auto.
        -- intros (d & H & Hd). apply lastUpdateAt_snoc_update in H; auto.
           destruct H as [-> _]. reflexivity.
      * rewrite lookup_insert_ne by auto. rewrite IH.
        split; intros (d & H & Hd); exists d; (split; [|exact Hd]);
          apply (lastUpdateAt_snoc_other l x d i); try exact H; right; congruence.
    + rewrite IH.
      split; intros (d & H & Hd); exists d; (split; [|exact Hd]);
        apply (lastUpdateAt_snoc_other l x d i); try exact H; left; exact Hu.
Qed.

Lemma lastIndexMap_is_Some (l : list decision.Decision) (d : decision.Decision) :
  In d l -> isUpdate d = true -> is_Some (trader.lastIndexMap l !! trader.dedupKey d).
Proof.
  induction l as [|x l IH] using rev_ind; intros Hin Hu; [destruct Hin|].
  rewrite lastIndexMap_snoc. apply in_app_or in Hin.
  destruct (isUpdate x) eqn:Hx.
  - destruct (decide (trader.dedupKey x = trader.dedupKey d)) as [E|E].
    + rewrite E, lookup_insert_eq. eauto.
    + rewrite lookup_insert_ne by auto. apply IH; [|exact Hu].
      destruct Hin as [Hin|[->|[]]]; [exact Hin | congruence].
  - apply IH; [|exact Hu]. destruct Hin as [Hin|[->|[]]]; [exact Hin | congruence].
Qed.

(** A decision is kept when it is not an update, or when it is the last
    update of its key. *)
Lemma deduplicateDecisions_In (l : list decision.Decision) (d : decision.Decision) :
  In d (trader.deduplicateDecisions l)
  <-> exists i, l !! i = Some d /\ (isUpdate d = true -> lastUpdateAt l i d).
Proof.
  unfold trader.deduplicateDecisions. destruct (_ <=? _)%nat eqn:E.
  - apply Nat.leb_le in E. split.
    + intros H. apply list_elem_of_In, list_elem_of_lookup in H. destruct H as [i H].
      exists i. split; [exact H|]. intros Hu. split; [exact H|]. split; [exact Hu|].
      intros j d' Hj Hd'. apply lookup_lt_Some in Hd'. lia.
    + intros (i & H & _). apply list_elem_of_In, list_elem_of_lookup. eauto.
  - rewrite in_map_iff. split.
    + intros ([i d'] & Hsnd & Hin). simpl in Hsnd. subst d'.
      apply filter_In in Hin. destruct Hin as [Hin Hk]. apply In_indexed in Hin.
      exists i. split; [exact Hin|]. intros Hu. unfold isUpdate in Hu.
      rewrite Hu in Hk. apply bool_decide_eq_true in Hk.
      apply lastIndexMap_spec in Hk. destruct Hk as (d0 & Hl & Hkey).
      assert (d0 = d) by (destruct Hl as [H1 _]; congruence). subst. exact Hl.
    + intros (i & Hl & Hlast). exists (i, d). split; [reflexivity|].
      apply filter_In. split; [apply In_indexed; exact Hl|].
      destruct (trader.dedupAction _) eqn:Hu; [|reflexivity].
      apply bool_decide_eq_true, lastIndexMap_spec. exists d.
      split; [apply Hlast; exact Hu | reflexivity].
Qed.

Lemma deduplicateDecisions_sublist (l : list decision.Decision) :
  sublist (trader.deduplicateDecisions l) l.
Proof.
  unfold trader.deduplicateDecisions. destruct (_ <=? _)%nat; [reflexivity|].
  unfold trader.indexed. generalize (trader.lastIndexMap l) as m, 0%nat as n.
  intros m. induction l as [|a l IH]; intros n; simpl; [constructor|].
  destruct (trader.dedupAction _); [destruct (bool_decide _)|]; simpl;
    first [apply sublist_skip | apply sublist_cons]; apply IH.
Qed.

(** Decisions other than updates are all kept, in their order. *)
Lemma deduplicateDecisions_others (l : list decision.Decision) :
  List.filter (fun d => negb (isUpdate d)) (trader.deduplicateDecisions l)
  = List.filter (fun d => negb (isUpdate d)) l.
Proof.
  unfold trader.deduplicateDecisions. destruct (_ <=? _)%nat; [reflexivity|].
  unfold trader.indexed. generalize (trader.lastIndexMap l) as m, 0%nat as n.
  intros m. induction l as [|a l IH]; intros n; simpl; [reflexivity|].
  unfold isUpdate at 2. destruct (trader.dedupAction (decision.Action a)) eqn:E.
  - destruct (bool_decide _); simpl; [unfold isUpdate at 1; rewrite E; simpl|]; apply IH.
  - simpl. unfold isUpdate at 1. rewrite E. simpl. f_equal. apply IH.
Qed.

(** At most one update per key is kept. *)
Lemma deduplicateDecisions_NoDup (l : list decision.Decision) :
  NoDup (List.map trader.dedupKey
           (List.filter isUpdate (trader.deduplicateDecisions l))).
Proof.
  unfold trader.deduplicateDecisions. destruct (_ <=? _)%nat eqn:E.
  - destruct l as [|x [|y l]]; simpl in *; [constructor | | discriminate].
    destruct (isUpdate x); simpl; [apply NoDup_singleton | constructor].
  - rewrite filter_map_swap, map_map.
    apply NoDup_List_map; [|apply NoDup_List_filter, NoDup_List_filter, NoDup_indexed].
    intros [i1 d1] [i2 d2] H1 H2 Hk. simpl in Hk.
    apply filter_In in H1, H2. destruct H1 as [H1 U1], H2 as [H2 U2]. simpl in U1, U2.
    apply filter_In in H1, H2. destruct H1 as [H1 K1], H2 as [H2 K2].
    unfold isUpdate in U1, U2. rewrite U1 in K1. rewrite U2 in K2.
    apply bool_decide_eq_true in K1, K2. rewrite Hk in K1.
    assert (i1 = i2) by congruence. subst i2.
    apply In_indexed in H1, H2. congruence.
Qed.

(** *** The two steps together *)

Lemma sortAndDeduplicate_sorted (l : list decision.Decision) :
  StronglySorted byPriority (trader.sortAndDeduplicate l).
Proof.
  eapply StronglySorted_sublist;
    [apply deduplicateDecisions_sublist | apply sortDecisionsByPriority_sorted].
Qed.

(** In the output a decision of smaller priority number stands before one of
    greater priority number: closes before opens, opens before hold and
    wait, those before everything else. *)
Lemma sortAndDeduplicate_order (l : list decision.Decision) (i j : nat)
    (x y : decision.Decision) :
  trader.sortAndDeduplicate l !! i = Some x ->
  trader.sortAndDeduplicate l !! j = Some y ->
  (trader.priority x < trader.priority y)%Z -> (i < j)%nat.
Proof.
  intros Hx Hy Hp. pose proof (sortAndDeduplicate_sorted l) as Hs.
  destruct (lt_eq_lt_dec i j) as [[H|H]|H]; [exact H | | ].
  - subst. assert (x = y) by congruence. subst. lia.
  - pose proof (StronglySorted_lookup_lt _ Hs j i y x H Hy Hx) as Hle.
    unfold byPriority in Hle. lia.
Qed.

Lemma filter_Permutation {A} (f : A -> bool) (l1 l2 : list A) :
  l1 ≡ₚ l2 -> List.filter f l1 ≡ₚ List.filter f l2.
Proof.
  induction 1 as [|x l1 l2 H IH|x y l|l1 l2 l3 H1 IH1 H2 IH2]; simpl.
  - reflexivity.
  - destruct (f x); [apply Permutation_skip|]; exact IH.
  - destruct (f x), (f y); try reflexivity. apply Permutation_swap.
  - etrans; [exact IH1 | exact IH2].
Qed.

(** What the pipeline guarantees for every list of decisions: the output is
    ordered by priority, holds at most one update per key, holds the other
    decisions of the input (all of them), holds input decisions only, and
    keeps an update for every key that had one. *)
Lemma sortAndDeduplicate_spec (l : list decision.Decision) :
  let out := trader.sortAndDeduplicate l in
  StronglySorted byPriority out
  /\ NoDup (List.map trader.dedupKey (List.filter isUpdate out))
  /\ List.filter (fun d => negb (isUpdate d)) out
     ≡ₚ List.filter (fun d => negb (isUpdate d)) l
  /\ (forall d, In d out -> In d l)
  /\ (forall d, In d l -> isUpdate d = true ->
        exists d', In d' out /\ isUpdate d' = true
                   /\ trader.dedupKey d' = trader.dedupKey d).
Proof.
  intros out. subst out. unfold trader.sortAndDeduplicate.
  pose proof (sortDecisionsByPriority_Permutation l) as Hp.
  split; [apply sortAndDeduplicate_sorted|].
  split; [apply deduplicateDecisions_NoDup|].
  split; [rewrite deduplicateDecisions_others; apply filter_Permutation, Hp|].
  split.
  - intros d Hd. apply list_elem_of_In. rewrite <- Hp. apply list_elem_of_In.
    apply list_elem_of_In in Hd.
    apply list_elem_of_In. eapply elem_of_sublist; [exact Hd|].
    apply deduplicateDecisions_sublist.
  - intros d Hd Hu.
    assert (Hs : In d (trader.sortDecisionsByPriority l)).
    { apply list_elem_of_In. rewrite Hp. apply list_elem_of_In, Hd. }
    destruct (lastIndexMap_is_Some _ d Hs Hu) as [i Hi].
    apply lastIndexMap_spec in Hi. destruct Hi as (d' & Hl & Hk).
    exists d'. split; [|split; [apply Hl | exact Hk]].
    apply deduplicateDecisions_In. exists i. split; [apply Hl | intros _; exact Hl].
Qed.

(** *** The order of two updates of one key *)

(** C7.  The pipeline at the failing input: the LLM gives two stop updates
    for BTCUSDT (58500, then 59000) followed by a hold.  The exchange sort
    moves the hold to the front and in doing so swaps the two updates; the
    deduplication then keeps the last update of the sorted list, which is
    the first one of the input.  On the unsorted input the deduplication
    keeps the second update. *)
Theorem C7_pipeline_keeps_the_first_update :
  let u1 := examples_pipeline.firstUpdate in
  let u2 := examples_pipeline.secondUpdate in
  let h := examples_pipeline.hold in
  trader.sortDecisionsByPriority [u1; u2; h] = [h; u2; u1]
  /\ trader.sortAndDeduplicate [u1; u2; h] = [h; u1]
  /\ trader.deduplicateDecisions [u1; u2; h] = [u2; h]
  /\ (decision.StopLoss u1 == 58500)%Q /\ (decision.StopLoss u2 == 59000)%Q.
Proof. vm_compute. repeat split; reflexivity. Qed.

(** ** Profit and loss of a trade row *)


Lemma builtRow_pnl (sym sd : string) (ca : logger.DecisionAction)
    (row : storage.TradeRecord) :
  builtRow sym sd ca row ->
  storage.CloseTime row = Some (logger.Timestamp ca)
  /\ storage.PnL row = priceBasedPnL row
  /\ storage.MarginUsed row = marginOf row
  /\ storage.PnLPct row = pctOfMargin (storage.PnL row) (marginOf row).
Proof.
  intros (oa & n & m & f & fr & r1 & r2 & ->). repeat split.
Qed.

Lemma appendsAtMost_pnl (sym sd : string) (ca : logger.DecisionAction)
    (old new : storage.table) (row : storage.TradeRecord) :
  appendsAtMost sym sd ca old new -> In row new ->
  In row old
  \/ (storage.CloseTime row = Some (logger.Timestamp ca)
      /\ storage.PnL row = priceBasedPnL row
      /\ storage.PnLPct row = pctOfMargin (storage.PnL row) (marginOf row)).
Proof.
  intros [->|[x [-> Hb]]] Hin; [left; exact Hin|].
  apply in_app_or in Hin. destruct Hin as [Hin|[<-|[]]]; [left; exact Hin|].
  right. apply builtRow_pnl in Hb. tauto.
Qed.

Lemma missingTrade_pnl (cfg : trader.AutoTraderConfig) (cycle : Z)
    (agg : trader.aggregatedTrade) (fills : list trader.Fill)
    (ps : option (list trader.Position)) (local : list storage.TradeRecord)
    (row : storage.TradeRecord) :
  trader.missingTrade cfg cycle agg fills ps local = Some row ->
  storage.CloseTime row = Some (trader.lastTime agg)
  /\ storage.CloseOrderID row = trader.orderId agg
  /\ storage.ClosePrice row = trader.weightedPrice agg
  /\ storage.PnL row = trader.totalRealizedPnl agg
  /\ storage.MarginUsed row = marginOf row
  /\ storage.PnLPct row = pctOfMargin (storage.PnL row) (marginOf row).
Proof.
  unfold trader.missingTrade. destruct (Qeqb _ 0); [discriminate|].
  intros H. inversion H. repeat split.
Qed.

Lemma fold_LogTrade_In (rows : list storage.TradeRecord) :
  forall (tbl : storage.table) (row : storage.TradeRecord),
    In row (fold_left (fun t r => snd (storage.LogTrade t r)) rows tbl) ->
    In row tbl \/ In row (List.map storage.fullRow rows).
Proof.
  induction rows as [|x rows IH]; intros tbl row H; simpl in H; [left; exact H|].
  apply IH in H. destruct H as [H|H]; [|right; right; exact H].
  unfold storage.LogTrade in H.
  destruct (insertRow_shape tbl (storage.fullRow x)) as [[_ E]|[_ E]];
    rewrite E in H; simpl in H.
  - left. exact H.
  - apply in_app_or in H. destruct H as [H|[<-|[]]]; [left; exact H | right; left; reflexivity].
Qed.

(** The rows of the reconciler are written as they are. *)
Lemma missingTrades_fullRow (a : trader.AutoTrader) (env : trader.SyncEnv) :
  List.map storage.fullRow (trader.missingTrades a env) = trader.missingTrades a env.
Proof.
  assert (G : forall l : list storage.TradeRecord,
            (forall r, In r l -> storage.NullColumns r = []) ->
            List.map storage.fullRow l = l).
  { induction l as [|x l IH]; intros H; simpl; [reflexivity|].
    rewrite fullRow_id by (apply H; left; reflexivity).
    rewrite IH; [reflexivity|]. intros r Hr. apply H. right. exact Hr. }
  apply G. intros r. unfold trader.missingTrades.
  destruct (trader.syFills env) as [[|f fills]|]; try (intros []).
  intros H. apply list_elem_of_In, list_elem_of_omap in H.
  destruct H as [[oid agg] [_ H]]. unfold trader.missingTrade in H.
  destruct (Qeqb _ 0); [discriminate|]. inversion H. reflexivity.
Qed.

Lemma missingTrades_pnl (a : trader.AutoTrader) (env : trader.SyncEnv)
    (row : storage.TradeRecord) :
  In row (trader.missingTrades a env) ->
  exists agg,
    storage.CloseTime row = Some (trader.lastTime agg)
    /\ storage.CloseOrderID row = trader.orderId agg
    /\ storage.ClosePrice row = trader.weightedPrice agg
    /\ storage.PnL row = trader.totalRealizedPnl agg
    /\ storage.PnLPct row = pctOfMargin (storage.PnL row) (marginOf row).
Proof.
  unfold trader.missingTrades. destruct (trader.syFills env) as [[|f fills]|]; try (intros []).
  intros H. apply list_elem_of_In, list_elem_of_omap in H.
  destruct H as [[oid agg] [_ H]]. apply missingTrade_pnl in H.
  exists agg. tauto.
Qed.

(** C8, counterexample to the claim as stated.  The reconciler on the manual
    close of the specification: the inserted row has a close time, its pnl is
    the 12.34 reported by the exchange, while
    open_quantity * (close_price - open_price) is 3 * (6020/3 - 1950) = 170. *)
Lemma C8_reconciled_pnl_is_the_exchange_figure :
  exists row,
    trader.trades (trader.SyncManualTradesFromExchange examples.fresh examples_sync.env)
      = [row]
    /\ storage.CloseTime row = Some 1700000601000%Z
    /\ storage.Side row = "long"
    /\ (storage.OpenPrice row == 1950)%Q /\ (storage.OpenQuantity row == 3)%Q
    /\ (storage.ClosePrice row == 6020 / 3)%Q
    /\ (storage.PnL row == 12.34)%Q
    /\ (priceBasedPnL row == 170)%Q
    /\ ~ (storage.PnL row == priceBasedPnL row)%Q.
Proof.
  eexists. split; [vm_compute; reflexivity|].
  vm_compute. repeat split; try reflexivity. discriminate.
Qed.

(** C8, amended claim.  Every row written by a close path (the AI close
    through [recordTradeHistory], the force-closes through
    [recordTradeHistoryFromAction]) has its close time set, its pnl equal to
    open_quantity * (close_price - open_price) for a long and to the mirrored
    product otherwise, and its pnl_pct equal to pnl divided by the margin
    open_quantity * open_price / open_leverage, times 100 (0 when that margin
    is not positive).  A row inserted by the exchange-trade reconciler has
    its close time set and the same pnl_pct relation to its pnl, but its pnl
    is the realized profit reported by the exchange for the close order, not
    a figure recomputed from the prices. *)
Theorem C8_pnl_of_closed_rows
    (a : trader.AutoTrader) (renv : trader.RecorderEnv) (sd sym : string)
    (dec : decision.Decision) (ca : logger.DecisionAction) (f : bool) (fr : string)
    (senv : trader.SyncEnv) (row : storage.TradeRecord) :
  (In row (trader.trades (trader.recordTradeHistory a renv sd dec ca f fr)) ->
   In row (trader.trades a)
   \/ (storage.CloseTime row = Some (logger.Timestamp ca)
       /\ storage.PnL row = priceBasedPnL row
       /\ storage.PnLPct row = pctOfMargin (storage.PnL row) (marginOf row)))
  /\ (In row (trader.trades (trader.recordTradeHistoryFromAction a renv sym sd ca f fr)) ->
      In row (trader.trades a)
      \/ (storage.CloseTime row = Some (logger.Timestamp ca)
          /\ storage.PnL row = priceBasedPnL row
          /\ storage.PnLPct row = pctOfMargin (storage.PnL row) (marginOf row)))
  /\ (In row (trader.trades (trader.SyncManualTradesFromExchange a senv)) ->
      In row (trader.trades a)
      \/ exists agg,
           storage.CloseTime row = Some (trader.lastTime agg)
           /\ storage.CloseOrderID row = trader.orderId agg
           /\ storage.ClosePrice row = trader.weightedPrice agg
           /\ storage.PnL row = trader.totalRealizedPnl agg
           /\ storage.PnLPct row = pctOfMargin (storage.PnL row) (marginOf row)).
Proof.
  split; [|split].
  - destruct (recordTradeHistory_shape a renv sd dec ca f fr) as [tbl [-> Hs]].
    simpl. apply (appendsAtMost_pnl _ _ _ _ _ _ Hs).
  - unfold trader.recordTradeHistoryFromAction.
    destruct (recordTradeHistoryFromPosition_shape a renv sd sym ca f fr) as [tbl [-> Hs]].
    simpl. apply (appendsAtMost_pnl _ _ _ _ _ _ Hs).
  - unfold trader.SyncManualTradesFromExchange. simpl. intros H.
    apply fold_LogTrade_In in H. destruct H as [H|H]; [left; exact H|].
    rewrite missingTrades_fullRow in H.
    right. apply missingTrades_pnl in H. exact H.
Qed.

Lemma C8_witness :
  let a' := trader.recordTradeHistory examples.withOpenRow examples.recorderEnv
              "long" examples.closeDecision examples.closeAction false "" in
  exists row,
    nth_error (trader.trades a') 1 = Some row
    /\ (In row (trader.trades examples.withOpenRow)
        \/ (storage.CloseTime row = Some (logger.Timestamp examples.closeAction)
            /\ storage.PnL row = priceBasedPnL row
            /\ storage.PnLPct row = pctOfMargin (storage.PnL row) (marginOf row))).
Proof.
  intros a'.
  destruct (nth_error (trader.trades a') 1) as [row|] eqn:E; [|vm_compute in E; discriminate].
  exists row. split; [reflexivity|].
  exact (proj1 (C8_pnl_of_closed_rows examples.withOpenRow examples.recorderEnv
                  "long" "BTCUSDT" examples.closeDecision examples.closeAction false ""
                  examples_sync.env row) (nth_error_In _ _ E)).
Defined.

(** * Further properties of the code *)

(** ** storage/trade.go *)

Lemma conflicts_false_key (t r : storage.TradeRecord) :
  storage.conflicts t r = false ->
  storage.TradeID r <> storage.TradeID t
  /\ ~ (storage.Symbol r = storage.Symbol t /\ storage.OpenTime r = storage.OpenTime t).
Proof.
  unfold storage.conflicts. intros H. apply orb_false_iff in H. destruct H as [H1 H2].
  split.
  - intros E. apply String.eqb_neq in H1. contradiction.
  - intros [E1 E2].
    assert (storage.sameKey (storage.Symbol t) (storage.OpenTime t) r = true)
      by (apply sameKey_true; unfold tradeKey; congruence).
    congruence.
Qed.

Lemma existsb_false_In {A} (f : A -> bool) (l : list A) (x : A) :
  existsb f l = false -> In x l -> f x = false.
Proof.
  intros H Hin. destruct (f x) eqn:E; [|reflexivity].
  assert (existsb f l = true) by (apply existsb_exists; eauto). congruence.
Qed.

Lemma distance_zero (t : Z) (r : storage.TradeRecord) :
  storage.distance t r = 0%Z <-> storage.OpenTime r = t.
Proof. unfold storage.distance. lia. Qed.

(** The row just inserted is the one a query at its own symbol and open
    time selects. *)
Lemma inserted_row_selected (tbl : storage.table) (row : storage.TradeRecord) :
  existsb (storage.conflicts row) tbl = false ->
  storage.closest (storage.OpenTime row) None
    (List.filter (storage.inWindow (storage.Symbol row) (storage.OpenTime row))
       (tbl ++ [row]))
  = Some row.
Proof.
  intros Hc.
  assert (Hw : In row (List.filter
                         (storage.inWindow (storage.Symbol row) (storage.OpenTime row))
                         (tbl ++ [row]))).
  { apply filter_In. split; [apply in_or_app; right; left; reflexivity|].
    apply inWindow_true. split; [reflexivity|].
    unfold storage.distance, Second. lia. }
  destruct (storage.closest _ None _) as [r|] eqn:Hr.
  - f_equal. apply closest_spec in Hr. destruct Hr as [[H|Hin] [_ Hmin]]; [discriminate|].
    specialize (Hmin row Hw).
    apply filter_In in Hin. destruct Hin as [Hin Hwin]. apply inWindow_true in Hwin.
    destruct Hwin as [Hsym _].
    assert (Ht : storage.OpenTime r = storage.OpenTime row).
    { apply distance_zero. unfold storage.distance in *. lia. }
    apply in_app_or in Hin. destruct Hin as [Hin|[<-|[]]]; [|reflexivity].
    exfalso. pose proof (existsb_false_In _ _ _ Hc Hin) as Hf.
    apply conflicts_false_key in Hf. apply (proj2 Hf). split; [exact Hsym | exact Ht].
  - apply closest_none in Hr. rewrite Hr in Hw. destruct Hw.
Qed.

(** X1.  Insert and look-up: [CreateTrade] inserts the open-side columns of
    the record, [close_time] NULL, and leaves eight TEXT columns NULL;
    [GetOpenTradeByTime] at the record's symbol and open time then selects
    that row but cannot scan it and answers with an error and no record.
    The round trip works for a record written by [LogTrade], which sets every
    column: the query returns that record. *)
Theorem X1_CreateTrade_then_GetOpenTradeByTime
    (tbl tbl' : storage.table) (t : storage.TradeRecord) :
  storage.CreateTrade tbl t = (None, tbl') ->
  tbl' = tbl ++ [storage.openSideRow t]
  /\ storage.NullColumns (storage.openSideRow t) = storage.unsetColumns
  /\ fst (storage.GetOpenTradeByTime tbl' (storage.Symbol t) (storage.OpenTime t)) = None
  /\ snd (storage.GetOpenTradeByTime tbl' (storage.Symbol t) (storage.OpenTime t)) <> None
  /\ storage.CloseTime (storage.openSideRow t) = None
  /\ storage.OpenPrice (storage.openSideRow t) = storage.OpenPrice t
  /\ storage.OpenQuantity (storage.openSideRow t) = storage.OpenQuantity t
  /\ storage.Side (storage.openSideRow t) = storage.Side t
  /\ (forall logged,
        storage.LogTrade tbl t = (None, logged) ->
        logged = tbl ++ [storage.fullRow t]
        /\ storage.GetOpenTradeByTime logged (storage.Symbol t) (storage.OpenTime t)
           = (Some (storage.fullRow t), None)).
Proof.
  unfold storage.CreateTrade, storage.LogTrade, storage.insertRow.
  set (row := storage.openSideRow t).
  destruct (existsb (storage.conflicts row) tbl) eqn:Hc; [discriminate|].
  intros H. inversion H. subst tbl'. clear H.
  assert (Hq : storage.GetOpenTradeByTime (tbl ++ [row]) (storage.Symbol t)
                 (storage.OpenTime t) = (None, Some "scan failed")).
  { unfold storage.GetOpenTradeByTime.
    change (storage.Symbol t) with (storage.Symbol row).
    change (storage.OpenTime t) with (storage.OpenTime row).
    rewrite (inserted_row_selected tbl row Hc). reflexivity. }
  rewrite Hq. repeat split; try discriminate.
  - destruct (existsb (storage.conflicts (storage.fullRow t)) tbl); [discriminate|].
    inversion H. reflexivity.
  - destruct (existsb (storage.conflicts (storage.fullRow t)) tbl) eqn:Hf; [discriminate|].
    inversion H. unfold storage.GetOpenTradeByTime.
    change (storage.Symbol t) with (storage.Symbol (storage.fullRow t)).
    change (storage.OpenTime t) with (storage.OpenTime (storage.fullRow t)).
    rewrite (inserted_row_selected tbl (storage.fullRow t) Hf). reflexivity.
Qed.

Lemma X1_witness :
  fst (storage.GetOpenTradeByTime (snd (storage.CreateTrade [] examples.openRow))
         "BTCUSDT" 1000000) = None
  /\ storage.GetOpenTradeByTime (snd (storage.LogTrade [] examples.openRow))
       "BTCUSDT" 1000000 = (Some examples.openRow, None).
Proof.
  destruct (X1_CreateTrade_then_GetOpenTradeByTime [] _ examples.openRow eq_refl)
    as (_ & _ & Hf & _ & _ & _ & _ & _ & Hl).
  split; [exact Hf|]. exact (proj2 (Hl _ eq_refl)).
Defined.

Lemma map_id_on {A} (f : A -> A) (l : list A) :
  (forall x, In x l -> f x = x) -> List.map f l = l.
Proof.
  induction l as [|x l IH]; intros H; simpl; [reflexivity|].
  rewrite H by (left; reflexivity). f_equal. apply IH. intros y Hy. apply H. right. exact Hy.
Qed.

Lemma UpdateTrade_missing (tbl : storage.table) (trade : storage.TradeRecord) :
  (forall r, In r tbl -> tradeKey r <> (storage.Symbol trade, storage.OpenTime trade)) ->
  storage.UpdateTrade tbl trade = (None, tbl).
Proof.
  intros H. unfold storage.UpdateTrade. destruct (negb _); [reflexivity|].
  f_equal. apply map_id_on. intros r Hr.
  destruct (storage.sameKey _ _ r) eqn:E; [|reflexivity].
  apply sameKey_true in E. exfalso. apply (H r Hr E).
Qed.

(** X2.  The life of a row in the store: a record inserted by [CreateTrade]
    and then closed by [UpdateTrade] under the same symbol and open time is
    still one row, at the place it was inserted.  It carries the open-side
    columns of the created record and the close-side columns of the update,
    and of [close_logic] and [forced_close_logic] only the one that matches
    [is_forced] is written; no other row is touched. *)
Theorem X2_CreateTrade_then_UpdateTrade_closes_the_row
    (tbl tbl1 tbl2 : storage.table) (t c : storage.TradeRecord) (ct : Z) (err : error) :
  storage.CreateTrade tbl t = (None, tbl1) ->
  storage.Symbol c = storage.Symbol t ->
  storage.OpenTime c = storage.OpenTime t ->
  storage.CloseTime c = Some ct ->
  storage.UpdateTrade tbl1 c = (err, tbl2) ->
  exists row,
    err = None /\ tbl2 = tbl ++ [row]
    /\ storage.TradeID row = storage.TradeID t
    /\ storage.Side row = storage.Side t
    /\ storage.OpenPrice row = storage.OpenPrice t
    /\ storage.OpenQuantity row = storage.OpenQuantity t
    /\ storage.OpenLeverage row = storage.OpenLeverage t
    /\ storage.EntryLogic row = storage.EntryLogic t
    /\ storage.CloseTime row = Some ct
    /\ storage.ClosePrice row = storage.ClosePrice c
    /\ storage.CloseQuantity row = storage.CloseQuantity c
    /\ storage.PnL row = storage.PnL c
    /\ storage.PnLPct row = storage.PnLPct c
    /\ storage.IsForced row = storage.IsForced c
    /\ storage.CloseLogic row
       = (if storage.IsForced c then "" else storage.CloseLogic c)
    /\ storage.ForcedCloseLogic row
       = (if storage.IsForced c then storage.ForcedCloseLogic c else "").
Proof.
  intros Hcreate Hs Ht Hc Hupd.
  unfold storage.CreateTrade, storage.insertRow in Hcreate.
  destruct (existsb _ tbl) eqn:Hconf; [discriminate|].
  inversion Hcreate. subst tbl1. clear Hcreate.
  unfold storage.UpdateTrade, storage.hasUpdates in Hupd. rewrite Hc in Hupd.
  rewrite !orb_true_r in Hupd. simpl in Hupd. inversion Hupd. subst err tbl2. clear Hupd.
  exists (storage.applyUpdate c (storage.openSideRow t)).
  split; [reflexivity|]. split.
  - rewrite map_app. f_equal.
    + apply map_id_on. intros r Hr.
      destruct (storage.sameKey _ _ r) eqn:E; [|reflexivity]. exfalso.
      pose proof (existsb_false_In _ _ _ Hconf Hr) as Hf.
      apply conflicts_false_key in Hf. apply sameKey_true in E.
      unfold tradeKey in E. inversion E. apply (proj2 Hf). simpl. split; congruence.
    + simpl. replace (storage.sameKey _ _ _) with true; [reflexivity|].
      symmetry. apply sameKey_true. unfold tradeKey. simpl. congruence.
  - unfold storage.applyUpdate. rewrite Hc. simpl. unfold storage.pick, strNonEmpty.
    repeat split.
    + destruct (storage.IsForced c); simpl; [reflexivity|].
      destruct (String.eqb (storage.CloseLogic c) "") eqn:E; simpl; [|reflexivity].
      apply String.eqb_eq in E. congruence.
    + destruct (storage.IsForced c); simpl; [|reflexivity].
      destruct (String.eqb (storage.ForcedCloseLogic c) "") eqn:E; simpl; [|reflexivity].
      apply String.eqb_eq in E. congruence.
Qed.

Lemma X2_witness :
  exists row,
    snd (storage.UpdateTrade (snd (storage.CreateTrade [] examples.openRow))
           examples_store.closeUpdate) = [row]
    /\ storage.OpenPrice row = 60000%Q
    /\ storage.CloseTime row = Some 2000000%Z
    /\ storage.CloseLogic row = "target reached"
    /\ storage.ForcedCloseLogic row = "".
Proof.
  destruct (X2_CreateTrade_then_UpdateTrade_closes_the_row [] _ _ examples.openRow
              examples_store.closeUpdate 2000000 None eq_refl eq_refl eq_refl eq_refl eq_refl)
    as (row & _ & Htbl & _ & _ & Hp & _ & _ & _ & Hc & _ & _ & _ & _ & _ & Hl & Hf).
  exists row. split; [exact Htbl|]. split; [exact Hp|]. split; [exact Hc|].
  split; [exact Hl | exact Hf].
Defined.

Lemma applyUpdate_closed (trade r : storage.TradeRecord) :
  storage.isClosed r = true -> storage.isClosed (storage.applyUpdate trade r) = true.
Proof.
  unfold storage.isClosed, storage.applyUpdate. simpl.
  destruct (storage.CloseTime trade); [reflexivity|]. auto.
Qed.

(** X3.  What [UpdateTrade] never does: it returns no error, adds or removes
    no row, and changes neither the key, the open-side columns nor the stored
    entry and exit logic of any row; a row under another (symbol, open_time)
    is left as it is, and a closed row stays closed.  An update whose key
    matches no row, or which carries no update logic and no close time,
    changes nothing -- without an error. *)
Theorem X3_UpdateTrade_frame (tbl : storage.table) (trade : storage.TradeRecord) :
  let tbl' := snd (storage.UpdateTrade tbl trade) in
  fst (storage.UpdateTrade tbl trade) = None
  /\ length tbl' = length tbl
  /\ (forall i r, nth_error tbl i = Some r ->
        exists r', nth_error tbl' i = Some r'
          /\ storage.TradeID r' = storage.TradeID r
          /\ tradeKey r' = tradeKey r
          /\ storage.Side r' = storage.Side r
          /\ storage.OpenPrice r' = storage.OpenPrice r
          /\ storage.OpenQuantity r' = storage.OpenQuantity r
          /\ storage.OpenLeverage r' = storage.OpenLeverage r
          /\ storage.PositionValue r' = storage.PositionValue r
          /\ storage.MarginUsed r' = storage.MarginUsed r
          /\ storage.EntryLogic r' = storage.EntryLogic r
          /\ storage.ExitLogic r' = storage.ExitLogic r
          /\ (tradeKey r <> (storage.Symbol trade, storage.OpenTime trade) -> r' = r)
          /\ (storage.isClosed r = true -> storage.isClosed r' = true))
  /\ ((forall r, In r tbl ->
         tradeKey r <> (storage.Symbol trade, storage.OpenTime trade)) -> tbl' = tbl)
  /\ (storage.UpdateSLLogic trade = "" -> storage.UpdateTPLogic trade = "" ->
      storage.CloseTime trade = None -> tbl' = tbl).
Proof.
  intros tbl'. subst tbl'. split; [|split; [|split; [|split]]].
  - unfold storage.UpdateTrade. destruct (negb _); reflexivity.
  - unfold storage.UpdateTrade. destruct (negb _); simpl; [reflexivity|]. apply length_map.
  - intros i r Hi. unfold storage.UpdateTrade. destruct (negb _); simpl.
    + exists r. repeat split; auto.
    + rewrite nth_error_map, Hi. simpl.
      destruct (storage.sameKey _ _ r) eqn:E.
      * eexists. split; [reflexivity|]. repeat split.
        -- intros H. apply sameKey_true in E. contradiction.
        -- apply applyUpdate_closed.
      * exists r. repeat split; auto.
  - intros H. rewrite UpdateTrade_missing by exact H. reflexivity.
  - intros H1 H2 H3. unfold storage.UpdateTrade, storage.hasUpdates.
    rewrite H1, H2, H3. reflexivity.
Qed.

Lemma existsb_sameKey_keys (tbl : storage.table) (sym : string) (t : Z) :
  existsb (storage.sameKey sym t) tbl = true <-> In (sym, t) (List.map tradeKey tbl).
Proof.
  rewrite existsb_exists, in_map_iff. split; intros (r & H1 & H2).
  - exists r. split; [apply sameKey_true; exact H2 | exact H1].
  - exists r. split; [exact H2 | apply sameKey_true; exact H1].
Qed.

Lemma existsb_sameKey_same_keys (tbl1 tbl2 : storage.table) (sym : string) (t : Z) :
  List.map tradeKey tbl1 = List.map tradeKey tbl2 ->
  existsb (storage.sameKey sym t) tbl1 = existsb (storage.sameKey sym t) tbl2.
Proof.
  intros H. apply eq_true_iff_eq. rewrite !existsb_sameKey_keys, H. reflexivity.
Qed.

(** X4.  [CreateOrUpdateTrade] keeps one row per (symbol, open_time): when
    the key is present it updates (no error, the same keys in the same
    order), when the call succeeds the key is present afterwards, a second
    call with the same record adds no row, and keys that were unique stay
    unique. *)
Theorem X4_CreateOrUpdateTrade_one_row_per_key
    (tbl : storage.table) (t : storage.TradeRecord) :
  let k := (storage.Symbol t, storage.OpenTime t) in
  let r1 := storage.CreateOrUpdateTrade tbl t in
  let r2 := storage.CreateOrUpdateTrade (snd r1) t in
  (In k (List.map tradeKey tbl) ->
     fst r1 = None /\ List.map tradeKey (snd r1) = List.map tradeKey tbl)
  /\ (fst r1 = None -> In k (List.map tradeKey (snd r1)))
  /\ List.map tradeKey (snd r2) = List.map tradeKey (snd r1)
  /\ length (snd r2) = length (snd r1)
  /\ (uniqueKeys tbl -> uniqueKeys (snd r1) /\ uniqueKeys (snd r2)).
Proof.
  intros k r1 r2.
  assert (Hkeys : List.map tradeKey (snd r2) = List.map tradeKey (snd r1)).
  { subst r2 r1. destruct (existsb (storage.sameKey (storage.Symbol t) (storage.OpenTime t)) tbl)
      eqn:E1.
    - assert (H1 : storage.CreateOrUpdateTrade tbl t = storage.UpdateTrade tbl t)
        by (unfold storage.CreateOrUpdateTrade; rewrite E1; reflexivity).
      rewrite H1. unfold storage.CreateOrUpdateTrade.
      rewrite (existsb_sameKey_same_keys _ tbl) by apply UpdateTrade_keys.
      rewrite E1. apply UpdateTrade_keys.
    - assert (H1 : storage.CreateOrUpdateTrade tbl t = storage.CreateTrade tbl t)
        by (unfold storage.CreateOrUpdateTrade; rewrite E1; reflexivity).
      rewrite H1.
      destruct (existsb (storage.conflicts (storage.openSideRow t)) tbl) eqn:E2.
      + assert (H2 : storage.CreateTrade tbl t = (Some "constraint failed", tbl))
          by (unfold storage.CreateTrade, storage.insertRow; rewrite E2; reflexivity).
        rewrite H2. simpl. rewrite H1, H2. reflexivity.
      + assert (H2 : storage.CreateTrade tbl t = (None, tbl ++ [storage.openSideRow t]))
          by (unfold storage.CreateTrade, storage.insertRow; rewrite E2; reflexivity).
        rewrite H2. simpl. unfold storage.CreateOrUpdateTrade.
        replace (existsb _ (tbl ++ [storage.openSideRow t])) with true.
        * apply UpdateTrade_keys.
        * symmetry. apply existsb_sameKey_keys. rewrite map_app. apply in_or_app.
          right. left. reflexivity. }
  split; [|split; [|split; [exact Hkeys|split]]].
  - intros Hin. subst r1. unfold storage.CreateOrUpdateTrade.
    apply existsb_sameKey_keys in Hin. rewrite Hin.
    split; [|apply UpdateTrade_keys].
    unfold storage.UpdateTrade. destruct (negb _); reflexivity.
  - subst r1. unfold storage.CreateOrUpdateTrade.
    destruct (existsb _ tbl) eqn:E1.
    + intros _. rewrite UpdateTrade_keys. apply existsb_sameKey_keys. exact E1.
    + unfold storage.CreateTrade, storage.insertRow.
      destruct (existsb (storage.conflicts _) tbl); simpl; [discriminate|].
      intros _. rewrite map_app. apply in_or_app. right. left. reflexivity.
  - rewrite <- (length_map tradeKey (snd r2)), <- (length_map tradeKey (snd r1)).
    rewrite Hkeys. reflexivity.
  - intros Hu. assert (H1 : uniqueKeys (snd r1)) by (apply CreateOrUpdateTrade_unique, Hu).
    split; [exact H1|]. apply CreateOrUpdateTrade_unique, H1.
Qed.

(** *** Sorting lemmas for [GetLatestTrades] *)

Section sorted.
Context {A : Type} (R : A -> A -> Prop).

Lemma StronglySorted_app_inv (l1 l2 : list A) :
  StronglySorted R (l1 ++ l2) ->
  StronglySorted R l1 /\ StronglySorted R l2
  /\ (forall x y, In x l1 -> In y l2 -> R x y).
Proof.
  induction l1 as [|a l1 IH]; simpl; intros H.
  - split; [constructor|]. split; [exact H|]. intros x y [].
  - apply StronglySorted_inv in H. destruct H as [Hs Hf].
    destruct (IH Hs) as (H1 & H2 & H3). rewrite Forall_forall in Hf.
    split; [|split; [exact H2|]].
    + constructor; [exact H1|]. apply Forall_forall. intros y Hy. apply Hf.
      apply list_elem_of_In, in_or_app. left. apply list_elem_of_In, Hy.
    + intros x y [<-|Hx] Hy.
      * apply Hf. apply list_elem_of_In, in_or_app. right. exact Hy.
      * apply H3; assumption.
Qed.

Lemma StronglySorted_snoc (l : list A) (a : A) :
  StronglySorted R l -> (forall x, In x l -> R x a) -> StronglySorted R (l ++ [a]).
Proof.
  induction 1 as [|b l Hs IH Hf]; intros Ha; simpl.
  - constructor; constructor.
  - constructor.
    + apply IH. intros x Hx. apply Ha. right. exact Hx.
    + rewrite Forall_forall in *. intros y Hy. apply list_elem_of_In, in_app_or in Hy.
      destruct Hy as [Hy|[<-|[]]].
      * apply Hf, list_elem_of_In, Hy.
      * apply Ha. left. reflexivity.
Qed.

End sorted.

Lemma StronglySorted_rev {A} (R : A -> A -> Prop) (l : list A) :
  StronglySorted R l -> StronglySorted (fun x y => R y x) (rev l).
Proof.
  induction 1 as [|a l Hs IH Hf]; simpl; [constructor|].
  apply StronglySorted_snoc; [exact IH|].
  intros x Hx. apply in_rev in Hx. rewrite Forall_forall in Hf.
  apply Hf, list_elem_of_In, Hx.
Qed.

Lemma insertDesc_Permutation (r : storage.TradeRecord) (l : list storage.TradeRecord) :
  storage.insertDesc r l ≡ₚ r :: l.
Proof.
  induction l as [|x l IH]; simpl; [reflexivity|].
  destruct (_ <? _)%Z; [reflexivity|].
  rewrite IH. apply Permutation_swap.
Qed.

Lemma insertDesc_sorted (r : storage.TradeRecord) (l : list storage.TradeRecord) :
  StronglySorted newestFirst l -> StronglySorted newestFirst (storage.insertDesc r l).
Proof.
  induction 1 as [|x l Hs IH Hf]; simpl; [repeat constructor|].
  destruct (_ <? _)%Z eqn:E.
  - apply Z.ltb_lt in E. constructor; [constructor; assumption|].
    constructor; [unfold newestFirst; lia|].
    rewrite Forall_forall in *. intros y Hy. specialize (Hf y Hy).
    unfold newestFirst in *. lia.
  - apply Z.ltb_ge in E. constructor; [exact IH|].
    rewrite Forall_forall in *. intros y Hy.
    apply list_elem_of_In in Hy.
    apply (Permutation_in _ (insertDesc_Permutation r l)) in Hy.
    destruct Hy as [<-|Hy]; [exact E | apply Hf, list_elem_of_In, Hy].
Qed.

Lemma sortDesc_spec (l : list storage.TradeRecord) :
  fold_right storage.insertDesc [] l ≡ₚ l
  /\ StronglySorted newestFirst (fold_right storage.insertDesc [] l).
Proof.
  induction l as [|x l [IHp IHs]]; simpl; [split; [reflexivity | constructor]|].
  split; [rewrite insertDesc_Permutation, IHp; reflexivity | apply insertDesc_sorted, IHs].
Qed.

Lemma scanTrades_filter (rows : list storage.TradeRecord) :
  storage.scanTrades rows = List.filter readable rows.
Proof.
  unfold storage.scanTrades. induction rows as [|x rows IH]; [reflexivity|].
  change (omap storage.scanTrade (x :: rows))
    with (match storage.scanTrade x with
          | Some y => y :: omap storage.scanTrade rows
          | None => omap storage.scanTrade rows
          end).
  rewrite IH. simpl. unfold storage.scanTrade, readable.
  destruct (storage.NullColumns x); reflexivity.
Qed.

Lemma filter_sorted {A} (R : A -> A -> Prop) (f : A -> bool) (l : list A) :
  StronglySorted R l -> StronglySorted R (List.filter f l).
Proof.
  induction 1 as [|a l Hs IH Hf]; simpl; [constructor|].
  destruct (f a); [|exact IH]. constructor; [exact IH|].
  rewrite Forall_forall in *. intros y Hy. apply Hf.
  apply list_elem_of_In. apply list_elem_of_In in Hy. apply filter_In in Hy. apply Hy.
Qed.

Lemma filter_length_le {A} (f : A -> bool) (l : list A) :
  (length (List.filter f l) <= length l)%nat.
Proof.
  induction l as [|x l IH]; simpl; [lia|]. destruct (f x); simpl; lia.
Qed.

Lemma filter_filter_and {A} (f g : A -> bool) (l : list A) :
  List.filter f (List.filter g l) = List.filter (fun x => g x && f x) l.
Proof.
  induction l as [|x l IH]; simpl; [reflexivity|].
  destruct (g x); simpl; [destruct (f x); rewrite IH; reflexivity | exact IH].
Qed.

(** X5.  [GetLatestTrades n] selects the [n] latest closed rows and returns
    those of them it can scan, oldest close first: at most [n] rows, each a
    closed row of the table none of whose TEXT columns is NULL; a closed row
    without NULL that closed after a returned row is returned too.  A
    selected row with a NULL column is counted by the limit and then
    skipped: when the table has no more than [n] closed rows, the rows
    returned are the closed rows without NULL, and a row created by
    [CreateTrade] and closed by one [UpdateTrade] is never returned (of
    [close_logic] and [forced_close_logic] the update writes one at most,
    the other stays NULL). *)
Theorem X5_GetLatestTrades_latest_closed_rows (tbl : storage.table) (n : nat) :
  let l := storage.GetLatestTrades tbl n in
  (length l <= n)%nat
  /\ (forall r, In r l ->
        In r tbl /\ storage.isClosed r = true /\ storage.NullColumns r = [])
  /\ StronglySorted (fun x y => newestFirst y x) l
  /\ (forall r x, In r tbl -> storage.isClosed r = true -> storage.NullColumns r = [] ->
        In x l -> (storage.closeTimeOf x < storage.closeTimeOf r)%Z -> In r l)
  /\ ((length (List.filter storage.isClosed tbl) <= n)%nat ->
      l ≡ₚ List.filter (fun r => storage.isClosed r && readable r) tbl)
  /\ (forall t c ct created closed,
        storage.CreateTrade [] t = (None, created) ->
        storage.Symbol c = storage.Symbol t -> storage.OpenTime c = storage.OpenTime t ->
        storage.CloseTime c = Some ct ->
        storage.UpdateTrade created c = (None, closed) ->
        length (List.filter storage.isClosed closed) = 1%nat
        /\ storage.GetLatestTrades closed n = []).
Proof.
  intros l. subst l. unfold storage.GetLatestTrades. rewrite scanTrades_filter.
  set (closed := List.filter storage.isClosed tbl).
  destruct (sortDesc_spec closed) as [Hp Hs].
  set (S := fold_right storage.insertDesc [] closed) in *.
  assert (Hread : forall r, readable r = true <-> storage.NullColumns r = []).
  { intros r. unfold readable. destruct (storage.NullColumns r); split; congruence. }
  split.
  { rewrite length_rev. etrans; [apply filter_length_le | apply firstn_le_length]. }
  split; [|split; [|split; [|split]]].
  - intros r Hr. apply in_rev in Hr. apply filter_In in Hr. destruct Hr as [Hr Hrd].
    assert (HrS : In r S)
      by (rewrite <- (firstn_skipn n S); apply in_or_app; left; exact Hr).
    apply (Permutation_in _ Hp) in HrS. apply filter_In in HrS.
    destruct HrS as [H1 H2]. split; [exact H1|]. split; [exact H2 | apply Hread, Hrd].
  - apply (StronglySorted_rev newestFirst). apply filter_sorted.
    rewrite <- (firstn_skipn n S) in Hs. apply StronglySorted_app_inv in Hs. apply Hs.
  - intros r x Hr Hc Hnull Hx Hlt. apply in_rev in Hx. apply -> in_rev.
    apply filter_In in Hx. destruct Hx as [Hx _].
    apply filter_In. split; [|apply Hread, Hnull].
    assert (HrS : In r S).
    { apply (Permutation_in _ (Permutation_sym Hp)). apply filter_In. auto. }
    rewrite <- (firstn_skipn n S) in HrS, Hs. apply in_app_or in HrS.
    destruct HrS as [H|H]; [exact H|]. exfalso.
    apply StronglySorted_app_inv in Hs. destruct Hs as (_ & _ & Hcross).
    specialize (Hcross x r Hx H). unfold newestFirst in Hcross. lia.
  - intros Hlen. rewrite firstn_all2 by (rewrite (Permutation_length Hp); exact Hlen).
    etrans; [symmetry; apply Permutation_rev|].
    etrans; [apply filter_Permutation; exact Hp|].
    subst closed. rewrite filter_filter_and. reflexivity.
  - intros t c ct created closed' Hcreate Hsym Htime Hct Hupd.
    unfold storage.CreateTrade, storage.insertRow in Hcreate. simpl in Hcreate.
    inversion Hcreate. subst created. clear Hcreate.
    unfold storage.UpdateTrade, storage.hasUpdates in Hupd. rewrite Hct in Hupd.
    rewrite !orb_true_r in Hupd. simpl in Hupd.
    replace (storage.sameKey (storage.Symbol c) (storage.OpenTime c)
               (storage.openSideRow t)) with true in Hupd
      by (symmetry; apply sameKey_true; unfold tradeKey; simpl; congruence).
    inversion Hupd. subst closed'. clear Hupd.
    assert (Hcl : storage.isClosed (storage.applyUpdate c (storage.openSideRow t)) = true).
    { unfold storage.isClosed, storage.applyUpdate. simpl. rewrite Hct. reflexivity. }
    assert (Hnr : readable (storage.applyUpdate c (storage.openSideRow t)) = false).
    { unfold readable, storage.applyUpdate. simpl. rewrite Hct. simpl.
      destruct (storage.IsForced c), (strNonEmpty (storage.UpdateSLLogic c)),
        (strNonEmpty (storage.UpdateTPLogic c)), (strNonEmpty (storage.CloseLogic c)),
        (strNonEmpty (storage.ForcedCloseLogic c)); reflexivity. }
    set (R := storage.applyUpdate c (storage.openSideRow t)) in *.
    change (List.filter storage.isClosed [R]) with (if storage.isClosed R then [R] else []).
    rewrite Hcl. split; [reflexivity|].
    change (fold_right storage.insertDesc [] [R]) with [R].
    destruct n as [|n]; [reflexivity|].
    change (firstn (Datatypes.S n) [R]) with (R :: firstn n []). rewrite firstn_nil.
    rewrite scanTrades_filter.
    change (List.filter readable [R]) with (if readable R then [R] else []).
    rewrite Hnr. reflexivity.
Qed.

Lemma latest_spec (rows : list storage.TradeRecord) :
  forall best r,
    storage.latest best rows = Some r ->
    (best = Some r \/ In r rows)
    /\ (forall b, best = Some b -> (storage.OpenTime b <= storage.OpenTime r)%Z)
    /\ (forall x, In x rows -> (storage.OpenTime x <= storage.OpenTime r)%Z).
Proof.
  induction rows as [|x rows IH]; intros best r H; simpl in H.
  - split; [left; exact H|]. split; [|intros x []].
    intros b Hb. rewrite Hb in H. inversion H. lia.
  - destruct best as [b|].
    + destruct (_ <? _)%Z eqn:E; apply IH in H; destruct H as (H1 & H2 & H3).
      * apply Z.ltb_lt in E. specialize (H2 x eq_refl).
        split; [right; destruct H1 as [H1|H1]; [left; congruence | right; exact H1]|].
        split; [intros b' Hb'; inversion Hb'; subst; lia|].
        intros y [<-|Hy]; [lia | apply H3, Hy].
      * apply Z.ltb_ge in E. specialize (H2 b eq_refl).
        split; [destruct H1 as [H1|H1]; [left; exact H1 | right; right; exact H1]|].
        split; [intros b' Hb'; inversion Hb'; subst; lia|].
        intros y [<-|Hy]; [lia | apply H3, Hy].
    + apply IH in H. destruct H as (H1 & H2 & H3). specialize (H2 x eq_refl).
      split; [right; destruct H1 as [H1|H1]; [left; congruence | right; exact H1]|].
      split; [discriminate|]. intros y [<-|Hy]; [lia | apply H3, Hy].
Qed.

Lemma latest_none (rows : list storage.TradeRecord) :
  forall best, storage.latest best rows = None -> best = None /\ rows = [].
Proof.
  induction rows as [|x rows IH]; intros best H; simpl in H; [auto|].
  destruct best as [b|]; [destruct (_ <? _)%Z|]; apply IH in H; destruct H; discriminate.
Qed.

Lemma isOpenOf_true (sym sd : string) (r : storage.TradeRecord) :
  storage.isOpenOf sym sd r = true
  <-> storage.Symbol r = sym /\ storage.Side r = sd /\ storage.CloseTime r = None.
Proof.
  unfold storage.isOpenOf, storage.isClosed.
  rewrite !andb_true_iff, !String.eqb_eq. destruct (storage.CloseTime r); simpl.
  - split; [intros [_ H]; discriminate | intros (_ & _ & H); discriminate].
  - tauto.
Qed.

(** X6.  [GetOpenTrade] selects the open row of the symbol and side whose
    open time is the latest: a row whose close time is NULL.  It returns that
    row when none of its TEXT columns is NULL and an error otherwise; it
    answers [nil, nil] exactly when the table holds no open row of that
    symbol and side.  A row closed by [UpdateTrade] is no longer returned,
    and a row just created by [CreateTrade] in an empty table makes the
    query fail. *)
Theorem X6_GetOpenTrade_latest_open_row (tbl : storage.table) (sym sd : string) :
  let selected r :=
    In r tbl /\ storage.Symbol r = sym /\ storage.Side r = sd
    /\ storage.CloseTime r = None
    /\ forall r', In r' tbl -> storage.Symbol r' = sym -> storage.Side r' = sd ->
                  storage.CloseTime r' = None ->
                  (storage.OpenTime r' <= storage.OpenTime r)%Z in
  (forall r e, storage.GetOpenTrade tbl sym sd = (Some r, e) ->
     e = None /\ selected r /\ storage.NullColumns r = [])
  /\ (storage.GetOpenTrade tbl sym sd = (None, None) <->
      forall r', In r' tbl -> storage.Symbol r' = sym -> storage.Side r' = sd ->
                 storage.CloseTime r' <> None)
  /\ (forall msg, storage.GetOpenTrade tbl sym sd = (None, Some msg) ->
      exists row, selected row /\ storage.NullColumns row <> [])
  /\ (forall c ct r e,
        storage.CloseTime c = Some ct ->
        storage.GetOpenTrade (snd (storage.UpdateTrade tbl c)) sym sd = (Some r, e) ->
        tradeKey r <> (storage.Symbol c, storage.OpenTime c))
  /\ (forall t,
        fst (storage.GetOpenTrade (snd (storage.CreateTrade [] t))
               (storage.Symbol t) (storage.Side t)) = None
        /\ snd (storage.GetOpenTrade (snd (storage.CreateTrade [] t))
                  (storage.Symbol t) (storage.Side t)) <> None).
Proof.
  intros selected.
  assert (Hsel : forall r,
            storage.latest None (List.filter (storage.isOpenOf sym sd) tbl) = Some r ->
            selected r).
  { intros r H. apply latest_spec in H. destruct H as ([H|H] & _ & Hmax); [discriminate|].
    apply filter_In in H. destruct H as [Hin Ho]. apply isOpenOf_true in Ho.
    destruct Ho as (Hs & Hd & Hc). unfold selected. repeat split; auto.
    intros r' Hin' Hs' Hd' Hc'. apply Hmax. apply filter_In. split; [exact Hin'|].
    apply isOpenOf_true. auto. }
  unfold storage.GetOpenTrade. split; [|split; [|split; [|split]]].
  - intros r e H. apply scanOne_found in H. destruct H as (He & Hl & Hn).
    split; [exact He|]. split; [apply Hsel; exact Hl | exact Hn].
  - split.
    + intros H r' Hin Hs Hd Hc. apply scanOne_nothing in H.
      apply latest_none in H. destruct H as [_ H].
      assert (Hf : In r' (List.filter (storage.isOpenOf sym sd) tbl)).
      { apply filter_In. split; [exact Hin|]. apply isOpenOf_true. auto. }
      rewrite H in Hf. exact Hf.
    + intros H. destruct (storage.latest None _) as [r|] eqn:E; [|reflexivity].
      exfalso. destruct (Hsel r eq_refl) as (Hin & Hs & Hd & Hc & _).
      apply (H r Hin Hs Hd Hc).
  - intros msg H. apply scanOne_failed in H. destruct H as (row & Hl & Hn).
    exists row. split; [apply Hsel; exact Hl | exact Hn].
  - intros c ct r e Hc H Hk. apply scanOne_found in H. destruct H as (_ & H & _).
    apply latest_spec in H. destruct H as ([H|H] & _); [discriminate|].
    apply filter_In in H. destruct H as [Hin Ho]. apply isOpenOf_true in Ho.
    destruct Ho as (_ & _ & Hopen).
    unfold storage.UpdateTrade, storage.hasUpdates in Hin. rewrite Hc in Hin.
    rewrite !orb_true_r in Hin. simpl in Hin. apply in_map_iff in Hin.
    destruct Hin as (x & Hx & _).
    destruct (storage.sameKey _ _ x) eqn:E.
    + subst r. unfold storage.applyUpdate in Hopen. rewrite Hc in Hopen. discriminate.
    + subst x. apply sameKey_true in Hk. congruence.
  - intros t. unfold storage.CreateTrade, storage.insertRow. simpl.
    unfold storage.isOpenOf. simpl. rewrite !String.eqb_refl. simpl.
    split; [reflexivity | discriminate].
Qed.
(** ** sortDecisionsByPriority, deduplicateDecisions *)

(** X7.  [sortDecisionsByPriority] returns a rearrangement of its input (no
    decision is lost, added or changed) in which the priority numbers never
    decrease: every close stands before every open, every open before every
    hold or wait, and those before any other action. *)
Theorem X7_sortDecisionsByPriority_sorted_permutation (l : list decision.Decision) :
  let out := trader.sortDecisionsByPriority l in
  out ≡ₚ l
  /\ length out = length l
  /\ StronglySorted byPriority out
  /\ (forall i j x y, out !! i = Some x -> out !! j = Some y ->
        (trader.priority x < trader.priority y)%Z -> (i < j)%nat).
Proof.
  intros out. subst out.
  pose proof (sortDecisionsByPriority_Permutation l) as Hp.
  split; [exact Hp|]. split; [apply Permutation_length, Hp|].
  split; [apply sortDecisionsByPriority_sorted|].
  intros i j x y Hx Hy Hlt.
  destruct (lt_eq_lt_dec i j) as [[H|H]|H]; [exact H | |].
  - subst. assert (x = y) by congruence. subst. lia.
  - pose proof (sortDecisionsByPriority_lookup l j i y x H Hy Hx) as Hle.
    unfold byPriority in Hle. lia.
Qed.

Lemma distinct_update_keys (l : list decision.Decision) :
  NoDup (List.map trader.dedupKey (List.filter isUpdate l)) ->
  forall i j d d', l !! i = Some d -> l !! j = Some d' -> (i < j)%nat ->
                   isUpdate d = true -> isUpdate d' = true ->
                   trader.dedupKey d' <> trader.dedupKey d.
Proof.
  induction l as [|a l IH]; intros Hn i j d d' Hi Hj Hlt Hu Hu'; [discriminate|].
  destruct j as [|j]; [lia|]. simpl in Hj. destruct i as [|i]; simpl in Hi.
  - inversion Hi; subst a. simpl in Hn. rewrite Hu in Hn. simpl in Hn.
    apply NoDup_cons in Hn. destruct Hn as [Hnot _]. intros E. apply Hnot.
    rewrite <- E. apply list_elem_of_In, in_map, filter_In. split; [|exact Hu'].
    apply list_elem_of_In, list_elem_of_lookup. eauto.
  - apply (IH) with (i := i) (j := j); auto; [|lia].
    simpl in Hn. destruct (isUpdate a); [|exact Hn].
    simpl in Hn. apply NoDup_cons in Hn. apply Hn.
Qed.

Lemma filter_all {A} (f : A -> bool) (l : list A) :
  (forall x, In x l -> f x = true) -> List.filter f l = l.
Proof.
  induction l as [|x l IH]; intros H; simpl; [reflexivity|].
  rewrite H by (left; reflexivity). f_equal. apply IH. intros y Hy. apply H. right. exact Hy.
Qed.

Lemma map_snd_indexed {A} (l : list A) : List.map snd (trader.indexed l) = l.
Proof.
  unfold trader.indexed. generalize 0%nat.
  induction l as [|x l IH]; intros n; simpl; [reflexivity|]. f_equal. apply IH.
Qed.

Lemma deduplicateDecisions_fixed (l : list decision.Decision) :
  NoDup (List.map trader.dedupKey (List.filter isUpdate l)) ->
  trader.deduplicateDecisions l = l.
Proof.
  intros Hn. unfold trader.deduplicateDecisions. destruct (_ <=? _)%nat; [reflexivity|].
  rewrite filter_all; [apply map_snd_indexed|].
  intros [i d] Hin. apply In_indexed in Hin.
  destruct (trader.dedupAction _) eqn:Hu; [|reflexivity].
  apply bool_decide_eq_true, lastIndexMap_spec. exists d. split; [|reflexivity].
  split; [exact Hin|]. split; [exact Hu|].
  intros j d' Hlt Hj Hu'. apply (distinct_update_keys l Hn i j d d'); auto.
Qed.

(** X8.  [deduplicateDecisions] keeps a decision exactly when it is not an
    update_sl / update_tp, or when it is the last update of its
    (symbol, action) key in the list it is given.  The decisions kept stand
    in their original order, every other decision is kept, at most one
    update per key remains, and a second pass changes nothing. *)
Theorem X8_deduplicateDecisions_keeps_last_update_per_key (l : list decision.Decision) :
  let out := trader.deduplicateDecisions l in
  (forall d, In d out <->
     exists i, l !! i = Some d /\ (isUpdate d = true -> lastUpdateAt l i d))
  /\ sublist out l
  /\ List.filter (fun d => negb (isUpdate d)) out
     = List.filter (fun d => negb (isUpdate d)) l
  /\ NoDup (List.map trader.dedupKey (List.filter isUpdate out))
  /\ trader.deduplicateDecisions out = out.
Proof.
  intros out. subst out.
  split; [intros d; apply deduplicateDecisions_In|].
  split; [apply deduplicateDecisions_sublist|].
  split; [apply deduplicateDecisions_others|].
  split; [apply deduplicateDecisions_NoDup|].
  apply deduplicateDecisions_fixed, deduplicateDecisions_NoDup.
Qed.

(** X9.  Steps 7 and 7.5 of the cycle together: for every list of decisions
    the list handed to the executor is ordered by priority (a close before
    an open before a hold or wait), holds at most one update_sl and one
    update_tp per symbol, holds every other decision of the input, holds
    decisions of the input only, and still holds an update for every key
    that had one. *)
Theorem X9_sortAndDeduplicate_guarantees (l : list decision.Decision) :
  let out := trader.sortAndDeduplicate l in
  StronglySorted byPriority out
  /\ (forall i j x y, out !! i = Some x -> out !! j = Some y ->
        (trader.priority x < trader.priority y)%Z -> (i < j)%nat)
  /\ NoDup (List.map trader.dedupKey (List.filter isUpdate out))
  /\ List.filter (fun d => negb (isUpdate d)) out
     ≡ₚ List.filter (fun d => negb (isUpdate d)) l
  /\ (forall d, In d out -> In d l)
  /\ (forall d, In d l -> isUpdate d = true ->
        exists d', In d' out /\ isUpdate d' = true
                   /\ trader.dedupKey d' = trader.dedupKey d).
Proof.
  intros out. subst out.
  destruct (sortAndDeduplicate_spec l) as (H1 & H2 & H3 & H4 & H5).
  split; [exact H1|]. split; [apply sortAndDeduplicate_order|].
  split; [exact H2|]. split; [exact H3|]. split; [exact H4 | exact H5].
Qed.
(** ** The account-level risk check and the cycle *)

(** X10.  A halt pauses the cycles that follow: when the account check has
    found a limit breached, every cycle that starts before the halt time plus
    the configured stop-trading time is paused -- it counts the cycle, builds
    the trading context for the account snapshot of its record and returns,
    without any check -- and the first cycle at or after that instant is not
    paused.  A paused cycle changes the cycle counter and, through
    [buildTradingContext], the first-seen times in memory, and nothing else:
    when the balance and the positions are read, the first-seen times of the
    positions that are gone are dropped and those of the positions found are
    kept or restored from the position-logic store; when one of the two
    reads fails, only the counter changes. *)
Theorem X10_halt_pauses_the_following_cycles
    (a : trader.AutoTrader) (env : trader.RiskEnv) (ctx : decision.Context)
    (h : trader.Halt) (cenv : trader.CycleEnv) :
  let e := decision.TotalEquity (decision.Account ctx) in
  let a' := snd (trader.checkAndExecuteForcedStopLoss a env ctx) in
  let resume := (trader.rkNowStop env + trader.StopTradingTime (trader.config a))%Z in
  let counted := trader.setCallCount a' (trader.callCount a' + 1) in
  let cycle := trader.runCycle a' cenv in
  trader.accountHalt (trader.updatePeakAndDailyPnL a (trader.rkNow env) e) e = Some h ->
  resume <> 0%Z ->
  trader.stopUntil a' = resume
  /\ ((trader.cyNow cenv < resume)%Z ->
      fst cycle = trader.Paused
      /\ snd cycle = snd (trader.buildTradingContext counted (trader.cyContext cenv))
      /\ snd cycle = trader.setFirstSeen counted (trader.positionFirstSeenTime (snd cycle))
      /\ (forall b ps key,
            trader.tcBalance (trader.cyContext cenv) = Some b ->
            trader.tcPositions (trader.cyContext cenv) = Some ps ->
            trader.positionFirstSeenTime (snd cycle) !! key
            = firstSeenAfterContext a' ps key)
      /\ (trader.tcBalance (trader.cyContext cenv) = None
          \/ trader.tcPositions (trader.cyContext cenv) = None ->
          snd cycle = counted))
  /\ ((resume <= trader.cyNow cenv)%Z -> fst cycle <> trader.Paused).
Proof.
  intros e a' resume counted cycle Hh Hnz.
  assert (Hs : trader.stopUntil a' = resume).
  { subst a'. rewrite checkAndExecuteForcedStopLoss_stopUntil. fold e. rewrite Hh.
    reflexivity. }
  split; [exact Hs|]. split.
  - intros Hlt.
    assert (Hc : cycle = (trader.Paused,
                          snd (trader.buildTradingContext counted (trader.cyContext cenv)))).
    { subst cycle. unfold trader.runCycle. simpl trader.stopUntil. rewrite Hs.
      apply Z.eqb_neq in Hnz. rewrite Hnz. apply Z.ltb_lt in Hlt. rewrite Hlt.
      reflexivity. }
    rewrite Hc. simpl fst. simpl snd.
    split; [reflexivity|]. split; [reflexivity|].
    split; [apply buildTradingContext_frame|]. split.
    + intros b ps key Hb Hp.
      rewrite (buildTradingContext_firstSeen counted _ b ps key Hb Hp). reflexivity.
    + intros Hf. rewrite (buildTradingContext_unread counted _ Hf). reflexivity.
  - intros Hge. subst cycle. unfold trader.runCycle. simpl trader.stopUntil. rewrite Hs.
    apply Z.ltb_ge in Hge. rewrite Hge, andb_false_r.
    destruct (trader.buildTradingContext _ (trader.cyContext cenv)) as [[c|] ab].
    + destruct (trader.checkAndExecuteForcedStopLoss (trader.cleanRegistry _ _ _) _ _).
      simpl. intros H. discriminate H.
    + destruct (24 * Hour <? _)%Z; simpl; intros H; discriminate H.
Qed.

(** X11.  The account check raises the peak before it measures the
    drawdown, so an equity at or above the previous peak never causes a
    drawdown halt; and with both limits switched off (not above 0) the check
    never halts: it closes nothing and leaves the pause time as it was,
    whatever the equity. *)
Theorem X11_no_drawdown_halt_at_a_new_peak
    (a : trader.AutoTrader) (env : trader.RiskEnv) (ctx : decision.Context) :
  let e := decision.TotalEquity (decision.Account ctx) in
  let a1 := trader.updatePeakAndDailyPnL a (trader.rkNow env) e in
  ((trader.peakEquity a <= e)%Q -> trader.drawdownBreached a1 e = false)
  /\ ((trader.MaxDrawdown (trader.config a) <= 0)%Q ->
      (trader.MaxDailyLoss (trader.config a) <= 0)%Q ->
      trader.checkAndExecuteForcedStopLoss a env ctx = ([], a1)
      /\ trader.stopUntil a1 = trader.stopUntil a
      /\ trader.forcedClosedPositions a1 = trader.forcedClosedPositions a
      /\ trader.trades a1 = trader.trades a).
Proof.
  intros e a1. split.
  - intros Hpe. subst a1.
    unfold trader.drawdownBreached, trader.currentDrawdown, trader.updatePeakAndDailyPnL.
    simpl. destruct (Qgtb (trader.MaxDrawdown _) 0) eqn:Emd; [|reflexivity]. simpl.
    set (p := if Qgtb e (trader.peakEquity a) then e else trader.peakEquity a).
    destruct (Qgtb p 0) eqn:Ep; [|reflexivity]. simpl.
    apply Qgtb_le. apply Qgtb_gt in Emd. apply Qgtb_gt in Ep.
    assert (Hp : (p <= e)%Q).
    { subst p. destruct (Qgtb e (trader.peakEquity a)); [lra | exact Hpe]. }
    assert (H1 : (fl (p - e) <= 0)%Q) by (apply fl_nonpos; lra).
    assert (H2 : (fl (fl (p - e) / p) <= 0)%Q).
    { apply fl_nonpos. apply Qle_shift_div_r; [exact Ep | lra]. }
    assert (H3 : (fl (fl (fl (p - e) / p) * 100) <= 0)%Q) by (apply fl_nonpos; lra).
    lra.
  - intros Hd Hl. unfold trader.checkAndExecuteForcedStopLoss. fold e. fold a1.
    assert (Hh : trader.accountHalt a1 e = None).
    { unfold trader.accountHalt, trader.drawdownBreached, trader.dailyLossBreached.
      subst a1. simpl.
      apply Qgtb_le in Hd. apply Qgtb_le in Hl. rewrite Hd, Hl. reflexivity. }
    rewrite Hh. repeat split.
Qed.

Lemma X10_witness :
  trader.stopUntil
    (snd (trader.checkAndExecuteForcedStopLoss examples.fresh
            (examples_risk.riskEnv examples_risk.oneHour)
            (examples_risk.account 9499.99)))
  = (trader.rkNowStop (examples_risk.riskEnv examples_risk.oneHour)
     + trader.StopTradingTime (trader.config examples.fresh))%Z.
Proof.
  refine (proj1 (X10_halt_pauses_the_following_cycles examples.fresh
                   (examples_risk.riskEnv examples_risk.oneHour)
                   (examples_risk.account 9499.99) trader.DailyLossHalt
                   (examples_risk.workingCycle 9499.99) _ _)).
  - vm_compute. reflexivity.
  - vm_compute. discriminate.
Defined.
(** ** The forced-close registry, forceClosePosition and its callers *)

Lemma live_key (ctx : decision.Context) (key : string) :
  existsb (fun p => String.eqb (trader.posKey (decision.PSymbol p) (decision.PSide p)) key)
          (decision.Positions ctx) = true
  <-> exists p, In p (decision.Positions ctx)
                /\ trader.posKey (decision.PSymbol p) (decision.PSide p) = key.
Proof.
  rewrite existsb_exists. split; intros (p & Hp & H); exists p; (split; [exact Hp|]);
    apply String.eqb_eq; exact H.
Qed.

(** X12.  Step 3 of the cycle cleans the forced-close registry without ever
    dropping the mark of a position that is still open: a mark survives
    exactly when its position is among the current positions or the mark is
    no older than the retry timeout (five minutes); no mark is added or
    changed, and nothing else of the trader is touched. *)
Theorem X12_cleanRegistry_keeps_marks_of_live_positions
    (a : trader.AutoTrader) (now : Z) (ctx : decision.Context) :
  let a' := trader.cleanRegistry a now ctx in
  (forall key t,
     trader.forcedClosedPositions a' !! key = Some t
     <-> trader.forcedClosedPositions a !! key = Some t
         /\ ((exists p, In p (decision.Positions ctx)
                        /\ trader.posKey (decision.PSymbol p) (decision.PSide p) = key)
             \/ (now - t <= trader.PositionStopLossRetryTimeout)%Z))
  /\ a' = trader.setForcedClosed a (trader.forcedClosedPositions a').
Proof.
  intros a'. subst a'. unfold trader.cleanRegistry. split; [|reflexivity].
  intros key t. simpl. rewrite map_lookup_filter_Some. simpl.
  split; intros [Hm H]; (split; [exact Hm|]).
  - destruct (existsb _ (decision.Positions ctx)) eqn:E.
    + left. apply live_key. exact E.
    + right. destruct (Z_le_gt_dec (now - t) trader.PositionStopLossRetryTimeout) as [Hle|Hgt];
        [exact Hle|]. exfalso. apply H. split; [reflexivity | lia].
  - intros [Hl Ht]. destruct H as [H|H]; [|lia].
    apply live_key in H. congruence.
Qed.

(** X13.  The retry cool-down of [forceClosePosition]: a position marked in
    the registry no longer than five minutes ago is not closed again -- the
    call returns an error and changes nothing.  Otherwise a stale mark is
    dropped and the close is attempted; once the price is known, the
    registry holds the time of this attempt whether the exchange took the
    order or refused it, the error is nil exactly when the order was taken,
    and only a taken order deletes the position's logic and may append one
    trade row. *)
Theorem X13_forceClosePosition_cool_down_and_marking
    (a : trader.AutoTrader) (env : trader.ForceCloseEnv) (sym sd reason : string) :
  let key := trader.posKey sym sd in
  let r := trader.forceClosePosition a env sym sd reason in
  let rec := fst (fst r) in
  let err := snd (fst r) in
  let a' := snd r in
  (forall t, trader.forcedClosedPositions a !! key = Some t ->
             (trader.fcNowFirst env - t <= trader.PositionStopLossRetryTimeout)%Z ->
             err <> None /\ rec = trader.emptyAction /\ a' = a)
  /\ ((trader.forcedClosedPositions a !! key = None
       \/ exists t, trader.forcedClosedPositions a !! key = Some t
                    /\ (trader.PositionStopLossRetryTimeout < trader.fcNowFirst env - t)%Z) ->
      match trader.fcMarket env with
      | None =>
          err <> None /\ trader.forcedClosedPositions a' !! key = None
          /\ trader.positionLogic a' = trader.positionLogic a
          /\ trader.trades a' = trader.trades a
      | Some price =>
          trader.forcedClosedPositions a' !! key = Some (trader.fcNowMark env)
          /\ logger.Price rec = price /\ logger.IsForced rec = true
          /\ logger.ForcedReason rec = reason
          /\ match trader.fcOrder env with
             | None =>
                 err <> None /\ logger.Success rec = false
                 /\ trader.positionLogic a' = trader.positionLogic a
                 /\ trader.trades a' = trader.trades a
             | Some oid =>
                 err = None /\ logger.Success rec = true /\ logger.OrderID rec = oid
                 /\ positionlogic.GetLogic (trader.positionLogic a') sym sd = None
                 /\ appendsAtMost sym sd rec (trader.trades a) (trader.trades a')
             end
      end).
Proof.
  intros key r rec err a'. split.
  - intros t Hm Hfresh. subst r rec err a'. unfold trader.forceClosePosition. fold key.
    unfold trader.passRegistry. rewrite Hm.
    apply Z.ltb_ge in Hfresh. rewrite Hfresh. simpl.
    split; [intros H; discriminate H | split; reflexivity].
  - intros Hstale.
    destruct (passRegistry_cases a key (trader.fcNowFirst env))
      as [(t & Hm & Hfresh & _)|(a1 & Hp & Hnone & _ & _)].
    + exfalso. destruct Hstale as [H|(t' & H & Hlt)]; rewrite Hm in H; [discriminate|].
      inversion H. subst t'. lia.
    + pose proof (forceClosePosition_past_registry a a1 env sym sd reason Hp Hnone) as H.
      simpl in H. fold key in H. fold r in H. fold rec err a' in H.
      destruct H as (Hf & Hr & _ & H).
      destruct (trader.fcMarket env) as [price|].
      * destruct H as (Hreg & Hprice & _ & H).
        split; [rewrite Hreg; apply lookup_insert_eq|].
        split; [exact Hprice|]. split; [exact Hf|]. split; [exact Hr|].
        destruct (trader.fcOrder env) as [oid|]; [|exact H].
        destruct H as (H1 & H2 & H3 & H4 & H5).
        repeat split; auto. rewrite H4. apply lookup_delete_eq.
      * destruct H as (H1 & _ & H2 & H3 & H4). rewrite H2. auto.
Qed.

Lemma forceClosePosition_ok_record (a : trader.AutoTrader) (env : trader.ForceCloseEnv)
    (sym sd reason : string) :
  let r := trader.forceClosePosition a env sym sd reason in
  snd (fst r) = None ->
  logger.Success (fst (fst r)) = true /\ logger.IsForced (fst (fst r)) = true
  /\ logger.ForcedReason (fst (fst r)) = reason /\ logger.Symbol (fst (fst r)) = sym
  /\ logger.Action (fst (fst r)) = (if String.eqb sd "long" then "close_long" else "close_short").
Proof.
  intros r Hok.
  destruct (passRegistry_cases a (trader.posKey sym sd) (trader.fcNowFirst env))
    as [(t & Hm & Hfresh & Hp)|(a1 & Hp & Hnone & _ & _)].
  - exfalso. subst r. unfold trader.forceClosePosition in Hok. rewrite Hp in Hok.
    discriminate Hok.
  - pose proof (forceClosePosition_past_registry a a1 env sym sd reason Hp Hnone) as H.
    simpl in H. fold r in H. destruct H as (Hf & Hr & Hs & H).
    destruct (trader.fcMarket env) as [price|].
    + destruct H as (_ & _ & Hact & H). destruct (trader.fcOrder env) as [oid|].
      * destruct H as (_ & H2 & _). auto.
      * destruct H as (H1 & _). contradiction.
    + destruct H as (H1 & _). contradiction.
Qed.

(** X14.  [forceCloseAllPositions] reports the closes that went through and
    only those: every returned action is a successful forced close_long or
    close_short of one of the given positions, carrying the given reason;
    positions whose close failed are skipped, so there are at most as many
    actions as positions; the account risk state (limits, peak, daily
    figures, pause time) is not touched. *)
Theorem X14_forceCloseAllPositions_reports_successes_only
    (env : string -> trader.ForceCloseEnv) (reason : string)
    (ps : list decision.PositionInfo) (a : trader.AutoTrader) :
  let r := trader.forceCloseAllPositions a env reason ps in
  (length (fst r) <= length ps)%nat
  /\ (forall act, In act (fst r) ->
        logger.Success act = true /\ logger.IsForced act = true
        /\ logger.ForcedReason act = reason
        /\ (logger.Action act = "close_long" \/ logger.Action act = "close_short")
        /\ exists p, In p ps /\ logger.Symbol act = decision.PSymbol p)
  /\ riskView (snd r) = riskView a.
Proof.
  intros r. subst r. split; [|split; [|apply forceCloseAllPositions_riskView]].
  - revert a. induction ps as [|p ps IH]; intros a; simpl; [lia|].
    destruct (trader.forceClosePosition a _ _ _ reason) as [[rec err] a1].
    destruct err as [e|].
    + specialize (IH a1). lia.
    + match goal with
      | |- context [trader.forceCloseAllPositions ?s env reason ps] => specialize (IH s)
      end.
      destruct (trader.forceCloseAllPositions _ env reason ps) as [acts a3].
      simpl in *. lia.
  - revert a. induction ps as [|p ps IH]; intros a act; simpl; [intros []|].
    pose proof (forceClosePosition_ok_record a
                  (env (trader.posKey (decision.PSymbol p) (decision.PSide p)))
                  (decision.PSymbol p) (decision.PSide p) reason) as Hok.
    destruct (trader.forceClosePosition a _ _ _ reason) as [[rec err] a1].
    simpl in Hok. destruct err as [e|].
    + intros Hin. destruct (IH a1 act Hin) as (H1 & H2 & H3 & H4 & q & Hq & Hs).
      repeat split; auto. exists q. split; [right; exact Hq | exact Hs].
    + match goal with
      | |- context [trader.forceCloseAllPositions ?s env reason ps] => specialize (IH s act)
      end.
      destruct (trader.forceCloseAllPositions _ env reason ps) as [acts a3].
      simpl. intros [<-|Hin].
      * destruct (Hok eq_refl) as (H1 & H2 & H3 & H4 & H5).
        repeat split; auto.
        -- rewrite H5. destruct (String.eqb _ "long"); [left | right]; reflexivity.
        -- exists p. split; [left; reflexivity | exact H4].
      * destruct (IH Hin) as (H1 & H2 & H3 & H4 & q & Hq & Hs).
        repeat split; auto. exists q. split; [right; exact Hq | exact Hs].
Qed.

Lemma watchdogLoop_count (env : string -> trader.ForceCloseEnv) (ps : list trader.Position) :
  forall a,
    length (fst (trader.watchdogLoop a env ps))
    = length (List.filter (fun p => match trader.watchdogTrigger (trader.config a) p with
                                    | Some _ => true | None => false end) ps)
    /\ riskView (snd (trader.watchdogLoop a env ps)) = riskView a.
Proof.
  induction ps as [|p ps IH]; intros a; simpl; [split; reflexivity|].
  destruct (trader.watchdogTrigger (trader.config a) p) as [t|]; [|apply IH].
  pose proof (forceClosePosition_riskView a
                (env (trader.posKey (trader.symbol p) (trader.side p)))
                (trader.symbol p) (trader.side p) (trader.triggerReason t)) as Hr.
  destruct (trader.forceClosePosition a _ _ _ _) as [[rec err] a1]. simpl in Hr.
  set (a2 := match err with
             | Some _ => a1
             | None => trader.setFirstSeen a1
                         (delete (trader.posKey (trader.symbol p) (trader.side p))
                            (trader.positionFirstSeenTime a1))
             end).
  assert (H2 : riskView a2 = riskView a) by (subst a2; destruct err; exact Hr).
  destruct (IH a2) as [Hlen Hrv].
  destruct (trader.watchdogLoop a2 env ps) as [acts a3]. simpl in *.
  split; [|congruence].
  rewrite Hlen. apply riskView_fields in H2. destruct H2 as (-> & _). reflexivity.
Qed.

Lemma watchdogLoop_none (env : string -> trader.ForceCloseEnv) (a : trader.AutoTrader)
    (ps : list trader.Position) :
  List.filter (fun p => match trader.watchdogTrigger (trader.config a) p with
                        | Some _ => true | None => false end) ps = [] ->
  trader.watchdogLoop a env ps = ([], a).
Proof.
  induction ps as [|p ps IH]; simpl; [reflexivity|].
  destruct (trader.watchdogTrigger (trader.config a) p) as [t|]; [discriminate|].
  exact IH.
Qed.

(** X15.  The ten-second watchdog acts on the triggered positions only: it
    does nothing when the trader is stopped or the positions cannot be
    read; otherwise it makes one close attempt, and logs one action, for
    each position whose loss reached the stop-loss threshold or whose profit
    reached the take-profit target; when no position is triggered the
    trader is left exactly as it was; and it never touches the account risk
    state. *)
Theorem X15_watchdog_acts_on_triggered_positions_only
    (a : trader.AutoTrader) (positions : option (list trader.Position))
    (env : string -> trader.ForceCloseEnv) :
  let r := trader.checkPositionStopLossOnly a positions env in
  let triggered p := match trader.watchdogTrigger (trader.config a) p with
                     | Some _ => true | None => false end in
  (trader.isRunning a = false -> r = ([], a))
  /\ (positions = None -> r = ([], a))
  /\ (forall ps, trader.isRunning a = true -> positions = Some ps ->
        length (fst r) = length (List.filter triggered ps)
        /\ (List.filter triggered ps = [] -> r = ([], a)))
  /\ riskView (snd r) = riskView a.
Proof.
  intros r triggered. subst r. unfold trader.checkPositionStopLossOnly.
  split; [intros ->; reflexivity|].
  split; [intros ->; destruct (negb _); reflexivity|].
  split.
  - intros ps Hrun ->. rewrite Hrun. simpl.
    split; [apply watchdogLoop_count|].
    apply watchdogLoop_none.
  - destruct (negb _); [reflexivity|]. destruct positions as [ps|]; [|reflexivity].
    apply watchdogLoop_count.
Qed.
(** ** The margin check and the open executor *)

Lemma pct_le (x e m : Q) : (0 < e)%Q -> (x / e * 100 <= m)%Q -> (x * 100 <= m * e)%Q.
Proof.
  intros He H.
  assert (E : (x * 100 == x / e * 100 * e)%Q) by (field; lra).
  rewrite E. apply Qmult_le_compat_r; [exact H | lra].
Qed.

Lemma leverage_cut_off (lev : Z) :
  (0 < lev)%Z -> (3 <= (1 / float64 lev + 0.01) * 100)%Q -> (lev <= 50)%Z.
Proof.
  intros Hpos H. destruct (Z_le_gt_dec lev 50) as [Hle|Hgt]; [exact Hle|exfalso].
  assert (H51 : (51 <= float64 lev)%Q).
  { unfold float64. change 51%Q with (inject_Z 51). rewrite <- Zle_Qle. lia. }
  revert H H51. generalize (float64 lev). intros l H H51.
  assert (Hinv : (1 / l <= 1 # 51)%Q).
  { apply Qle_shift_div_r; lra. }
  set (x := (1 / l)%Q) in *. lra.
Qed.

(** X16.  What the margin check guarantees when it lets an open through,
    for every account, decision with a positive leverage, and price: the
    price is positive; the leverage is at most 50 (above 50 the estimated
    liquidation price lies within 3 % of the price); the margin in use
    after the open is at most 90 % of a positive equity -- 80 % when the
    account trades a single symbol; at least 5 % of the equity stays
    available after the new margin; and a stop-loss, when given, lies
    strictly between the estimated liquidation price and the price. *)
Theorem X16_margin_check_accepts_only_safe_opens
    (ctx : decision.Context) (dec : decision.Decision) (price : Q) :
  let acct := decision.Account ctx in
  let equity := decision.TotalEquity acct in
  let marginRequired := (decision.PositionSizeUSD dec / float64 (decision.Leverage dec))%Q in
  let liq := trader.estimatedLiquidationPrice (decision.Action dec) price
               (decision.Leverage dec) in
  (0 < decision.Leverage dec)%Z ->
  trader.checkMarginAndBalanceSafety ctx dec (Some price) = None ->
  (0 < price)%Q
  /\ (decision.Leverage dec <= 50)%Z
  /\ ((0 < equity)%Q ->
      ((decision.MarginUsed acct + marginRequired) * 100 <= 90 * equity)%Q
      /\ (trader.isSingleSymbol ctx (decision.Symbol dec) = true ->
          ((decision.MarginUsed acct + marginRequired) * 100 <= 80 * equity)%Q))
  /\ (equity * (5 / 100) <= decision.AvailableBalance acct - marginRequired)%Q
  /\ ((0 < decision.StopLoss dec)%Q ->
      if String.eqb (decision.Action dec) "open_long"
      then (liq < decision.StopLoss dec /\ decision.StopLoss dec < price)%Q
      else (price < decision.StopLoss dec /\ decision.StopLoss dec < liq)%Q).
Proof.
  intros acct equity marginRequired liq Hlev.
  unfold trader.checkMarginAndBalanceSafety. fold acct. fold equity. fold marginRequired.
  fold liq.
  destruct (Qleb price 0) eqn:Hprice; [discriminate|]. apply Qleb_gt in Hprice.
  destruct (Qgtb _ (if trader.isSingleSymbol _ _ then _ else _)) eqn:Husage; [discriminate|].
  apply Qgtb_le in Husage.
  destruct (Qltb (_ - _) _) eqn:Hres; [discriminate|]. apply Qltb_ge in Hres.
  destruct (Qltb (trader.priceDistancePct _ _ _) _) eqn:Hdist; [discriminate|].
  apply Qltb_ge in Hdist.
  intros Hstop.
  split; [exact Hprice|].
  split.
  { apply leverage_cut_off; [exact Hlev|].
    rewrite <- (priceDistancePct_value (decision.Action dec) price) by lra.
    exact Hdist. }
  split.
  { intros Heq. pose proof Heq as Hgt. apply Qgtb_gt in Hgt. rewrite Hgt in Husage.
    destruct (trader.isSingleSymbol ctx (decision.Symbol dec)).
    - apply pct_le in Husage; [|exact Heq].
      unfold trader.MaxMarginUsagePctSingleSymbol in Husage.
      split; [lra | intros _; exact Husage].
    - apply pct_le in Husage; [|exact Heq].
      unfold trader.MaxMarginUsagePct in Husage.
      split; [exact Husage | discriminate]. }
  split.
  { unfold trader.MinReserveBalancePct in Hres. exact Hres. }
  intros Hsl. apply Qgtb_gt in Hsl. rewrite Hsl in Hstop.
  destruct (String.eqb (decision.Action dec) "open_long").
  - destruct (Qgeb _ price) eqn:H1; [discriminate|]. apply Qgeb_lt in H1.
    destruct (Qleb _ liq) eqn:H2; [discriminate|]. apply Qleb_gt in H2.
    split; assumption.
  - destruct (Qleb _ price) eqn:H1; [discriminate|]. apply Qleb_gt in H1.
    destruct (Qgeb _ liq) eqn:H2; [discriminate|]. apply Qgeb_lt in H2.
    split; assumption.
Qed.

Lemma X16_witness :
  (decision.Leverage examples_open.openLong <= 50)%Z.
Proof.
  refine (proj1 (proj2 (X16_margin_check_accepts_only_safe_opens examples_open.flat
                          examples_open.openLong 60000%Q _ _))).
  - vm_compute. reflexivity.
  - vm_compute. reflexivity.
Defined.

(** What an open leaves behind: the trader as it was, the trader as the
    context building left it, or -- accepted -- the latter with the new
    first-seen time and position logic. *)
Lemma executeOpenWithRecord_states (sd : string) (a : trader.AutoTrader)
    (env : trader.OpenEnv) (dec : decision.Decision) (rec : logger.DecisionAction) :
  let r := trader.executeOpenWithRecord sd a env dec rec in
  let after := snd (trader.buildTradingContext a (trader.oeContext env)) in
  (trader.hasPosition (decision.Symbol dec) sd (trader.oePositionsBefore env) = true ->
   r = (Some "position already open", rec, a))
  /\ (trader.hasPosition (decision.Symbol dec) sd (trader.oePositionsBefore env) = false ->
      (fst (fst r) <> None /\ snd r = after)
      \/ (fst (fst r) = None
          /\ exists m l, snd r = trader.setPositionLogic (trader.setFirstSeen after m) l)).
Proof.
  intros r after. subst r after. unfold trader.executeOpenWithRecord.
  destruct (trader.hasPosition _ sd (trader.oePositionsBefore env));
    (split; [intros H; try discriminate H; reflexivity | intros H; try discriminate H]).
  destruct (trader.buildTradingContext a (trader.oeContext env)) as [built a0].
  simpl snd.
  repeat match goal with
         | |- context [match ?x with _ => _ end] => destruct x
         end; simpl;
    try (left; split; [intros H'; discriminate H' | reflexivity]);
    right; (split; [reflexivity|]); eexists; eexists; reflexivity.
Qed.

(** X17.  A failed open writes nothing but the first-seen times in memory.
    When a position of the same symbol and side exists before the checks the
    executor returns an error and the trader is exactly as before.
    Otherwise it builds the trading context first, and every later failure
    -- the context cannot be built, the margin check rejects the decision, a
    position appeared at the re-check, no valid price, no valid quantity, the
    order is refused -- leaves the trader as [buildTradingContext] left it:
    the first-seen times of the positions that are gone dropped, those of
    the positions found kept or restored from the position-logic store, and
    nothing else changed (no position logic, no trade row).  Successful or
    not, the executor never touches the forced-close registry, the close
    locks or the account risk state. *)
Theorem X17_failed_open_writes_first_seen_times_only
    (sd : string) (a : trader.AutoTrader) (env : trader.OpenEnv)
    (dec : decision.Decision) (rec : logger.DecisionAction) :
  let r := trader.executeOpenWithRecord sd a env dec rec in
  let err := fst (fst r) in
  let a' := snd r in
  let sym := decision.Symbol dec in
  let built := trader.buildTradingContext a (trader.oeContext env) in
  (trader.hasPosition sym sd (trader.oePositionsBefore env) = true ->
   err <> None /\ snd (fst r) = rec /\ a' = a)
  /\ (trader.hasPosition sym sd (trader.oePositionsBefore env) = false ->
      err <> None -> a' = snd built)
  /\ snd built = trader.setFirstSeen a (trader.positionFirstSeenTime (snd built))
  /\ (forall b ps key,
        trader.tcBalance (trader.oeContext env) = Some b ->
        trader.tcPositions (trader.oeContext env) = Some ps ->
        trader.positionFirstSeenTime (snd built) !! key = firstSeenAfterContext a ps key)
  /\ (trader.tcBalance (trader.oeContext env) = None
      \/ trader.tcPositions (trader.oeContext env) = None -> snd built = a)
  /\ (err <> None ->
      trader.positionLogic a' = trader.positionLogic a
      /\ trader.trades a' = trader.trades a)
  /\ (trader.hasPosition sym sd (trader.oePositionsRecheck env) = true -> err <> None)
  /\ (fst built = None -> err <> None /\ snd (fst r) = rec)
  /\ (forall ctx, fst built = Some ctx ->
        trader.checkMarginAndBalanceSafety ctx dec (trader.oeMarketCheck env) <> None ->
        err <> None)
  /\ trader.forcedClosedPositions a' = trader.forcedClosedPositions a
  /\ trader.closingPositions a' = trader.closingPositions a
  /\ riskView a' = riskView a.
Proof.
  intros r err a' sym built.
  pose proof (buildTradingContext_frame a (trader.oeContext env)) as Hframe.
  fold built in Hframe.
  destruct (executeOpenWithRecord_states sd a env dec rec) as [Hbefore Hafter].
  fold r in Hbefore, Hafter. fold sym in Hbefore, Hafter. fold built in Hafter.
  assert (Hstate : a' = a \/ a' = snd built
                   \/ exists m l, a' = trader.setPositionLogic
                                         (trader.setFirstSeen (snd built) m) l).
  { destruct (trader.hasPosition sym sd (trader.oePositionsBefore env)).
    - left. subst a'. rewrite (Hbefore eq_refl). reflexivity.
    - right. destruct (Hafter eq_refl) as [[_ H]|[_ H]]; [left | right]; exact H. }
  split.
  { intros H. subst err a'. rewrite (Hbefore H). simpl.
    split; [intros H'; discriminate H' | split; reflexivity]. }
  split.
  { intros H Herr. destruct (Hafter H) as [[_ Hs]|[Hn _]]; [exact Hs | contradiction]. }
  split; [exact Hframe|].
  split.
  { intros b ps key Hb Hp. apply (buildTradingContext_firstSeen a _ b ps key Hb Hp). }
  split.
  { intros Hf. subst built. rewrite (buildTradingContext_unread a _ Hf). reflexivity. }
  split.
  { intros Herr.
    destruct (trader.hasPosition sym sd (trader.oePositionsBefore env)) eqn:Hb.
    - subst a'. rewrite (Hbefore eq_refl). split; reflexivity.
    - destruct (Hafter eq_refl) as [[_ Hs]|[Hn _]]; [|contradiction].
      fold a' in Hs. rewrite Hs, Hframe. split; reflexivity. }
  split.
  { subst err r. unfold trader.executeOpenWithRecord. fold sym. intros Hr.
    destruct (trader.hasPosition sym sd (trader.oePositionsBefore env));
      [intros H'; discriminate H'|].
    destruct (trader.buildTradingContext a (trader.oeContext env)) as [[ctx|] a0];
      [|intros H'; discriminate H'].
    destruct (trader.checkMarginAndBalanceSafety ctx dec _); [intros H'; discriminate H'|].
    rewrite Hr. intros H'; discriminate H'. }
  split.
  { subst err r built. unfold trader.executeOpenWithRecord. fold sym. intros Hn.
    destruct (trader.hasPosition sym sd (trader.oePositionsBefore env));
      [split; [intros H'; discriminate H' | reflexivity]|].
    destruct (trader.buildTradingContext a (trader.oeContext env)) as [built0 a0].
    simpl in Hn. subst built0. split; [intros H'; discriminate H' | reflexivity]. }
  split.
  { subst err r built. unfold trader.executeOpenWithRecord. fold sym. intros ctx Hc Hm.
    destruct (trader.hasPosition sym sd (trader.oePositionsBefore env));
      [intros H'; discriminate H'|].
    destruct (trader.buildTradingContext a (trader.oeContext env)) as [built0 a0].
    simpl in Hc. subst built0.
    destruct (trader.checkMarginAndBalanceSafety ctx dec _);
      [intros H'; discriminate H' | contradiction Hm; reflexivity]. }
  destruct Hstate as [->|[->|(m & l & ->)]]; try rewrite Hframe; repeat split.
Qed.
(** ** The AI close and the stop-loss update *)

(** X18.  The AI close ([executeCloseLongWithRecord] and its short twin):
    a position marked in the forced-close registry is not closed (error,
    record and trader untouched); a close that fails writes no trade row, no
    position logic and no first-seen time; a close that succeeds has put the
    market price and the order id on the action record, has forgotten the
    first-seen time and the stored logic of the position, and has appended at
    most one trade row.  The registry and the account risk state are never
    written. *)
Theorem X18_ai_close_effects
    (sd : string) (a : trader.AutoTrader) (env : trader.CloseEnv)
    (dec : decision.Decision) (rec : logger.DecisionAction) :
  let r := trader.executeCloseWithRecord sd a env dec rec in
  let err := fst (fst r) in
  let rec' := snd (fst r) in
  let a' := snd r in
  let sym := decision.Symbol dec in
  let key := trader.posKey sym sd in
  (trader.forcedClosedPositions a !! key <> None -> err <> None /\ rec' = rec /\ a' = a)
  /\ (err <> None ->
      trader.trades a' = trader.trades a
      /\ trader.positionLogic a' = trader.positionLogic a
      /\ trader.positionFirstSeenTime a' = trader.positionFirstSeenTime a)
  /\ (err = None ->
      exists price oid,
        trader.ceMarket env = Some price /\ trader.ceOrder env = Some oid
        /\ logger.Price rec' = price /\ logger.OrderID rec' = oid
        /\ trader.positionFirstSeenTime a' !! key = None
        /\ positionlogic.GetLogic (trader.positionLogic a') sym sd = None
        /\ appendsAtMost sym sd rec' (trader.trades a) (trader.trades a'))
  /\ trader.forcedClosedPositions a' = trader.forcedClosedPositions a
  /\ riskView a' = riskView a.
Proof.
  intros r err rec' a' sym key. subst r err rec' a'.
  unfold trader.executeCloseWithRecord. fold sym. fold key.
  destruct (trader.forcedClosedPositions a !! key) as [m|] eqn:Hm.
  { simpl. repeat split; try reflexivity; intros; try discriminate;
      intros H'; discriminate H'. }
  destruct (trader.ceMarket env) as [price|].
  2:{ simpl. repeat split; try reflexivity; intros; try discriminate; try contradiction;
        try (intros H'; discriminate H'). }
  destruct (trader.ceOrder env) as [oid|].
  2:{ simpl. repeat split; try reflexivity; intros; try discriminate; try contradiction;
        try (intros H'; discriminate H'). }
  match goal with
  | |- context [trader.recordTradeHistory ?s ?e sd dec ?c false ?fr] =>
      destruct (recordTradeHistory_shape s e sd dec c false fr) as (tbl & -> & Happ)
  end.
  simpl in *.
  split; [intros H; contradiction|].
  split; [intros H; contradiction|].
  split; [|split; reflexivity].
  intros _. exists price, oid.
  split; [reflexivity|]. split; [reflexivity|].
  split; [destruct (trader.stillOpen _ _ _); reflexivity|].
  split; [destruct (trader.stillOpen _ _ _); reflexivity|].
  split; [apply lookup_delete_eq|].
  split; [apply lookup_delete_eq|].
  exact Happ.
Qed.

Lemma GetLogic_Save_other (tbl : gmap string positionlogic.PositionLogic)
    (sym sd : string) (s t : Q) (k : string) :
  k <> positionlogic.posKey sym sd ->
  positionlogic.SaveStopLossAndTakeProfit tbl sym sd s t !! k = tbl !! k.
Proof.
  intros Hk. unfold positionlogic.SaveStopLossAndTakeProfit.
  apply lookup_insert_ne. congruence.
Qed.

Lemma executeUpdateStopLoss_outcome (a : trader.AutoTrader) (env : trader.UpdateEnv)
    (dec : decision.Decision) (rec : logger.DecisionAction) (pos : trader.Position) :
  let sym := decision.Symbol dec in
  let new := decision.StopLoss dec in
  let sd := trader.side pos in
  let old := positionlogic.GetLogic (trader.positionLogic a) sym sd in
  let oldTP := positionlogic.TakeProfit (positionlogic.orEmpty old) in
  let r := trader.executeUpdateStopLoss a env dec rec in
  trader.findPositionBySymbol (trader.uePositions env) sym = Some pos ->
  (snd r = a
   /\ (fst (fst r) = None -> trader.isNoOp old new = true \/ trader.ueSave env = false))
  \/ (fst (fst r) = None /\ trader.isNoOp old new = false /\ trader.ueSave env = true
      /\ snd r = trader.setPositionLogic a
                   (positionlogic.SaveStopLossAndTakeProfit (trader.positionLogic a) sym sd
                      new (if Qleb (decision.TakeProfit dec) 0 && Qgtb oldTP 0
                           then oldTP else decision.TakeProfit dec))).
Proof.
  intros sym new sd old oldTP r Hfind. subst r. unfold trader.executeUpdateStopLoss.
  fold sym. fold new. rewrite Hfind. fold sd. fold old.
  assert (HoldTP : match old with
                   | Some l => positionlogic.TakeProfit l | None => 0%Q end = oldTP).
  { subst oldTP. destruct old; reflexivity. }
  rewrite HoldTP. clear HoldTP. generalize oldTP. intros tp0.
  destruct (Qleb new 0); [left; split; [reflexivity | intros H; discriminate H]|].
  destruct (trader.isNoOp old new) eqn:Hnoop; [left; split; [reflexivity | auto]|].
  destruct (trader.ueMarket env) as [price|];
    [|left; split; [reflexivity | intros H; discriminate H]].
  destruct (Qleb price 0); [left; split; [reflexivity | intros H; discriminate H]|].
  destruct (trader.checkStopAgainstPrice sd new price);
    [left; split; [reflexivity | intros H; discriminate H]|].
  destruct (trader.checkTrailing sd old new);
    [left; split; [reflexivity | intros H; discriminate H]|].
  destruct (trader.checkStopAgainstTakeProfit sd new _ price);
    [left; split; [reflexivity | intros H; discriminate H]|].
  set (pre := if Qleb (decision.TakeProfit dec) 0 && Qgtb tp0 0
              then tp0 else decision.TakeProfit dec).
  assert (Hsave : (if Qleb (decision.TakeProfit dec) 0 && Qgtb pre 0
                   then pre else decision.TakeProfit dec) = pre).
  { subst pre. destruct (Qleb (decision.TakeProfit dec) 0) eqn:E1; simpl; [|reflexivity].
    destruct (Qgtb tp0 0) eqn:E2; simpl; [rewrite E2; reflexivity|].
    destruct (Qgtb (decision.TakeProfit dec) 0); reflexivity. }
  rewrite Hsave.
  destruct (trader.ueCancel env);
    try (left; split; [reflexivity | intros H; discriminate H]; fail);
    (destruct (negb (trader.ueSetStopLoss env));
       [left; split; [reflexivity | intros H; discriminate H]|]);
    (destruct (Qgtb pre 0 && negb _);
       [left; split; [reflexivity | intros H; discriminate H]|]);
    (destruct (trader.ueSave env); simpl;
       [right; repeat split; reflexivity
       |left; split; [reflexivity | intros _; right; reflexivity]]).
Qed.

(** X19.  [executeUpdateStopLoss] writes the stop and nothing it should
    keep: a request that ends with an error changes nothing; a request with
    a stop that is not positive, or for a symbol without a position, ends
    with an error; an executed request whose write succeeds stores the new
    stop, stores the take-profit of the decision when it carries one and
    keeps the stored take-profit otherwise, and keeps the entry logic, the
    exit logic and the first-seen time of the position; the logic of every
    other position, the trade table, the registry, the close locks, the
    first-seen times and the account risk state are never written. *)
Theorem X19_update_stop_loss_keeps_take_profit_and_logic
    (a : trader.AutoTrader) (env : trader.UpdateEnv)
    (dec : decision.Decision) (rec : logger.DecisionAction) :
  let sym := decision.Symbol dec in
  let new := decision.StopLoss dec in
  let r := trader.executeUpdateStopLoss a env dec rec in
  let err := fst (fst r) in
  let a' := snd r in
  (err <> None -> a' = a)
  /\ ((new <= 0)%Q -> err <> None)
  /\ (trader.findPositionBySymbol (trader.uePositions env) sym = None -> err <> None)
  /\ (forall pos, trader.findPositionBySymbol (trader.uePositions env) sym = Some pos ->
        let old := positionlogic.GetLogic (trader.positionLogic a) sym (trader.side pos) in
        (forall k, k <> positionlogic.posKey sym (trader.side pos) ->
                   trader.positionLogic a' !! k = trader.positionLogic a !! k)
        /\ (err = None -> trader.isNoOp old new = false -> trader.ueSave env = true ->
            exists l,
              positionlogic.GetLogic (trader.positionLogic a') sym (trader.side pos) = Some l
              /\ positionlogic.StopLoss l = new
              /\ positionlogic.TakeProfit l
                 = (if Qgtb (decision.TakeProfit dec) 0 then decision.TakeProfit dec
                    else positionlogic.TakeProfit (positionlogic.orEmpty old))
              /\ positionlogic.EntryLogic l
                 = positionlogic.EntryLogic (positionlogic.orEmpty old)
              /\ positionlogic.ExitLogic l
                 = positionlogic.ExitLogic (positionlogic.orEmpty old)
              /\ positionlogic.FirstSeenTime l
                 = positionlogic.FirstSeenTime (positionlogic.orEmpty old)))
  /\ trader.trades a' = trader.trades a
  /\ trader.forcedClosedPositions a' = trader.forcedClosedPositions a
  /\ trader.closingPositions a' = trader.closingPositions a
  /\ trader.positionFirstSeenTime a' = trader.positionFirstSeenTime a
  /\ riskView a' = riskView a.
Proof.
  intros sym new r err a'.
  assert (Hframe : forall pos,
            trader.findPositionBySymbol (trader.uePositions env) sym = Some pos ->
            a' = a \/ exists tbl, a' = trader.setPositionLogic a tbl).
  { intros pos Hfind.
    destruct (executeUpdateStopLoss_outcome a env dec rec pos Hfind)
      as [[H _]|(_ & _ & _ & H)]; [left; exact H | right; eexists; exact H]. }
  assert (Hnone : trader.findPositionBySymbol (trader.uePositions env) sym = None ->
                  err <> None /\ a' = a).
  { intros Hfind. subst err a' r. unfold trader.executeUpdateStopLoss. fold sym.
    rewrite Hfind. destruct (Qleb _ 0); simpl; (split; [intros H; discriminate H | reflexivity]). }
  assert (Hall : a' = a \/ exists tbl, a' = trader.setPositionLogic a tbl).
  { destruct (trader.findPositionBySymbol (trader.uePositions env) sym) as [pos|] eqn:Hfind.
    - exact (Hframe pos eq_refl).
    - left. apply Hnone. reflexivity. }
  split.
  { intros Herr.
    destruct (trader.findPositionBySymbol (trader.uePositions env) sym) as [pos|] eqn:Hfind.
    - destruct (executeUpdateStopLoss_outcome a env dec rec pos Hfind)
        as [[H _]|(H & _)]; [exact H | contradiction].
    - apply Hnone. reflexivity. }
  split.
  { intros Hle. subst err r. unfold trader.executeUpdateStopLoss. fold new.
    apply Qleb_le in Hle. rewrite Hle. simpl. intros H; discriminate H. }
  split; [intros Hfind; apply Hnone; exact Hfind|].
  split.
  { intros pos Hfind old.
    destruct (executeUpdateStopLoss_outcome a env dec rec pos Hfind)
      as [[H Hwhy]|(Herr & Hnoop & Hsave & H)];
      fold sym new in H; fold r a' in H; fold old in H.
    - split; [intros k _; rewrite H; reflexivity|].
      intros He Hn Hs. fold sym new old in Hwhy. destruct (Hwhy He); congruence.
    - split.
      + intros k Hk. rewrite H. simpl. apply GetLogic_Save_other. exact Hk.
      + intros _ _ _. rewrite H. simpl.
        unfold positionlogic.SaveStopLossAndTakeProfit, positionlogic.GetLogic.
        rewrite lookup_insert_eq. eexists. split; [reflexivity|]. simpl.
        fold (positionlogic.GetLogic (trader.positionLogic a) sym (trader.side pos)).
        fold old.
        assert (Hnew : Qgtb new 0 = true).
        { destruct (Qgtb new 0) eqn:E; [reflexivity|]. exfalso.
          apply Qgtb_le in E. apply Qleb_le in E.
          subst err r. unfold trader.executeUpdateStopLoss in Herr. fold new in Herr.
          rewrite E in Herr. discriminate Herr. }
        rewrite Hnew. split; [reflexivity|]. split; [|repeat split; reflexivity].
        generalize (positionlogic.TakeProfit (positionlogic.orEmpty old)). intros tp0.
        destruct (Qleb (decision.TakeProfit dec) 0) eqn:E1; simpl.
        * assert (E3 : Qgtb (decision.TakeProfit dec) 0 = false).
          { apply Qgtb_le. apply Qleb_le. exact E1. }
          rewrite E3. destruct (Qgtb tp0 0) eqn:E2; [rewrite E2; reflexivity|].
          rewrite E3. reflexivity.
        * assert (E3 : Qgtb (decision.TakeProfit dec) 0 = true).
          { apply Qgtb_gt. apply Qleb_gt. exact E1. }
          rewrite E3. reflexivity. }
  destruct Hall as [->|[tbl ->]]; repeat split; reflexivity.
Qed.
(** ** The take-profit update, the dispatcher and the execution loop *)

Ltac split_all := repeat match goal with |- _ /\ _ => split end.

Lemma executeUpdateTakeProfit_outcome (a : trader.AutoTrader) (env : trader.UpdateEnv)
    (dec : decision.Decision) (rec : logger.DecisionAction) (pos : trader.Position) :
  let sym := decision.Symbol dec in
  let new := decision.TakeProfit dec in
  let sd := trader.side pos in
  let old := positionlogic.GetLogic (trader.positionLogic a) sym sd in
  let oldSL := positionlogic.StopLoss (positionlogic.orEmpty old) in
  let r := trader.executeUpdateTakeProfit a env dec rec in
  trader.findPositionBySymbol (trader.uePositions env) sym = Some pos ->
  (snd r = a
   /\ (fst (fst r) = None ->
       trader.isNoOpTakeProfit old new = true \/ trader.ueSave env = false))
  \/ (fst (fst r) = None /\ trader.isNoOpTakeProfit old new = false
      /\ trader.ueSave env = true
      /\ (exists price,
            trader.ueMarket env = Some price /\ Qleb price 0 = false
            /\ trader.checkTakeProfitAgainstPrice sd new price = None
            /\ trader.checkTakeProfitAgainstStop sd (decision.StopLoss dec) new price = None)
      /\ snd r = trader.setPositionLogic a
                   (positionlogic.SaveStopLossAndTakeProfit (trader.positionLogic a) sym sd
                      (if Qleb (decision.StopLoss dec) 0 && Qgtb oldSL 0
                       then oldSL else decision.StopLoss dec) new)).
Proof.
  intros sym new sd old oldSL r Hfind. subst r. unfold trader.executeUpdateTakeProfit.
  fold sym. fold new. rewrite Hfind. fold sd. fold old.
  assert (HoldSL : match old with
                   | Some l => positionlogic.StopLoss l | None => 0%Q end = oldSL).
  { subst oldSL. destruct old; reflexivity. }
  rewrite HoldSL. clear HoldSL. generalize oldSL. intros sl0.
  destruct (Qleb new 0); [left; split; [reflexivity | intros H; discriminate H]|].
  destruct (trader.isNoOpTakeProfit old new) eqn:Hnoop;
    [left; split; [reflexivity | auto]|].
  destruct (trader.ueMarket env) as [price|];
    [|left; split; [reflexivity | intros H; discriminate H]].
  destruct (Qleb price 0) eqn:Hprice;
    [left; split; [reflexivity | intros H; discriminate H]|].
  destruct (trader.checkTakeProfitAgainstPrice sd new price) eqn:Hc1;
    [left; split; [reflexivity | intros H; discriminate H]|].
  destruct (trader.checkTakeProfitAgainstStop sd _ new price) eqn:Hc2;
    [left; split; [reflexivity | intros H; discriminate H]|].
  set (pre := if Qleb (decision.StopLoss dec) 0 && Qgtb sl0 0
              then sl0 else decision.StopLoss dec).
  assert (Hsave : (if Qleb (decision.StopLoss dec) 0 && Qgtb pre 0
                   then pre else decision.StopLoss dec) = pre).
  { subst pre. destruct (Qleb (decision.StopLoss dec) 0) eqn:E1; simpl; [|reflexivity].
    destruct (Qgtb sl0 0) eqn:E2; simpl; [rewrite E2; reflexivity|].
    destruct (Qgtb (decision.StopLoss dec) 0); reflexivity. }
  rewrite Hsave.
  destruct (trader.ueCancel env);
    try (left; split; [reflexivity | intros H; discriminate H]; fail);
    (destruct (negb (trader.ueSetTakeProfit env));
       [left; split; [reflexivity | intros H; discriminate H]|]);
    (destruct (Qgtb pre 0 && negb _);
       [left; split; [reflexivity | intros H; discriminate H]|]);
    (destruct (trader.ueSave env); simpl;
       [right; split_all; try reflexivity; exists price; split_all; (reflexivity || assumption)
       |left; split; [reflexivity | intros _; right; reflexivity]]).
Qed.

Lemma executeUpdateTakeProfit_none (a : trader.AutoTrader) (env : trader.UpdateEnv)
    (dec : decision.Decision) (rec : logger.DecisionAction) :
  trader.findPositionBySymbol (trader.uePositions env) (decision.Symbol dec) = None ->
  fst (fst (trader.executeUpdateTakeProfit a env dec rec)) <> None
  /\ snd (trader.executeUpdateTakeProfit a env dec rec) = a.
Proof.
  intros Hfind. unfold trader.executeUpdateTakeProfit. rewrite Hfind.
  destruct (Qleb _ 0); simpl; (split; [intros H; discriminate H | reflexivity]).
Qed.

(** X20.  [executeUpdateTakeProfit]: a request that ends with an error
    changes nothing, and a take-profit that is not positive or a symbol
    without a position ends with an error.  An executed request has a
    take-profit on the profit side of the current price (above it for a
    long, below it for a short) and, when the decision carries a stop, a
    price strictly between the stop and the take-profit; when its write
    succeeds it stores the new take-profit, stores the stop of the decision
    when it carries one -- there is no trailing rule on this path -- and
    keeps the stored stop otherwise, and keeps the entry logic, the exit
    logic and the first-seen time.  Nothing but the logic of that position
    is ever written. *)
Theorem X20_update_take_profit_effects
    (a : trader.AutoTrader) (env : trader.UpdateEnv)
    (dec : decision.Decision) (rec : logger.DecisionAction) :
  let sym := decision.Symbol dec in
  let new := decision.TakeProfit dec in
  let stop := decision.StopLoss dec in
  let r := trader.executeUpdateTakeProfit a env dec rec in
  let err := fst (fst r) in
  let a' := snd r in
  (err <> None -> a' = a)
  /\ ((new <= 0)%Q -> err <> None)
  /\ (trader.findPositionBySymbol (trader.uePositions env) sym = None -> err <> None)
  /\ (forall pos, trader.findPositionBySymbol (trader.uePositions env) sym = Some pos ->
        let sd := trader.side pos in
        let old := positionlogic.GetLogic (trader.positionLogic a) sym sd in
        (forall k, k <> positionlogic.posKey sym sd ->
                   trader.positionLogic a' !! k = trader.positionLogic a !! k)
        /\ (err = None -> trader.isNoOpTakeProfit old new = false ->
            trader.ueSave env = true ->
            (exists price,
               trader.ueMarket env = Some price /\ (0 < price)%Q
               /\ (if String.eqb sd "long"
                   then (price < new)%Q /\ ((0 < stop)%Q -> (stop < price)%Q)
                   else (new < price)%Q /\ ((0 < stop)%Q -> (price < stop)%Q)))
            /\ exists l,
                 positionlogic.GetLogic (trader.positionLogic a') sym sd = Some l
                 /\ positionlogic.TakeProfit l = new
                 /\ positionlogic.StopLoss l
                    = (if Qgtb stop 0 then stop
                       else positionlogic.StopLoss (positionlogic.orEmpty old))
                 /\ positionlogic.EntryLogic l
                    = positionlogic.EntryLogic (positionlogic.orEmpty old)
                 /\ positionlogic.ExitLogic l
                    = positionlogic.ExitLogic (positionlogic.orEmpty old)
                 /\ positionlogic.FirstSeenTime l
                    = positionlogic.FirstSeenTime (positionlogic.orEmpty old)))
  /\ trader.trades a' = trader.trades a
  /\ trader.forcedClosedPositions a' = trader.forcedClosedPositions a
  /\ trader.closingPositions a' = trader.closingPositions a
  /\ trader.positionFirstSeenTime a' = trader.positionFirstSeenTime a
  /\ riskView a' = riskView a.
Proof.
  intros sym new stop r err a'.
  assert (Hall : a' = a \/ exists tbl, a' = trader.setPositionLogic a tbl).
  { destruct (trader.findPositionBySymbol (trader.uePositions env) sym) as [pos|] eqn:Hfind.
    - destruct (executeUpdateTakeProfit_outcome a env dec rec pos Hfind)
        as [[H _]|(_ & _ & _ & _ & H)]; [left; exact H | right; eexists; exact H].
    - left. apply executeUpdateTakeProfit_none. exact Hfind. }
  split.
  { intros Herr.
    destruct (trader.findPositionBySymbol (trader.uePositions env) sym) as [pos|] eqn:Hfind.
    - destruct (executeUpdateTakeProfit_outcome a env dec rec pos Hfind)
        as [[H _]|(H & _)]; [exact H | contradiction].
    - apply executeUpdateTakeProfit_none. exact Hfind. }
  split.
  { intros Hle. subst err r. unfold trader.executeUpdateTakeProfit. fold new.
    apply Qleb_le in Hle. rewrite Hle. simpl. intros H; discriminate H. }
  split; [intros Hfind; apply executeUpdateTakeProfit_none; exact Hfind|].
  split.
  { intros pos Hfind sd old.
    destruct (executeUpdateTakeProfit_outcome a env dec rec pos Hfind)
      as [[H Hwhy]|(Herr & Hnoop & Hsave & (price & Hm & Hp & Hc1 & Hc2) & H)].
    - split; [intros k _; fold r a' in H; rewrite H; reflexivity|].
      intros He Hn Hs. fold sym new sd old in Hwhy. destruct (Hwhy He); congruence.
    - fold sym new sd in H, Hc1, Hc2. fold r a' in H. fold old in H. fold stop in Hc2, H.
      split.
      + intros k Hk. rewrite H. simpl. apply GetLogic_Save_other. exact Hk.
      + intros _ _ _. split.
        * exists price. split; [exact Hm|]. apply Qleb_gt in Hp. split; [exact Hp|].
          unfold trader.checkTakeProfitAgainstPrice in Hc1.
          unfold trader.checkTakeProfitAgainstStop in Hc2.
          destruct (String.eqb sd "long").
          -- destruct (Qleb new price) eqn:E1; [discriminate|]. apply Qleb_gt in E1.
             split; [exact E1|]. intros Hs. apply Qgtb_gt in Hs. rewrite Hs in Hc2.
             destruct (Qgeb stop new); [discriminate|].
             destruct (Qgeb stop price) eqn:E2; [discriminate|]. apply Qgeb_lt in E2.
             exact E2.
          -- destruct (Qgeb new price) eqn:E1; [discriminate|]. apply Qgeb_lt in E1.
             split; [exact E1|]. intros Hs. apply Qgtb_gt in Hs. rewrite Hs in Hc2.
             destruct (Qleb stop new); [discriminate|].
             destruct (Qleb stop price) eqn:E2; [discriminate|]. apply Qleb_gt in E2.
             exact E2.
        * rewrite H. simpl.
          unfold positionlogic.SaveStopLossAndTakeProfit, positionlogic.GetLogic.
          rewrite lookup_insert_eq. eexists. split; [reflexivity|]. simpl.
          fold (positionlogic.GetLogic (trader.positionLogic a) sym sd). fold old.
          assert (Hnew : Qgtb new 0 = true).
          { destruct (Qgtb new 0) eqn:E; [reflexivity|]. exfalso.
            apply Qgtb_le in E. apply Qleb_le in E.
            subst err r. unfold trader.executeUpdateTakeProfit in Herr. fold new in Herr.
            rewrite E in Herr. discriminate Herr. }
          rewrite Hnew. split; [reflexivity|]. split; [|split_all; reflexivity].
          generalize (positionlogic.StopLoss (positionlogic.orEmpty old)). intros sl0.
          destruct (Qleb stop 0) eqn:E1; simpl.
          -- assert (E3 : Qgtb stop 0 = false).
             { apply Qgtb_le. apply Qleb_le. exact E1. }
             rewrite E3. destruct (Qgtb sl0 0) eqn:E2; [rewrite E2; reflexivity|].
             rewrite E3. reflexivity.
          -- assert (E3 : Qgtb stop 0 = true).
             { apply Qgtb_gt. apply Qleb_gt. exact E1. }
             rewrite E3. reflexivity. }
  destruct Hall as [->|[tbl ->]]; split_all; reflexivity.
Qed.
(** ** The dispatcher and the execution loop *)

Ltac all_cases :=
  repeat match goal with
         | |- context [match ?x with _ => _ end] => destruct x
         end.

Lemma sameHeader_refl (r : logger.DecisionAction) : sameHeader r r.
Proof. unfold sameHeader. split_all; reflexivity. Qed.

Lemma executeOpenWithRecord_frame (sd : string) (a : trader.AutoTrader)
    (env : trader.OpenEnv) (dec : decision.Decision) (rec : logger.DecisionAction) :
  let r := trader.executeOpenWithRecord sd a env dec rec in
  let after := snd (trader.buildTradingContext a (trader.oeContext env)) in
  trader.forcedClosedPositions (snd r) = trader.forcedClosedPositions a
  /\ riskView (snd r) = riskView a
  /\ trader.trades (snd r) = trader.trades a
  /\ sameHeader rec (snd (fst r))
  /\ (fst (fst r) <> None ->
      trader.positionLogic (snd r) = trader.positionLogic a
      /\ (snd r = a \/ snd r = after)).
Proof.
  intros r after.
  pose proof (buildTradingContext_frame a (trader.oeContext env)) as Hframe.
  fold after in Hframe.
  destruct (executeOpenWithRecord_states sd a env dec rec) as [Hbefore Hafter].
  fold r in Hbefore, Hafter. fold after in Hafter.
  assert (Hhead : sameHeader rec (snd (fst r))).
  { subst r. unfold trader.executeOpenWithRecord, sameHeader.
    destruct (trader.hasPosition _ sd (trader.oePositionsBefore env));
      [simpl; split_all; reflexivity|].
    destruct (trader.buildTradingContext a (trader.oeContext env)) as [built a0].
    all_cases; simpl; split_all; reflexivity. }
  destruct (trader.hasPosition (decision.Symbol dec) sd (trader.oePositionsBefore env)).
  - rewrite (Hbefore eq_refl) in *. simpl. split_all; try reflexivity; [exact Hhead|].
    intros _. split; [reflexivity | left; reflexivity].
  - destruct (Hafter eq_refl) as [[Herr Hs]|[Herr (m & l & Hs)]]; rewrite Hs.
    + rewrite Hframe. split_all; try reflexivity; [exact Hhead|].
      intros _. split; [reflexivity | right; reflexivity].
    + rewrite Hframe. split_all; try reflexivity; [exact Hhead|].
      intros H. contradiction.
Qed.

Lemma executeCloseWithRecord_frame (sd : string) (a : trader.AutoTrader)
    (env : trader.CloseEnv) (dec : decision.Decision) (rec : logger.DecisionAction) :
  let r := trader.executeCloseWithRecord sd a env dec rec in
  trader.forcedClosedPositions (snd r) = trader.forcedClosedPositions a
  /\ riskView (snd r) = riskView a
  /\ appendsAtMost (decision.Symbol dec) sd (snd (fst r))
       (trader.trades a) (trader.trades (snd r))
  /\ sameHeader rec (snd (fst r))
  /\ (fst (fst r) <> None ->
      trader.trades (snd r) = trader.trades a
      /\ trader.positionLogic (snd r) = trader.positionLogic a
      /\ trader.positionFirstSeenTime (snd r) = trader.positionFirstSeenTime a).
Proof.
  unfold trader.executeCloseWithRecord, sameHeader.
  destruct (trader.forcedClosedPositions a !! _);
    [simpl; split_all; try reflexivity; [left; reflexivity | intros _; split_all; reflexivity]|].
  destruct (trader.ceMarket env) as [price|];
    [|simpl; split_all; try reflexivity;
      [left; reflexivity | intros _; split_all; reflexivity]].
  destruct (trader.ceOrder env) as [oid|];
    [|simpl; split_all; try reflexivity;
      [left; reflexivity | intros _; split_all; reflexivity]].
  match goal with
  | |- context [trader.recordTradeHistory ?s ?e sd dec ?c false ?fr] =>
      destruct (recordTradeHistory_shape s e sd dec c false fr) as (tbl & -> & Happ)
  end.
  simpl in *. split_all; try reflexivity; try exact Happ;
    try (destruct (trader.stillOpen _ _ _); reflexivity).
  intros H; contradiction.
Qed.

Lemma executeUpdateStopLoss_frame (a : trader.AutoTrader) (env : trader.UpdateEnv)
    (dec : decision.Decision) (rec : logger.DecisionAction) :
  let r := trader.executeUpdateStopLoss a env dec rec in
  (snd r = a \/ exists tbl, snd r = trader.setPositionLogic a tbl)
  /\ sameHeader rec (snd (fst r))
  /\ (fst (fst r) <> None -> snd r = a).
Proof.
  unfold trader.executeUpdateStopLoss, sameHeader. all_cases; simpl; split_all;
    try reflexivity; try (left; reflexivity); try (right; eexists; reflexivity);
    intros H; try reflexivity; contradiction.
Qed.

Lemma executeUpdateTakeProfit_frame (a : trader.AutoTrader) (env : trader.UpdateEnv)
    (dec : decision.Decision) (rec : logger.DecisionAction) :
  let r := trader.executeUpdateTakeProfit a env dec rec in
  (snd r = a \/ exists tbl, snd r = trader.setPositionLogic a tbl)
  /\ sameHeader rec (snd (fst r))
  /\ (fst (fst r) <> None -> snd r = a).
Proof.
  unfold trader.executeUpdateTakeProfit, sameHeader. all_cases; simpl; split_all;
    try reflexivity; try (left; reflexivity); try (right; eexists; reflexivity);
    intros H; try reflexivity; contradiction.
Qed.

Lemma appendsAtMost_rows (sym sd : string) (ca : logger.DecisionAction)
    (old new : storage.table) :
  appendsAtMost sym sd ca old new ->
  exists rows, new = old ++ rows /\ (length rows <= 1)%nat.
Proof.
  intros [->|(row & -> & _)].
  - exists []. split; [symmetry; apply app_nil_r | simpl; lia].
  - exists [row]. split; [reflexivity | simpl; lia].
Qed.

Lemma executeDecisionWithRecord_frame (a : trader.AutoTrader) (env : trader.ExecEnv)
    (dec : decision.Decision) (rec : logger.DecisionAction) :
  let r := trader.executeDecisionWithRecord a env dec rec in
  trader.forcedClosedPositions (snd r) = trader.forcedClosedPositions a
  /\ riskView (snd r) = riskView a
  /\ sameHeader rec (snd (fst r))
  /\ (exists rows, trader.trades (snd r) = trader.trades a ++ rows
                   /\ (length rows <= if isCloseDecision dec then 1 else 0)%nat)
  /\ (fst (fst r) <> None ->
      trader.trades (snd r) = trader.trades a
      /\ trader.positionLogic (snd r) = trader.positionLogic a
      /\ (trader.positionFirstSeenTime (snd r) = trader.positionFirstSeenTime a
          \/ ((decision.Action dec = "open_long" \/ decision.Action dec = "open_short")
              /\ snd r = snd (trader.buildTradingContext a
                                (trader.oeContext (trader.exOpen env)))))).
Proof.
  unfold trader.executeDecisionWithRecord, isCloseDecision.
  assert (Hnil : forall t : storage.table,
             exists rows : storage.table, t = t ++ rows /\ (length rows <= 0)%nat).
  { intros t. exists []. split; [symmetry; apply app_nil_r | simpl; lia]. }
  assert (Hnil1 : forall t : storage.table,
             exists rows : storage.table, t = t ++ rows /\ (length rows <= 1)%nat).
  { intros t. exists []. split; [symmetry; apply app_nil_r | simpl; lia]. }
  destruct (String.eqb (decision.Action dec) "open_long") eqn:E1.
  { apply String.eqb_eq in E1. rewrite E1. simpl.
    destruct (executeOpenWithRecord_frame "long" a (trader.exOpen env) dec rec)
      as (H1 & H2 & H3 & H4 & H5).
    unfold trader.executeOpenLongWithRecord.
    split_all; auto. { rewrite H3. apply Hnil. }
    intros H. destruct (H5 H) as [Hl Hs]. split; [exact H3|]. split; [exact Hl|].
    destruct Hs as [Hs|Hs]; [left; rewrite Hs; reflexivity|].
    right. split; [left; reflexivity | exact Hs]. }
  destruct (String.eqb (decision.Action dec) "open_short") eqn:E2.
  { apply String.eqb_eq in E2. rewrite E2. simpl.
    destruct (executeOpenWithRecord_frame "short" a (trader.exOpen env) dec rec)
      as (H1 & H2 & H3 & H4 & H5).
    unfold trader.executeOpenShortWithRecord.
    split_all; auto. { rewrite H3. apply Hnil. }
    intros H. destruct (H5 H) as [Hl Hs]. split; [exact H3|]. split; [exact Hl|].
    destruct Hs as [Hs|Hs]; [left; rewrite Hs; reflexivity|].
    right. split; [right; reflexivity | exact Hs]. }
  destruct (String.eqb (decision.Action dec) "close_long") eqn:E3.
  { simpl.
    destruct (executeCloseWithRecord_frame "long" a (trader.exClose env) dec rec)
      as (H1 & H2 & H3 & H4 & H5).
    unfold trader.executeCloseLongWithRecord.
    split_all; auto. { eapply appendsAtMost_rows. exact H3. }
    intros H. destruct (H5 H) as (A & B & C). split_all; auto. }
  destruct (String.eqb (decision.Action dec) "close_short") eqn:E4.
  { simpl.
    destruct (executeCloseWithRecord_frame "short" a (trader.exClose env) dec rec)
      as (H1 & H2 & H3 & H4 & H5).
    unfold trader.executeCloseShortWithRecord.
    split_all; auto. { eapply appendsAtMost_rows. exact H3. }
    intros H. destruct (H5 H) as (A & B & C). split_all; auto. }
  simpl.
  destruct (String.eqb (decision.Action dec) "update_tp").
  { destruct (executeUpdateTakeProfit_frame a (trader.exUpdate env) dec rec)
      as (H1 & H2 & H3).
    split_all; auto.
    - destruct H1 as [->|[tbl ->]]; reflexivity.
    - destruct H1 as [->|[tbl ->]]; reflexivity.
    - destruct H1 as [->|[tbl ->]]; apply Hnil.
    - intros H. rewrite (H3 H). split_all; try reflexivity. left. reflexivity. }
  destruct (String.eqb (decision.Action dec) "update_sl").
  { destruct (executeUpdateStopLoss_frame a (trader.exUpdate env) dec rec)
      as (H1 & H2 & H3).
    split_all; auto.
    - destruct H1 as [->|[tbl ->]]; reflexivity.
    - destruct H1 as [->|[tbl ->]]; reflexivity.
    - destruct H1 as [->|[tbl ->]]; apply Hnil.
    - intros H. rewrite (H3 H). split_all; try reflexivity. left. reflexivity. }
  destruct (_ || _); simpl; split_all; try reflexivity; try apply sameHeader_refl;
    try apply Hnil; intros _; split_all; try reflexivity; left; reflexivity.
Qed.

(** X21.  The dispatcher [executeDecisionWithRecord]: hold and wait do
    nothing and succeed; an action that is none of the eight known ones is
    an error and changes nothing.  Whatever the decision, the forced-close
    registry and the account risk state are not written, the action record
    keeps its action, symbol, leverage and flags, no trade row is removed or
    changed, only a close can append one (at most one), and a decision that
    ends with an error leaves the trade table and the position logic as they
    were; it leaves the first-seen times as they were too, unless it is an
    open that failed after building the trading context: the trader is then
    as [buildTradingContext] left it. *)
Theorem X21_dispatcher_effects
    (a : trader.AutoTrader) (env : trader.ExecEnv)
    (dec : decision.Decision) (rec : logger.DecisionAction) :
  let r := trader.executeDecisionWithRecord a env dec rec in
  let err := fst (fst r) in
  let a' := snd r in
  (decision.Action dec = "hold" \/ decision.Action dec = "wait" -> r = (None, rec, a))
  /\ (decision.validAction (decision.Action dec) = false ->
      err <> None /\ snd (fst r) = rec /\ a' = a)
  /\ trader.forcedClosedPositions a' = trader.forcedClosedPositions a
  /\ riskView a' = riskView a
  /\ sameHeader rec (snd (fst r))
  /\ (exists rows, trader.trades a' = trader.trades a ++ rows
                   /\ (length rows <= if isCloseDecision dec then 1 else 0)%nat)
  /\ (err <> None ->
      trader.trades a' = trader.trades a
      /\ trader.positionLogic a' = trader.positionLogic a
      /\ (trader.positionFirstSeenTime a' = trader.positionFirstSeenTime a
          \/ ((decision.Action dec = "open_long" \/ decision.Action dec = "open_short")
              /\ a' = snd (trader.buildTradingContext a
                             (trader.oeContext (trader.exOpen env)))))).
Proof.
  intros r err a'. split.
  { intros [H|H]; subst r; unfold trader.executeDecisionWithRecord; rewrite H; reflexivity. }
  split.
  { unfold decision.validAction. intros H.
    repeat (apply orb_false_iff in H; destruct H as [H ?]).
    subst r err a'. unfold trader.executeDecisionWithRecord.
    repeat match goal with E : String.eqb _ _ = false |- _ => rewrite E; clear E end.
    simpl. split_all; try reflexivity. intros H'; discriminate H'. }
  apply executeDecisionWithRecord_frame.
Qed.

Lemma passRegistry_frame (a a1 : trader.AutoTrader) (key : string) (now : Z) :
  trader.passRegistry a key now = Some a1 ->
  riskView a1 = riskView a /\ trader.trades a1 = trader.trades a.
Proof.
  unfold trader.passRegistry. destruct (_ !! key) as [t|].
  - destruct (_ <? _)%Z; [|discriminate]. intros H. inversion H. split; reflexivity.
  - intros H. inversion H. split; reflexivity.
Qed.

Lemma executeDecisions_spec (env : nat -> trader.ExecEnv) (ds : list decision.Decision) :
  forall (a : trader.AutoTrader) (i : nat),
    let r := trader.executeDecisions a env i ds in
    sublist (List.map (fun rec => (logger.Symbol rec, logger.Action rec, logger.Leverage rec))
                      (fst r))
            (List.map (fun d => (decision.Symbol d, decision.Action d, decision.Leverage d))
                      ds)
    /\ (forall rec, In rec (fst r) -> logger.IsForced rec = false)
    /\ riskView (snd r) = riskView a
    /\ exists rows, trader.trades (snd r) = trader.trades a ++ rows
                    /\ (length rows <= length (List.filter isCloseDecision ds))%nat.
Proof.
  induction ds as [|d ds IH]; intros a i; simpl.
  { split; [constructor|]. split; [intros rec []|]. split; [reflexivity|].
    exists []. split; [symmetry; apply app_nil_r | simpl; lia]. }
  destruct (trader.passRegistry a (trader.executionKey d) _) as [a1|] eqn:Hp.
  - apply passRegistry_frame in Hp. destruct Hp as [Hrv Htr].
    pose proof (executeDecisionWithRecord_frame a1 (env i) d
                  (trader.pendingAction d (trader.exStamp (env i)))) as Hf.
    destruct (trader.executeDecisionWithRecord a1 (env i) d _) as [[err rec1] a2].
    simpl in Hf. destruct Hf as (_ & Hrv2 & Hhd & (rows1 & Hrows1 & Hlen1) & _).
    specialize (IH a2 (S i)).
    destruct (trader.executeDecisions a2 env (S i) ds) as [recs a3]. simpl in IH.
    destruct IH as (Hsub & Hforced & Hrv3 & (rows2 & Hrows2 & Hlen2)).
    destruct Hhd as (Hact & Hsym & Hlev & Hisf & _).
    simpl in Hact, Hsym, Hlev, Hisf. simpl.
    assert (Hrec : forall rec2,
               rec2 = match err with
                      | Some e => trader.withError rec1 e
                      | None => trader.withSuccess rec1 true
                      end ->
               logger.Symbol rec2 = decision.Symbol d
               /\ logger.Action rec2 = decision.Action d
               /\ logger.Leverage rec2 = decision.Leverage d
               /\ logger.IsForced rec2 = false).
    { intros rec2 ->. destruct err; simpl; auto. }
    destruct (Hrec _ eq_refl) as (H1 & H2 & H3 & H4).
    split. { rewrite H1, H2, H3. apply sublist_skip. exact Hsub. }
    split. { intros rec [<-|Hin]; [exact H4 | apply Hforced; exact Hin]. }
    split. { congruence. }
    exists (rows1 ++ rows2). split.
    + rewrite Hrows2, Hrows1, Htr. symmetry. apply app_assoc.
    + rewrite length_app. destruct (isCloseDecision d); simpl; lia.
  - specialize (IH a (S i)).
    destruct (trader.executeDecisions a env (S i) ds) as [recs a3]. simpl in IH.
    destruct IH as (Hsub & Hforced & Hrv3 & (rows2 & Hrows2 & Hlen2)). simpl.
    split. { apply sublist_cons. exact Hsub. }
    split; [exact Hforced|]. split; [exact Hrv3|].
    exists rows2. split; [exact Hrows2|].
    destruct (isCloseDecision d); simpl; lia.
Qed.

(** X22.  The execution loop of the cycle.  The records it logs are, in
    order, those of the decisions it did not skip: each carries the symbol,
    the action and the leverage of its decision and is not flagged as
    forced, so there are at most as many records as decisions.  A decision
    whose registry key carries a mark no older than five minutes is skipped
    without a record and without any change -- the key of a close_long or
    close_short decision is the one of the position, so an AI close of a
    position the watchdog has just closed is skipped.  The loop never writes
    the account risk state, never removes or changes a trade row, and
    appends at most one row per close decision. *)
Theorem X22_execution_loop
    (a : trader.AutoTrader) (env : nat -> trader.ExecEnv) (i : nat)
    (ds : list decision.Decision) :
  let r := trader.executeDecisions a env i ds in
  sublist (List.map (fun rec => (logger.Symbol rec, logger.Action rec, logger.Leverage rec))
                    (fst r))
          (List.map (fun d => (decision.Symbol d, decision.Action d, decision.Leverage d))
                    ds)
  /\ (length (fst r) <= length ds)%nat
  /\ (forall rec, In rec (fst r) -> logger.IsForced rec = false)
  /\ (forall d ds' t,
        ds = d :: ds' ->
        trader.forcedClosedPositions a !! trader.executionKey d = Some t ->
        (trader.exNow (env i) - t <= trader.PositionStopLossRetryTimeout)%Z ->
        r = trader.executeDecisions a env (S i) ds')
  /\ (forall d, decision.Action d = "close_long" ->
        trader.executionKey d = trader.posKey (decision.Symbol d) "long")
  /\ (forall d, decision.Action d = "close_short" ->
        trader.executionKey d = trader.posKey (decision.Symbol d) "short")
  /\ riskView (snd r) = riskView a
  /\ exists rows, trader.trades (snd r) = trader.trades a ++ rows
                  /\ (length rows <= length (List.filter isCloseDecision ds))%nat.
Proof.
  intros r. destruct (executeDecisions_spec env ds a i) as (Hsub & Hforced & Hrv & Hrows).
  fold r in Hsub, Hforced, Hrv, Hrows.
  split; [exact Hsub|].
  split. { apply sublist_length in Hsub. rewrite !length_map in Hsub. exact Hsub. }
  split; [exact Hforced|].
  split.
  { intros d ds' t -> Hm Hfresh. subst r. simpl.
    unfold trader.passRegistry. rewrite Hm.
    apply Z.ltb_ge in Hfresh. rewrite Hfresh. reflexivity. }
  split. { intros d H. unfold trader.executionKey. rewrite H. reflexivity. }
  split. { intros d H. unfold trader.executionKey. rewrite H. reflexivity. }
  split; [exact Hrv | exact Hrows].
Qed.
(** ** The exchange-trade reconciler *)

Section orderMap.

Variable known : Z -> bool.

Lemma upsertAgg_keys (oid : Z) (fresh : trader.aggregatedTrade)
    (merge : trader.aggregatedTrade -> trader.aggregatedTrade)
    (m : list (Z * trader.aggregatedTrade)) :
  List.map fst (trader.upsertAgg oid fresh merge m)
  = if existsb (fun p => Z.eqb (fst p) oid) m
    then List.map fst m else List.map fst m ++ [oid].
Proof.
  induction m as [|[k agg] m IH]; simpl; [reflexivity|].
  destruct (Z.eqb k oid); simpl; [reflexivity|].
  rewrite IH. destruct (existsb _ m); reflexivity.
Qed.

Lemma upsertAgg_In (oid : Z) (fresh : trader.aggregatedTrade)
    (merge : trader.aggregatedTrade -> trader.aggregatedTrade)
    (m : list (Z * trader.aggregatedTrade)) (p : Z * trader.aggregatedTrade) :
  In p (trader.upsertAgg oid fresh merge m) ->
  In p m \/ p = (oid, fresh)
  \/ exists agg, In (fst p, agg) m /\ snd p = merge agg.
Proof.
  induction m as [|[k agg] m IH]; simpl.
  - intros [<-|[]]. right. left. reflexivity.
  - destruct (Z.eqb k oid) eqn:E; simpl.
    + intros [<-|H]; [|left; right; exact H].
      right. right. exists agg. simpl. split; [left; reflexivity | reflexivity].
    + intros [<-|H]; [left; left; reflexivity|].
      destruct (IH H) as [H1|[H1|(agg' & H1 & H2)]].
      * left. right. exact H1.
      * right. left. exact H1.
      * right. right. exists agg'. split; [right; exact H1 | exact H2].
Qed.

Lemma existsb_key_In (oid : Z) (m : list (Z * trader.aggregatedTrade)) :
  existsb (fun p => Z.eqb (fst p) oid) m = false -> ~ In oid (List.map fst m).
Proof.
  intros H Hin. apply in_map_iff in Hin. destruct Hin as ([k agg] & Hk & Hin).
  simpl in Hk. subst k.
  assert (existsb (fun p : Z * trader.aggregatedTrade => Z.eqb (fst p) oid) m = true).
  { apply existsb_exists. exists (oid, agg). split; [exact Hin | apply Z.eqb_refl]. }
  congruence.
Qed.

Lemma closedSide_cases (s ts : string) :
  trader.closedSide s = Some ts -> ts = "long" \/ ts = "short".
Proof.
  unfold trader.closedSide. destruct (String.eqb _ "SELL"); [intros H; inversion H; auto|].
  destruct (String.eqb _ "BUY"); [intros H; inversion H; auto | discriminate].
Qed.

Lemma addFill_good (m : list (Z * trader.aggregatedTrade)) (f : trader.Fill) :
  NoDup (List.map fst m) -> Forall (goodGroup known) m ->
  NoDup (List.map fst (trader.addFill known m f))
  /\ Forall (goodGroup known) (trader.addFill known m f).
Proof.
  intros Hnd Hgood. unfold trader.addFill.
  destruct (trader.fSymbol f) as [sym|]; [|split; assumption].
  destruct (trader.fOrderId f) as [oidq|]; [|split; assumption].
  destruct (String.eqb sym "" || Qeqb oidq 0 || known (trader.truncQ oidq)) eqn:Hskip;
    [split; assumption|].
  apply orb_false_iff in Hskip. destruct Hskip as [_ Hknown].
  destruct (trader.fTime f) as [timeMs|]; [|split; assumption].
  destruct (trader.fPrice f) as [price|]; [|split; assumption].
  destruct (trader.fQty f) as [qty|]; [|split; assumption].
  destruct (Qeqb (trader.fRealizedPnl f) 0); [split; assumption|].
  destruct (trader.closedSide (trader.fSide f)) as [ts|] eqn:Hside; [|split; assumption].
  split.
  - rewrite upsertAgg_keys. destruct (existsb _ m) eqn:E; [exact Hnd|].
    apply existsb_key_In in E. apply NoDup_app. split; [exact Hnd|].
    split; [|apply NoDup_singleton].
    intros x Hx Hin. apply list_elem_of_singleton in Hin. subst x.
    apply E. apply list_elem_of_In. exact Hx.
  - apply List.Forall_forall. intros p Hp. apply upsertAgg_In in Hp.
    rewrite List.Forall_forall in Hgood.
    destruct Hp as [Hp|[->|(agg & Hin & Hm)]].
    + apply Hgood. exact Hp.
    + unfold goodGroup. simpl. split; [reflexivity|]. split; [exact Hknown|].
      eapply closedSide_cases. exact Hside.
    + specialize (Hgood _ Hin). unfold goodGroup in *. simpl in Hgood.
      destruct p as [k agg']. simpl in *. subst agg'. simpl. exact Hgood.
Qed.

Lemma orderMap_good (fills : list trader.Fill) :
  forall m, NoDup (List.map fst m) -> Forall (goodGroup known) m ->
    NoDup (List.map fst (fold_left (trader.addFill known) fills m))
    /\ Forall (goodGroup known) (fold_left (trader.addFill known) fills m).
Proof.
  induction fills as [|f fills IH]; intros m Hnd Hgood; simpl; [split; assumption|].
  destruct (addFill_good m f Hnd Hgood) as [H1 H2]. apply IH; assumption.
Qed.

End orderMap.

Lemma isOpenFillOf_before (agg : trader.aggregatedTrade) (f : trader.Fill) (t : Z) :
  trader.isOpenFillOf agg f = Some t -> (t < trader.lastTime agg)%Z.
Proof.
  unfold trader.isOpenFillOf.
  destruct (trader.fSymbol f); [|discriminate]. destruct (trader.fTime f); [|discriminate].
  destruct (_ && _) eqn:E; [|discriminate].
  intros H. inversion H. subst t.
  apply andb_true_iff in E. destruct E as [_ E]. apply Z.ltb_lt. exact E.
Qed.

Lemma bestOpenFill_before (agg : trader.aggregatedTrade) (fills : list trader.Fill) :
  forall best f t,
    trader.bestOpenFill agg best fills = Some (f, t) ->
    best = Some (f, t) \/ (t < trader.lastTime agg)%Z.
Proof.
  induction fills as [|x fills IH]; intros best f t; simpl; [auto|].
  intros H. apply IH in H. destruct H as [H|H]; [|right; exact H].
  destruct (trader.isOpenFillOf agg x) as [tx|] eqn:E; [|left; exact H].
  apply isOpenFillOf_before in E.
  destruct best as [[bf bt]|].
  - destruct (bt <? tx)%Z; [|left; exact H]. inversion H. subst. right. exact E.
  - inversion H. subst. right. exact E.
Qed.

Lemma bestLocalTrade_before (agg : trader.aggregatedTrade) (l : list storage.TradeRecord) :
  forall best t,
    trader.bestLocalTrade agg best l = Some t ->
    best = Some t \/ (storage.OpenTime t < trader.lastTime agg)%Z.
Proof.
  induction l as [|x l IH]; intros best t; simpl; [auto|].
  intros H. apply IH in H. destruct H as [H|H]; [|right; exact H].
  destruct (_ && (storage.OpenTime x <? trader.lastTime agg)%Z) eqn:E; [|left; exact H].
  apply andb_true_iff in E. destruct E as [_ E]. apply Z.ltb_lt in E.
  destruct best as [b|].
  - destruct (storage.OpenTime b <? storage.OpenTime x)%Z; [|left; exact H].
    inversion H. subst. right. exact E.
  - inversion H. subst. right. exact E.
Qed.

Lemma missingTrade_row (cfg : trader.AutoTraderConfig) (cycle : Z)
    (agg : trader.aggregatedTrade) (fills : list trader.Fill)
    (ps : option (list trader.Position)) (local : list storage.TradeRecord)
    (row : storage.TradeRecord) :
  trader.missingTrade cfg cycle agg fills ps local = Some row ->
  storage.CloseTime row = Some (trader.lastTime agg)
  /\ (storage.OpenTime row < trader.lastTime agg)%Z
  /\ storage.Duration row = (trader.lastTime agg - storage.OpenTime row)%Z
  /\ storage.CloseOrderID row = trader.orderId agg
  /\ storage.Symbol row = trader.aSymbol agg
  /\ storage.Side row = trader.tradeSide agg
  /\ storage.IsForced row = false
  /\ storage.CloseCycleNum row = cycle
  /\ ~ (storage.OpenPrice row == 0)%Q.
Proof.
  unfold trader.missingTrade.
  destruct (Qeqb (trader.osPrice _) 0) eqn:Hprice; [discriminate|].
  intros H. inversion H. clear H. simpl.
  apply Qeqb_neq in Hprice.
  split_all; try reflexivity; [|exact Hprice].
  revert Hprice. unfold trader.reconstructOpen.
  destruct (trader.bestOpenFill agg None fills) as [[f t]|] eqn:Hbest.
  - apply bestOpenFill_before in Hbest. destruct Hbest as [Hbest|Hbest]; [discriminate|].
    simpl. destruct (Qeqb (trader.orZero (trader.fPrice f)) 0) eqn:E; [|intros _; exact Hbest].
    destruct (trader.bestLocalTrade agg None local) as [lt|] eqn:Hl.
    + apply bestLocalTrade_before in Hl. destruct Hl as [Hl|Hl]; [discriminate|].
      intros _. exact Hl.
    + simpl. intros _. exact Hbest.
  - simpl. destruct (trader.bestLocalTrade agg None local) as [lt|] eqn:Hl.
    + apply bestLocalTrade_before in Hl. destruct Hl as [Hl|Hl]; [discriminate|].
      intros _. exact Hl.
    + simpl. intros Hp. exfalso. apply Hp. reflexivity.
Qed.

Lemma omap_keys_sublist {A B} (f : A -> option B) (ka : A -> Z) (kb : B -> Z)
    (l : list A) :
  (forall x y, In x l -> f x = Some y -> kb y = ka x) ->
  sublist (List.map kb (omap f l)) (List.map ka l).
Proof.
  induction l as [|x l IH]; intros Hk; simpl; [constructor|].
  assert (IH' : sublist (List.map kb (omap f l)) (List.map ka l)).
  { apply IH. intros x' y Hin. apply Hk. right. exact Hin. }
  destruct (f x) as [y|] eqn:E; simpl.
  - rewrite (Hk x y (or_introl eq_refl) E). apply sublist_skip. exact IH'.
  - apply sublist_cons. exact IH'.
Qed.

Lemma fold_LogTrade_appends (rows : list storage.TradeRecord) :
  forall tbl : storage.table,
    exists added,
      fold_left (fun t r => snd (storage.LogTrade t r)) rows tbl = tbl ++ added
      /\ sublist added (List.map storage.fullRow rows).
Proof.
  induction rows as [|x rows IH]; intros tbl; simpl.
  - exists []. split; [symmetry; apply app_nil_r | constructor].
  - unfold storage.LogTrade at 2.
    destruct (insertRow_shape tbl (storage.fullRow x)) as [[_ E]|[_ E]]; rewrite E; simpl.
    + destruct (IH tbl) as (added & H1 & H2). exists added.
      split; [exact H1 | apply sublist_cons; exact H2].
    + destruct (IH (tbl ++ [storage.fullRow x])) as (added & H1 & H2).
      exists (storage.fullRow x :: added).
      split; [rewrite H1, <- app_assoc; reflexivity | apply sublist_skip; exact H2].
Qed.

(** X23.  The reconciler ([SyncManualTradesFromExchange]) only adds closed
    trades the table does not know yet.  Every row it tries to insert is a
    closed, non-forced long or short trade with a non-zero open price, opened
    strictly before it was closed, stamped with the current cycle, and its
    close order id is not the close order id of any of the latest 1000 local
    trades; there is one row per exchange order at most.  The table is only
    extended, and only by rows among those; nothing else of the trader is
    written; and when the exchange returns an error or no fill at all the
    trader is left exactly as it was. *)
Theorem X23_reconciler_adds_unknown_closed_trades
    (a : trader.AutoTrader) (env : trader.SyncEnv) :
  let rows := trader.missingTrades a env in
  let a' := trader.SyncManualTradesFromExchange a env in
  (forall row, In row rows ->
     (exists closeTime,
        storage.CloseTime row = Some closeTime
        /\ (storage.OpenTime row < closeTime)%Z
        /\ storage.Duration row = (closeTime - storage.OpenTime row)%Z)
     /\ (storage.Side row = "long" \/ storage.Side row = "short")
     /\ storage.IsForced row = false
     /\ storage.CloseCycleNum row = trader.callCount a
     /\ ~ (storage.OpenPrice row == 0)%Q
     /\ (forall l, In l (storage.GetLatestTrades (trader.trades a) 1000) ->
           (0 < storage.CloseOrderID l)%Z ->
           storage.CloseOrderID l <> storage.CloseOrderID row))
  /\ NoDup (List.map storage.CloseOrderID rows)
  /\ (exists added, trader.trades a' = trader.trades a ++ added
                    /\ (forall row, In row added -> In row rows)
                    /\ (length added <= length rows)%nat)
  /\ a' = trader.setTrades a (trader.trades a')
  /\ (trader.syFills env = None \/ trader.syFills env = Some [] -> a' = a).
Proof.
  intros rows a'.
  set (known := fun oid : Z =>
        existsb (fun t => (0 <? storage.CloseOrderID t)%Z
                          && Z.eqb (storage.CloseOrderID t) oid)
                (storage.GetLatestTrades (trader.trades a) 1000)).
  assert (Hrows : rows = [] \/ exists fills,
             NoDup (List.map fst (fold_left (trader.addFill known) fills []))
             /\ Forall (goodGroup known) (fold_left (trader.addFill known) fills [])
             /\ rows = omap (fun '(_, agg) =>
                               trader.missingTrade (trader.config a) (trader.callCount a)
                                 agg fills (trader.syPositions env)
                                 (storage.GetLatestTrades (trader.trades a) 500))
                            (fold_left (trader.addFill known) fills [])).
  { subst rows. unfold trader.missingTrades.
    destruct (trader.syFills env) as [[|f fills]|]; [left; reflexivity | | left; reflexivity].
    right. exists (f :: fills).
    destruct (orderMap_good known (f :: fills) []) as [H1 H2];
      [apply NoDup_nil_2 | constructor |].
    split; [exact H1|]. split; [exact H2 | reflexivity]. }
  split.
  { intros row Hin. destruct Hrows as [E|(fills & Hnd & Hgood & E)];
      [rewrite E in Hin; destruct Hin|].
    rewrite E in Hin. apply list_elem_of_In, list_elem_of_omap in Hin.
    destruct Hin as ([k agg] & Hin & Hrow).
    apply missingTrade_row in Hrow.
    destruct Hrow as (H1 & H2 & H3 & H4 & H5 & H6 & H7 & H8 & H9).
    rewrite List.Forall_forall in Hgood. apply list_elem_of_In in Hin.
    destruct (Hgood _ Hin) as (G1 & G2 & G3). simpl in G1, G2, G3.
    split; [exists (trader.lastTime agg); auto|].
    split; [rewrite H6; exact G3|].
    split; [exact H7|]. split; [exact H8|]. split; [exact H9|].
    intros l Hl Hpos Heq. rewrite H4, G1 in Heq.
    assert (Hk : known k = true).
    { unfold known. apply existsb_exists. exists l. split; [exact Hl|].
      apply andb_true_iff. split; [apply Z.ltb_lt; exact Hpos | apply Z.eqb_eq; exact Heq]. }
    congruence. }
  split.
  { destruct Hrows as [->|(fills & Hnd & Hgood & ->)]; [apply NoDup_nil_2|].
    eapply sublist_NoDup; [exact Hnd|].
    apply (omap_keys_sublist _ fst storage.CloseOrderID). intros [k agg] row Hin Hrow.
    apply missingTrade_row in Hrow. destruct Hrow as (_ & _ & _ & H4 & _).
    rewrite H4. simpl.
    rewrite List.Forall_forall in Hgood. apply (Hgood _ Hin). }
  split.
  { subst a'. unfold trader.SyncManualTradesFromExchange. simpl.
    destruct (fold_LogTrade_appends (trader.missingTrades a env) (trader.trades a))
      as (added & H & Hsub).
    rewrite missingTrades_fullRow in Hsub.
    exists added. split; [exact H|]. split.
    - intros row Hrow. apply list_elem_of_In.
      eapply elem_of_sublist; [apply list_elem_of_In; exact Hrow | exact Hsub].
    - apply sublist_length. exact Hsub. }
  split; [reflexivity|].
  intros H. subst a'. unfold trader.SyncManualTradesFromExchange, trader.missingTrades.
  destruct H as [-> | ->]; simpl; apply setTrades_id.
Qed.
(** ** Validation of the decisions of the LLM *)

Lemma isOpen_valid (action : string) :
  decision.isOpen action = true -> decision.validAction action = true.
Proof.
  unfold decision.isOpen, decision.validAction. intros H.
  apply orb_true_iff in H. destruct H as [-> | ->]; simpl;
    rewrite ?orb_true_r; reflexivity.
Qed.

Lemma isOpen_not_update (action : string) :
  decision.isOpen action = true ->
  String.eqb action "update_tp" = false /\ String.eqb action "update_sl" = false.
Proof.
  unfold decision.isOpen. intros H. apply orb_true_iff in H.
  destruct H as [H|H]; apply String.eqb_eq in H; subst action; split; reflexivity.
Qed.

(** X24.  What the validation guarantees for an open_long or open_short it
    lets through: the leverage is at least 1 and at most the configured
    limit of the symbol class (BTCUSDT and ETHUSDT, or any other symbol);
    the size is positive; the margin, size / leverage, is at most 50.5 % of
    the equity, so the equity is positive; the size is at most 0.909 times
    equity times the leverage limit; stop and take-profit are positive, and
    the current price, which must be available and positive, lies strictly
    between them, the stop below it for a long and above it for a short. *)
Theorem X24_validation_accepts_only_bounded_opens
    (d : decision.Decision) (accountEquity : Q) (btcEthLeverage altcoinLeverage : Z)
    (market : string -> option Q) :
  let maxLeverage :=
    if decision.isMajor (decision.Symbol d) then btcEthLeverage else altcoinLeverage in
  decision.isOpen (decision.Action d) = true ->
  decision.validateDecisionWithMarketData d accountEquity btcEthLeverage altcoinLeverage
    market = None ->
  (0 < decision.Leverage d <= maxLeverage)%Z
  /\ (0 < decision.PositionSizeUSD d)%Q
  /\ (decision.PositionSizeUSD d / float64 (decision.Leverage d)
      <= 0.505 * accountEquity)%Q
  /\ (0 < accountEquity)%Q
  /\ (decision.PositionSizeUSD d <= 0.909 * (accountEquity * float64 maxLeverage))%Q
  /\ (0 < decision.StopLoss d)%Q /\ (0 < decision.TakeProfit d)%Q
  /\ exists price,
       market (decision.Symbol d) = Some price /\ (0 < price)%Q
       /\ if String.eqb (decision.Action d) "open_long"
          then (decision.StopLoss d < price /\ price < decision.TakeProfit d)%Q
          else (decision.TakeProfit d < price /\ price < decision.StopLoss d)%Q.
Proof.
  intros maxLeverage Hopen. unfold decision.validateDecisionWithMarketData.
  rewrite (isOpen_valid _ Hopen), Hopen. simpl.
  destruct (isOpen_not_update _ Hopen) as [Htp Hsl].
  fold maxLeverage.
  destruct ((decision.Leverage d <=? 0)%Z || (maxLeverage <? decision.Leverage d)%Z) eqn:Hlev;
    [discriminate|].
  apply orb_false_iff in Hlev. destruct Hlev as [Hl1 Hl2].
  apply Z.leb_gt in Hl1. apply Z.ltb_ge in Hl2.
  destruct (Qleb (decision.PositionSizeUSD d) 0) eqn:Hsize; [discriminate|].
  apply Qleb_gt in Hsize.
  destruct (Qgtb (_ / _) _) eqn:Hmargin; [discriminate|]. apply Qgtb_le in Hmargin.
  destruct (Qgtb (decision.PositionSizeUSD d) _) eqn:Hvalue; [discriminate|].
  apply Qgtb_le in Hvalue.
  destruct (Qleb (decision.StopLoss d) 0 || Qleb (decision.TakeProfit d) 0) eqn:Hst;
    [discriminate|].
  apply orb_false_iff in Hst. destruct Hst as [Hs Ht].
  apply Qleb_gt in Hs. apply Qleb_gt in Ht.
  destruct (if String.eqb (decision.Action d) "open_long" then _ else _) eqn:Hord;
    [discriminate|].
  unfold decision.getCurrentMarketPrice.
  destruct (market (decision.Symbol d)) as [price|] eqn:Hm; [|discriminate].
  destruct (Qleb price 0) eqn:Hp; [discriminate|]. apply Qleb_gt in Hp.
  destruct (negb _) eqn:Hentry; [discriminate|]. apply negb_false_iff in Hentry.
  intros _.
  assert (Hlevq : (0 < float64 (decision.Leverage d))%Q).
  { unfold float64. change 0%Q with (inject_Z 0). rewrite <- Zlt_Qlt. exact Hl1. }
  assert (Hmpos : (0 < decision.PositionSizeUSD d / float64 (decision.Leverage d))%Q).
  { apply Qlt_shift_div_l; [exact Hlevq | lra]. }
  change (50 / 100)%Q with (50 # 100)%Q in Hmargin.
  set (m := (decision.PositionSizeUSD d / float64 (decision.Leverage d))%Q) in *.
  split; [lia|]. split; [exact Hsize|].
  split; [lra|]. split; [lra|].
  split.
  { subst maxLeverage. destruct (decision.isMajor (decision.Symbol d)); lra. }
  split; [exact Hs|]. split; [exact Ht|].
  exists price. split; [reflexivity|]. split; [exact Hp|].
  destruct (String.eqb (decision.Action d) "open_long");
    apply andb_true_iff in Hentry; destruct Hentry as [H1 H2];
    apply Qgtb_gt in H1; apply Qltb_lt in H2; split; assumption.
Qed.

Lemma X24_witness :
  (0 < decision.Leverage examples_open.openLong <= 10)%Z.
Proof.
  refine (proj1 (X24_validation_accepts_only_bounded_opens examples_open.openLong
                   10000 10 5 (fun _ => Some 60000%Q) _ _)).
  - vm_compute. reflexivity.
  - vm_compute. reflexivity.
Defined.

(** X25.  Validation of the other actions: an action that is none of the
    eight known ones is rejected; close_long, close_short, hold and wait are
    always accepted, whatever their other fields; update_tp is accepted
    exactly when it carries a positive take-profit and a symbol, update_sl
    exactly when it carries a positive stop-loss and a symbol -- neither
    needs the market price or looks at the account. *)
Theorem X25_validation_of_the_other_actions
    (d : decision.Decision) (accountEquity : Q) (btcEthLeverage altcoinLeverage : Z)
    (market : string -> option Q) :
  let r := decision.validateDecisionWithMarketData d accountEquity btcEthLeverage
             altcoinLeverage market in
  (decision.validAction (decision.Action d) = false -> r = Some decision.InvalidAction)
  /\ (decision.Action d = "close_long" \/ decision.Action d = "close_short"
      \/ decision.Action d = "hold" \/ decision.Action d = "wait" -> r = None)
  /\ (decision.Action d = "update_tp" ->
      (r = None <-> (0 < decision.TakeProfit d)%Q /\ decision.Symbol d <> ""))
  /\ (decision.Action d = "update_sl" ->
      (r = None <-> (0 < decision.StopLoss d)%Q /\ decision.Symbol d <> "")).
Proof.
  intros r. subst r. unfold decision.validateDecisionWithMarketData.
  split. { intros ->. reflexivity. }
  split. { intros [H|[H|[H|H]]]; rewrite H; reflexivity. }
  split.
  { intros H. rewrite H. simpl.
    destruct (Qleb (decision.TakeProfit d) 0) eqn:E.
    - apply Qleb_le in E. split; [discriminate | intros [Hp _]; lra].
    - apply Qleb_gt in E. destruct (String.eqb (decision.Symbol d) "") eqn:Es.
      + apply String.eqb_eq in Es. split; [discriminate | intros [_ Hn]; contradiction].
      + apply String.eqb_neq in Es. split; [intros _; split; assumption | reflexivity]. }
  { intros H. rewrite H. simpl.
    destruct (Qleb (decision.StopLoss d) 0) eqn:E.
    - apply Qleb_le in E. split; [discriminate | intros [Hp _]; lra].
    - apply Qleb_gt in E. destruct (String.eqb (decision.Symbol d) "") eqn:Es.
      + apply String.eqb_eq in Es. split; [discriminate | intros [_ Hn]; contradiction].
      + apply String.eqb_neq in Es. split; [intros _; split; assumption | reflexivity]. }
Qed.

Lemma validateFrom_spec (accountEquity : Q) (btcEthLeverage altcoinLeverage : Z)
    (market : nat -> string -> option Q) (ds : list decision.Decision) :
  forall i,
    match decision.validateFrom i ds accountEquity btcEthLeverage altcoinLeverage market with
    | None =>
        forall j d, ds !! j = Some d ->
          decision.validateDecisionWithMarketData d accountEquity btcEthLeverage
            altcoinLeverage (market (i + j)%nat) = None
    | Some (n, e) =>
        exists j d,
          n = S (i + j) /\ ds !! j = Some d
          /\ decision.validateDecisionWithMarketData d accountEquity btcEthLeverage
               altcoinLeverage (market (i + j)%nat) = Some e
          /\ forall j' d', (j' < j)%nat -> ds !! j' = Some d' ->
               decision.validateDecisionWithMarketData d' accountEquity btcEthLeverage
                 altcoinLeverage (market (i + j')%nat) = None
    end.
Proof.
  induction ds as [|d ds IH]; intros i; simpl.
  - intros j d H. discriminate H.
  - destruct (decision.validateDecisionWithMarketData d _ _ _ (market i)) as [e|] eqn:E.
    + exists 0%nat, d. rewrite Nat.add_0_r. split_all; auto. intros j' d' Hlt. lia.
    + specialize (IH (S i)).
      destruct (decision.validateFrom (S i) ds _ _ _ market) as [[n e]|].
      * destruct IH as (j & d0 & Hn & Hj & He & Hbefore).
        exists (S j), d0. replace (i + S j)%nat with (S i + j)%nat by lia.
        split_all; auto. intros [|j'] d' Hlt Hd'; simpl in Hd'.
        -- inversion Hd'. subst d'. rewrite Nat.add_0_r. exact E.
        -- replace (i + S j')%nat with (S i + j')%nat by lia.
           apply Hbefore; [lia | exact Hd'].
      * intros [|j] d0 Hd0; simpl in Hd0.
        -- inversion Hd0. subst d0. rewrite Nat.add_0_r. exact E.
        -- replace (i + S j)%nat with (S i + j)%nat by lia. apply IH. exact Hd0.
Qed.

(** X26.  [validateDecisionsWithMarketData] stops at the first decision that
    fails: it returns nil exactly when every decision of the list passes,
    and otherwise reports the number (counted from 1) and the error of the
    first failing decision, all the decisions before it having passed. *)
Theorem X26_validation_reports_the_first_failure
    (decisions : list decision.Decision) (accountEquity : Q)
    (btcEthLeverage altcoinLeverage : Z) (market : nat -> string -> option Q) :
  let valid j d :=
    decision.validateDecisionWithMarketData d accountEquity btcEthLeverage
      altcoinLeverage (market j) in
  let r := decision.validateDecisionsWithMarketData decisions accountEquity
             btcEthLeverage altcoinLeverage market in
  (r = None <-> forall j d, decisions !! j = Some d -> valid j d = None)
  /\ (forall n e, r = Some (n, e) ->
        exists j d, n = S j /\ decisions !! j = Some d /\ valid j d = Some e
                    /\ forall j' d', (j' < j)%nat -> decisions !! j' = Some d' ->
                                     valid j' d' = None).
Proof.
  intros valid r.
  pose proof (validateFrom_spec accountEquity btcEthLeverage altcoinLeverage market
                decisions 0) as H.
  unfold decision.validateDecisionsWithMarketData in r. fold r in H.
  destruct r as [[n e]|].
  - destruct H as (j & d & Hn & Hj & He & Hbefore). simpl in *. split.
    + split; [discriminate|]. intros Hall. specialize (Hall j d Hj).
      unfold valid in Hall. congruence.
    + intros n' e' Heq. inversion Heq. subst n' e'. exists j, d. split_all; auto.
  - split.
    + split; [intros _; exact H | reflexivity].
    + intros n e Heq. discriminate Heq.
Qed.
(** ** findMatchingBracket *)

Lemma bracketDepth_firstn_S (c : ascii) (rest : list ascii) (k : nat) :
  bracketDepth (firstn (S k) (c :: rest))
  = ((if Ascii.eqb c "["%char then 1
      else if Ascii.eqb c "]"%char then -1 else 0) + bracketDepth (firstn k rest))%Z.
Proof. reflexivity. Qed.

Ltac depth_step :=
  rewrite bracketDepth_firstn_S;
  repeat match goal with E : Ascii.eqb _ _ = _ |- _ => rewrite E end;
  try change (Ascii.eqb "["%char "["%char) with true;
  repeat match goal with
         | |- context [firstn 0 ?l] => change (firstn 0 l) with (@nil ascii)
         end;
  try change (bracketDepth []) with 0%Z.

Lemma scanBrackets_spec (rest : list ascii) :
  forall (i : nat) (depth : Z), (1 <= depth)%Z ->
    match decision.scanBrackets rest i depth with
    | Some e =>
        exists k, e = (i + k)%nat /\ nth_error rest k = Some "]"%char
          /\ (depth + bracketDepth (firstn (S k) rest) = 0)%Z
          /\ forall k', (k' < k)%nat ->
               (0 < depth + bracketDepth (firstn (S k') rest))%Z
    | None =>
        forall k, (k < length rest)%nat ->
          (0 < depth + bracketDepth (firstn (S k) rest))%Z
    end.
Proof.
  induction rest as [|c rest IH]; intros i depth Hd; cbn [decision.scanBrackets].
  { intros k Hk. simpl in Hk. lia. }
  destruct (Ascii.eqb c "[") eqn:Eo.
  { specialize (IH (S i) (depth + 1)%Z ltac:(lia)).
    destruct (decision.scanBrackets rest (S i) (depth + 1)) as [e|].
    - destruct IH as (k & He & Hc & Hz & Hbefore). exists (S k).
      split; [lia|]. split; [exact Hc|].
      split; [depth_step; lia|].
      intros [|k'] Hlt.
      + depth_step. lia.
      + depth_step. specialize (Hbefore k' ltac:(lia)). lia.
    - intros [|k] Hk; simpl in Hk.
      + depth_step. lia.
      + depth_step. specialize (IH k ltac:(lia)). lia. }
  destruct (Ascii.eqb c "]") eqn:Ec.
  { destruct (Z.eqb (depth - 1) 0) eqn:Ez.
    - apply Z.eqb_eq in Ez. exists 0%nat. split; [lia|].
      split; [simpl; apply Ascii.eqb_eq in Ec; congruence|].
      split; [depth_step; lia|]. intros k' Hk'. lia.
    - apply Z.eqb_neq in Ez. specialize (IH (S i) (depth - 1)%Z ltac:(lia)).
      destruct (decision.scanBrackets rest (S i) (depth - 1)) as [e|].
      + destruct IH as (k & He & Hc & Hz & Hbefore). exists (S k).
        split; [lia|]. split; [exact Hc|].
        split; [depth_step; lia|].
        intros [|k'] Hlt.
        * depth_step. lia.
        * depth_step. specialize (Hbefore k' ltac:(lia)). lia.
      + intros [|k] Hk; simpl in Hk.
        * depth_step. lia.
        * depth_step. specialize (IH k ltac:(lia)). lia. }
  specialize (IH (S i) depth Hd).
  destruct (decision.scanBrackets rest (S i) depth) as [e|].
  - destruct IH as (k & He & Hc & Hz & Hbefore). exists (S k).
    split; [lia|]. split; [exact Hc|].
    split; [depth_step; lia|].
    intros [|k'] Hlt.
    + depth_step. lia.
    + depth_step. specialize (Hbefore k' ltac:(lia)). lia.
  - intros [|k] Hk; simpl in Hk.
    + depth_step. lia.
    + depth_step. specialize (IH k ltac:(lia)). lia.
Qed.

Lemma skipn_nth_error {A} (s : list A) (start : nat) (c : A) :
  nth_error s start = Some c ->
  exists rest, skipn start s = c :: rest
               /\ (forall k, nth_error rest k = nth_error s (S start + k))
               /\ length s = (S start + length rest)%nat.
Proof.
  revert s. induction start as [|n IH]; intros [|x s] H; simpl in H; try discriminate.
  - inversion H. subst x. exists s. simpl. auto.
  - destruct (IH s H) as (rest & H1 & H2 & H3). exists rest. simpl.
    split; [exact H1|]. split; [exact H2 | lia].
Qed.

(** X27.  [findMatchingBracket s start] finds the bracket that closes the
    one at [start]: when it returns an index e, the byte at [start] is an
    opening bracket, the byte at e is a closing bracket after it, the
    brackets of s[start..e] are balanced, and no shorter s[start..j] is; it
    returns -1 only when [start] is outside the string, the byte at [start]
    is not an opening bracket, or the bracket is never closed.  Brackets
    inside JSON strings are counted like the others. *)
Theorem X27_findMatchingBracket_first_balanced_prefix (s : list ascii) (start : nat) :
  (forall e, decision.findMatchingBracket s start = Some e ->
     nth_error s start = Some "["%char /\ nth_error s e = Some "]"%char
     /\ (start < e < length s)%nat
     /\ bracketDepth (slice s start e) = 0%Z
     /\ forall j, (start <= j < e)%nat -> (0 < bracketDepth (slice s start j))%Z)
  /\ (decision.findMatchingBracket s start = None ->
      nth_error s start <> Some "["%char
      \/ forall j, (start <= j < length s)%nat -> (0 < bracketDepth (slice s start j))%Z).
Proof.
  unfold decision.findMatchingBracket, slice.
  destruct (nth_error s start) as [c|] eqn:Hc.
  2:{ split; [intros e H; discriminate H | intros _; left; intros H; discriminate H]. }
  destruct (Ascii.eqb c "[") eqn:Eo.
  2:{ split; [intros e H; discriminate H|]. intros _. left. intros H. inversion H.
      subst c. discriminate Eo. }
  apply Ascii.eqb_eq in Eo. subst c.
  destruct (skipn_nth_error s start _ Hc) as (rest & Hskip & Hnth & Hlen).
  rewrite Hskip. simpl decision.scanBrackets.
  pose proof (scanBrackets_spec rest (S start) 1 ltac:(lia)) as Hspec.
  replace (0 + 1)%Z with 1%Z by lia.
  destruct (decision.scanBrackets rest (S start) 1) as [e0|].
  - destruct Hspec as (k & He & Hck & Hz & Hbefore). split; [|intros H; discriminate H].
    intros e H. inversion H. subst e e0. clear H.
    split; [reflexivity|]. split; [rewrite <- Hnth; exact Hck|].
    assert (Hk : (k < length rest)%nat) by (apply nth_error_Some; congruence).
    split; [lia|].
    split.
    + replace (S (S start + k) - start)%nat with (S (S k)) by lia.
      depth_step. lia.
    + intros j Hj. destruct (Nat.eq_dec j start) as [->|Hne].
      * replace (S start - start)%nat with 1%nat by lia. depth_step. lia.
      * replace (S j - start)%nat with (S (S (j - S start))) by lia.
        depth_step. specialize (Hbefore (j - S start)%nat ltac:(lia)). lia.
  - split; [intros e H; discriminate H|]. intros _. right.
    intros j Hj. destruct (Nat.eq_dec j start) as [->|Hne].
    + replace (S start - start)%nat with 1%nat by lia. depth_step. lia.
    + replace (S j - start)%nat with (S (S (j - S start))) by lia.
      depth_step. specialize (Hspec (j - S start)%nat ltac:(lia)). lia.
Qed.
(** ** getEntryInfoFromHistory, getLatestClosePrice *)

Lemma GetLatestTrades_sorted_closed (tbl : storage.table) (n : nat) :
  let l := storage.GetLatestTrades tbl n in
  (forall r, In r l -> In r tbl /\ storage.isClosed r = true)
  /\ StronglySorted (fun x y => newestFirst y x) l.
Proof.
  intros l. subst l. unfold storage.GetLatestTrades. rewrite scanTrades_filter.
  set (closed := List.filter storage.isClosed tbl).
  destruct (sortDesc_spec closed) as [Hp Hs].
  set (S := fold_right storage.insertDesc [] closed) in *.
  split.
  - intros r Hr. apply in_rev in Hr. apply filter_In in Hr. destruct Hr as [Hr _].
    assert (HrS : In r S)
      by (rewrite <- (firstn_skipn n S); apply in_or_app; left; exact Hr).
    apply (Permutation_in _ Hp) in HrS. apply filter_In in HrS. exact HrS.
  - apply (StronglySorted_rev newestFirst). apply filter_sorted.
    rewrite <- (firstn_skipn n S) in Hs. apply StronglySorted_app_inv in Hs. apply Hs.
Qed.

Lemma find_first_sorted {A} (R : A -> A -> Prop) (f : A -> bool) (l : list A) (x : A) :
  StronglySorted R l -> List.find f l = Some x ->
  In x l /\ f x = true /\ forall y, In y l -> f y = true -> y = x \/ R x y.
Proof.
  induction l as [|a l IH]; intros Hs Hf; simpl in Hf; [discriminate|].
  inversion Hs as [|? ? Hs' Hall]; subst.
  destruct (f a) eqn:E.
  - inversion Hf. subst a. split; [left; reflexivity|]. split; [exact E|].
    intros y [<-|Hy] _; [left; reflexivity|]. right.
    rewrite List.Forall_forall in Hall. apply Hall. exact Hy.
  - destruct (IH Hs' Hf) as (H1 & H2 & H3). split; [right; exact H1|].
    split; [exact H2|]. intros y [<-|Hy] Hfy; [congruence|]. apply H3; assumption.
Qed.

(** X28.  [getEntryInfoFromHistory] reads closed trades only.  When it
    returns the open price, quantity and leverage of a trade, that trade is a
    closed row of the symbol and side among the 100 latest closed rows, and
    of those it is the one that was closed first; it returns three zeros
    exactly when none of these rows has the symbol and side -- in particular
    whenever the position's own row is still open. *)
Theorem X28_getEntryInfoFromHistory_reads_closed_trades
    (a : trader.AutoTrader) (sym sd : string) :
  let latest := storage.GetLatestTrades (trader.trades a) 100 in
  let matches t := storage.Symbol t = sym /\ storage.Side t = sd in
  ((exists t,
      In t latest /\ In t (trader.trades a) /\ storage.isClosed t = true /\ matches t
      /\ trader.getEntryInfoFromHistory a sym sd
         = (storage.OpenPrice t, storage.OpenQuantity t, storage.OpenLeverage t)
      /\ forall t', In t' latest -> matches t' ->
           (storage.closeTimeOf t <= storage.closeTimeOf t')%Z)
   \/ (trader.getEntryInfoFromHistory a sym sd = (0%Q, 0%Q, 0%Z)
       /\ forall t, In t latest -> ~ matches t))
  /\ ((forall t, In t (trader.trades a) -> matches t -> storage.isClosed t = false) ->
      trader.getEntryInfoFromHistory a sym sd = (0%Q, 0%Q, 0%Z)).
Proof.
  intros latest matches.
  destruct (GetLatestTrades_sorted_closed (trader.trades a) 100) as [Hin Hs].
  fold latest in Hin, Hs.
  assert (Hm : forall t,
             String.eqb (storage.Symbol t) sym && String.eqb (storage.Side t) sd = true
             <-> matches t).
  { intros t. unfold matches. rewrite andb_true_iff, !String.eqb_eq. reflexivity. }
  assert (Hmain :
    (exists t,
      In t latest /\ In t (trader.trades a) /\ storage.isClosed t = true /\ matches t
      /\ trader.getEntryInfoFromHistory a sym sd
         = (storage.OpenPrice t, storage.OpenQuantity t, storage.OpenLeverage t)
      /\ forall t', In t' latest -> matches t' ->
           (storage.closeTimeOf t <= storage.closeTimeOf t')%Z)
    \/ (trader.getEntryInfoFromHistory a sym sd = (0%Q, 0%Q, 0%Z)
        /\ forall t, In t latest -> ~ matches t)).
  { unfold trader.getEntryInfoFromHistory. fold latest.
    destruct (List.find _ latest) as [t|] eqn:Hf.
    - left. exists t.
      destruct (find_first_sorted _ _ _ _ Hs Hf) as (H1 & H2 & H3).
      destruct (Hin t H1) as [H4 H5]. apply Hm in H2.
      split_all; auto.
      intros t' Ht' Hmt'. apply Hm in Hmt'.
      destruct (H3 t' Ht' Hmt') as [->|HR]; [lia | exact HR].
    - right. split; [reflexivity|]. intros t Ht Hmt. apply Hm in Hmt.
      pose proof (find_none _ _ Hf t Ht) as Hn. simpl in Hn. congruence. }
  split; [exact Hmain|].
  intros Hopen. destruct Hmain as [(t & _ & H1 & H2 & H3 & _)|[H _]]; [|exact H].
  specialize (Hopen t H1 H3). congruence.
Qed.

Lemma latestOf_fold (cts : list (Q * Z)) :
  forall init : Q * Z,
    let best := fold_left (fun latest ct => if (snd latest <? snd ct)%Z then ct else latest)
                          cts init in
    (best = init /\ forall ct, In ct cts -> (snd ct <= snd init)%Z)
    \/ (In best cts /\ (snd init < snd best)%Z
        /\ forall ct, In ct cts -> (snd ct <= snd best)%Z).
Proof.
  induction cts as [|c cts IH]; intros init; simpl.
  - left. split; [reflexivity | intros ct []].
  - destruct (snd init <? snd c)%Z eqn:E.
    + apply Z.ltb_lt in E. right.
      destruct (IH c) as [[-> Hall]|(Hin & Hlt & Hall)].
      * split; [left; reflexivity|]. split; [exact E|].
        intros ct [<-|Hct]; [lia | apply Hall; exact Hct].
      * split; [right; exact Hin|]. split; [lia|].
        intros ct [<-|Hct]; [lia | apply Hall; exact Hct].
    + apply Z.ltb_ge in E.
      destruct (IH init) as [[-> Hall]|(Hin & Hlt & Hall)].
      * left. split; [reflexivity|]. intros ct [<-|Hct]; [exact E | apply Hall; exact Hct].
      * right. split; [right; exact Hin|]. split; [exact Hlt|].
        intros ct [<-|Hct]; [lia | apply Hall; exact Hct].
Qed.

(** X29.  [getLatestClosePrice] returns the price of the latest closing
    fill: the candidates are the fills of the symbol that close the side (a
    SELL for a long, a BUY for a short, with a realized profit that is not
    zero) and carry a price and a time; the call fails when the exchange
    gives no fills or there is no candidate; otherwise it returns the price
    of a candidate whose timestamp is positive and the greatest of all --
    or 0 when no candidate has a positive timestamp. *)
Theorem X29_getLatestClosePrice_latest_closing_fill
    (accountTrades : option (list trader.Fill)) (sym sd : string) :
  let r := trader.getLatestClosePrice accountTrades sym sd in
  (accountTrades = None -> r = None)
  /\ (forall fills, accountTrades = Some fills ->
        let cts := trader.closingTrades sym sd fills in
        (forall p t, In (p, t) cts <->
           exists f timeMs,
             In f fills /\ trader.fSymbol f = Some sym
             /\ trader.isClosingFill sd f = true
             /\ trader.fPrice f = Some p /\ trader.fTime f = Some timeMs
             /\ t = trader.truncQ timeMs)
        /\ (r = None <-> cts = [])
        /\ (forall p, r = Some p ->
              (exists t, In (p, t) cts /\ (0 < t)%Z
                         /\ forall ct, In ct cts -> (snd ct <= t)%Z)
              \/ (p = 0%Q /\ forall ct, In ct cts -> (snd ct <= 0)%Z))).
Proof.
  intros r. split; [intros ->; reflexivity|].
  intros fills -> cts. subst r. unfold trader.getLatestClosePrice. fold cts.
  split.
  { intros p t. subst cts. unfold trader.closingTrades.
    rewrite <- list_elem_of_In, list_elem_of_omap. split.
    - intros (f & Hf & H). apply list_elem_of_In in Hf.
      destruct (trader.fSymbol f) as [s|] eqn:Es; [|discriminate].
      destruct (String.eqb s sym && trader.isClosingFill sd f) eqn:E; [|discriminate].
      apply andb_true_iff in E. destruct E as [E1 E2]. apply String.eqb_eq in E1. subst s.
      destruct (trader.fPrice f) as [price|] eqn:Ep; [|discriminate].
      destruct (trader.fTime f) as [timeMs|] eqn:Et; [|discriminate].
      inversion H. subst. exists f, timeMs. split_all; auto.
    - intros (f & timeMs & Hf & Hs & Hc & Hp & Ht & ->). exists f.
      split; [apply list_elem_of_In; exact Hf|].
      rewrite Hs, String.eqb_refl, Hc, Hp, Ht. reflexivity. }
  split.
  { destruct cts; split; intros H; try reflexivity; discriminate H. }
  intros p Hp.
  assert (Hp' : p = fst (trader.latestOf cts)).
  { destruct cts; [discriminate|]. inversion Hp. reflexivity. }
  unfold trader.latestOf in Hp'.
  destruct (latestOf_fold cts (0%Q, 0%Z)) as [[Hb Hall]|(Hin & Hlt & Hall)].
  - right. rewrite Hb in Hp'. simpl in *. split; [exact Hp' | exact Hall].
  - left. simpl in Hlt.
    destruct (fold_left _ cts (0%Q, 0%Z)) as [bp bt]. simpl in *. subst p.
    exists bt. split_all; auto.
Qed.
(** ** The trade table only grows *)

Lemma extendsTable_refl (t : storage.table) : extendsTable t t.
Proof. split; [exists []; symmetry; apply app_nil_r | auto]. Qed.

Lemma extendsTable_trans (t1 t2 t3 : storage.table) :
  extendsTable t1 t2 -> extendsTable t2 t3 -> extendsTable t1 t3.
Proof.
  intros [[r1 ->] U1] [[r2 ->] U2]. split; [|auto].
  exists (r1 ++ r2). symmetry. apply app_assoc.
Qed.

Lemma appendsAtMost_extends (sym sd : string) (ca : logger.DecisionAction)
    (old new : storage.table) :
  appendsAtMost sym sd ca old new -> (uniqueKeys old -> uniqueKeys new) ->
  extendsTable old new.
Proof.
  intros H U. split; [|exact U].
  destruct (appendsAtMost_rows _ _ _ _ _ H) as (rows & -> & _). exists rows. reflexivity.
Qed.

Lemma recordTradeHistoryFromPosition_extends (a : trader.AutoTrader)
    (env : trader.RecorderEnv) (sd sym : string) (ca : logger.DecisionAction)
    (f : bool) (fr : string) :
  extendsTable (trader.trades a)
    (trader.trades (trader.recordTradeHistoryFromPosition a env sd sym ca f fr)).
Proof.
  pose proof (recordTradeHistoryFromPosition_unique a env sd sym ca f fr) as U.
  destruct (recordTradeHistoryFromPosition_shape a env sd sym ca f fr) as (tbl & E & H).
  rewrite E in *. simpl in *. eapply appendsAtMost_extends; eassumption.
Qed.

Lemma recordTradeHistory_extends (a : trader.AutoTrader) (env : trader.RecorderEnv)
    (sd : string) (dec : decision.Decision) (ca : logger.DecisionAction)
    (f : bool) (fr : string) :
  extendsTable (trader.trades a)
    (trader.trades (trader.recordTradeHistory a env sd dec ca f fr)).
Proof.
  pose proof (recordTradeHistory_unique a env sd dec ca f fr) as U.
  destruct (recordTradeHistory_shape a env sd dec ca f fr) as (tbl & E & H).
  rewrite E in *. simpl in *. eapply appendsAtMost_extends; eassumption.
Qed.

Lemma passRegistry_trades (a a1 : trader.AutoTrader) (key : string) (now : Z) :
  trader.passRegistry a key now = Some a1 -> trader.trades a1 = trader.trades a.
Proof. intros H. apply passRegistry_frame in H. apply H. Qed.

Lemma forceClosePosition_extends (a : trader.AutoTrader) (env : trader.ForceCloseEnv)
    (sym sd reason : string) :
  extendsTable (trader.trades a)
    (trader.trades (snd (trader.forceClosePosition a env sym sd reason))).
Proof.
  unfold trader.forceClosePosition.
  destruct (trader.passRegistry a _ _) as [a1|] eqn:E1; [|apply extendsTable_refl].
  apply passRegistry_trades in E1. rewrite <- E1.
  unfold trader.forceCloseLocked.
  destruct (trader.passRegistry (trader.getOrCreateClosingLock a1 _) _ _) as [a2|] eqn:E2;
    [|apply extendsTable_refl].
  apply passRegistry_trades in E2. simpl in E2. rewrite <- E2.
  destruct (trader.fcMarket env) as [price|]; [|apply extendsTable_refl].
  destruct (trader.fcOrder env) as [oid|]; [|apply extendsTable_refl].
  simpl. unfold trader.recordTradeHistoryFromAction.
  match goal with
  | |- extendsTable _ (trader.trades (trader.recordTradeHistoryFromPosition ?s ?e ?d ?y ?c ?f ?fr)) =>
      apply (recordTradeHistoryFromPosition_extends s e d y c f fr)
  end.
Qed.

Lemma forceCloseAllPositions_extends (env : string -> trader.ForceCloseEnv)
    (reason : string) (ps : list decision.PositionInfo) :
  forall a, extendsTable (trader.trades a)
              (trader.trades (snd (trader.forceCloseAllPositions a env reason ps))).
Proof.
  induction ps as [|p ps IH]; intros a; simpl; [apply extendsTable_refl|].
  pose proof (forceClosePosition_extends a
                (env (trader.posKey (decision.PSymbol p) (decision.PSide p)))
                (decision.PSymbol p) (decision.PSide p) reason) as H.
  destruct (trader.forceClosePosition a _ _ _ reason) as [[rec err] a1]. simpl in H.
  destruct err as [e|].
  - eapply extendsTable_trans; [exact H | apply IH].
  - match goal with
    | |- context [trader.forceCloseAllPositions ?s env reason ps] => specialize (IH s)
    end.
    destruct (trader.forceCloseAllPositions _ env reason ps) as [acts a3].
    simpl in *. eapply extendsTable_trans; [exact H | exact IH].
Qed.

Lemma watchdogLoop_extends (env : string -> trader.ForceCloseEnv)
    (ps : list trader.Position) :
  forall a, extendsTable (trader.trades a) (trader.trades (snd (trader.watchdogLoop a env ps))).
Proof.
  induction ps as [|p ps IH]; intros a; simpl; [apply extendsTable_refl|].
  destruct (trader.watchdogTrigger (trader.config a) p) as [t|]; [|apply IH].
  pose proof (forceClosePosition_extends a
                (env (trader.posKey (trader.symbol p) (trader.side p)))
                (trader.symbol p) (trader.side p) (trader.triggerReason t)) as H.
  destruct (trader.forceClosePosition a _ _ _ _) as [[rec err] a1]. simpl in H.
  match goal with
  | |- context [trader.watchdogLoop ?s env ps] => specialize (IH s)
  end.
  destruct (trader.watchdogLoop _ env ps) as [acts a3]. simpl in *.
  eapply extendsTable_trans; [exact H|]. destruct err; exact IH.
Qed.

Lemma checkAndExecuteForcedStopLoss_extends (a : trader.AutoTrader)
    (env : trader.RiskEnv) (ctx : decision.Context) :
  extendsTable (trader.trades a)
    (trader.trades (snd (trader.checkAndExecuteForcedStopLoss a env ctx))).
Proof.
  unfold trader.checkAndExecuteForcedStopLoss.
  destruct (trader.accountHalt _ _) as [h|]; [|apply extendsTable_refl].
  match goal with
  | |- context [trader.forceCloseAllPositions ?s ?e ?r ?ps] =>
      apply (forceCloseAllPositions_extends e r ps s)
  end.
Qed.

Lemma fold_setFirstSeen_trades (f : logger.DecisionAction -> string)
    (acts : list logger.DecisionAction) :
  forall s,
    trader.trades
      (fold_left (fun s act =>
                    trader.setFirstSeen s (delete (f act) (trader.positionFirstSeenTime s)))
                 acts s)
    = trader.trades s.
Proof.
  induction acts as [|x acts IH]; intros s; simpl; [reflexivity|]. rewrite IH. reflexivity.
Qed.

Lemma runCycle_extends (a : trader.AutoTrader) (env : trader.CycleEnv) :
  extendsTable (trader.trades a) (trader.trades (snd (trader.runCycle a env))).
Proof.
  unfold trader.runCycle.
  pose proof (buildTradingContext_frame (trader.setCallCount a (trader.callCount a + 1))
                (trader.cyContext env)) as Hb.
  assert (Ht : trader.trades
                 (snd (trader.buildTradingContext
                         (trader.setCallCount a (trader.callCount a + 1))
                         (trader.cyContext env))) = trader.trades a)
    by (rewrite Hb; reflexivity).
  clear Hb.
  destruct (_ && _); [simpl snd; rewrite Ht; apply extendsTable_refl|].
  destruct (trader.buildTradingContext _ (trader.cyContext env)) as [[ctx|] ab];
    simpl in Ht;
    [|destruct (_ <? _)%Z; simpl; rewrite Ht; apply extendsTable_refl].
  match goal with
  | |- context [trader.checkAndExecuteForcedStopLoss ?s ?e ?c] =>
      pose proof (checkAndExecuteForcedStopLoss_extends s e c) as H;
      destruct (trader.checkAndExecuteForcedStopLoss s e c) as [forced a3]
  end.
  simpl snd. rewrite fold_setFirstSeen_trades.
  simpl in H. destruct (_ <? _)%Z; simpl in H; rewrite Ht in H; exact H.
Qed.

Lemma executeDecisionWithRecord_extends (a : trader.AutoTrader) (env : trader.ExecEnv)
    (dec : decision.Decision) (rec : logger.DecisionAction) :
  extendsTable (trader.trades a)
    (trader.trades (snd (trader.executeDecisionWithRecord a env dec rec))).
Proof.
  destruct (executeDecisionWithRecord_frame a env dec rec)
    as (_ & _ & _ & (rows & Hrows & Hlen) & _).
  split; [exists rows; exact Hrows|].
  unfold isCloseDecision in Hlen.
  assert (Hclose : forall sd,
             uniqueKeys (trader.trades a) ->
             uniqueKeys (trader.trades
               (snd (trader.executeCloseWithRecord sd a (trader.exClose env) dec rec)))).
  { intros sd U. unfold trader.executeCloseWithRecord.
    destruct (trader.forcedClosedPositions a !! _); [exact U|].
    destruct (trader.ceMarket (trader.exClose env)) as [price|]; [|exact U].
    destruct (trader.ceOrder (trader.exClose env)) as [oid|]; [|exact U].
    simpl. apply recordTradeHistory_unique. exact U. }
  revert Hrows Hlen. unfold trader.executeDecisionWithRecord.
  destruct (String.eqb (decision.Action dec) "open_long") eqn:E1.
  { apply String.eqb_eq in E1. rewrite E1. simpl. intros Hrows Hlen U.
    destruct rows; [|simpl in Hlen; lia]. rewrite Hrows, app_nil_r. exact U. }
  destruct (String.eqb (decision.Action dec) "open_short") eqn:E2.
  { apply String.eqb_eq in E2. rewrite E2. simpl. intros Hrows Hlen U.
    destruct rows; [|simpl in Hlen; lia]. rewrite Hrows, app_nil_r. exact U. }
  destruct (String.eqb (decision.Action dec) "close_long") eqn:E3.
  { intros _ _. apply Hclose. }
  destruct (String.eqb (decision.Action dec) "close_short") eqn:E4.
  { intros _ _. apply Hclose. }
  simpl. intros Hrows Hlen U.
  destruct rows; [|simpl in Hlen; lia]. rewrite Hrows, app_nil_r. exact U.
Qed.

Lemma executeDecisions_extends (env : nat -> trader.ExecEnv) (ds : list decision.Decision) :
  forall a i, extendsTable (trader.trades a)
                (trader.trades (snd (trader.executeDecisions a env i ds))).
Proof.
  induction ds as [|d ds IH]; intros a i; simpl; [apply extendsTable_refl|].
  destruct (trader.passRegistry a _ _) as [a1|] eqn:E; [|apply IH].
  apply passRegistry_trades in E. rewrite <- E.
  pose proof (executeDecisionWithRecord_extends a1 (env i) d
                (trader.pendingAction d (trader.exStamp (env i)))) as H.
  destruct (trader.executeDecisionWithRecord a1 (env i) d _) as [[err rec1] a2].
  specialize (IH a2 (S i)).
  destruct (trader.executeDecisions a2 env (S i) ds) as [recs a3]. simpl in *.
  eapply extendsTable_trans; eassumption.
Qed.

Lemma fold_LogTrade_unique (rows : list storage.TradeRecord) :
  forall tbl, uniqueKeys tbl ->
    uniqueKeys (fold_left (fun t r => snd (storage.LogTrade t r)) rows tbl).
Proof.
  induction rows as [|x rows IH]; intros tbl U; simpl; [exact U|].
  apply IH. apply LogTrade_unique. exact U.
Qed.

(** X30.  No path of the trader removes or rewrites a row of the trade
    table: after a forced close, a halt of the account check, a run of the
    watchdog, the first part of a cycle, the execution loop or the
    reconciler, the table is the old one followed by zero or more new rows,
    and if (symbol, open_time) was a key before, it still is. *)
Theorem X30_trade_table_is_append_only (a : trader.AutoTrader) :
  (forall env sym sd reason,
     extendsTable (trader.trades a)
       (trader.trades (snd (trader.forceClosePosition a env sym sd reason))))
  /\ (forall env ctx,
        extendsTable (trader.trades a)
          (trader.trades (snd (trader.checkAndExecuteForcedStopLoss a env ctx))))
  /\ (forall positions env,
        extendsTable (trader.trades a)
          (trader.trades (snd (trader.checkPositionStopLossOnly a positions env))))
  /\ (forall env,
        extendsTable (trader.trades a) (trader.trades (snd (trader.runCycle a env))))
  /\ (forall env i ds,
        extendsTable (trader.trades a)
          (trader.trades (snd (trader.executeDecisions a env i ds))))
  /\ (forall env,
        extendsTable (trader.trades a)
          (trader.trades (trader.SyncManualTradesFromExchange a env))).
Proof.
  split; [intros; apply forceClosePosition_extends|].
  split; [intros; apply checkAndExecuteForcedStopLoss_extends|].
  split.
  { intros positions env. unfold trader.checkPositionStopLossOnly.
    destruct (negb _); [apply extendsTable_refl|].
    destruct positions as [ps|]; [apply watchdogLoop_extends | apply extendsTable_refl]. }
  split; [intros; apply runCycle_extends|].
  split; [intros; apply executeDecisions_extends|].
  intros env. unfold trader.SyncManualTradesFromExchange. simpl. split.
  - destruct (fold_LogTrade_appends (trader.missingTrades a env) (trader.trades a))
      as (added & H & _). exists added. exact H.
  - apply fold_LogTrade_unique.
Qed.
